(* ===== verification/_CoqProject ===== *)
-Q . S2P
Prelude.v
Values.v
Base64.v
Misc.v
ExpandEnv.v
Paths.v
LoadConfig.v
Proto.v
K8s.v
HttpClient.v
Protector.v
Identity.v
Provider.v
Merger.v
Ucrd.v
Ldap.v
AuditTrail.v
HttpProvider.v
OidcClient.v
Storage.v
StoreLocks.v
ClientController.v
Upstreams.v
UpstreamController.v
SsoStore.v
Session.v
Url.v
Json.v
Float64.v
Rfc3339.v
Server.v
GoJson.v
LoginFlow.v
UpstreamFlow.v
Ropc.v
SigningKey.v
Endpoints.v
EndToEnd.v
Wire.v
Watches.v
HttpServer.v
CertWatcher.v
Webhooks.v
Routes.v
ServerRun.v
Cleaners.v
Startup.v
Modules.v
OidcCommand.v
DeepCopy.v
ApiCopies.v
Convergence.v
UpstreamConvergence.v
SessionCopy.v
DebugTransport.v
Commands.v
