(* ===== verification/Prelude.v ===== *)
(** * Kubauth: a verification development

    Kubauth is an OpenID Connect server for Kubernetes. Its OIDC server ([cmd/oidc]) signs users
    in and issues tokens; who a user is, it asks an identity service over HTTP. Identity services
    share one protocol ([internal/proto], [internal/handlers]): [cmd/ucrd] answers from User,
    Group and GroupBinding resources, [cmd/ldap] from an LDAP directory, [cmd/merger] by merging
    the answers of several services, and [cmd/audit] forwards to another one and records each
    login attempt. Registered clients, upstream providers and SSO sessions are custom resources.

    Every definition is a Rocq function that computes; Go errors are [result] values, nil pointers
    and maps are [option]s, panics are [None]. What is not in the repository (the OAuth library
    fosite, go-oidc, go-ldap, scs, controller-runtime) and cryptography and YAML are arguments or
    interfaces (type classes with the laws their documentation states), with an instance that shows
    the laws can be met. JSON coding is an argument of the components that use it, and a definition:
    [Json], [GoJson], [Float64] and [Rfc3339] are [encoding/json], and [Wire] puts them in.

    ** Files, in dependency order

    - [Prelude]: results, machine integers, strings, sorting, order-independent map loops, the hint
      database and tactics. [Values]: dynamic Go values and claim maps. [Base64]: raw base64url
      with its round trip. [Url]: query strings, escaping and their round trip. [Json]: JSON texts
      with UTF-8 cleaning, a reader and its round trip. [Float64]: JSON numbers as float64 values,
      with the shortest text of each. [Rfc3339]: times as texts, with the calendar. [GoJson]: how
      Go types are written to JSON and read back (nil, folded names, unknown fields, slices decoded
      over old memory).
    - [internal/misc]: [Misc] (misc.go, merge.go), [ExpandEnv] (expandenv.go), [Paths]
      (adjustpath.go), [LoadConfig] (loadconfig.go, logger.go). The expansion automaton computes a
      declarative expansion ([ExpandEnv_spec]); claim maps merge by one rule whatever order Go
      iterates in ([MergeMaps_spec], [MergeMaps_order_irrelevant]).
    - [internal/proto], [internal/httpclient], [internal/handlers]: [Proto] (the protocol and the
      [Authenticator] interface), [HttpClient], [Protector] (the brute-force protection, with the
      interleaving of failures, delays and cleaner as a step relation), [Identity] (the endpoint,
      proved against the [Authenticator] and [protector] interfaces).
    - [K8s]: answers of the Kubernetes API and the [ObjectStore] interface with its laws.
    - [cmd/merger]: [Provider] (one remote provider) and [Merger] (the merge loop, refined to a
      declarative merge, and what a [passwordChecked] answer means).
    - [cmd/ucrd]: [Ucrd]. [cmd/ldap]: [Ldap], a conversation with the directory as a trace, with a
      small Hoare logic for it. [cmd/audit]: [AuditTrail].
    - [cmd/oidc/authenticator]: [HttpProvider], the client of the identity service, behind the
      [OidcAuthenticator] interface.
    - [cmd/oidc/oidcstorage]: [OidcClient] (registered clients), [Storage] (every operation of the
      in-memory store, properties of all operation sequences), [StoreLocks] (which mutexes each
      method takes and which maps it touches).
    - [cmd/oidc/controllers]: [ClientController], [UpstreamController] (one reconciliation each).
      [cmd/oidc/upstreams]: [Upstreams]. [cmd/oidc/sessionstore] and [sessioncodec]: [SsoStore].
    - [cmd/oidc/fositepatch]: [Session] (sessions, granting of scopes and audience; claim maps live
      in a heap because the code shares them), [SessionCopy] (copies and parts created on demand),
      [Ropc] (the password grant).
    - [cmd/oidc/oidcserver]: [Server] (the state of a request and the monad of the handlers),
      [LoginFlow] (authorize, login, logout, index), [UpstreamFlow] (login through an upstream
      provider), [SigningKey] (the JWT key and its publication), [Endpoints] (token, user info,
      introspection, discovery), [Routes] (the router, [OIDCServer.Setup] and [compose2.go]),
      [ServerRun] (any sequence of requests through the router).
    - [EndToEnd]: the modules composed over their endpoints, from the login form to the services.
      [Wire]: the structs that are sent or kept as JSON ([proto.go], [upstreamhandlers.go],
      [jsoncodec.go], [oidcuser.go]), and the exchange with an endpoint down to the bytes.
    - [Convergence], [UpstreamConvergence]: the two controllers, each with its work queue in a
      changing cluster.
    - [api/kubauth/v1alpha1]: [DeepCopy] (memory and the statements of the generated code) and
      [ApiCopies] (the types and all their copying functions).
    - [cmd/oidc/webhooks] and [cmd/ucrd/webhooks]: [Webhooks]. [internal/httpsrv]: [HttpServer]
      (server, request logging, 404 and favicon), [CertWatcher] (renewal of certificates).
      [DebugTransport]: the dumping transport of [internal/httpclient].
      [Cleaners]: the loops of the two background cleaners next to the rest of their process.
    - Commands: [Startup] (default ports, API clients, a start-up as calls with exit codes, the
      servers of a manager), [Modules] ([merger], [ldap], [audit], [ucrd]), [OidcCommand]
      ([oidc.go]), [Commands] ([main.go], [root.go], [version.go]); [Watches] is what wakes the
      controllers ([oidc.go]).

    ** What is proved

    - Authentication is sound at every stage: a checked password in [Ucrd], [Ldap] and [Merger]
      means exactly what it should, the OIDC server authenticates only on it, and the login, the
      password grant and the upstream callback issue only for the user so established
      ([ucrd_passwordChecked_iff], [ldap_passwordChecked_sound], [passwordChecked_sound],
      [oidc_authenticated_iff], [login_sound], [ropc_granted_iff], [callback_sound]). Composed
      along the deployment, an answer to a login form goes back to a resource or a directory entry
      that accepted the password ([login_end_to_end]); over every history of requests, whatever is
      issued is for a login authenticated in this history ([issued_established]).
    - Flows go through and end: single sign-on across requests, logout, an upstream login from the
      redirection to the answer, no replay of callbacks, codes, refresh tokens and assertions.
    - State stays consistent: clients are not taken over and stay secured, status and registration
      agree, one refresh token per request, lock discipline, sessions round trip through their
      store, the signing key is stable over restarts. In every history of edits, deletions, failures
      and restarts the store holds exactly the clients the cluster asks for whenever the work queue
      is empty ([store_converges]), and the queue does empty ([controller_settles]). For the
      upstreams the same holds up to the names whose last run ended in error, which the controller
      leaves registered ([upstreams_converge], [upstreams_settle]).
    - What crosses a boundary arrives: the identity exchange over JSON texts is the exchange of the
      records ([exchange_over_json]), an unknown field is refused ([unknown_field_refused]), a
      session survives its encoding and its storage ([session_kept]), and a copy of an API object
      shares no memory with the original ([api_copies_separate]).
    - The process is put together as meant: invalid flags stop it before any call
      ([flags_checked_first]), a started server has what its flags say ([oidc_started],
      [modules_serve], [setup_consistent]), every request goes where the table says ([routing]),
      a changed secret reconciles the clients that use it ([secret_change_reconciled]), logging
      changes no answer ([logging_transparent]), a valid certificate is always served
      ([certificate_always_served]), audit records live as long as configured
      ([audit_retention]).
    - Locked logins are exactly the overloaded ones and always become free again.
    - Errors are values: the theorems state every branch, and several record what the code does
      where it should rather do something else (an upstream login ignores that the local user is
      disabled, an invalid upstream stays registered, and so on).

    ** Bounds and fuel

    Five loops are not structural: the PEM loop of [HttpClient], whose fuel exceeds the length of
    the input ([pem_loop_total]), the bytes of an integer in [SigningKey], whose fuel is its
    number of bits ([le_bytes_value]), the JSON reader, whose fuel exceeds the length of the text
    and whose nesting limit is the one of Go, 10000 ([parse_print]), the search for the decimal of a
    float64, which needs at most 17 digits and a point at most 324 places away (400 are allowed;
    [float64_int] gives its result for integers), and the polls of a shutdown in [HttpServer], whose
    fuel exceeds the grace period ([shutdown_without_grace] gives its result). Go integers are [Z];
    where a sum may overflow it is wrapped to 64 bits ([wrap64]). Times are nanoseconds. Strings are
    byte strings; case conversion and trimming follow ASCII.

    ** Assumptions

    The two convergence developments take reads of the cache as current and status updates as
    accepted, [Convergence] also client ids as unique; [lost_status_leaves_client] shows that status
    updates matter. [UpstreamConvergence] takes reads of secrets as answered and certificate
    authorities in use as fixed; [failed_read_not_retried] and [ca_change_unnoticed] show why. Between
    two requests the strings of a session are valid UTF-8 ([json_sval] in [Server]).

    ** Not modelled

    The registration of the API types in a scheme, log messages, debug dumps of the store and the
    printing of flags, the internals of controller-runtime (calls to it are recorded with their
    parameters, not executed). The conversion of numbers and times is that of the
    standard library by its result, not by its algorithm. *)

From stdpp Require Export base option list gmap strings sorting.
From Stdlib Require Export Ascii ZArith Lia.

(** ** Fallible computations

    A Go function returning [(T, error)] is a [result E T]. *)

Inductive result (E A : Type) : Type :=
| Ok (a : A)
| Err (e : E).
Arguments Ok {E A} a.
Arguments Err {E A} e.

Declare Scope go_scope.
Delimit Scope go_scope with go.

Definition rbind {E A B} (c : result E A) (k : A → result E B) : result E B :=
  match c with Ok a => k a | Err e => Err e end.

Notation "'try!' x '<-' c ';' k" := (rbind c (λ x, k))
  (at level 100, x pattern, c at level 99, k at level 200, right associativity) : go_scope.

Open Scope go_scope.

(** The first error of a list of computations, or the list of all results. *)
Fixpoint rmap {E A B} (f : A → result E B) (l : list A) : result E (list B) :=
  match l with
  | [] => Ok []
  | x :: l' => try! y <- f x; try! ys <- rmap f l'; Ok (y :: ys)
  end.

Lemma rmap_length {E A B} (f : A → result E B) l ys :
  rmap f l = Ok ys → length ys = length l.
Proof.
  revert ys. induction l as [|x l IH]; intros ys; simpl; [by inversion 1|].
  destruct (f x) as [y|e]; simpl; [|done].
  destruct (rmap f l) as [ys'|e]; simpl; [|done].
  inversion 1; subst; simpl. f_equal. by apply IH.
Qed.

Lemma rmap_Forall2 {E A B} (f : A → result E B) l ys :
  rmap f l = Ok ys ↔ Forall2 (λ x y, f x = Ok y) l ys.
Proof.
  revert ys. induction l as [|x l IH]; intros ys; simpl.
  - split; [by inversion 1|by inversion 1].
  - destruct (f x) as [y|e] eqn:Hx; simpl.
    + destruct (rmap f l) as [ys'|e] eqn:Hl; simpl; split.
      * inversion 1; subst. constructor; [done|]. by apply IH.
      * inversion 1 as [|? y' ? l' Hy Hl']; subst. apply IH in Hl'. congruence.
      * done.
      * inversion 1 as [|? y' ? l' Hy Hl']; subst. apply IH in Hl'. congruence.
    + split; [done|]. inversion 1; congruence.
Qed.

(** ** Machine integers

    A Go [int] or [int64] (64-bit platforms) is a [Z] in the signed 64-bit range;
    arithmetic wraps around. *)

Definition int64_min : Z := (- 2 ^ 63)%Z.
Definition int64_max : Z := (2 ^ 63 - 1)%Z.
Definition in_int64 (z : Z) : Prop := (int64_min ≤ z ≤ int64_max)%Z.
Definition wrap64 (z : Z) : Z := ((z + 2 ^ 63) mod 2 ^ 64 - 2 ^ 63)%Z.

Lemma wrap64_id z : in_int64 z → wrap64 z = z.
Proof.
  unfold in_int64, int64_min, int64_max, wrap64. intros H.
  rewrite Z.mod_small; lia.
Qed.

Lemma wrap64_range z : in_int64 (wrap64 z).
Proof.
  unfold in_int64, int64_min, int64_max, wrap64.
  pose proof (Z.mod_pos_bound (z + 2 ^ 63) (2 ^ 64)) as H. lia.
Qed.

Lemma wrap64_add x y : wrap64 (wrap64 x + y) = wrap64 (x + y).
Proof.
  unfold wrap64. f_equal.
  replace ((x + 2 ^ 63) mod 2 ^ 64 - 2 ^ 63 + y + 2 ^ 63)%Z
    with ((x + 2 ^ 63) mod 2 ^ 64 + y)%Z by lia.
  rewrite Zplus_mod_idemp_l. f_equal. lia.
Qed.

(** ** Strings *)

Definition str_empty (s : string) : bool := bool_decide (s = "").
Definition str_eqb (s t : string) : bool := bool_decide (s = t).

Lemma str_empty_true s : str_empty s = true ↔ s = "".
Proof. apply bool_decide_eq_true. Qed.
Lemma str_empty_false s : str_empty s = false ↔ s ≠ "".
Proof. apply bool_decide_eq_false. Qed.
Lemma str_eqb_true s t : str_eqb s t = true ↔ s = t.
Proof. apply bool_decide_eq_true. Qed.
Lemma str_eqb_false s t : str_eqb s t = false ↔ s ≠ t.
Proof. apply bool_decide_eq_false. Qed.
Lemma str_eqb_sym s t : str_eqb s t = str_eqb t s.
Proof. by apply bool_decide_ext. Qed.
Lemma str_eqb_refl s : str_eqb s s = true.
Proof. by apply str_eqb_true. Qed.

(** [strings.ToLower] and [strings.ToUpper] on ASCII letters. *)
Definition ascii_lower (c : Ascii.ascii) : Ascii.ascii :=
  let n := Ascii.nat_of_ascii c in
  if (65 <=? n) && (n <=? 90) then Ascii.ascii_of_nat (n + 32) else c.
Definition ascii_upper (c : Ascii.ascii) : Ascii.ascii :=
  let n := Ascii.nat_of_ascii c in
  if (97 <=? n) && (n <=? 122) then Ascii.ascii_of_nat (n - 32) else c.
Fixpoint string_map (f : Ascii.ascii → Ascii.ascii) (s : string) : string :=
  match s with
  | EmptyString => EmptyString
  | String c s' => String (f c) (string_map f s')
  end.
Definition to_lower : string → string := string_map ascii_lower.
Definition to_upper : string → string := string_map ascii_upper.

(** [strings.TrimSpace] on ASCII white space. *)
Fixpoint trim_left (s : string) : string :=
  match s with
  | EmptyString => EmptyString
  | String c s' => if Ascii.is_space c then trim_left s' else s
  end.
Definition str_rev (s : string) : string := String.rev_app s "".
Definition trim_space (s : string) : string :=
  str_rev (trim_left (str_rev (trim_left s))).

Lemma str_app_nil_r (s : string) : s +:+ "" = s.
Proof. induction s as [|c s IH]; [done|]. change (String c (s +:+ "") = String c s). by rewrite IH. Qed.

Lemma str_app_assoc (s t u : string) : (s +:+ t) +:+ u = s +:+ (t +:+ u).
Proof.
  induction s as [|c s IH]; [done|].
  change (String c ((s +:+ t) +:+ u) = String c (s +:+ (t +:+ u))). by rewrite IH.
Qed.

Lemma str_app_inj_l (s t u : string) : s +:+ t = s +:+ u → t = u.
Proof.
  induction s as [|c s IH]; [done|].
  change (String c (s +:+ t) = String c (s +:+ u) → t = u). intros H. apply IH. by inversion H.
Qed.

Lemma str_app_length (s t : string) :
  String.length (s +:+ t) = String.length s + String.length t.
Proof.
  induction s as [|c s IH]; [done|].
  change (S (String.length (s +:+ t)) = S (String.length s + String.length t)). by rewrite IH.
Qed.

Lemma str_app_inj_len (a b c d : string) :
  String.length a = String.length c → a +:+ b = c +:+ d → a = c ∧ b = d.
Proof.
  revert c. induction a as [|x a IH]; intros [|y c]; try done. simpl.
  change (String x a +:+ b) with (String x (a +:+ b)).
  change (String y c +:+ d) with (String y (c +:+ d)).
  intros [= Hl] [= -> Hs]. apply IH in Hs as [-> ->]; done.
Qed.

Lemma str_app_inj_len_r (a b c d : string) :
  String.length b = String.length d → a +:+ b = c +:+ d → a = c ∧ b = d.
Proof.
  intros Hl Hs. apply str_app_inj_len; [|done].
  apply (f_equal String.length) in Hs. rewrite !str_app_length in Hs. lia.
Qed.

(** [strconv.Atoi]: an optional sign, decimal digits, and a value that fits the [int]. *)
Definition digit (c : Ascii.ascii) : option Z :=
  let n := Ascii.nat_of_ascii c in
  if (48 <=? n) && (n <=? 57) then Some (Z.of_nat (n - 48)) else None.
Fixpoint digits (acc : Z) (s : string) : option Z :=
  match s with
  | EmptyString => Some acc
  | String c s' => d ← digit c; digits (10 * acc + d)%Z s'
  end.
Definition unsigned (s : string) : option Z :=
  match s with EmptyString => None | _ => digits 0 s end.
Definition Atoi (s : string) : option Z :=
  z ← match s with
      | String "-"%char s' => z ← unsigned s'; Some (- z)%Z
      | String "+"%char s' => unsigned s'
      | _ => unsigned s
      end;
  if decide (- 2 ^ 63 ≤ z ≤ 2 ^ 63 - 1)%Z then Some z else None.

Lemma Atoi_range s z : Atoi s = Some z → in_int64 z.
Proof.
  unfold Atoi. intros (y & _ & H)%bind_Some.
  case_decide; simplify_eq. unfold in_int64, int64_min, int64_max. lia.
Qed.

(** ** [%q]

    Printable bytes stay as they are, and so do the bytes of longer characters. *)
Definition hex_digit (n : nat) : Ascii.ascii := Ascii.ascii_of_nat (if bool_decide (n < 10) then 48 + n else 87 + n).

Definition quoted_char (c : Ascii.ascii) : string :=
  let bs e := String "\" (String e "") in
  match Ascii.nat_of_ascii c with
  | 34 | 92 => bs c
  | 7 => bs "a"%char
  | 8 => bs "b"%char
  | 9 => bs "t"%char
  | 10 => bs "n"%char
  | 11 => bs "v"%char
  | 12 => bs "f"%char
  | 13 => bs "r"%char
  | n => if bool_decide (n < 32 ∨ n = 127)
         then String "\" (String "x" (String (hex_digit (n / 16)) (String (hex_digit (n mod 16)) "")))
         else String c ""
  end.

Fixpoint quoted_chars (s : string) : string :=
  match s with EmptyString => "" | String c s => quoted_char c +:+ quoted_chars s end.

Definition quoted (s : string) : string := String "034" (quoted_chars s +:+ String "034" "").

(** ** Sorting: [sort.Strings] *)

Definition sort_strings (l : list string) : list string := merge_sort String.le l.

Lemma sort_strings_sorted l : Sorted String.le (sort_strings l).
Proof. apply Sorted_merge_sort, _. Qed.
Lemma sort_strings_perm l : sort_strings l ≡ₚ l.
Proof. apply merge_sort_Permutation. Qed.
Lemma elem_of_sort_strings x l : x ∈ sort_strings l ↔ x ∈ l.
Proof. by rewrite sort_strings_perm. Qed.
Lemma sort_strings_unique l l' :
  Sorted String.le l' → l' ≡ₚ l → l' = sort_strings l.
Proof.
  intros Hs Hp. eapply (Sorted_unique String.le); [done|apply sort_strings_sorted|].
  by rewrite sort_strings_perm.
Qed.

(** ** Maps built entry by entry

    The shape of every [for k, v := range m { out[k] = f(out[k], v) }] loop: each key of
    [m] is visited once and only its own entry of [out] changes, so the order of the
    iteration (which Go leaves unspecified) does not matter. *)

Section range_insert.
Context {A B : Type} (f : string → option B → A → B).

Definition range_step (out : gmap string B) (kv : string * A) : gmap string B :=
  <[kv.1 := f kv.1 (out !! kv.1) kv.2]> out.

Lemma lookup_range_fold (out : gmap string B) (m : gmap string A) k :
  map_fold (λ k v out, <[k := f k (out !! k) v]> out) out m !! k =
  match m !! k with
  | Some v => Some (f k (out !! k) v)
  | None => out !! k
  end.
Proof.
  apply (map_fold_weak_ind (λ r m, r !! k =
    match m !! k with Some v => Some (f k (out !! k) v) | None => out !! k end)).
  - by rewrite lookup_empty.
  - intros i x m' r Hi Hr. destruct (decide (i = k)) as [->|Hne].
    + rewrite !lookup_insert_eq. rewrite Hi in Hr. by rewrite Hr.
    + by rewrite !lookup_insert_ne.
Qed.

Lemma lookup_range_list (out : gmap string B) l k :
  NoDup l.*1 →
  foldl range_step out l !! k =
  match (list_to_map l : gmap string A) !! k with
  | Some v => Some (f k (out !! k) v)
  | None => out !! k
  end.
Proof.
  revert out. induction l as [|[i x] l IH]; intros out Hnd; simpl.
  - by rewrite lookup_empty.
  - inversion_clear Hnd as [|?? Hi Hl]. rewrite IH by done. unfold range_step; simpl.
    destruct (decide (i = k)) as [->|Hne].
    + rewrite !lookup_insert_eq, not_elem_of_list_to_map_1 by done. done.
    + by rewrite !lookup_insert_ne.
Qed.

(** Whatever order the runtime picks, the loop computes the same map. *)
Lemma range_order_irrelevant (out : gmap string B) (m : gmap string A) l :
  l ≡ₚ map_to_list m →
  foldl range_step out l = map_fold (λ k v out, <[k := f k (out !! k) v]> out) out m.
Proof.
  intros Hl. apply map_eq. intros k.
  assert (NoDup l.*1) as Hnd by (rewrite Hl; apply NoDup_fst_map_to_list).
  rewrite lookup_range_list, lookup_range_fold by done.
  assert ((list_to_map l : gmap string A) = m) as ->; [|done].
  rewrite <- (list_to_map_to_list m). by apply list_to_map_proper.
Qed.
End range_insert.

(** ** Lists *)

Lemma list_filter_all {A} (P : A → Prop) `{∀ x, Decision (P x)} l :
  Forall P l → filter P l = l.
Proof. induction 1; [done|]. rewrite filter_cons_True by done. by f_equal. Qed.

(** ** Automation *)


Create HintDb kubauth discriminated.
#[export] Hint Resolve sort_strings_sorted sort_strings_perm wrap64_range : kubauth.
#[export] Hint Resolve str_eqb_refl : kubauth.

(** Case split on every [if] and [match] of the goal, keeping the equations. *)
Ltac split_goal :=
  repeat (case_match || case_bool_decide); simplify_eq/=; try done.
Ltac split_hyp H :=
  repeat (match type of H with
          | context [match ?x with _ => _ end] => destruct x eqn:?
          end); simplify_eq/=; try done.
