(* ===== verification/Values.v ===== *)
(** * Go dynamic values and claim maps

    The claim sets Kubauth moves around are [map[string]interface{}]. A value of type
    [interface{}] is one of the dynamic types the code tests for: a string, a boolean, an
    [int], a JSON number, a [[]string], a [[]interface{}] or a nested
    [map[string]interface{}]. The type assertions of the code ([v.(string)],
    [v.(map[string]interface{})], ...) are the [as_*] functions below. *)

From S2P Require Import Prelude.

#[local] Set Warnings "-register-all".

Inductive value : Type :=
| VNil                              (** the nil interface *)
| VBool (b : bool)
| VInt (z : Z)                      (** a Go [int] *)
| VNum (lit : string)               (** a decoded JSON number (float64), by its literal *)
| VString (s : string)
| VStrs (l : list string)           (** [[]string] *)
| VArr (l : list value)             (** [[]interface{}] *)
| VMap (m : gmap string value).     (** [map[string]interface{}] *)

Abbreviation claims := (gmap string value).

(** Induction on values with an hypothesis for every nested value. *)
Section value_ind.
Variable P : value → Prop.
Hypothesis Hnil : P VNil.
Hypothesis Hbool : ∀ b, P (VBool b).
Hypothesis Hint : ∀ z, P (VInt z).
Hypothesis Hnum : ∀ s, P (VNum s).
Hypothesis Hstring : ∀ s, P (VString s).
Hypothesis Hstrs : ∀ l, P (VStrs l).
Hypothesis Harr : ∀ l, Forall P l → P (VArr l).
Hypothesis Hmap : ∀ m, map_Forall (λ _, P) m → P (VMap m).

Fixpoint value_size (v : value) : nat :=
  match v with
  | VArr l => S (foldr (λ w n, value_size w + n) 0 l)
  | VMap m => S (map_fold (λ _ w n, value_size w + n) 0 m)
  | _ => 0
  end.

Lemma size_in_arr w l : w ∈ l → value_size w ≤ foldr (λ w n, value_size w + n) 0 l.
Proof. induction 1; simpl; lia. Qed.

Lemma size_in_map k w (m : gmap string value) :
  m !! k = Some w → value_size w ≤ map_fold (λ _ w n, value_size w + n) 0 m.
Proof.
  apply (map_fold_weak_ind (λ n (m : gmap string value), m !! k = Some w → value_size w ≤ n)).
  - by rewrite lookup_empty.
  - intros i x m' r Hi IH. rewrite lookup_insert_Some.
    intros [[-> ->]|[Hne Hk]]; [lia|]. specialize (IH Hk). lia.
Qed.

Lemma value_nested_ind v : P v.
Proof.
  remember (value_size v) as n eqn:Hn. revert v Hn.
  induction n as [n IH] using lt_wf_ind. intros v ->.
  destruct v as [| | | | | |l|m]; auto.
  - apply Harr, Forall_forall. intros w Hw. eapply IH; [|done].
    apply size_in_arr in Hw. simpl. lia.
  - apply Hmap. intros k w Hw. eapply IH; [|done].
    apply size_in_map in Hw. simpl. lia.
Qed.
End value_ind.

(** ** Type assertions *)

Definition as_string (v : value) : option string :=
  match v with VString s => Some s | _ => None end.
Definition as_map (v : value) : option claims :=
  match v with VMap m => Some m | _ => None end.
Definition as_strs (v : value) : option (list string) :=
  match v with VStrs l => Some l | _ => None end.

(** [s, _ := m[k].(string)]: the empty string when absent or not a string. *)
Definition claim_string (m : claims) (k : string) : string :=
  match m !! k with Some (VString s) => s | _ => "" end.

(** The strings among the elements of a [[]interface{}]. *)
Fixpoint strings_of (l : list value) : list string :=
  match l with
  | [] => []
  | VString s :: l' => s :: strings_of l'
  | _ :: l' => strings_of l'
  end.

Definition is_string (v : value) : bool :=
  match v with VString _ => true | _ => false end.

Lemma strings_of_fmap l : strings_of (VString <$> l) = l.
Proof. induction l as [|s l IH]; [done|]. rewrite fmap_cons. simpl. by rewrite IH. Qed.
