(* ===== verification/Base64.v ===== *)
(** * base64.RawURLEncoding

    The encoding the server uses for random strings and for the numbers of its public key, with a
    decoder to state what a reader recovers. *)

From S2P Require Import Prelude.

Definition b64_char (n : N) : Ascii.ascii :=
  Ascii.ascii_of_N
    (if n <? 26 then 65 + n else if n <? 52 then 71 + n else if n <? 62 then n - 4
     else if n =? 62 then 45 else 95)%N.

Fixpoint base64url (l : list Ascii.ascii) : string :=
  match l with
  | a :: b :: c :: l' =>
      let n := (Ascii.N_of_ascii a * 65536 + Ascii.N_of_ascii b * 256 + Ascii.N_of_ascii c)%N in
      String (b64_char (n / 262144)) (String (b64_char (n / 4096 mod 64))
        (String (b64_char (n / 64 mod 64)) (String (b64_char (n mod 64)) (base64url l'))))
  | [a; b] =>
      let n := (Ascii.N_of_ascii a * 65536 + Ascii.N_of_ascii b * 256)%N in
      String (b64_char (n / 262144)) (String (b64_char (n / 4096 mod 64))
        (String (b64_char (n / 64 mod 64)) ""))
  | [a] =>
      let n := (Ascii.N_of_ascii a * 65536)%N in
      String (b64_char (n / 262144)) (String (b64_char (n / 4096 mod 64)) "")
  | [] => ""
  end.

Lemma base64url_nonempty l : l ≠ [] → base64url l ≠ "".
Proof. by destruct l as [|a [|b [|c l]]]. Qed.


(** ** Decoding *)

Definition b64_val (c : Ascii.ascii) : option N :=
  let n := Ascii.N_of_ascii c in
  (if (65 <=? n) && (n <=? 90) then Some (n - 65)
   else if (97 <=? n) && (n <=? 122) then Some (n - 71)
   else if (48 <=? n) && (n <=? 57) then Some (n + 4)
   else if n =? 45 then Some 62 else if n =? 95 then Some 63 else None)%N.

(** A client's decoder of raw base64url. *)
Fixpoint base64url_decode (s : string) : option (list Ascii.ascii) :=
  match s with
  | String a (String b (String c (String d s'))) =>
      x ← b64_val a; y ← b64_val b; z ← b64_val c; t ← b64_val d;
      let n := (x * 262144 + y * 4096 + z * 64 + t)%N in
      l ← base64url_decode s';
      Some (Ascii.ascii_of_N (n / 65536) :: Ascii.ascii_of_N (n / 256 mod 256) ::
            Ascii.ascii_of_N (n mod 256) :: l)
  | String a (String b (String c EmptyString)) =>
      x ← b64_val a; y ← b64_val b; z ← b64_val c;
      let n := (x * 262144 + y * 4096 + z * 64)%N in
      Some [Ascii.ascii_of_N (n / 65536); Ascii.ascii_of_N (n / 256 mod 256)]
  | String a (String b EmptyString) =>
      x ← b64_val a; y ← b64_val b;
      let n := (x * 262144 + y * 4096)%N in
      Some [Ascii.ascii_of_N (n / 65536)]
  | EmptyString => Some []
  | _ => None
  end.


#[local] Ltac Zify.zify_post_hook ::= Z.to_euclidean_division_equations.

Lemma b64_val_char_nat (n : nat) : n < 64 → b64_val (b64_char (N.of_nat n)) = Some (N.of_nat n).
Proof. intros Hn. do 64 (destruct n as [|n]; [reflexivity|]). lia. Qed.

Lemma b64_val_char n : (n < 64)%N → b64_val (b64_char n) = Some n.
Proof. intros Hn. rewrite <- (N2Nat.id n). apply b64_val_char_nat. lia. Qed.

Lemma N_of_ascii_lt c : (Ascii.N_of_ascii c < 256)%N.
Proof. destruct c as [[] [] [] [] [] [] [] []]; reflexivity. Qed.

(** Splitting 24 bits into four groups of six and back. *)
Lemma regroup (n : N) :
  (n < 16777216)%N →
  (n / 262144 * 262144 + n / 4096 mod 64 * 4096 + n / 64 mod 64 * 64 + n mod 64 = n)%N ∧
  (n / 262144 < 64)%N.
Proof. intros Hn. split; lia. Qed.

Lemma bytes_of (a b c : N) :
  (a < 256)%N → (b < 256)%N → (c < 256)%N →
  let n := (a * 65536 + b * 256 + c)%N in
  (n < 16777216)%N ∧ (n / 65536 = a)%N ∧ (n / 256 mod 256 = b)%N ∧ (n mod 256 = c)%N.
Proof. intros Ha Hb Hc. split_and!; lia. Qed.

Lemma mod64_lt n : (n mod 64 < 64)%N.
Proof. by apply N.mod_lt. Qed.

(** The three bytes of a group. *)
Lemma group_roundtrip a b c :
  let n := (Ascii.N_of_ascii a * 65536 + Ascii.N_of_ascii b * 256 + Ascii.N_of_ascii c)%N in
  Ascii.ascii_of_N (n / 65536) = a ∧ Ascii.ascii_of_N (n / 256 mod 256) = b ∧
  Ascii.ascii_of_N (n mod 256) = c ∧ (n < 16777216)%N.
Proof.
  intros n. destruct (bytes_of (Ascii.N_of_ascii a) (Ascii.N_of_ascii b) (Ascii.N_of_ascii c))
    as (Hn & Ha & Hb & Hc); [apply N_of_ascii_lt..|].
  unfold n. rewrite Ha, Hb, Hc, !Ascii.ascii_N_embedding. done.
Qed.

Lemma group1 (a : N) : (a < 256)%N →
  let n := (a * 65536)%N in
  (n / 262144 < 64 ∧ (n / 262144 * 262144 + n / 4096 mod 64 * 4096) / 65536 = a)%N.
Proof. intros Ha. split; lia. Qed.

Lemma group2 (a b : N) : (a < 256)%N → (b < 256)%N →
  let n := (a * 65536 + b * 256)%N in
  (n / 262144 < 64 ∧ n / 262144 * 262144 + n / 4096 mod 64 * 4096 + n / 64 mod 64 * 64 = n ∧
   n / 65536 = a ∧ n / 256 mod 256 = b)%N.
Proof. intros Ha Hb. split_and!; lia. Qed.

(** Decoding an encoded string gives the bytes back. *)
Lemma base64url_roundtrip : ∀ l, base64url_decode (base64url l) = Some l.
Proof.
  fix IH 1. intros [|a [|b [|c l]]].
  - reflexivity.
  - destruct (group1 (Ascii.N_of_ascii a) (N_of_ascii_lt a)) as [H1 H2]. cbn zeta in *.
    cbn [base64url base64url_decode]. cbn zeta.
    rewrite !b64_val_char by (exact H1 || apply mod64_lt). simpl. by rewrite H2, Ascii.ascii_N_embedding.
  - destruct (group2 (Ascii.N_of_ascii a) (Ascii.N_of_ascii b) (N_of_ascii_lt a) (N_of_ascii_lt b))
      as (H1 & H2 & H3 & H4). cbn zeta in *. cbn [base64url base64url_decode]. cbn zeta.
    rewrite !b64_val_char by (exact H1 || apply mod64_lt). simpl.
    by rewrite H2, H3, H4, !Ascii.ascii_N_embedding.
  - destruct (group_roundtrip a b c) as (H1 & H2 & H3 & H4). cbn zeta in *.
    destruct (regroup _ H4) as [H5 H6]. cbn [base64url base64url_decode]. cbn zeta.
    rewrite !b64_val_char by (exact H6 || apply mod64_lt). simpl.
    rewrite H5, (IH l), H1, H2, H3. reflexivity.
Qed.
