(* ===== verification/Misc.v ===== *)
(** * internal/misc: the helpers every component shares

    [misc.go] (list helpers, optional booleans) and [merge.go] (claim merging and
    normalisation). *)

From S2P Require Import Prelude Values.

(** ** misc.go *)

Definition BoolPtrFalse (p : option bool) : bool :=
  match p with None => false | Some b => b end.

Definition BoolPtrTrue (p : option bool) : bool :=
  match p with None => true | Some b => b end.

(** [str[:n]] and [str[len(str)-n:]] *)
Definition str_prefix (n : nat) (s : string) : string := String.substring 0 n s.
Definition str_suffix (n : nat) (s : string) : string :=
  String.substring (String.length s - n) n s.

Definition ShortenString (str : string) : string :=
  if String.length str <=? 30 then str
  else str_prefix 10 str +:+ "......." +:+ str_suffix 10 str.

(** The [keys]/[seen]/[existing] loops: append what was not seen yet. [seen] is the Go map
    used as a set. *)
Fixpoint append_unseen (seen : gset string) (out items : list string) : list string :=
  match items with
  | [] => out
  | x :: items' =>
      if decide (x ∈ seen) then append_unseen seen out items'
      else append_unseen ({[x]} ∪ seen) (out ++ [x]) items'
  end.

Definition DedupAndSort (stringSlice : list string) : list string :=
  let list := append_unseen ∅ [] stringSlice in
  sort_strings list.

Definition AppendIfNotPresent (slice items : list string) : list string :=
  append_unseen (list_to_set slice) slice items.

Definition CountTrue (xs : list bool) : Z :=
  foldl (λ count x, if (x : bool) then (count + 1)%Z else count) 0%Z xs.

(** ** merge.go *)

(** Two passes over the same [seen] set. *)
Fixpoint seen_after (seen : gset string) (items : list string) : gset string :=
  match items with
  | [] => seen
  | x :: items' => seen_after ({[x]} ∪ seen) items'
  end.

Definition mergeStringSlicesDeduped (a b : list string) : list string :=
  let out := append_unseen ∅ [] a in
  append_unseen (seen_after ∅ a) out b.

(** The value [MergeMaps] leaves at a key whose current value is [old] ([None]: absent)
    when the second map holds [v] there. *)
Fixpoint merge_value (old : option value) (v : value) {struct v} : value :=
  match v with
  | VMap mb =>
      match old with
      | Some (VMap ma) =>
          VMap (map_fold (λ k w out, <[k := merge_value (out !! k) w]> out) ma mb)
      | _ => v
      end
  | VStrs vb =>
      match old with
      | Some (VStrs va) => VStrs (mergeStringSlicesDeduped va vb)
      | _ => v
      end
  | _ => v
  end.

Definition MergeMaps (a b : claims) : claims :=
  map_fold (λ k v out, <[k := merge_value (out !! k) v]> out) a b.

(** [interfaceSliceToStringSlice]: [None] for (nil, false). *)
Definition interfaceSliceToStringSlice (l : list value) : option (list string) :=
  mapM as_string l.

Fixpoint normalizeStringArrayValue (v : value) : value :=
  match v with
  | VMap m => VMap (map_fold (λ k w out, <[k := normalizeStringArrayValue w]> out) ∅ m)
  | VArr l =>
      match interfaceSliceToStringSlice l with
      | Some ss => VStrs ss
      | None => VArr (normalizeStringArrayValue <$> l)
      end
  | _ => v
  end.

Definition NormalizeStringArray (m : option claims) : option claims :=
  match m with
  | None => None
  | Some m => Some (map_fold (λ k w out, <[k := normalizeStringArrayValue w]> out) ∅ m)
  end.

(** ** Reference: first occurrences *)

(** The list of first occurrences, by removing later duplicates of each element. *)
Fixpoint nub (l : list string) : list string :=
  match l with
  | [] => []
  | x :: l' => x :: filter (.≠ x) (nub l')
  end.

Lemma elem_of_nub x l : x ∈ nub l ↔ x ∈ l.
Proof.
  induction l as [|y l IH]; simpl; [done|].
  rewrite !elem_of_cons, list_elem_of_filter, IH. destruct (decide (x = y)); tauto.
Qed.

Lemma NoDup_nub l : NoDup (nub l).
Proof.
  induction l as [|y l IH]; simpl; constructor.
  - rewrite list_elem_of_filter. tauto.
  - by apply NoDup_filter.
Qed.

Lemma nub_sublist l : nub l `sublist_of` l.
Proof.
  induction l as [|y l IH]; simpl; [done|]. constructor.
  etrans; [apply sublist_filter|done].
Qed.

Lemma nub_filter (P : string → Prop) `{∀ x, Decision (P x)} l :
  nub (filter P l) = filter P (nub l).
Proof.
  induction l as [|y l IH]; [done|]. simpl. rewrite !filter_cons.
  destruct (decide (P y)) as [Hy|Hy]; simpl.
  - f_equal. rewrite IH, !list_filter_filter. apply list_filter_iff. intros; tauto.
  - rewrite IH, list_filter_filter. apply list_filter_iff.
    intros x. split; [|tauto]. intros Hx. split; [done|]. by intros ->.
Qed.

Lemma NoDup_nub_id l : NoDup l → nub l = l.
Proof.
  induction 1 as [|x l Hx Hl IH]; simpl; [done|]. f_equal. rewrite IH.
  apply list_filter_all, Forall_forall. by intros y Hy ->.
Qed.

(** The one-pass loop with its set of seen keys computes the reference. *)
Lemma append_unseen_nub seen out items :
  append_unseen seen out items = out ++ nub (filter (.∉ seen) items).
Proof.
  revert seen out. induction items as [|x items IH]; intros seen out; simpl.
  - by rewrite app_nil_r.
  - rewrite filter_cons. destruct (decide (x ∈ seen)) as [Hx|Hx].
    + rewrite decide_False by tauto. apply IH.
    + rewrite decide_True by done. rewrite IH. simpl. rewrite <- app_assoc. simpl. do 2 f_equal.
      rewrite <- nub_filter, list_filter_filter. f_equal. apply list_filter_iff. set_solver.
Qed.

Lemma seen_after_union seen items : seen_after seen items = list_to_set items ∪ seen.
Proof.
  revert seen. induction items as [|x items IH]; intros seen; simpl; [set_solver|].
  rewrite IH. set_solver.
Qed.

Lemma AppendIfNotPresent_nub slice items :
  AppendIfNotPresent slice items = slice ++ nub (filter (.∉ slice) items).
Proof.
  unfold AppendIfNotPresent. rewrite append_unseen_nub. do 2 f_equal.
  apply list_filter_iff. intros x. by rewrite elem_of_list_to_set.
Qed.

Lemma append_unseen_empty l : append_unseen ∅ [] l = nub l.
Proof.
  rewrite append_unseen_nub. simpl. f_equal. apply list_filter_all, Forall_forall. set_solver.
Qed.

Lemma mergeStringSlicesDeduped_nub a b : mergeStringSlicesDeduped a b = nub (a ++ b).
Proof.
  unfold mergeStringSlicesDeduped.
  rewrite append_unseen_empty, append_unseen_nub, seen_after_union.
  induction a as [|x a IH]; simpl.
  - f_equal. apply list_filter_all, Forall_forall. set_solver.
  - f_equal. rewrite <- IH, filter_app, <- (nub_filter _ (filter (.∉ _) b)), list_filter_filter.
    do 2 f_equal. apply list_filter_iff. set_solver.
Qed.

(** [DedupAndSort] returns the sorted list of the distinct elements of its argument,
    and it is the only such list. *)
Theorem DedupAndSort_spec l l' :
  (Sorted String.le l' ∧ NoDup l' ∧ ∀ x, x ∈ l' ↔ x ∈ l) ↔ l' = DedupAndSort l.
Proof.
  unfold DedupAndSort. rewrite append_unseen_empty. split.
  - intros (Hs & Hnd & Hel). apply sort_strings_unique; [done|].
    apply NoDup_Permutation; [done|apply NoDup_nub|]. intros x. by rewrite Hel, elem_of_nub.
  - intros ->. split_and!.
    + apply sort_strings_sorted.
    + rewrite sort_strings_perm. apply NoDup_nub.
    + intros x. by rewrite elem_of_sort_strings, elem_of_nub.
Qed.

Lemma elem_of_DedupAndSort x l : x ∈ DedupAndSort l ↔ x ∈ l.
Proof. unfold DedupAndSort. by rewrite append_unseen_empty, elem_of_sort_strings, elem_of_nub. Qed.

(** [AppendIfNotPresent] keeps its first argument as a prefix, in order, and appends the
    first occurrence of each new item, in order and without duplicates. *)
Theorem AppendIfNotPresent_spec slice items :
  ∃ added,
    AppendIfNotPresent slice items = slice ++ added ∧
    added `sublist_of` items ∧ NoDup added ∧
    (∀ x, x ∈ added ↔ x ∈ items ∧ x ∉ slice).
Proof.
  exists (nub (filter (.∉ slice) items)). split_and!.
  - apply AppendIfNotPresent_nub.
  - etrans; [apply nub_sublist|apply sublist_filter].
  - apply NoDup_nub.
  - intros x. rewrite elem_of_nub, list_elem_of_filter. tauto.
Qed.

(** ** MergeMaps *)

Lemma lookup_MergeMaps a b k :
  MergeMaps a b !! k =
  match b !! k with
  | Some v => Some (merge_value (a !! k) v)
  | None => a !! k
  end.
Proof. apply (lookup_range_fold (λ _, merge_value)). Qed.

Lemma merge_value_maps ma mb : merge_value (Some (VMap ma)) (VMap mb) = VMap (MergeMaps ma mb).
Proof. done. Qed.

Lemma merge_value_None v : merge_value None v = v.
Proof. by destruct v. Qed.

(** The documented merge rule, key by key: nested maps are merged recursively, two
    [[]string] are concatenated without duplicates, and otherwise the second map wins. *)
Theorem MergeMaps_spec a b k :
  MergeMaps a b !! k =
  match b !! k, a !! k with
  | None, o => o
  | Some (VMap mb), Some (VMap ma) => Some (VMap (MergeMaps ma mb))
  | Some (VStrs lb), Some (VStrs la) => Some (VStrs (nub (la ++ lb)))
  | Some v, _ => Some v
  end.
Proof.
  rewrite lookup_MergeMaps. destruct (b !! k) as [v|]; [|done].
  destruct v, (a !! k) as [[]|]; simpl; try done.
  by rewrite mergeStringSlicesDeduped_nub.
Qed.

Lemma dom_MergeMaps a b : dom (MergeMaps a b) = dom a ∪ dom b.
Proof.
  apply set_eq. intros k. rewrite elem_of_union, !elem_of_dom, lookup_MergeMaps.
  destruct (a !! k), (b !! k); naive_solver.
Qed.

Lemma MergeMaps_empty_r a : MergeMaps a ∅ = a.
Proof. done. Qed.

Lemma MergeMaps_empty_l b : MergeMaps ∅ b = b.
Proof.
  apply map_eq. intros k. rewrite lookup_MergeMaps, lookup_empty.
  destruct (b !! k); [|done]. by rewrite merge_value_None.
Qed.

(** The result of [MergeMaps] does not depend on the order in which the runtime iterates
    over the second map: any enumeration of its entries gives the same merged map. *)
Theorem MergeMaps_order_irrelevant a b l :
  l ≡ₚ map_to_list b →
  foldl (λ out kv, <[kv.1 := merge_value (out !! kv.1) kv.2]> out) a l = MergeMaps a b.
Proof. apply (range_order_irrelevant (λ _, merge_value)). Qed.

Lemma MergeMaps_order_irrelevant_witness :
  let b := <["x" := VBool true]> {["y" := VStrs ["p"; "q"]]} in
  foldl (λ out kv, <[kv.1 := merge_value (out !! kv.1) kv.2]> out) {["y" := VStrs ["q"; "r"]]}
    [("y", VStrs ["p"; "q"]); ("x", VBool true)]
  = MergeMaps {["y" := VStrs ["q"; "r"]]} b.
Proof.
  apply (MergeMaps_order_irrelevant {["y" := VStrs ["q"; "r"]]}
    (<["x" := VBool true]> {["y" := VStrs ["p"; "q"]]})).
  vm_compute. apply Permutation_swap || reflexivity.
Defined.

(** ** NormalizeStringArray *)

Lemma normalize_map_fmap (m : claims) :
  map_fold (λ k w out, <[k := normalizeStringArrayValue w]> out) ∅ m
  = normalizeStringArrayValue <$> m.
Proof.
  apply map_eq. intros k.
  rewrite (lookup_range_fold (λ _ _, normalizeStringArrayValue)), lookup_fmap.
  by destruct (m !! k).
Qed.

Lemma interfaceSlice_Some l ss :
  interfaceSliceToStringSlice l = Some ss ↔ l = VString <$> ss.
Proof.
  unfold interfaceSliceToStringSlice. rewrite mapM_Some. split.
  - induction 1 as [|v s l ss Hv Hl IH]; [done|]. destruct v; simplify_eq/=. done.
  - intros ->. induction ss; constructor; done.
Qed.

(** No [[]interface{}] of strings is left anywhere in the value. *)
Fixpoint normalized (v : value) : bool :=
  match v with
  | VArr l =>
      match interfaceSliceToStringSlice l with
      | Some _ => false
      | None => foldr (λ w b, normalized w && b) true l
      end
  | VMap m => map_fold (λ _ w b, normalized w && b) true m
  | _ => true
  end.

Lemma normalized_arr l :
  foldr (λ w b, normalized w && b) true l = true ↔ Forall (λ w, normalized w = true) l.
Proof. induction l; simpl; [done|]. rewrite Forall_cons, andb_true_iff. tauto. Qed.

Lemma normalized_map (m : claims) :
  map_fold (λ _ w b, normalized w && b) true m = true ↔ map_Forall (λ _ w, normalized w = true) m.
Proof.
  apply (map_fold_weak_ind (λ b (m : claims), b = true ↔ map_Forall (λ _ w, normalized w = true) m)).
  - split; [|done]. intros _. apply map_Forall_empty.
  - intros i x m' r Hi IH. rewrite map_Forall_insert, andb_true_iff, IH by done. tauto.
Qed.

Lemma interfaceSlice_norm l :
  interfaceSliceToStringSlice l = None →
  interfaceSliceToStringSlice (normalizeStringArrayValue <$> l) = None.
Proof.
  intros Hl. destruct (interfaceSliceToStringSlice (normalizeStringArrayValue <$> l)) as [ss|] eqn:E;
    [|done].
  apply interfaceSlice_Some in E.
  assert (l = VString <$> ss) as H.
  { clear Hl. revert ss E. induction l as [|v l IH]; intros [|s ss] E; try done.
    rewrite !fmap_cons in E. inversion E as [[Hv Hl]]. rewrite fmap_cons. f_equal.
    - destruct v; simpl in Hv; try done. by destruct (interfaceSliceToStringSlice l0).
    - by apply IH. }
  apply interfaceSlice_Some in H. congruence.
Qed.

Lemma normalize_is_normalized v : normalized (normalizeStringArrayValue v) = true.
Proof.
  induction v as [| | | | | |l IH|m IH] using value_nested_ind; try done; simpl.
  - destruct (interfaceSliceToStringSlice l) as [ss|] eqn:E; [done|]. simpl.
    rewrite interfaceSlice_norm by done. by apply normalized_arr, Forall_fmap.
  - rewrite normalize_map_fmap. apply normalized_map. intros k w.
    rewrite lookup_fmap, fmap_Some. intros (w' & Hw & ->). by eapply IH.
Qed.

Lemma normalized_fixpoint v : normalized v = true → normalizeStringArrayValue v = v.
Proof.
  induction v as [| | | | | |l IH|m IH] using value_nested_ind; try done; simpl.
  - destruct (interfaceSliceToStringSlice l) as [ss|] eqn:E; [done|]. intros H. f_equal.
    apply normalized_arr in H. rewrite <- (list_fmap_id l) at 2.
    apply list_fmap_ext. intros i w Hw. apply list_elem_of_lookup_2 in Hw.
    rewrite Forall_forall in IH, H. by apply IH; [|apply H].
  - intros H. f_equal. rewrite normalize_map_fmap. apply normalized_map in H.
    rewrite <- (map_fmap_id m) at 2. apply map_fmap_ext. intros k w Hw.
    by eapply IH, H.
Qed.

(** [NormalizeStringArray] keeps every key, leaves no [[]interface{}] of strings at any
    depth, and normalising twice changes nothing more. *)
Theorem NormalizeStringArray_spec (m : claims) :
  ∃ m', NormalizeStringArray (Some m) = Some m' ∧
    dom m' = dom m ∧
    map_Forall (λ _ w, normalized w = true) m' ∧
    NormalizeStringArray (Some m') = Some m'.
Proof.
  exists (normalizeStringArrayValue <$> m). simpl. rewrite !normalize_map_fmap.
  split_and!; [done|apply dom_fmap_L| |].
  - intros k w. rewrite lookup_fmap, fmap_Some. intros (w' & Hw & ->). apply normalize_is_normalized.
  - f_equal. apply map_eq. intros k. rewrite !lookup_fmap. destruct (m !! k); [|done].
    simpl. f_equal. apply normalized_fixpoint, normalize_is_normalized.
Qed.
