(* ===== verification/ExpandEnv.v ===== *)
(** * internal/misc/expandenv.go: environment variables in configuration files

    [ExpandEnv] is the byte-by-byte automaton every configuration file goes through before
    YAML decoding ([LoadConfig]). The string is a list of bytes, the process environment a
    finite map ([os.Getenv] gives the empty string for an absent variable), and a slice
    expression outside its bounds is a run-time panic, which the theorems exclude. *)

From Stdlib Require Import Ascii.
From S2P Require Import Prelude.

Abbreviation bytes := (list Ascii.ascii).

(** [os.Getenv] *)
Definition getenv (env : gmap string string) (name : string) : string :=
  default "" (env !! name).

(** [s[lo:hi]]: [None] is the run-time panic. *)
Definition go_slice (s : bytes) (lo hi : Z) : option bytes :=
  if decide (0 ≤ lo ≤ hi ∧ hi ≤ Z.of_nat (length s))%Z
  then Some (take (Z.to_nat (hi - lo)) (drop (Z.to_nat lo) s))
  else None.

Record MissingVariableError := { me_line : Z; me_variable : string }.

Inductive xstate := STATE_NOMINAL | STATE_AFTER_TOKEN | STATE_IN_VAR.

(** The local variables of the loop. *)
Record locals := {
  output : bytes;
  variable : bytes;
  chunkStart : Z;
  chunkEnd : Z;
  line : Z;
  state : xstate;
}.

Definition isAlphanumeric (b : Ascii.ascii) : bool :=
  let n := Ascii.nat_of_ascii b in
  ((97 <=? n) && (n <=? 122)) || ((65 <=? n) && (n <=? 90)) || ((48 <=? n) && (n <=? 57))
  || (n =? 95).

Definition dollar : Ascii.ascii := "$"%char.
Definition lbrace : Ascii.ascii := "{"%char.
Definition rbrace : Ascii.ascii := "}"%char.
Definition newline : Ascii.ascii := "010"%char.

(** One iteration: [None] is a panic, [Some (Err _)] the early return. *)
Definition expand_step (env : gmap string string) (s : bytes) (i : Z) (c : Ascii.ascii)
    (l : locals) : option (result MissingVariableError locals) :=
  let line' := if decide (c = newline) then (line l + 1)%Z else line l in
  match state l with
  | STATE_NOMINAL =>
      if decide (c = dollar) then
        Some (Ok {| output := output l; variable := variable l; chunkStart := chunkStart l;
                    chunkEnd := i; line := line'; state := STATE_AFTER_TOKEN |})
      else
        Some (Ok {| output := output l; variable := variable l; chunkStart := chunkStart l;
                    chunkEnd := chunkEnd l; line := line'; state := STATE_NOMINAL |})
  | STATE_AFTER_TOKEN =>
      if decide (c = lbrace) then
        Some (Ok {| output := output l; variable := []; chunkStart := chunkStart l;
                    chunkEnd := chunkEnd l; line := line'; state := STATE_IN_VAR |})
      else
        Some (Ok {| output := output l; variable := variable l; chunkStart := chunkStart l;
                    chunkEnd := -1; line := line'; state := STATE_NOMINAL |})
  | STATE_IN_VAR =>
      if decide (c = rbrace) then
        let name := String.string_of_list_ascii (variable l) in
        let value := getenv env name in
        if decide (value = "") then
          Some (Err {| me_line := line'; me_variable := name |})
        else
          chunk ← go_slice s (chunkStart l) (chunkEnd l);
          Some (Ok {| output := output l ++ chunk ++ String.list_ascii_of_string value;
                      variable := variable l; chunkStart := i + 1; chunkEnd := -1;
                      line := line'; state := STATE_NOMINAL |})
      else if isAlphanumeric c then
        Some (Ok {| output := output l; variable := variable l ++ [c];
                    chunkStart := chunkStart l; chunkEnd := chunkEnd l; line := line';
                    state := STATE_IN_VAR |})
      else
        Some (Ok {| output := output l; variable := variable l; chunkStart := chunkStart l;
                    chunkEnd := -1; line := line'; state := STATE_NOMINAL |})
  end%Z.

(** The loop from index [i], [rest] being [s[i:]], then the final append. *)
Fixpoint expand_loop (env : gmap string string) (s : bytes) (i : Z) (rest : bytes)
    (l : locals) : option (result MissingVariableError bytes) :=
  match rest with
  | [] =>
      tail ← go_slice s (chunkStart l) (Z.of_nat (length s));
      Some (Ok (output l ++ tail))
  | c :: rest' =>
      r ← expand_step env s i c l;
      match r with
      | Err e => Some (Err e)
      | Ok l' => expand_loop env s (i + 1)%Z rest' l'
      end
  end.

Definition ExpandEnv (env : gmap string string) (s : bytes)
    : option (result MissingVariableError bytes) :=
  expand_loop env s 0 s
    {| output := []; variable := []; chunkStart := 0; chunkEnd := -1; line := 1;
       state := STATE_NOMINAL |}.

(** ** Specification: what a text expands to

    [expands env n s r]: the text [s], which starts on line [n], expands to [r]. *)

Definition nl (c : Ascii.ascii) : Z := if decide (c = newline) then 1%Z else 0%Z.

Definition prepend (p : bytes) (r : result MissingVariableError bytes)
    : result MissingVariableError bytes :=
  match r with Ok t => Ok (p ++ t) | Err e => Err e end.

Inductive expands (env : gmap string string)
    : Z → bytes → result MissingVariableError bytes → Prop :=
| ex_nil n : expands env n [] (Ok [])
| ex_char n c s r :
    c ≠ dollar → expands env (n + nl c) s r → expands env n (c :: s) (prepend [c] r)
| ex_dollar_end n : expands env n [dollar] (Ok [dollar])
| ex_dollar n c s r :
    c ≠ lbrace → expands env (n + nl c) s r →
    expands env n (dollar :: c :: s) (prepend [dollar; c] r)
| ex_var n name s r :
    Forall (λ c, isAlphanumeric c = true) name →
    getenv env (String.string_of_list_ascii name) ≠ "" →
    expands env n s r →
    expands env n (dollar :: lbrace :: name ++ rbrace :: s)
      (prepend (String.list_ascii_of_string (getenv env (String.string_of_list_ascii name))) r)
| ex_missing n name s :
    Forall (λ c, isAlphanumeric c = true) name →
    getenv env (String.string_of_list_ascii name) = "" →
    expands env n (dollar :: lbrace :: name ++ rbrace :: s)
      (Err {| me_line := n; me_variable := String.string_of_list_ascii name |})
| ex_reject n name c s r :
    Forall (λ c, isAlphanumeric c = true) name →
    isAlphanumeric c = false → c ≠ rbrace →
    expands env (n + nl c) s r →
    expands env n (dollar :: lbrace :: name ++ c :: s)
      (prepend (dollar :: lbrace :: name ++ [c]) r)
| ex_unterminated n name :
    Forall (λ c, isAlphanumeric c = true) name →
    expands env n (dollar :: lbrace :: name) (Ok (dollar :: lbrace :: name)).

(** ** Helper lemmas *)

Lemma go_slice_chunk (pre rest : bytes) cs :
  cs ≤ length pre →
  go_slice (pre ++ rest) (Z.of_nat cs) (Z.of_nat (length pre)) = Some (drop cs pre).
Proof.
  intros H. unfold go_slice. rewrite decide_True by (rewrite length_app; lia). f_equal.
  replace (Z.to_nat (Z.of_nat (length pre) - Z.of_nat cs)) with (length pre - cs) by lia.
  rewrite Nat2Z.id, drop_app_le by done.
  rewrite take_app_le by (rewrite length_drop; lia).
  by rewrite take_ge by (rewrite length_drop; lia).
Qed.

Lemma alnum_not c d : isAlphanumeric c = true → isAlphanumeric d = false → c ≠ d.
Proof. congruence. Qed.

Lemma prepend_app p q r : prepend p (prepend q r) = prepend (p ++ q) r.
Proof. destruct r; simpl; [|done]. by rewrite app_assoc. Qed.

Lemma prepend_nil r : prepend [] r = r.
Proof. by destruct r. Qed.

(** Scanning the letters of a variable name. *)
Lemma loop_name env s name : Forall (λ c, isAlphanumeric c = true) name →
  ∀ i rest out var cs ce n,
  expand_loop env s i (name ++ rest)
    {| output := out; variable := var; chunkStart := cs; chunkEnd := ce; line := n;
       state := STATE_IN_VAR |} =
  expand_loop env s (i + Z.of_nat (length name)) rest
    {| output := out; variable := var ++ name; chunkStart := cs; chunkEnd := ce; line := n;
       state := STATE_IN_VAR |}.
Proof.
  induction 1 as [|c name Hc Hname IH]; intros; simpl.
  - by rewrite Z.add_0_r, app_nil_r.
  - unfold expand_step; simpl. rewrite (decide_False (P := c = rbrace)) by by apply alnum_not.
    rewrite Hc, (decide_False (P := c = newline)) by by apply alnum_not.
    simpl. rewrite IH, <- app_assoc. f_equal. lia.
Qed.

(** The loop in its nominal state. *)
Definition nominal (out var : bytes) (cs : nat) (ce n : Z) : locals :=
  {| output := out; variable := var; chunkStart := Z.of_nat cs; chunkEnd := ce; line := n;
     state := STATE_NOMINAL |}.

(** From a nominal state, the loop over [s] appends the pending chunk and then [r]. *)
Definition implements (env : gmap string string) (n : Z) (s : bytes)
    (r : result MissingVariableError bytes) : Prop :=
  ∀ pre out var cs ce, cs ≤ length pre →
  expand_loop env (pre ++ s) (Z.of_nat (length pre)) s (nominal out var cs ce n) =
  Some (prepend (out ++ drop cs pre) r).

(** The same when [more] was read since [pre] and belongs to the pending chunk. *)
Lemma implements_copy env n s r more pre out var cs ce i n' :
  implements env n s r → cs ≤ length pre →
  i = Z.of_nat (length pre + length more) → n' = n →
  expand_loop env (pre ++ more ++ s) i s (nominal out var cs ce n') =
  Some (prepend (out ++ drop cs pre) (prepend more r)).
Proof.
  intros Hi Hcs -> ->. rewrite prepend_app, <- app_assoc, <- drop_app_le by done.
  rewrite <- (Hi (pre ++ more) out var cs ce) by (rewrite length_app; lia).
  by rewrite length_app, <- app_assoc.
Qed.

Lemma expand_nil env n : implements env n [] (Ok []).
Proof.
  intros pre out var cs ce Hcs. simpl. pose proof (go_slice_chunk pre [] cs Hcs) as H.
  rewrite !app_nil_r in *. by rewrite H.
Qed.

Lemma line_nl c n : (if decide (c = newline) then (n + 1)%Z else n) = (n + nl c)%Z.
Proof. unfold nl. case_decide; lia. Qed.

Lemma expand_char env n c s r :
  c ≠ dollar → implements env (n + nl c) s r → implements env n (c :: s) (prepend [c] r).
Proof.
  intros Hc Hr pre out var cs ce Hcs. simpl. unfold expand_step; simpl.
  rewrite decide_False by done. simpl. rewrite line_nl.
  apply (implements_copy _ _ _ _ [c] pre out var cs ce _ _ Hr); [done| |done]. simpl. lia.
Qed.

(** What remains when the text stops inside a token. *)
Lemma expand_tail env s i var ce n' st pre out cs :
  cs ≤ length pre →
  expand_loop env (pre ++ s) i [] {| output := out; variable := var; chunkStart := Z.of_nat cs;
    chunkEnd := ce; line := n'; state := st |} =
  Some (prepend (out ++ drop cs pre) (Ok s)).
Proof.
  intros Hcs. simpl.
  pose proof (go_slice_chunk (pre ++ s) [] cs) as H. rewrite app_nil_r in H.
  rewrite H by (rewrite length_app; lia). simpl. by rewrite drop_app_le, app_assoc by done.
Qed.

Lemma expand_dollar env n c s r :
  c ≠ lbrace → implements env (n + nl c) s r →
  implements env n (dollar :: c :: s) (prepend [dollar; c] r).
Proof.
  intros Hc Hr pre out var cs ce Hcs. simpl. unfold expand_step; simpl.
  rewrite (decide_False (P := c = lbrace)) by done. simpl. rewrite line_nl.
  apply (implements_copy _ _ _ _ [dollar; c] pre out var cs _ _ _ Hr); [done| |done]. simpl. lia.
Qed.

(** The state of the loop after [${name]. *)
Lemma expand_open env n name rest pre out var cs ce :
  Forall (λ c, isAlphanumeric c = true) name →
  expand_loop env (pre ++ dollar :: lbrace :: name ++ rest) (Z.of_nat (length pre))
    (dollar :: lbrace :: name ++ rest) (nominal out var cs ce n) =
  expand_loop env (pre ++ (dollar :: lbrace :: name) ++ rest)
    (Z.of_nat (length pre + length (dollar :: lbrace :: name))) rest
    {| output := out; variable := name; chunkStart := Z.of_nat cs;
       chunkEnd := Z.of_nat (length pre); line := n; state := STATE_IN_VAR |}.
Proof.
  intros Hn. simpl. unfold expand_step; simpl. rewrite loop_name by done. simpl. f_equal. lia.
Qed.

Lemma expand_var env n name s r :
  Forall (λ c, isAlphanumeric c = true) name →
  getenv env (String.string_of_list_ascii name) ≠ "" →
  implements env n s r →
  implements env n (dollar :: lbrace :: name ++ rbrace :: s)
    (prepend (String.list_ascii_of_string (getenv env (String.string_of_list_ascii name))) r).
Proof.
  intros Hn Hv Hr pre out var cs ce Hcs. rewrite expand_open by done. cbn [expand_loop].
  unfold expand_step; simpl. rewrite decide_False, go_slice_chunk by done. simpl.
  set (v := String.list_ascii_of_string _). set (p := pre ++ dollar :: lbrace :: name ++ [rbrace]).
  pose proof (Hr p (out ++ drop cs pre ++ v) name (length p) (-1)%Z ltac:(done)) as H.
  rewrite drop_all, app_nil_r in H. rewrite prepend_app, <- app_assoc, <- H.
  unfold p, nominal. rewrite !length_app; simpl; rewrite !length_app; simpl.
  rewrite <- !app_assoc; simpl; rewrite <- !app_assoc; simpl.
  f_equal; [lia|]. f_equal. lia.
Qed.

Lemma expand_missing env n name s :
  Forall (λ c, isAlphanumeric c = true) name →
  getenv env (String.string_of_list_ascii name) = "" →
  implements env n (dollar :: lbrace :: name ++ rbrace :: s)
    (Err {| me_line := n; me_variable := String.string_of_list_ascii name |}).
Proof.
  intros Hn Hv pre out var cs ce Hcs. rewrite expand_open by done. cbn [expand_loop].
  unfold expand_step; simpl. by rewrite decide_True by done.
Qed.

Lemma expand_reject env n name c s r :
  Forall (λ c, isAlphanumeric c = true) name →
  isAlphanumeric c = false → c ≠ rbrace → implements env (n + nl c) s r →
  implements env n (dollar :: lbrace :: name ++ c :: s) (prepend (dollar :: lbrace :: name ++ [c]) r).
Proof.
  intros Hn Hc Hc' Hr pre out var cs ce Hcs. rewrite expand_open by done. cbn [expand_loop].
  unfold expand_step; simpl. rewrite (decide_False (P := c = rbrace)), Hc by done. simpl.
  rewrite line_nl.
  pose proof (implements_copy _ _ _ _ (dollar :: lbrace :: name ++ [c]) pre out name cs (-1)%Z
    (Z.of_nat (length pre + length (dollar :: lbrace :: name ++ [c]))) _ Hr Hcs eq_refl eq_refl) as H.
  simpl in H. rewrite <- app_assoc in H. simpl in H. rewrite <- H.
  rewrite length_app; simpl. f_equal. lia.
Qed.

Lemma expand_unterminated env n name :
  Forall (λ c, isAlphanumeric c = true) name →
  implements env n (dollar :: lbrace :: name) (Ok (dollar :: lbrace :: name)).
Proof.
  intros Hn pre out var cs ce Hcs.
  pose proof (expand_open env n name [] pre out var cs ce Hn) as H. rewrite !app_nil_r in H.
  rewrite H. by apply expand_tail.
Qed.

Lemma expand_dollar_end env n : implements env n [dollar] (Ok [dollar]).
Proof.
  intros pre out var cs ce Hcs. exact (expand_tail env [dollar] 0 var ce n STATE_NOMINAL pre out cs Hcs).
Qed.

#[local] Hint Resolve expand_nil expand_char expand_dollar expand_var expand_missing
  expand_reject expand_unterminated expand_dollar_end : kubauth.

Lemma loop_implements env n s r : expands env n s r → implements env n s r.
Proof. induction 1; auto with kubauth. Qed.

(** Every text expands to something: the grammar covers every input. *)
Lemma span_alnum (s : bytes) : ∃ name rest,
  s = name ++ rest ∧ Forall (λ c, isAlphanumeric c = true) name ∧
  match rest with [] => True | c :: _ => isAlphanumeric c = false end.
Proof.
  induction s as [|c s (name & rest & -> & Hn & Hr)].
  - by exists [], [].
  - destruct (isAlphanumeric c) eqn:Hc.
    + exists (c :: name), rest. split_and!; [done|by constructor|done].
    + by exists [], (c :: name ++ rest).
Qed.

Lemma expands_total env s : ∀ n, ∃ r, expands env n s r.
Proof.
  induction s as [s IH] using (induction_ltof1 _ (@length _)); unfold ltof in IH.
  intros n. destruct s as [|c s]; [eexists; constructor|].
  destruct (decide (c = dollar)) as [->|Hc]; cycle 1.
  { destruct (IH s ltac:(simpl; lia) (n + nl c)%Z) as [r Hr]. eexists; by apply ex_char. }
  destruct s as [|c s]; [eexists; apply ex_dollar_end|].
  destruct (decide (c = lbrace)) as [->|Hc]; cycle 1.
  { destruct (IH s ltac:(simpl; lia) (n + nl c)%Z) as [r Hr]. eexists; by apply ex_dollar. }
  destruct (span_alnum s) as (name & [|c rest] & -> & Hn & Hr).
  { rewrite app_nil_r. eexists; by apply ex_unterminated. }
  destruct (decide (c = rbrace)) as [->|Hc].
  - destruct (decide (getenv env (String.string_of_list_ascii name) = "")).
    + eexists; by apply ex_missing.
    + destruct (IH rest ltac:(simpl; rewrite length_app; simpl; lia) n) as [r Hr'].
      eexists; by apply ex_var.
  - destruct (IH rest ltac:(simpl; rewrite length_app; simpl; lia) (n + nl c)%Z) as [r Hr'].
    eexists; by apply ex_reject.
Qed.

Lemma ExpandEnv_expands env s r : expands env 1 s r → ExpandEnv env s = Some r.
Proof.
  intros Hr. apply loop_implements in Hr.
  pose proof (Hr [] [] [] 0 (-1)%Z ltac:(done)) as H. simpl in H.
  by rewrite prepend_nil in H.
Qed.

(** C40. [ExpandEnv] never panics and computes exactly the expansion of the text: each
    [${NAME}] is replaced by the value of the variable, an undefined or empty variable is the
    error with its name and line, and every other byte (a lone dollar, a malformed or
    unterminated reference) is copied unchanged. *)
Theorem ExpandEnv_spec env s r :
  ExpandEnv env s = Some r ↔ expands env 1 s r.
Proof.
  split; [|apply ExpandEnv_expands]. intros Hs. destruct (expands_total env s 1) as [r' Hr'].
  pose proof (ExpandEnv_expands _ _ _ Hr'). by simplify_eq.
Qed.

Lemma ExpandEnv_total env s : is_Some (ExpandEnv env s).
Proof.
  destruct (expands_total env s 1) as [r Hr]. by rewrite (ExpandEnv_expands _ _ _ Hr).
Qed.

(** A text without a dollar sign is returned as it is, whatever the environment. *)
Lemma expands_plain env s n : dollar ∉ s → expands env n s (Ok s).
Proof.
  revert n. induction s as [|c s IH]; intros n Hs; [constructor|].
  apply (ex_char _ _ _ _ (Ok s)); [set_solver|]. apply IH. set_solver.
Qed.

(** A reference preceded by a dollar sign is not expanded: the second dollar is consumed as
    the byte after the first one. *)
Lemma double_dollar_not_expanded :
  let env := {["A" := "x"]} in
  ExpandEnv env (String.list_ascii_of_string "$${A}-${A}")
  = Some (Ok (String.list_ascii_of_string "$${A}-x")).
Proof. vm_compute. reflexivity. Qed.
