(* ===== verification/Paths.v ===== *)
(** * internal/misc: adjustpath.go

    [AdjustPath] and what it uses of [path/filepath] on Unix: [IsAbs], [Join] and the lexical
    [Clean]. *)

From S2P Require Import Prelude.

Definition slash : Ascii.ascii := "/"%char.

(** The components of a path. *)
Fixpoint split_path (s : string) : list string :=
  match s with
  | EmptyString => [""]
  | String c s' =>
      if decide (c = slash) then "" :: split_path s'
      else match split_path s' with
           | x :: xs => String c x :: xs
           | [] => [String c ""]
           end
  end.

Fixpoint join_path (l : list string) : string :=
  match l with
  | [] => ""
  | [x] => x
  | x :: l' => x +:+ "/" +:+ join_path l'
  end.

Definition IsAbs (p : string) : bool :=
  match p with String c _ => bool_decide (c = slash) | EmptyString => false end.

(** One component of [Clean]; the stack holds the output, last component first. *)
Definition clean_step (rooted : bool) (stack : list string) (elem : string) : list string :=
  if decide (elem = "" ∨ elem = ".") then stack
  else if decide (elem = "..") then
    match stack with
    | [] => if rooted then [] else [".."]
    | top :: rest => if decide (top = "..") then ".." :: stack else rest
    end
  else elem :: stack.

Definition clean_stack (p : string) : list string :=
  foldl (clean_step (IsAbs p)) [] (split_path p).

Definition Clean (p : string) : string :=
  if str_empty p then "."
  else if IsAbs p then "/" +:+ join_path (reverse (clean_stack p))
  else match clean_stack p with [] => "." | st => join_path (reverse st) end.

(** [Join] of two elements. *)
Definition Join (base p : string) : string :=
  if str_empty base then (if str_empty p then "" else Clean p)
  else if str_empty p then Clean base
  else Clean (base +:+ "/" +:+ p).

Definition AdjustPath (baseFolder path : string) : string :=
  if str_empty path then path
  else
    let path := if IsAbs path then path else Join baseFolder path in
    Clean path.

(** ** Clean paths *)

Definition plain (x : string) : Prop := x ≠ "" ∧ x ≠ "." ∧ x ≠ "..".

(** No slash in a component. *)
Fixpoint no_slash (s : string) : Prop :=
  match s with EmptyString => True | String c s' => c ≠ slash ∧ no_slash s' end.

Lemma split_path_nonempty s : split_path s ≠ [].
Proof. destruct s as [|c s]; simpl; [done|]. case_decide; [done|]. by destruct (split_path s). Qed.

Lemma split_path_no_slash s : Forall no_slash (split_path s).
Proof.
  induction s as [|c s IH]; simpl; [by repeat constructor|]. case_decide; [by constructor|].
  destruct (split_path s) as [|x xs]; [by repeat constructor|].
  apply Forall_cons in IH as [Hx Hxs]. by repeat constructor.
Qed.

Lemma split_component x : no_slash x → split_path x = [x].
Proof.
  induction x as [|c x IH]; [done|]. simpl. intros [Hc Hx]. rewrite decide_False by done.
  by rewrite IH.
Qed.

Lemma split_app x s : no_slash x → split_path (x +:+ "/" +:+ s) = x :: split_path s.
Proof.
  induction x as [|c x IH]; [done|]. intros [Hc Hx].
  change (split_path (String c (x +:+ "/" +:+ s)) = String c x :: split_path s).
  simpl. rewrite decide_False by done. by rewrite IH.
Qed.

Lemma split_join l : l ≠ [] → Forall no_slash l → split_path (join_path l) = l.
Proof.
  induction l as [|x [|y l] IH]; intros Hl HF; [done| |].
  - apply Forall_cons in HF as [Hx _]. by apply split_component.
  - apply Forall_cons in HF as [Hx HF]. change (join_path (x :: y :: l))
      with (x +:+ "/" +:+ join_path (y :: l)).
    rewrite split_app by done. by rewrite IH.
Qed.

(** The stacks [Clean] builds: plain components above leading [..] ones, and none of these in a
    rooted path. *)
Definition canonical (rooted : bool) (st : list string) : Prop :=
  ∃ names dots, st = names ++ dots ∧ Forall plain names ∧ Forall (.= "..") dots ∧
    (rooted = true → dots = []).

Lemma canonical_nil rooted : canonical rooted [].
Proof. by exists [], []. Qed.

Lemma clean_step_canonical rooted st x :
  canonical rooted st → canonical rooted (clean_step rooted st x).
Proof.
  intros (ns & ds & -> & Hn & Hd & Hr). unfold clean_step.
  destruct (decide (x = "" ∨ x = ".")) as [Hskip|Hskip]; [by exists ns, ds|].
  destruct (decide (x = "..")) as [->|Hx].
  - destruct ns as [|n ns]; simpl.
    + destruct ds as [|d ds]; simpl.
      * destruct rooted; [apply canonical_nil|]. exists [], [".."]. by repeat constructor.
      * apply Forall_cons in Hd as [-> Hd]. rewrite decide_True by done.
        exists [], (".." :: ".." :: ds). split_and!; [done|done|by repeat constructor|].
        intros HR. specialize (Hr HR). done.
    + apply Forall_cons in Hn as [Hn0 Hn]. rewrite decide_False by apply Hn0. by exists ns, ds.
  - exists (x :: ns), ds. split_and!; [done| |done|done].
    constructor; [|done]. unfold plain. naive_solver.
Qed.

Lemma clean_stack_canonical p : canonical (IsAbs p) (clean_stack p).
Proof.
  unfold clean_stack. generalize (canonical_nil (IsAbs p)). generalize ([] : list string).
  induction (split_path p) as [|x l IH]; intros st Hst; [done|]. simpl.
  by apply IH, clean_step_canonical.
Qed.

Lemma clean_step_no_slash rooted st x :
  no_slash x → Forall no_slash st → Forall no_slash (clean_step rooted st x).
Proof.
  intros Hx Hst. unfold clean_step. repeat case_decide; subst; try done.
  - destruct st as [|t st]; [by destruct rooted; repeat constructor|].
    apply Forall_cons in Hst as [??]. case_decide; by repeat constructor.
  - by constructor.
Qed.

Lemma clean_fold_no_slash rooted l st :
  Forall no_slash l → Forall no_slash st → Forall no_slash (foldl (clean_step rooted) st l).
Proof.
  intros Hl. revert st. induction Hl as [|x l Hx Hl IH]; intros st Hst; [done|].
  simpl. by apply IH, clean_step_no_slash.
Qed.

Lemma clean_stack_no_slash p : Forall no_slash (clean_stack p).
Proof. apply clean_fold_no_slash; [apply split_path_no_slash|constructor]. Qed.

(** Running [Clean] over a canonical stack gives it back. *)
Lemma dots_repeat ds : Forall (.= "..") ds → ds = replicate (length ds) "..".
Proof. induction 1 as [|d ds -> Hd IH]; simpl; [done|]. by rewrite <- IH. Qed.

Lemma clean_dots n k :
  foldl (clean_step false) (replicate k "..") (replicate n "..") = replicate (n + k) "..".
Proof.
  revert k. induction n as [|n IH]; intros k; [done|]. simpl.
  change (foldl (clean_step false) (clean_step false (replicate k "..") "..") (replicate n "..")
          = ".." :: replicate (n + k) "..").
  assert (clean_step false (replicate k "..") ".." = replicate (S k) "..") as -> by (by destruct k).
  rewrite IH. change (".." :: replicate (n + k) "..") with (replicate (S (n + k)) "..").
  f_equal. lia.
Qed.

Lemma clean_plain rooted st ns :
  Forall plain ns → foldl (clean_step rooted) st ns = reverse ns ++ st.
Proof.
  intros Hn. revert st. induction Hn as [|n ns (H1 & H2 & H3) Hns IH]; intros st; [done|].
  simpl. rewrite IH, reverse_cons, <- app_assoc. simpl. f_equal. unfold clean_step.
  rewrite decide_False by naive_solver. by rewrite decide_False.
Qed.

Lemma clean_canonical rooted st : canonical rooted st → foldl (clean_step rooted) [] (reverse st) = st.
Proof.
  intros (ns & ds & -> & Hn & Hd & Hr). rewrite reverse_app, foldl_app.
  assert (foldl (clean_step rooted) [] (reverse ds) = ds) as ->.
  { destruct rooted; [by rewrite Hr|]. rewrite (dots_repeat _ Hd), reverse_replicate.
    pose proof (clean_dots (length ds) 0) as H. simpl in H. by rewrite Nat.add_0_r in H. }
  rewrite clean_plain by (by apply Forall_reverse). by rewrite reverse_involutive.
Qed.

Lemma IsAbs_join st : Forall no_slash st → IsAbs (join_path st) = true → ∃ r, st = "" :: r.
Proof.
  destruct st as [|x st]; [done|]. intros [Hx _]%Forall_cons. destruct x as [|c x]; [eauto|].
  destruct Hx as [Hc _]. destruct st; simpl; by rewrite bool_decide_false.
Qed.

Lemma canonical_nonempty rooted st x : canonical rooted st → x ∈ st → x ≠ "" ∧ x ≠ ".".
Proof.
  intros (ns & ds & -> & Hn & Hd & _) Hx. apply elem_of_app in Hx as [Hx|Hx].
  - rewrite Forall_forall in Hn. destruct (Hn x Hx) as (? & ? & ?). done.
  - rewrite Forall_forall in Hd. by rewrite (Hd x Hx).
Qed.

Lemma join_nonempty st rooted : canonical rooted st → st ≠ [] → join_path (reverse st) ≠ "".
Proof.
  intros Hc Hst. destruct (reverse st) as [|x [|y l]] eqn:E.
  - apply (f_equal reverse) in E. by rewrite reverse_involutive in E.
  - assert (x ∈ st) as Hx by (apply elem_of_reverse; rewrite E; set_solver).
    by destruct (canonical_nonempty _ _ _ Hc Hx).
  - by destruct x.
Qed.

(** The result of [Clean], by its components. *)
Lemma Clean_components p :
  p ≠ "" →
  IsAbs (Clean p) = IsAbs p ∧ clean_stack (Clean p) = clean_stack p.
Proof.
  intros Hp. unfold Clean. rewrite (proj2 (str_empty_false p) Hp).
  pose proof (clean_stack_canonical p) as Hc. pose proof (clean_stack_no_slash p) as Hn.
  destruct (IsAbs p) eqn:Ha.
  - split; [done|]. unfold clean_stack at 1.
    change (IsAbs ("/" +:+ _)) with true.
    change (split_path ("/" +:+ ?x)) with ("" :: split_path x). simpl.
    change (clean_step true [] "") with ([] : list string).
    destruct (clean_stack p) as [|x st] eqn:E; [done|].
    rewrite split_join, clean_canonical by (try done; try (by apply Forall_reverse);
      intros H; apply (f_equal reverse) in H; by rewrite reverse_involutive in H). done.
  - destruct (clean_stack p) as [|x st] eqn:E; [done|].
    assert (IsAbs (join_path (reverse (x :: st))) = false) as Hf.
    { apply not_true_is_false. intros (r & Hr)%IsAbs_join; [|by apply Forall_reverse].
      assert ("" ∈ x :: st) as Hx by (apply elem_of_reverse; rewrite Hr; set_solver).
      by destruct (canonical_nonempty _ _ _ Hc Hx). }
    split; [done|]. unfold clean_stack at 1. rewrite Hf, split_join, clean_canonical; try done.
    + intros H. apply (f_equal reverse) in H. by rewrite reverse_involutive in H.
    + by apply Forall_reverse.
Qed.

Lemma Clean_nonempty p : Clean p ≠ "".
Proof.
  unfold Clean. destruct (str_empty p); [done|]. pose proof (clean_stack_canonical p) as Hc.
  destruct (IsAbs p); [done|]. destruct (clean_stack p) eqn:E; [done|]. by eapply join_nonempty.
Qed.

Lemma Clean_idempotent p : Clean (Clean p) = Clean p.
Proof.
  destruct (decide (p = "")) as [->|Hp]; [done|].
  destruct (Clean_components p Hp) as [Ha Hs].
  unfold Clean at 1. rewrite (proj2 (str_empty_false _) (Clean_nonempty p)), Ha, Hs.
  unfold Clean. by rewrite (proj2 (str_empty_false p) Hp).
Qed.

Lemma IsAbs_app b s : b ≠ "" → IsAbs (b +:+ s) = IsAbs b.
Proof. by destruct b. Qed.

(** A configured path is empty or resolved against the folder of the configuration: the
    result is in normal form, an absolute path does not depend on the folder, a relative one
    is absolute as soon as the folder is, and it then holds no parent reference. *)
Theorem AdjustPath_spec base p :
  p ≠ "" →
  Clean (AdjustPath base p) = AdjustPath base p ∧
  (IsAbs p = true → AdjustPath base p = Clean p) ∧
  (IsAbs base = true ∨ IsAbs p = true →
     IsAbs (AdjustPath base p) = true ∧ ".." ∉ clean_stack (AdjustPath base p)).
Proof.
  intros Hp. unfold AdjustPath. rewrite (proj2 (str_empty_false p) Hp).
  split_and!; [apply Clean_idempotent|by intros ->|].
  intros Hab. set (q := if IsAbs p then p else Join base p).
  assert (Hq : q ≠ "" ∧ IsAbs q = true).
  { unfold q. destruct (IsAbs p) eqn:Hap; [done|]. destruct Hab as [Hb|]; [|done].
    assert (base ≠ "") as Hne by (by destruct base). unfold Join.
    rewrite (proj2 (str_empty_false base) Hne), (proj2 (str_empty_false p) Hp).
    split; [apply Clean_nonempty|].
    destruct (Clean_components (base +:+ "/" +:+ p)) as [-> _]; [by destruct base|].
    by rewrite IsAbs_app. }
  destruct Hq as [Hq Hqa]. destruct (Clean_components q Hq) as [-> ->]. split; [done|].
  destruct (clean_stack_canonical q) as (ns & ds & -> & Hn & _ & Hr).
  rewrite (Hr Hqa), app_nil_r. intros Hin. rewrite Forall_forall in Hn.
  by destruct (Hn _ Hin) as (_ & _ & ?).
Qed.

Lemma AdjustPath_spec_witness :
  AdjustPath "/etc/kubauth" "../certs/./ca.crt" = "/etc/certs/ca.crt" ∧
  ".." ∉ clean_stack (AdjustPath "/etc/kubauth" "../certs/./ca.crt").
Proof.
  split; [reflexivity|].
  apply (AdjustPath_spec "/etc/kubauth" "../certs/./ca.crt"); [discriminate|left; reflexivity].
Defined.

Example Clean_relative : Clean "a/../../b//c/." = "../b/c".
Proof. reflexivity. Qed.
