(* ===== verification/LoadConfig.v ===== *)
(** * internal/misc: loadconfig.go and logger.go

    Reading the YAML configuration of a module (path, environment expansion, strict decoding)
    and the validation of the logging parameters. The file system and the YAML decoder are
    arguments; [slog.Level.UnmarshalText] is modelled as the standard library documents it. *)

From S2P Require Import Prelude ExpandEnv Paths.

(** [filepath.Abs]. *)
Definition Abs (cwd : result string string) (p : string) : result string string :=
  if IsAbs p then Ok (Clean p) else try! wd <- cwd; Ok (Join wd p).

(** What [decoder.Decode(conf)] did. *)
Inductive decoded (C : Type) := Decoded (c : C) | DecodeEOF | DecodeErr (e : string).
Arguments Decoded {C} c.
Arguments DecodeEOF {C}.
Arguments DecodeErr {C} e.

Inductive load_error :=
| PathError (e : string)
| ReadError (e : string)
| ExpandError (e : MissingVariableError)
| DecodeError (file e : string).

Section load.
Context {C : Type} (decode : C → string → decoded C).
Context (read_file : string → result string string) (env : gmap string string).
Context (cwd : result string string).

(** [LoadConfig]: the absolute path and the configuration or the error. The outer [None] is a
    slice out of bounds in [ExpandEnv]. *)
Definition LoadConfig (configFile : string) (conf : C) : option (string * result load_error C) :=
  match Abs cwd configFile with
  | Err e => Some ("", Err (PathError e))
  | Ok absConfigFile =>
      match read_file absConfigFile with
      | Err e => Some (absConfigFile, Err (ReadError e))
      | Ok content =>
          match ExpandEnv env (String.list_ascii_of_string content) with
          | None => None
          | Some (Err e) => Some (absConfigFile, Err (ExpandError e))
          | Some (Ok content2) =>
              match decode conf (String.string_of_list_ascii content2) with
              | Decoded c => Some (absConfigFile, Ok c)
              | DecodeEOF => Some (absConfigFile, Ok conf)
              | DecodeErr e => Some (absConfigFile, Err (DecodeError configFile e))
              end
          end
      end
  end.

(** Loading a configuration never panics, and it succeeds exactly when the file can be
    located and read, every variable it references is set, and the expanded text decodes
    strictly or is empty, in which case the defaults are kept. *)
Theorem LoadConfig_spec configFile conf :
  is_Some (LoadConfig configFile conf) ∧
  ∀ p c, LoadConfig configFile conf = Some (p, Ok c) ↔
    Abs cwd configFile = Ok p ∧
    ∃ content text, read_file p = Ok content ∧
      expands env 1 (String.list_ascii_of_string content) (Ok text) ∧
      (decode conf (String.string_of_list_ascii text) = Decoded c ∨
       decode conf (String.string_of_list_ascii text) = DecodeEOF ∧ c = conf).
Proof.
  unfold LoadConfig. destruct (Abs cwd configFile) as [p|e]; [|split; [eauto|]; by split; [|intros []]].
  destruct (read_file p) as [content|e] eqn:Hr;
    [|split; [eauto|]; split; [done|]; intros ([= ->] & ct & tx & H & _); congruence].
  set (bs := String.list_ascii_of_string content).
  destruct (expands_total env bs 1) as [r Hex].
  pose proof (ExpandEnv_expands _ _ _ Hex) as HE. rewrite HE.
  assert (Hinv : ∀ p' c, (Ok (E:=string) p = Ok p' ∧ ∃ content text, read_file p' = Ok content ∧
      expands env 1 (String.list_ascii_of_string content) (Ok text) ∧
      (decode conf (String.string_of_list_ascii text) = Decoded c ∨
       decode conf (String.string_of_list_ascii text) = DecodeEOF ∧ c = conf)) ↔
    p = p' ∧ ∃ text, r = Ok text ∧ (decode conf (String.string_of_list_ascii text) = Decoded c ∨
       decode conf (String.string_of_list_ascii text) = DecodeEOF ∧ c = conf)).
  { intros p' c. split.
    - intros ([= <-] & content' & text' & Hr' & Ht & Hc). rewrite Hr in Hr'. simplify_eq.
      apply ExpandEnv_expands in Ht. unfold bs in HE. rewrite HE in Ht. simplify_eq. eauto.
    - intros (<- & text & -> & Hc). split; [done|]. exists content, text. auto. }
  destruct r as [text|e].
  - destruct (decode conf (String.string_of_list_ascii text)) as [c0| |e] eqn:Hd; (split; [eauto|]);
      intros p' c; rewrite Hinv; split; try done; try (intros [= <- <-]; split; [done|]; exists text; by auto);
      try (intros (<- & text' & [= <-] & Hc); rewrite Hd in Hc; destruct Hc as [Hc|[Hc ->]]; congruence).
  - split; [eauto|]. intros p' c. rewrite Hinv. split; [done|]. by intros (_ & text & ? & _).
Qed.
End load.

(** ** logger.go *)

Record LogConfig := { log_Level : string; log_Mode : string }.

Inductive log_handler := JSONHandler (level : Z) | TextHandler (level : Z).

(** The text before the first [+] or [-], and the rest from there. *)
Fixpoint split_sign (s : string) : string * option string :=
  match s with
  | EmptyString => ("", None)
  | String c s' =>
      if decide (c = "+"%char ∨ c = "-"%char) then ("", Some s)
      else let (a, b) := split_sign s' in (String c a, b)
  end.

(** [slog.Level.UnmarshalText]. *)
Definition parse_level (s : string) : option Z :=
  let (name, sfx) := split_sign s in
  offset ← match sfx with None => Some 0%Z | Some o => Atoi o end;
  base ← (list_to_map [("DEBUG", (-4)%Z); ("INFO", 0%Z); ("WARN", 4%Z); ("ERROR", 8%Z)]
            : gmap string Z) !! to_upper name;
  Some (wrap64 (base + offset)).

Definition NewLogger (logConfig : option LogConfig) : result string log_handler :=
  match logConfig with
  | None => Err "logConfig cannot be nil"
  | Some c =>
      if str_empty (log_Level c) then Err "log level cannot be empty"
      else match parse_level (log_Level c) with
           | None => Err ("invalid log level: " +:+ log_Level c +:+
                          ". Valid levels are: DEBUG, INFO, WARN, ERROR")
           | Some level =>
               if str_empty (log_Mode c) then Err "log mode cannot be empty"
               else if str_eqb (to_lower (log_Mode c)) "json" then Ok (JSONHandler level)
               else if str_eqb (to_lower (log_Mode c)) "text" then Ok (TextHandler level)
               else Err ("invalid log mode: " +:+ log_Mode c +:+ ". Valid modes are: json, text")
           end
  end.

Lemma NewLogger_ok c h :
  NewLogger (Some c) = Ok h ↔
  ∃ level, parse_level (log_Level c) = Some level ∧
    (to_lower (log_Mode c) = "json" ∧ h = JSONHandler level ∨
     to_lower (log_Mode c) = "text" ∧ h = TextHandler level).
Proof.
  unfold NewLogger, str_empty, str_eqb.
  case_bool_decide as Hl; [rewrite Hl; simpl; naive_solver|].
  destruct (parse_level _) as [level|]; [|naive_solver].
  case_bool_decide as Hm; [rewrite Hm; simpl; naive_solver|].
  repeat case_bool_decide; naive_solver congruence.
Qed.

Example parse_level_warn : parse_level "warn-2" = Some 2%Z.
Proof. reflexivity. Qed.
