(* ===== verification/Proto.v ===== *)
(** * internal/proto: the identity protocol

    The request and response every Kubauth module exchanges on [v1/identity], the detail
    records the merger adds, and [Exchange], the client side of the protocol. A [Status] is a
    Go string: a remote provider may answer any string, not only the documented constants.
    A nil [[]string] is the empty list (the code only takes lengths, ranges and appends); a
    nil claim map is [None], since the code tests for it. *)

From S2P Require Import Prelude Values.

Abbreviation Status := string.

Definition UserNotFound : Status := "userNotFound".
Definition Disabled : Status := "disabled".
Definition PasswordChecked : Status := "passwordChecked".
Definition PasswordFail : Status := "passwordFail".
Definition PasswordUnchecked : Status := "passwordUnchecked".
Definition PasswordMissing : Status := "passwordMissing".
Definition Undefined : Status := "undefined".
Definition InvalidOldPassword : Status := "invalidOldPassword".

Record User := {
  Login : string;
  Uid : option Z;
  Name : string;
  Emails : list string;
  Groups : list string;
  Claims : option claims;
}.

Definition InitUser (login : string) : User :=
  {| Login := login; Uid := None; Name := ""; Emails := []; Groups := [];
     Claims := Some ∅ |}.

Record IdentityRequest := { req_Login : string; req_Password : string }.

Record Translated := {
  tr_Groups : list string;
  tr_Claims : option claims;
  tr_Uid : option Z;
}.

Record ProviderSpec := {
  ps_Name : string;
  ps_CredentialAuthority : bool;
  ps_GroupAuthority : bool;
  ps_ClaimAuthority : bool;
  ps_NameAuthority : bool;
  ps_EmailAuthority : bool;
}.

Record UserDetail := {
  ud_User : User;
  ud_Status : Status;
  ud_Provider : ProviderSpec;
  ud_Translated : Translated;
}.

Record IdentityResponse := {
  resp_User : User;
  resp_Status : Status;
  resp_Details : option (list UserDetail);
  resp_Authority : string;
}.

(** The zero value of the struct, which the JSON decoder fills. *)
Definition zero_User : User :=
  {| Login := ""; Uid := None; Name := ""; Emails := []; Groups := []; Claims := None |}.
Definition zero_IdentityResponse : IdentityResponse :=
  {| resp_User := zero_User; resp_Status := ""; resp_Details := None; resp_Authority := "" |}.

(** Functional updates of a [User]. *)
Definition set_Uid (uid : option Z) (u : User) : User :=
  {| Login := Login u; Uid := uid; Name := Name u; Emails := Emails u; Groups := Groups u;
     Claims := Claims u |}.
Definition set_Name (n : string) (u : User) : User :=
  {| Login := Login u; Uid := Uid u; Name := n; Emails := Emails u; Groups := Groups u;
     Claims := Claims u |}.
Definition set_Emails (es : list string) (u : User) : User :=
  {| Login := Login u; Uid := Uid u; Name := Name u; Emails := es; Groups := Groups u;
     Claims := Claims u |}.
Definition set_Groups (gs : list string) (u : User) : User :=
  {| Login := Login u; Uid := Uid u; Name := Name u; Emails := Emails u; Groups := gs;
     Claims := Claims u |}.
Definition set_Claims (c : option claims) (u : User) : User :=
  {| Login := Login u; Uid := Uid u; Name := Name u; Emails := Emails u; Groups := Groups u;
     Claims := c |}.

(** A Go map variable read as a map: reading and ranging over nil is the empty map. *)
Definition map_of (c : option claims) : claims := default ∅ c.

(** ** The authenticator interface ([handlers.Authenticator])

    What every identity module (ucrd, ldap, merger, audit) offers to the HTTP layer. [W] is
    the state of the world it runs in (the Kubernetes API, the LDAP server, the remote
    providers): the call may read and change it. *)
Class Authenticator (W T : Type) := {
  Authenticate : T → IdentityRequest → W → result string IdentityResponse * W;
}.
