(* ===== verification/K8s.v ===== *)
(** * Answers of the Kubernetes API client

    The controller-runtime client is not part of the repository. What the modules use of it is
    its answers: a [Get] finds the object, reports that it does not exist, or fails for another
    reason. Each component takes the calls it makes as arguments, with these result types. *)

From S2P Require Import Prelude.

Inductive get_result (A : Type) : Type :=
| Found (a : A)
| NotFound
| GetErr (e : string).
Arguments Found {A} a.
Arguments NotFound {A}.
Arguments GetErr {A} e.

(** The error of a write: [client.IgnoreNotFound] forgives a missing object, a stale or
    concurrent write is a conflict. *)
Inductive api_error := ErrNotFound | ErrConflict | ErrAlreadyExists | ErrOther (e : string).

#[export] Instance api_error_eq : EqDecision api_error.
Proof. solve_decision. Defined.

(** [client.IgnoreNotFound]. *)
Definition IgnoreNotFound (o : option api_error) : option api_error :=
  match o with Some ErrNotFound => None | _ => o end.

(** ** A collection of named objects

    The create, read, update, delete and list calls on one kind of object in one namespace,
    with the state [W] of the cluster, and the laws the modules rely on: a call that succeeds
    has exactly its documented effect on the collection, a call that fails has none. Reads are
    those of the current state. *)
Class ObjectStore (W A : Type) := {
  kobjects : W → gmap string A;
  kget : string → W → get_result A;
  klist : W → result string (list (string * A));
  kcreate : string → A → W → option api_error * W;
  kupdate : string → A → W → option api_error * W;
  kdelete : string → W → option api_error * W;
}.

Class ObjectStoreLaws (W A : Type) `{ObjectStore W A} : Prop := {
  kget_Found k w a : kget k w = Found a → kobjects w !! k = Some a;
  kget_NotFound k w : kget k w = NotFound (A:=A) → kobjects w !! k = None;
  klist_Ok w l : klist w = Ok l → l ≡ₚ map_to_list (kobjects w);
  kcreate_ok k (a : A) w w' :
    kcreate k a w = (None, w') → kobjects w !! k = None ∧ kobjects w' = <[k := a]> (kobjects w);
  kcreate_err k (a : A) w w' e : kcreate k a w = (Some e, w') → kobjects w' = kobjects w;
  kupdate_ok k (a : A) w w' :
    kupdate k a w = (None, w') → is_Some (kobjects w !! k) ∧ kobjects w' = <[k := a]> (kobjects w);
  kupdate_err k (a : A) w w' e : kupdate k a w = (Some e, w') → kobjects w' = kobjects w;
  kdelete_ok k w w' : kdelete k w = (None, w') → kobjects w' = delete k (kobjects w);
  kdelete_err k w w' e : kdelete k w = (Some e, w') → kobjects w' = kobjects w;
  kdelete_missing k w w' : kdelete k w = (Some ErrNotFound, w') → kobjects w !! k = None;
}.

(** A cluster in memory with injected faults: each write consumes the head of the list, and
    fails when it is an error. *)
Record cluster (A : Type) := { objs : gmap string A; faults : list (option api_error) }.
Arguments objs {A}.
Arguments faults {A}.

Definition with_fault {A} (w : cluster A) (k : cluster A → option api_error * cluster A)
    : option api_error * cluster A :=
  match faults w with
  | [] => k w
  | None :: fs => k {| objs := objs w; faults := fs |}
  | Some ErrNotFound :: fs => (Some (ErrOther "unavailable"), {| objs := objs w; faults := fs |})
  | Some e :: fs => (Some e, {| objs := objs w; faults := fs |})
  end.

#[export] Instance cluster_store A : ObjectStore (cluster A) A := {
  kobjects := objs;
  kget k w := match objs w !! k with Some a => Found a | None => NotFound end;
  klist w := Ok (map_to_list (objs w));
  kcreate k a w := with_fault w (λ w,
    match objs w !! k with
    | Some _ => (Some ErrAlreadyExists, w)
    | None => (None, {| objs := <[k := a]> (objs w); faults := faults w |})
    end);
  kupdate k a w := with_fault w (λ w,
    match objs w !! k with
    | Some _ => (None, {| objs := <[k := a]> (objs w); faults := faults w |})
    | None => (Some ErrNotFound, w)
    end);
  kdelete k w := with_fault w (λ w,
    match objs w !! k with
    | Some _ => (None, {| objs := delete k (objs w); faults := faults w |})
    | None => (Some ErrNotFound, w)
    end);
}.

#[export] Instance cluster_laws A : ObjectStoreLaws (cluster A) A.
Proof.
  split; simpl; unfold with_fault.
  - intros k w a. destruct (objs w !! k); by intros [= ->].
  - intros k w. by destruct (objs w !! k).
  - intros w l. by intros [= ->].
  - intros k a w w'. destruct (faults w) as [|[[]|] fs]; simpl; try done;
      (destruct (objs w !! k) eqn:E; [done|]); by intros [= <-].
  - intros k a w w' e. destruct (faults w) as [|[[]|] fs]; simpl; try by intros [= _ <-].
    all: by destruct (objs w !! k); intros [= _ <-].
  - intros k a w w'. destruct (faults w) as [|[[]|] fs]; simpl; try done;
      (destruct (objs w !! k) eqn:E; [|done]); intros [= <-]; eauto.
  - intros k a w w' e. destruct (faults w) as [|[[]|] fs]; simpl; try by intros [= _ <-].
    all: by destruct (objs w !! k); intros [= _ <-].
  - intros k w w'. destruct (faults w) as [|[[]|] fs]; simpl; try done;
      (destruct (objs w !! k) eqn:E; [|done]); by intros [= <-].
  - intros k w w' e. destruct (faults w) as [|[[]|] fs]; simpl; try by intros [= _ <-].
    all: by destruct (objs w !! k); intros [= _ <-].
  - intros k w w'. destruct (faults w) as [|[[]|] fs]; simpl; try done;
      (destruct (objs w !! k) eqn:E; [done|]); by intros [= <-].
Qed.

(** ** Removing the objects that match a test, one delete call per object *)
Section sweep.
Context {W A : Type} `{ObjectStoreLaws W A} (expired : A → bool).

(** The loop of the cleaners: the numbers of deletions and of failures, and the cluster. *)
Fixpoint sweep (items : list (string * A)) (deleted errors : nat) (w : W) : nat * nat * W :=
  match items with
  | [] => (deleted, errors, w)
  | (k, a) :: rest =>
      if expired a then
        match kdelete k w with
        | (None, w') => sweep rest (S deleted) errors w'
        | (Some _, w') => sweep rest deleted (S errors) w'
        end
      else sweep rest deleted errors w
  end.

Lemma sweep_spec items d e w d' e' w' :
  sweep items d e w = (d', e', w') →
  NoDup items.*1 → (∀ k a, (k, a) ∈ items → kobjects w !! k = Some a) →
  (∀ k a, kobjects w' !! k = Some a → kobjects w !! k = Some a) ∧
  (∀ k a, kobjects w !! k = Some a → (expired a = false ∨ k ∉ items.*1) → kobjects w' !! k = Some a) ∧
  (e' = e → ∀ k a, (k, a) ∈ items → expired a = true → kobjects w' !! k = None) ∧
  d' + e' = d + e + length (filter (λ ka, expired ka.2 = true) items) ∧ e ≤ e'.
Proof.
  revert d e w. induction items as [|[k a] items IH]; intros d e w; simpl.
  { intros [= <- <- <-] _ _. split_and!; try done; simpl; try lia.
    intros _ k a Hk. by apply not_elem_of_nil in Hk. }
  intros Hs Hnd Hin. apply NoDup_cons in Hnd as [Hk Hnd]. rewrite filter_cons. simpl.
  assert (Hin' : ∀ k a, (k, a) ∈ items → kobjects w !! k = Some a).
  { intros k' a' Hk'. apply Hin. by apply list_elem_of_further. }
  destruct (expired a) eqn:Hx; cycle 1.
  { apply IH in Hs as (H1 & H2 & H3 & H4 & H5); [|done|done].
    rewrite decide_False by done. split_and!; try done.
    - intros k' a' Hk' Hcase. apply H2; [done|].
      destruct Hcase as [?|Hn]; [by left|right]. set_solver.
    - intros He k' a' [[= -> ->]|Hr]%elem_of_cons Hexp; [congruence|eauto]. }
  rewrite decide_True by done. simpl. destruct (kdelete k w) as [[err|] w1] eqn:Hdel.
  - pose proof (kdelete_err _ _ _ _ Hdel) as Hobj.
    apply IH in Hs as (H1 & H2 & H3 & H4 & H5); [|done|by rewrite Hobj].
    rewrite Hobj in H1, H2. split_and!; try done; try lia.
    intros k' a' Hk' Hcase. apply H2; [done|]. destruct Hcase as [?|Hn]; [by left|right; set_solver].
  - pose proof (kdelete_ok _ _ _ Hdel) as Hobj.
    apply IH in Hs as (H1 & H2 & H3 & H4 & H5); [|done|]; cycle 1.
    { intros k' a' Hk'. rewrite Hobj, lookup_delete_ne; [by apply Hin'|].
      intros <-. apply Hk, list_elem_of_fmap. by exists (k, a'). }
    rewrite Hobj in H1, H2. split_and!; try lia.
    + intros k' a' Hk'. apply H1 in Hk'. by apply lookup_delete_Some in Hk' as [_ ?].
    + intros k' a' Hk' Hcase. assert (k' ≠ k) as Hne.
      { intros ->. destruct Hcase as [Hc|Hc]; [|set_solver].
        rewrite (Hin k a) in Hk' by apply list_elem_of_here. simplify_eq. congruence. }
      apply H2; [by rewrite lookup_delete_ne|]. destruct Hcase as [?|Hn]; [by left|right; set_solver].
    + intros He k' a' [[= -> ->]|Hr]%elem_of_cons Hexp; [|by eapply H3].
      destruct (kobjects w' !! k) as [x|] eqn:E; [|done]. apply H1 in E.
      by rewrite lookup_delete_eq in E.
Qed.

(** Sweeping a whole listing. *)
Lemma sweep_listing w l d' e' w' :
  klist w = Ok l → sweep l 0 0 w = (d', e', w') →
  (∀ k a, kobjects w' !! k = Some a → kobjects w !! k = Some a) ∧
  (∀ k a, kobjects w !! k = Some a → expired a = false → kobjects w' !! k = Some a) ∧
  (e' = 0 → kobjects w' = filter (λ ka, expired ka.2 = false) (kobjects w)).
Proof.
  intros Hl Hs. pose proof (klist_Ok _ _ Hl) as Hp.
  apply sweep_spec in Hs as (H1 & H2 & H3 & _).
  - split_and!; [done|eauto|]. intros ->. apply map_eq. intros k.
    destruct (kobjects w' !! k) as [a|] eqn:E.
    + symmetry. apply map_lookup_filter_Some. pose proof (H1 _ _ E) as E'. split; [done|].
      apply not_true_is_false. intros Hx. rewrite (H3 eq_refl k a) in E; [done| |done].
      rewrite Hp. by apply elem_of_map_to_list.
    + symmetry. apply map_lookup_filter_None. destruct (kobjects w !! k) as [a|] eqn:E'; [|by left].
      right. intros ? [= <-] Hx. simpl in Hx. rewrite (H2 k a) in E; [done|done|by left].
  - rewrite Hp. apply NoDup_fst_map_to_list.
  - intros k a. rewrite Hp. apply elem_of_map_to_list.
Qed.
End sweep.
