(* ===== verification/HttpClient.v ===== *)
(** * internal/httpclient and proto.Exchange

    [New] validates the base URL and loads the CA certificates; [Do] sends one request and
    maps the status code to an error; [Exchange] wraps it with the JSON coding of the
    protocol. The network, the file system and the TLS and PEM libraries are arguments of the
    definitions that use them. *)

From Stdlib Require Import Ascii.
From S2P Require Import Prelude Values Misc Proto.

Record HttpAuth := { ha_Login : string; ha_Password : string; ha_Token : string }.

Record Config := {
  BaseURL : string;
  RootCaPaths : list string;
  RootCaDatas : list string;
  RootCaBytes : list (list Ascii.ascii);
  InsecureSkipVerify : bool;
  DumpExchanges : bool;
  HttpAuth_ : option HttpAuth;
  Label : string;
}.

(** The Authorization header: [SetBasicAuth] or a bearer token. *)
Inductive auth_header := BasicAuth (login password : string) | Bearer (token : string).

Record http_request (B : Type) := {
  hr_method : string; hr_url : string; hr_contentType : string;
  hr_auth : option auth_header; hr_body : B;
}.
Arguments hr_method {B}. Arguments hr_url {B}. Arguments hr_contentType {B}.
Arguments hr_auth {B}. Arguments hr_body {B}.

Record http_response (B : Type) := { StatusCode : Z; rsp_body : B }.
Arguments StatusCode {B}. Arguments rsp_body {B}.

Inductive do_error :=
| JoinError (msg : string)
| RequestError (msg : string)
| ConnectionError (msg : string)
| UnauthorizedError
| NotFoundError (url : string)
| InvalidStatus (code : Z) (method url : string).

(** The header [Do] ends up with: the bearer token replaces the basic credentials. *)
Definition auth_of (cfg : Config) : option auth_header :=
  match HttpAuth_ cfg with
  | None => None
  | Some a =>
      let h := if str_empty (ha_Login a) then None
               else Some (BasicAuth (ha_Login a) (ha_Password a)) in
      if str_empty (ha_Token a) then h else Some (Bearer (ha_Token a))
  end.

Section client.
(** [url.JoinPath], [http.NewRequest]'s validation and the transport. *)
Context {Req Rsp : Type}.
Context (JoinPath : string → string → result string string).
Context (NewRequest : string → string → result string unit).
Context (transport : http_request Req → result string (http_response Rsp)).

Definition Do (cfg : Config) (method path contentType : string) (body : Req)
    : result do_error (http_response Rsp) :=
  match JoinPath (BaseURL cfg) path with
  | Err e => Err (JoinError e)
  | Ok u =>
      match NewRequest method u with
      | Err e => Err (RequestError e)
      | Ok _ =>
          match transport {| hr_method := method; hr_url := u; hr_contentType := contentType;
                             hr_auth := auth_of cfg; hr_body := body |} with
          | Err e => Err (ConnectionError e)
          | Ok resp =>
              if decide (StatusCode resp = 401)%Z then Err UnauthorizedError
              else if decide (StatusCode resp = 404)%Z then Err (NotFoundError u)
              else if decide (StatusCode resp ≠ 200)%Z
              then Err (InvalidStatus (StatusCode resp) method u)
              else Ok resp
          end
      end
  end.

Inductive exchange_error :=
| MarshalError (msg : string)
| HttpError (e : do_error)
| UnmarshalError (msg : string).

(** [request.ToJson] and [response.FromJson]. *)
Context (ToJson : IdentityRequest → result string Req).
Context (FromJson : Rsp → result string IdentityResponse).

Definition Exchange (cfg : Config) (method path : string) (request : IdentityRequest)
    : result exchange_error IdentityResponse :=
  match ToJson request with
  | Err e => Err (MarshalError e)
  | Ok body =>
      match Do cfg method path "application/json" body with
      | Err e => Err (HttpError e)
      | Ok resp =>
          match FromJson (rsp_body resp) with
          | Err e => Err (UnmarshalError e)
          | Ok r => Ok r
          end
      end
  end.

(** A request succeeds only when the server answered 200: [Do] returns a response
    exactly when the URL and the request are valid and the transport delivers a response of
    status 200, and then it is that response. *)
Theorem Do_ok cfg method path ct body resp :
  Do cfg method path ct body = Ok resp ↔
  ∃ u, JoinPath (BaseURL cfg) path = Ok u ∧ NewRequest method u = Ok () ∧
    transport {| hr_method := method; hr_url := u; hr_contentType := ct;
                 hr_auth := auth_of cfg; hr_body := body |} = Ok resp ∧
    StatusCode resp = 200%Z.
Proof.
  unfold Do. split.
  - destruct (JoinPath _ _) as [u|e]; [|done].
    destruct (NewRequest _ _) as [[]|e] eqn:HR; [|done].
    destruct (transport _) as [r|e] eqn:Ht; [|done].
    repeat case_decide; try done. intros [= <-]. exists u. by split_and!.
  - intros (u & -> & -> & -> & Hc). simpl. rewrite Hc. done.
Qed.
End client.

(** ** CA certificates *)

Section ca.
Abbreviation bytes := (list Ascii.ascii).
Context {cert : Type}.
(** [pem.Decode]: the first block (its type and bytes) and the rest. *)
Context (pem_decode : bytes → option (string * bytes) * bytes).
(** [x509.ParseCertificate] and [cert.Subject.String]. *)
Context (ParseCertificate : bytes → result string cert).
Context (Subject : cert → string).
(** [os.ReadFile] and [base64.StdEncoding.Decode]. *)
Context (ReadFile : string → result string bytes).
Context (b64_decode : string → result string bytes).

(** The loop of [appendCaFromPEM]: [None] when the fuel runs out. *)
Fixpoint pem_loop (fuel : nat) (rest : bytes) (pool : list cert) (subjects : list string)
    : option (list cert * result string (list string)) :=
  match fuel with
  | 0 => None
  | S fuel' =>
      match pem_decode rest with
      | (None, _) =>
          Some (pool, match subjects with
                      | [] => Err "no CERTIFICATE block found in PEM data"
                      | _ => Ok subjects
                      end)
      | (Some (type, b), rest') =>
          if decide (type = "CERTIFICATE") then
            match ParseCertificate b with
            | Err e => Some (pool, Err ("parse certificate: " +:+ e))
            | Ok c => pem_loop fuel' rest' (pool ++ [c]) (subjects ++ [Subject c])
            end
          else pem_loop fuel' rest' pool subjects
      end
  end.

Definition appendCaFromPEM (pool : list cert) (pemBytes : bytes)
    : option (list cert * result string (list string)) :=
  match pemBytes with
  | [] => Some (pool, Err "empty PEM bundle")
  | _ => pem_loop (S (length pemBytes)) pemBytes pool []
  end.

Definition appendCaFromFile (pool : list cert) (caPath : string)
    : option (list cert * result string (list string)) :=
  match ReadFile caPath with
  | Err e => Some (pool, Err ("failed to read CA file '" +:+ caPath +:+ "': " +:+ e))
  | Ok b =>
      '(pool', r) ← appendCaFromPEM pool b;
      Some (pool', match r with
                   | Ok s => Ok s
                   | Err e => Err ("invalid root CA certificate in file " +:+ caPath +:+ ": " +:+ e)
                   end)
  end.

Definition appendCaFromBase64 (pool : list cert) (b64 : string)
    : option (list cert * result string (list string)) :=
  match b64_decode b64 with
  | Err e => Some (pool, Err ("error while parsing base64 root ca data " +:+ ShortenString b64
                              +:+ " : " +:+ e))
  | Ok b =>
      '(pool', r) ← appendCaFromPEM pool b;
      Some (pool', match r with
                   | Ok s => Ok s
                   | Err e => Err ("invalid root CA certificate in " +:+ ShortenString b64 +:+ ": " +:+ e)
                   end)
  end.

(** The three loops of [New]: stop at the first error. *)
Fixpoint load_all {X} (skip : X → bool)
    (f : list cert → X → option (list cert * result string (list string)))
    (xs : list X) (pool : list cert) (loaded : list string)
    : option (result string (list cert * list string)) :=
  match xs with
  | [] => Some (Ok (pool, loaded))
  | x :: xs' =>
      if skip x then load_all skip f xs' pool loaded
      else '(pool', r) ← f pool x;
           match r with
           | Err e => Some (Err e)
           | Ok s => load_all skip f xs' pool' (loaded ++ s)
           end
  end.

(** What [New] builds: no TLS configuration, or the trusted pool. *)
Inductive tls_setup :=
| NoTls
| Tls (rootCAs : list cert) (insecureSkipVerify : bool).

Context (parse_scheme : string → result string string).
Context (SystemCertPool : result string (list cert)).

Definition New (conf : Config) : option (result string tls_setup) :=
  match parse_scheme (BaseURL conf) with
  | Err e => Some (Err ("unable to parse url '" +:+ BaseURL conf +:+ "': " +:+ e))
  | Ok scheme =>
      if negb (str_eqb (to_lower scheme) "https") && negb (str_eqb (to_lower scheme) "http")
      then Some (Err ("invalid url scheme '" +:+ BaseURL conf +:+ "'"))
      else if str_eqb (to_lower scheme) "https" then
        match SystemCertPool with
        | Err e => Some (Err e)
        | Ok pool0 =>
            if InsecureSkipVerify conf then Some (Ok (Tls pool0 true))
            else
              r1 ← load_all str_empty appendCaFromFile (RootCaPaths conf) pool0 [];
              match r1 with
              | Err e => Some (Err e)
              | Ok (pool1, s1) =>
                  r2 ← load_all str_empty appendCaFromBase64 (RootCaDatas conf) pool1 s1;
                  match r2 with
                  | Err e => Some (Err e)
                  | Ok (pool2, s2) =>
                      r3 ← load_all (λ b : bytes, length b =? 0) appendCaFromPEM
                             (RootCaBytes conf) pool2 s2;
                      match r3 with
                      | Err e => Some (Err e)
                      | Ok (pool3, _) => Some (Ok (Tls pool3 false))
                      end
                  end
              end
        end
      else Some (Ok NoTls)
  end.

(** [pem.Decode] consumes input whenever it returns a block. *)
Hypothesis pem_decode_shrinks :
  ∀ b blk rest, pem_decode b = (Some blk, rest) → length rest < length b.

Lemma pem_loop_total fuel rest pool subjects :
  length rest < fuel → is_Some (pem_loop fuel rest pool subjects).
Proof.
  revert rest pool subjects. induction fuel as [|fuel IH]; intros rest pool subjects Hf; [lia|].
  simpl. destruct (pem_decode rest) as [[[type b]|] rest'] eqn:E; [|done].
  apply pem_decode_shrinks in E.
  case_decide; [|apply IH; lia]. destruct (ParseCertificate b); [apply IH; lia|done].
Qed.

Lemma pem_loop_spec fuel rest pool subjects pool' r :
  pem_loop fuel rest pool subjects = Some (pool', r) →
  ∃ added, pool' = pool ++ added ∧
    match r with
    | Ok s => s = subjects ++ (Subject <$> added) ∧ s ≠ []
    | Err _ => True
    end.
Proof.
  revert rest pool subjects. induction fuel as [|fuel IH]; intros rest pool subjects; [done|].
  simpl. destruct (pem_decode rest) as [[[type b]|] rest'].
  - case_decide; [|apply IH]. destruct (ParseCertificate b) as [c|e].
    + intros (added & -> & Hr)%IH. exists (c :: added). rewrite <- app_assoc. split; [done|].
      destruct r; [|done]. destruct Hr as [-> Hne]. split; [|done].
      rewrite fmap_cons, <- app_assoc. done.
    + intros [= <- <-]. exists []. by rewrite app_nil_r.
  - intros [= <- <-]. exists []. split; [by rewrite app_nil_r|].
    destruct subjects as [|s0 ss]; [done|]. simpl. by rewrite app_nil_r.
Qed.

(** C39. Loading a PEM bundle terminates on every input, only ever adds certificates to the
    pool, and reports success exactly with the subjects of the certificates it added, of
    which there is at least one. *)
Theorem appendCaFromPEM_spec pool pemBytes :
  ∃ added r, appendCaFromPEM pool pemBytes = Some (pool ++ added, r) ∧
    match r with
    | Ok s => s = Subject <$> added ∧ added ≠ []
    | Err _ => True
    end.
Proof.
  destruct pemBytes as [|c b].
  - exists [], (Err "empty PEM bundle"). by rewrite app_nil_r.
  - unfold appendCaFromPEM.
    destruct (pem_loop_total (S (length (c :: b))) (c :: b) pool []) as [[pool' r] E]; [lia|].
    rewrite E. destruct (pem_loop_spec _ _ _ _ _ _ E) as (added & -> & Hr).
    exists added, r. split; [done|]. destruct r; [|done].
    destruct Hr as [-> Hne]. simpl in *. split; [done|]. intros ->. done.
Qed.
End ca.

Lemma appendCaFromPEM_spec_witness :
  ∃ added r, appendCaFromPEM (cert := unit)
      (λ b, match b with [] => (None, []) | c :: b' => (Some ("CERTIFICATE", [c]), b') end)
      (λ _, Ok ()) (λ _, "cn") [] ["a"%char] = Some ([] ++ added, r) ∧
    match r with Ok s => s = (λ _, "cn") <$> added ∧ added ≠ [] | Err _ => True end.
Proof.
  apply (appendCaFromPEM_spec
    (λ b, match b with [] => (None, []) | c :: b' => (Some ("CERTIFICATE", [c]), b') end)).
  intros [|c b] blk rest H; simplify_eq/=; lia.
Defined.
