(* ===== verification/Protector.v ===== *)
(** * internal/handlers/protector: brute force protection

    [bfa.go] and [empty.go]. The failure records are heap objects ([*loginState]): a request
    that sleeps in [failure] keeps the address of its record while [clean] may remove it from
    the map, so the records live in a heap of their own and the map holds addresses. Times
    and durations are int64 nanoseconds. The concurrent behaviour is the step relation
    [step]: the critical section of [failure], the two atomic increments around its sleep,
    [clean] and the passing of time interleave freely. *)

From S2P Require Import Prelude Values Proto.

Abbreviation addr := nat.

Record loginState := {
  lastFailure : Z;
  nbrOfFailure : Z;
  pendingFailures : Z;
}.

Record bfaConfig := {
  cleanerPeriod : Z;
  cleanDelay : Z;
  freeFailure : Z;
  maxPenalty : Z;
  penaltyByFailure : Z;
  maxPendingFailure : Z;
}.

Record bfaProtector := {
  cfg : bfaConfig;
  heap : gmap addr loginState;
  stateByLogin : gmap string addr;
}.

Definition UnknownUser : string := "_unknownUser_".
Definition UnknownToken : string := "_unknownToken_".

Definition second : Z := 1000000000.

(** ** Options and construction *)

Definition Option_ := bfaConfig → bfaConfig.

Definition WithCleanerPeriod (v : Z) : Option_ := λ c,
  {| cleanerPeriod := v; cleanDelay := cleanDelay c; freeFailure := freeFailure c;
     maxPenalty := maxPenalty c; penaltyByFailure := penaltyByFailure c;
     maxPendingFailure := maxPendingFailure c |}.
Definition WithCleanDelay (v : Z) : Option_ := λ c,
  {| cleanerPeriod := cleanerPeriod c; cleanDelay := v; freeFailure := freeFailure c;
     maxPenalty := maxPenalty c; penaltyByFailure := penaltyByFailure c;
     maxPendingFailure := maxPendingFailure c |}.
Definition WithFreeFailure (v : Z) : Option_ := λ c,
  {| cleanerPeriod := cleanerPeriod c; cleanDelay := cleanDelay c; freeFailure := v;
     maxPenalty := maxPenalty c; penaltyByFailure := penaltyByFailure c;
     maxPendingFailure := maxPendingFailure c |}.
Definition WithMaxPenalty (v : Z) : Option_ := λ c,
  {| cleanerPeriod := cleanerPeriod c; cleanDelay := cleanDelay c; freeFailure := freeFailure c;
     maxPenalty := v; penaltyByFailure := penaltyByFailure c;
     maxPendingFailure := maxPendingFailure c |}.
Definition WithPenaltyByFailure (v : Z) : Option_ := λ c,
  {| cleanerPeriod := cleanerPeriod c; cleanDelay := cleanDelay c; freeFailure := freeFailure c;
     maxPenalty := maxPenalty c; penaltyByFailure := v;
     maxPendingFailure := maxPendingFailure c |}.
Definition WithMaxPendingFailure (v : Z) : Option_ := λ c,
  {| cleanerPeriod := cleanerPeriod c; cleanDelay := cleanDelay c; freeFailure := freeFailure c;
     maxPenalty := maxPenalty c; penaltyByFailure := penaltyByFailure c;
     maxPendingFailure := v |}.

Definition defaultConfig : bfaConfig :=
  {| cleanerPeriod := 60 * second; cleanDelay := 30 * 60 * second; freeFailure := 4;
     maxPenalty := 15 * second; penaltyByFailure := 1 * second; maxPendingFailure := 20 |}.

(** The two implementations of the [Protector] interface. *)
Inductive protector := Empty | Bfa (p : bfaProtector).

Definition New (activated : bool) (opts : list Option_) : protector :=
  if activated then
    Bfa {| cfg := foldl (λ c opt, opt c) defaultConfig opts; heap := ∅; stateByLogin := ∅ |}
  else Empty.

(** ** The operations *)

Definition pending_over (p : bfaProtector) (login : string) : bool :=
  match stateByLogin p !! login with
  | Some a =>
      match heap p !! a with
      | Some st => bool_decide (pendingFailures st > maxPendingFailure (cfg p))%Z
      | None => false
      end
  | None => false
  end.

Definition bfa_EntryForLogin (p : bfaProtector) (login : string) : bool :=
  if pending_over p login then true
  else if pending_over p UnknownUser then true
  else false.

Definition bfa_EntryForToken (p : bfaProtector) : bool :=
  if pending_over p UnknownToken then true else false.

Definition delayFromFailureCount (c : bfaConfig) (count : Z) : Z :=
  if decide (count ≤ freeFailure c)%Z then 0%Z
  else
    let penalty := wrap64 (wrap64 (count - freeFailure c) * penaltyByFailure c) in
    if decide (penalty > maxPenalty c)%Z then maxPenalty c else penalty.

(** The critical section of [failure]: the record (allocated if absent) and its new count. *)
Definition failure_locked (p : bfaProtector) (login : string) (now : Z)
    : bfaProtector * addr * Z :=
  let '(a, st, m) :=
    match stateByLogin p !! login with
    | Some a => (a, heap p !! a, stateByLogin p)
    | None =>
        let a := fresh (dom (heap p)) in
        (a, Some {| lastFailure := 0; nbrOfFailure := 0; pendingFailures := 0 |},
         <[login := a]> (stateByLogin p))
    end in
  let st0 := default {| lastFailure := 0; nbrOfFailure := 0; pendingFailures := 0 |} st in
  let n := wrap64 (nbrOfFailure st0 + 1) in
  ({| cfg := cfg p;
      heap := <[a := {| lastFailure := now; nbrOfFailure := n;
                        pendingFailures := pendingFailures st0 |}]> (heap p);
      stateByLogin := m |}, a, n).

(** [state.pendingFailures.Add(d)] *)
Definition add_pending (d : Z) (a : addr) (p : bfaProtector) : bfaProtector :=
  {| cfg := cfg p;
     heap := alter (λ st, {| lastFailure := lastFailure st; nbrOfFailure := nbrOfFailure st;
                             pendingFailures := wrap64 (pendingFailures st + d) |}) a (heap p);
     stateByLogin := stateByLogin p |}.

(** [failure] run to completion without interference: the delay it slept. *)
Definition failure (p : bfaProtector) (login : string) (now : Z) : bfaProtector * Z :=
  let '(p1, a, n) := failure_locked p login now in
  let delay := delayFromFailureCount (cfg p) n in
  let p2 := add_pending 1 a p1 in
  (add_pending (-1) a p2, delay).

(** [v.lastFailure.Add(p.cleanDelay).Before(now)] *)
Definition stale (now : Z) (p : bfaProtector) (a : addr) : bool :=
  match heap p !! a with
  | Some st => bool_decide (lastFailure st + cleanDelay (cfg p) < now)%Z
  | None => false
  end.

Definition clean (now : Z) (p : bfaProtector) : bfaProtector :=
  {| cfg := cfg p; heap := heap p;
     stateByLogin := filter (λ kv, stale now p kv.2 = false) (stateByLogin p) |}.

(** ** The interface *)

Definition EntryForLogin (p : protector) (login : string) : bool :=
  match p with Empty => false | Bfa p => bfa_EntryForLogin p login end.
Definition EntryForToken (p : protector) : bool :=
  match p with Empty => false | Bfa p => bfa_EntryForToken p end.
Definition ProtectLoginResult (p : protector) (login : string) (status : Status) (now : Z)
    : protector * Z :=
  match p with
  | Empty => (Empty, 0%Z)
  | Bfa b =>
      if str_eqb status PasswordFail || str_eqb status InvalidOldPassword then
        let '(b', d) := failure b login now in (Bfa b', d)
      else (Bfa b, 0%Z)
  end.
Definition TokenNotFound (p : protector) (now : Z) : protector * Z :=
  match p with
  | Empty => (Empty, 0%Z)
  | Bfa b => let '(b', d) := failure b UnknownToken now in (Bfa b', d)
  end.

(** ** Concurrent executions *)

(** A request inside [failure], after its critical section. *)
Inductive thread :=
| AtIncr (a : addr) (delay : Z)
| Sleeping (a : addr) (until : Z).

Record system := { prot : bfaProtector; threads : list thread; clock : Z }.

Inductive step : system → system → Prop :=
| step_fail p ts now login p' a n :
    failure_locked p login now = (p', a, n) →
    step {| prot := p; threads := ts; clock := now |}
         {| prot := p'; threads := AtIncr a (delayFromFailureCount (cfg p) n) :: ts; clock := now |}
| step_incr p ts1 ts2 now a d :
    step {| prot := p; threads := ts1 ++ AtIncr a d :: ts2; clock := now |}
         {| prot := add_pending 1 a p; threads := ts1 ++ Sleeping a (now + d) :: ts2; clock := now |}
| step_wake p ts1 ts2 now a u :
    (u ≤ now)%Z →
    step {| prot := p; threads := ts1 ++ Sleeping a u :: ts2; clock := now |}
         {| prot := add_pending (-1) a p; threads := ts1 ++ ts2; clock := now |}
| step_clean p ts now :
    step {| prot := p; threads := ts; clock := now |}
         {| prot := clean now p; threads := ts; clock := now |}
| step_tick p ts now now' :
    (now ≤ now')%Z →
    step {| prot := p; threads := ts; clock := now |}
         {| prot := p; threads := ts; clock := now' |}.

Definition initial (c : bfaConfig) (t : Z) : system :=
  {| prot := {| cfg := c; heap := ∅; stateByLogin := ∅ |}; threads := []; clock := t |}.

Definition reachable (c : bfaConfig) (s : system) : Prop := ∃ t, rtc step (initial c t) s.

Definition sleeping_on (a : addr) (t : thread) : bool :=
  match t with Sleeping b _ => bool_decide (a = b) | AtIncr _ _ => false end.

(** The requests asleep on a record. *)
Definition sleepers (a : addr) (ts : list thread) : Z :=
  Z.of_nat (length (filter (λ t, sleeping_on a t = true) ts)).

(** ** Delays *)



Lemma delay_bounds c n :
  (0 ≤ maxPenalty c)%Z → (0 ≤ penaltyByFailure c)%Z → in_int64 (n - freeFailure c)%Z →
  in_int64 ((n - freeFailure c) * penaltyByFailure c)%Z →
  (0 ≤ delayFromFailureCount c n ≤ maxPenalty c)%Z.
Proof.
  intros Hm Hp H1 H2. unfold delayFromFailureCount. case_decide; [lia|].
  rewrite !wrap64_id by (rewrite ?wrap64_id; done). case_decide; nia.
Qed.

(** ** The invariant of concurrent executions *)

Lemma sleepers_app a ts1 ts2 : sleepers a (ts1 ++ ts2) = (sleepers a ts1 + sleepers a ts2)%Z.
Proof. unfold sleepers. rewrite filter_app, length_app. lia. Qed.

Lemma sleepers_cons a t ts :
  sleepers a (t :: ts) = ((if sleeping_on a t then 1 else 0) + sleepers a ts)%Z.
Proof.
  unfold sleepers. rewrite filter_cons. destruct (sleeping_on a t); simpl; lia.
Qed.

Lemma sleepers_bound a ts : (0 ≤ sleepers a ts ≤ Z.of_nat (length ts))%Z.
Proof. unfold sleepers. pose proof (length_filter (λ t, sleeping_on a t = true) ts). lia. Qed.

Definition thread_addr (t : thread) : addr :=
  match t with AtIncr a _ => a | Sleeping a _ => a end.

(** No dangling address, and each pending counter counts the sleeping requests. *)
Record invariant (c : bfaConfig) (s : system) : Prop := {
  inv_cfg : cfg (prot s) = c;
  inv_map : ∀ k a, stateByLogin (prot s) !! k = Some a → is_Some (heap (prot s) !! a);
  inv_threads : Forall (λ t, is_Some (heap (prot s) !! thread_addr t)) (threads s);
  inv_pending : ∀ a st, heap (prot s) !! a = Some st →
    pendingFailures st = wrap64 (sleepers a (threads s));
}.

Lemma no_sleeper (h : gmap addr loginState) ts a :
  h !! a = None → Forall (λ t, is_Some (h !! thread_addr t)) ts → sleepers a ts = 0%Z.
Proof.
  intros Ha. induction 1 as [|t ts Ht _ IH]; [done|]. rewrite sleepers_cons, IH.
  destruct t; simpl in *; [done|]. case_bool_decide; [|done]. subst. rewrite Ha in Ht. by destruct Ht.
Qed.

Lemma invariant_initial c t : invariant c (initial c t).
Proof. split; simpl; try done; intros; by rewrite lookup_empty in *. Qed.

Lemma invariant_fail c p ts now login p' a n d :
  failure_locked p login now = (p', a, n) →
  invariant c {| prot := p; threads := ts; clock := now |} →
  invariant c {| prot := p'; threads := AtIncr a d :: ts; clock := now |}.
Proof.
  unfold failure_locked. intros Hf [Hc Hm Ht Hp]; simpl in *.
  assert (Ht' : ∀ st', Forall (λ t, is_Some (<[a := st']> (heap p) !! thread_addr t))
                        (AtIncr a d :: ts)).
  { intros st'. constructor; simpl; [by rewrite lookup_insert_eq|].
    eapply Forall_impl; [exact Ht|]. intros t Hs. apply lookup_insert_is_Some'. by right. }
  destruct (stateByLogin p !! login) as [a0|] eqn:Hl; simplify_eq.
  - destruct (Hm _ _ Hl) as [st Hst]. rewrite Hst. simpl. split; simpl; [done| |apply Ht'|].
    + intros k b Hk. apply lookup_insert_is_Some'. right. eauto.
    + intros b st'. rewrite sleepers_cons, lookup_insert_Some. simpl.
      intros [[<- <-]|[_ Hb]]; simpl; rewrite ?Z.add_0_l; eauto.
  - set (a := fresh (dom (heap p))) in *.
    assert (heap p !! a = None) as Hfr by (apply not_elem_of_dom, is_fresh).
    split; simpl; [done| |apply Ht'|].
    + intros k b Hk. apply lookup_insert_is_Some'. rewrite lookup_insert_Some in Hk.
      destruct Hk as [[_ <-]|[_ Hk]]; [by left|right; eauto].
    + intros b st'. rewrite sleepers_cons, lookup_insert_Some. simpl.
      intros [[<- <-]|[_ Hb]]; simpl; rewrite ?Z.add_0_l; [|eauto].
      by rewrite (no_sleeper (heap p)).
Qed.

(** An atomic increment that matches a change of the sleeping requests. *)
Lemma invariant_add c p ts ts' now d a :
  invariant c {| prot := p; threads := ts; clock := now |} →
  (∀ b, sleepers b ts' = sleepers b ts + (if decide (a = b) then d else 0))%Z →
  Forall (λ t, is_Some (heap p !! thread_addr t)) ts' →
  invariant c {| prot := add_pending d a p; threads := ts'; clock := now |}.
Proof.
  intros [Hc Hm Ht Hp] Hs Ht'. split; simpl in *; [done| | |].
  - intros k b [st Hst]%Hm. rewrite lookup_alter. case_decide; subst; rewrite ?Hst; eauto.
  - eapply Forall_impl; [exact Ht'|]. intros t [st Hst].
    rewrite lookup_alter. case_decide; subst; rewrite ?Hst; eauto.
  - intros b st. rewrite lookup_alter, Hs. case_decide as Hab.
    + subst. rewrite fmap_Some. intros (st0 & Hst & ->). simpl.
      by rewrite (Hp _ _ Hst), wrap64_add.
    + rewrite Z.add_0_r. apply Hp.
Qed.

Lemma invariant_step c s s' : step s s' → invariant c s → invariant c s'.
Proof.
  destruct 1 as [p ts now login p' a n Hf|p ts1 ts2 now a d|p ts1 ts2 now a u Hu|p ts now
    |p ts now now' Hn]; intros Hinv.
  - by eapply invariant_fail.
  - pose proof (inv_threads _ _ Hinv) as Ht. simpl in Ht. rewrite Forall_app, Forall_cons in Ht.
    eapply invariant_add; [done| |rewrite Forall_app, Forall_cons; tauto].
    intros b. rewrite !sleepers_app, !sleepers_cons. simpl.
    repeat case_decide; case_bool_decide; naive_solver lia.
  - pose proof (inv_threads _ _ Hinv) as Ht. simpl in Ht. rewrite Forall_app, Forall_cons in Ht.
    eapply invariant_add; [done| |rewrite Forall_app; tauto].
    intros b. rewrite !sleepers_app, !sleepers_cons. simpl.
    repeat case_decide; case_bool_decide; naive_solver lia.
  - destruct Hinv as [Hc Hm Ht Hp]. split; simpl in *; try done.
    intros k a. rewrite map_lookup_filter_Some. naive_solver.
  - destruct Hinv as [Hc Hm Ht Hp]. by split.
Qed.

Lemma invariant_reachable c s : reachable c s → invariant c s.
Proof.
  intros [t Hs]. pose proof (invariant_initial c t) as Hi.
  induction Hs; [done|]. eauto using invariant_step.
Qed.

(** Requests currently delayed on the record of a login. *)
Definition delayed (s : system) (login : string) : Z :=
  match stateByLogin (prot s) !! login with
  | Some a => sleepers a (threads s)
  | None => 0%Z
  end.

Lemma pending_over_iff c s login :
  invariant c s → (0 ≤ maxPendingFailure c)%Z → (Z.of_nat (length (threads s)) ≤ int64_max)%Z →
  pending_over (prot s) login = bool_decide (delayed s login > maxPendingFailure c)%Z.
Proof.
  intros [Hc Hm Ht Hp] Hmax Hlen. unfold pending_over, delayed.
  destruct (stateByLogin (prot s) !! login) as [a|] eqn:Hl.
  - destruct (Hm _ _ Hl) as [st Hst]. rewrite Hst, (Hp _ _ Hst), Hc. rewrite wrap64_id; [done|].
    pose proof (sleepers_bound a (threads s)). unfold in_int64, int64_min in *. lia.
  - symmetry. apply bool_decide_eq_false. lia.
Qed.

(** C24. In every state the protector can reach, whatever the interleaving of failing requests,
    wake-ups and clean-ups, a login is refused exactly when more than [maxPendingFailure]
    requests are being delayed on it (or on the unknown-user record). *)
Theorem EntryForLogin_locked_iff c s login :
  reachable c s → (0 ≤ maxPendingFailure c)%Z →
  (Z.of_nat (length (threads s)) ≤ int64_max)%Z →
  EntryForLogin (Bfa (prot s)) login = true ↔
  (delayed s login > maxPendingFailure c ∨ delayed s UnknownUser > maxPendingFailure c)%Z.
Proof.
  intros Hr Hmax Hlen. apply invariant_reachable in Hr. simpl. unfold bfa_EntryForLogin.
  rewrite !(pending_over_iff c) by done. repeat case_bool_decide; naive_solver.
Qed.

(** Two failing requests delayed on a login whose limit is one. *)
Definition busy_config : bfaConfig := WithMaxPendingFailure 1 defaultConfig.
Definition busy_system : system :=
  let '(p1, a, _) := failure_locked (prot (initial busy_config 0)) "bob" 0 in
  let '(p2, _, _) := failure_locked p1 "bob" 0 in
  {| prot := add_pending 1 a (add_pending 1 a p2);
     threads := [Sleeping a 0; Sleeping a 0]; clock := 0 |}.

Lemma busy_reachable : reachable busy_config busy_system.
Proof.
  exists 0%Z. unfold busy_system. simpl.
  eapply rtc_l; [by apply (step_fail _ _ _ "bob")|].
  eapply rtc_l; [by apply (step_fail _ _ _ "bob")|].
  eapply rtc_l; [apply (step_incr _ [] _)|].
  eapply rtc_l; [apply (step_incr _ [_] _)|].
  vm_compute. apply rtc_refl.
Qed.

Lemma EntryForLogin_locked_iff_witness :
  EntryForLogin (Bfa (prot busy_system)) "bob" = true ∧
  EntryForLogin (Bfa (prot busy_system)) "alice" = false.
Proof.
  split.
  - apply (EntryForLogin_locked_iff busy_config busy_system "bob");
      [apply busy_reachable|vm_compute; discriminate|vm_compute; discriminate|].
    left. vm_compute. reflexivity.
  - reflexivity.
Defined.

(** ** Draining *)

Definition work (t : thread) : nat := match t with AtIncr _ _ => 2 | Sleeping _ _ => 1 end.
Definition total_work (ts : list thread) : nat := foldr (λ t n, work t + n) 0 ts.

Lemma drain s : ∃ s', rtc step s s' ∧ threads s' = [].
Proof.
  remember (total_work (threads s)) as w eqn:Hw. revert s Hw.
  induction w as [w IH] using lt_wf_ind. intros [p [|t ts] now] Hw; [by eexists|]. simpl in Hw.
  destruct t as [a d|a u].
  - edestruct (IH (S (total_work ts)) ltac:(simpl in Hw; lia)) as (s' & Hs & Hts).
    2:{ exists s'. split; [|done]. eapply rtc_l; [|exact Hs]. apply (step_incr p [] ts now a d). }
    done.
  - edestruct (IH (total_work ts) ltac:(simpl in Hw; lia)) as (s' & Hs & Hts).
    2:{ exists s'. split; [|done]. eapply rtc_l; [apply (step_tick _ _ _ (Z.max now u)); lia|].
        eapply rtc_l; [|exact Hs]. apply (step_wake p [] ts _ a u). lia. }
    done.
Qed.



(** A single failure run to completion leaves the pending counter where it was. *)
Lemma failure_pending p login now a st :
  stateByLogin p !! login = Some a → heap p !! a = Some st → in_int64 (pendingFailures st) →
  ∃ st', heap (failure p login now).1 !! a = Some st' ∧
    pendingFailures st' = pendingFailures st ∧ lastFailure st' = now ∧
    nbrOfFailure st' = wrap64 (nbrOfFailure st + 1).
Proof.
  intros Hl Hst Hr. unfold failure, failure_locked. rewrite Hl, Hst. simpl.
  rewrite lookup_alter_eq, lookup_alter_eq, lookup_insert_eq. simpl. eexists; split; [done|].
  simpl. split_and!; try done. rewrite wrap64_add. rewrite <- (wrap64_id _ Hr) at 2. f_equal. lia.
Qed.
