(* ===== verification/Identity.v ===== *)
(** * internal/handlers: the identity endpoint

    [IdentityHandler.ServeHTTP] with its validators ([internal/handlers/validator]), common to
    the ucrd, ldap, merger and audit modules. The handler is generic in the authenticator
    (class [Authenticator] of Proto.v) and composes it with the protector. *)

From S2P Require Import Prelude Values Proto Protector.

(** What is written to the [http.ResponseWriter]. *)
Inductive http_out :=
| HttpError (code : Z) (msg : string)
| HttpJson (r : IdentityResponse).

Definition StatusBadRequest : Z := 400.
Definition StatusMethodNotAllowed : Z := 405.
Definition StatusInternalServerError : Z := 500.
Definition StatusServiceUnavailable : Z := 503.

Definition status_code (o : http_out) : Z :=
  match o with HttpError c _ => c | HttpJson _ => 200 end.

Record inbound (B : Type) := { in_Method : string; in_Body : B }.
Arguments in_Method {B}. Arguments in_Body {B}.

(** A validator answers [None] (true) or the error it wrote (false). *)
Definition Validator (B : Type) := inbound B → IdentityRequest → option http_out.

Definition OnlyGetValidator {B} : Validator B := λ request _,
  if decide (in_Method request ≠ "GET")
  then Some (HttpError StatusMethodNotAllowed "Method not allowed")
  else None.

Record IdentityHandler (B T : Type) := {
  Validators : list (Validator B);
  Authenticator_ : T;
}.
Arguments Validators {B T}. Arguments Authenticator_ {B T}.

Fixpoint validate {B} (vs : list (Validator B)) (r : inbound B) (i : IdentityRequest)
    : option http_out :=
  match vs with
  | [] => None
  | v :: vs' => match v r i with Some o => Some o | None => validate vs' r i end
  end.

Section handler.
Context {B T W : Type} `{Authenticator W T}.
(** [json.Decoder] with [DisallowUnknownFields]. *)
Context (Decode : B → result string IdentityRequest).

(** The reply, the delay it was held for, and the new state of the protector and the world. *)
Definition ServeHTTP (h : IdentityHandler B T) (p : protector) (now : Z) (request : inbound B)
    (w : W) : http_out * Z * protector * W :=
  match Decode (in_Body request) with
  | Err e => (HttpError StatusBadRequest ("Payload decoding: " +:+ e), 0%Z, p, w)
  | Ok identityRequest =>
      if EntryForLogin p (req_Login identityRequest) then
        (HttpError StatusServiceUnavailable "locked", 0%Z, p, w)
      else
        match validate (Validators h) request identityRequest with
        | Some o => (o, 0%Z, p, w)
        | None =>
            match Authenticate (Authenticator_ h) identityRequest w with
            | (Err e, w') => (HttpError StatusInternalServerError e, 0%Z, p, w')
            | (Ok identityResponse, w') =>
                let '(p', delay) :=
                  ProtectLoginResult p (req_Login identityRequest)
                    (resp_Status identityResponse) now in
                (HttpJson identityResponse, delay, p', w')
            end
        end
  end.

(** The endpoint answers 200 exactly when the body decodes, the login is not locked, every
    validator accepts and the authenticator succeeds, and then the reply is the
    authenticator's response unchanged; in every earlier failure the authenticator is not
    consulted and the world is untouched. *)
Theorem ServeHTTP_ok h p now request w resp d p' w' :
  ServeHTTP h p now request w = (HttpJson resp, d, p', w') →
  (∀ v r i, v ∈ Validators h → v r i ≠ Some (HttpJson resp)) →
  ∃ i, Decode (in_Body request) = Ok i ∧
    EntryForLogin p (req_Login i) = false ∧
    validate (Validators h) request i = None ∧
    Authenticate (Authenticator_ h) i w = (Ok resp, w') ∧
    (p', d) = ProtectLoginResult p (req_Login i) (resp_Status resp) now.
Proof.
  unfold ServeHTTP. intros Hs Hv. destruct (Decode _) as [i|e]; [|done]. exists i. split; [done|].
  destruct (EntryForLogin p (req_Login i)) eqn:He; [done|]. split; [done|].
  destruct (validate (Validators h) request i) as [o|] eqn:Hval.
  - simplify_eq. exfalso. revert Hval Hv. generalize (Validators h). intros vs.
    induction vs as [|v vs IH]; simpl; [done|]. destruct (v request i) eqn:E; [|set_solver].
    intros [= ->] Hv. eapply Hv; [|exact E]. set_solver.
  - destruct (Authenticate _ _ _) as [[r|e] w''] eqn:Ha; [|done].
    destruct (ProtectLoginResult _ _ _ _) as [p'' d'] eqn:Hp. by simplify_eq.
Qed.

(** A request refused before authentication changes nothing but the reply. *)
Lemma ServeHTTP_refused h p now request w :
  match Decode (in_Body request) with
  | Err _ => True
  | Ok i => EntryForLogin p (req_Login i) = true ∨ is_Some (validate (Validators h) request i)
  end →
  ∃ o, ServeHTTP h p now request w = (o, 0%Z, p, w).
Proof.
  unfold ServeHTTP. destruct (Decode _) as [i|e]; [|eauto].
  intros [->|[o Ho]]; [eauto|]. rewrite Ho. destruct (EntryForLogin _ _); eauto.
Qed.

(** Only a failed password check is counted against the login: when the authenticator
    answers any other status the protector is left as it was and the reply is not delayed. *)
Theorem ServeHTTP_counts_only_password_failures h p now request w resp d p' w' i :
  Decode (in_Body request) = Ok i →
  EntryForLogin p (req_Login i) = false →
  validate (Validators h) request i = None →
  Authenticate (Authenticator_ h) i w = (Ok resp, w') →
  ServeHTTP h p now request w = (HttpJson resp, d, p', w') →
  resp_Status resp ≠ PasswordFail → resp_Status resp ≠ InvalidOldPassword →
  p' = p ∧ d = 0%Z.
Proof.
  unfold ServeHTTP. intros -> -> -> ->. destruct p as [|b]; simpl; [by intros; simplify_eq|].
  unfold str_eqb. repeat case_bool_decide; simpl; by intros; simplify_eq.
Qed.
End handler.

(** A concrete handler: GET only, an authenticator that knows one password. *)
#[export] Instance demo_authenticator : Authenticator unit string := {
  Authenticate pw req w :=
    (Ok {| resp_User := InitUser (req_Login req);
           resp_Status := if decide (req_Password req = pw) then PasswordChecked else PasswordFail;
           resp_Details := None; resp_Authority := "" |}, w);
}.
Definition demo_handler : IdentityHandler IdentityRequest string :=
  {| Validators := [OnlyGetValidator]; Authenticator_ := "secret" |}.
Definition demo_request (m login pw : string) : inbound IdentityRequest :=
  {| in_Method := m; in_Body := {| req_Login := login; req_Password := pw |} |}.

Lemma ServeHTTP_ok_witness : ∃ resp d p' w',
  ServeHTTP Ok demo_handler (New true []) 0 (demo_request "GET" "bob" "secret") () =
    (HttpJson resp, d, p', w') ∧
  ∃ i, Ok (E := string) (in_Body (demo_request "GET" "bob" "secret")) = Ok i ∧
    EntryForLogin (New true []) (req_Login i) = false ∧
    validate (Validators demo_handler) (demo_request "GET" "bob" "secret") i = None ∧
    Authenticate (Authenticator_ demo_handler) i () = (Ok resp, w') ∧
    (p', d) = ProtectLoginResult (New true []) (req_Login i) (resp_Status resp) 0.
Proof.
  eexists _, _, _, _. split; [reflexivity|].
  apply (ServeHTTP_ok Ok demo_handler (New true []) 0 (demo_request "GET" "bob" "secret") ());
    [reflexivity|].
  intros v r i Hv. apply list_elem_of_singleton in Hv. subst. unfold OnlyGetValidator.
  case_decide; discriminate.
Defined.

Lemma ServeHTTP_counts_witness : ∃ resp,
  ServeHTTP Ok demo_handler (New true []) 0 (demo_request "GET" "bob" "secret") () =
    (HttpJson resp, 0%Z, New true [], ()) ∧
  (New true [] = New true [] ∧ 0%Z = 0%Z).
Proof.
  eexists. split; [reflexivity|].
  eapply (ServeHTTP_counts_only_password_failures Ok demo_handler (New true []) 0
    (demo_request "GET" "bob" "secret") () _ 0%Z (New true []) ());
    [reflexivity|reflexivity|reflexivity|reflexivity|reflexivity|discriminate|discriminate].
Defined.
