(* ===== verification/Provider.v ===== *)
(** * cmd/merger/provider: one identity provider behind the merger

    The configuration with its defaults, the [Provider] interface the merger relies on, and
    its HTTP implementation. [fmt.Sprintf] with one string argument and the protocol exchange
    are arguments. *)

From Stdlib Require Import Ascii.
From S2P Require Import Prelude Values Proto.

Record IdProviderConfig := {
  cfg_Name : string;
  cfg_CredentialAuthority : option bool;
  cfg_GroupAuthority : option bool;
  cfg_GroupPattern : string;
  cfg_ClaimAuthority : option bool;
  cfg_ClaimPattern : string;
  cfg_NameAuthority : option bool;
  cfg_EmailAuthority : option bool;
  cfg_Critical : option bool;
  cfg_UidOffset : Z;
}.

(** The [Provider] interface. *)
Record Provider := {
  GetUserDetail : string → string → result string UserDetail;
  GetName : string;
}.

(** What the merger relies on: a detail names its provider. *)
Class ProviderOk (p : Provider) : Prop := {
  detail_names_provider : ∀ login password d,
    GetUserDetail p login password = Ok d → ps_Name (ud_Provider d) = GetName p;
}.

Definition or_yes (o : option bool) : option bool :=
  match o with None => Some true | Some b => Some b end.
Definition or_percent_s (s : string) : string := if str_empty s then "%s" else s.

(** The defaults [New] writes into the configuration. *)
Definition with_defaults (c : IdProviderConfig) : IdProviderConfig :=
  {| cfg_Name := cfg_Name c;
     cfg_CredentialAuthority := or_yes (cfg_CredentialAuthority c);
     cfg_GroupAuthority := or_yes (cfg_GroupAuthority c);
     cfg_GroupPattern := or_percent_s (cfg_GroupPattern c);
     cfg_ClaimAuthority := or_yes (cfg_ClaimAuthority c);
     cfg_ClaimPattern := or_percent_s (cfg_ClaimPattern c);
     cfg_NameAuthority := or_yes (cfg_NameAuthority c);
     cfg_EmailAuthority := or_yes (cfg_EmailAuthority c);
     cfg_Critical := or_yes (cfg_Critical c);
     cfg_UidOffset := cfg_UidOffset c |}.

(** [*p]: a nil pointer is a panic. *)
Definition getSpec (c : IdProviderConfig) : option ProviderSpec :=
  credential ← cfg_CredentialAuthority c;
  group ← cfg_GroupAuthority c;
  claim ← cfg_ClaimAuthority c;
  email ← cfg_EmailAuthority c;
  name ← cfg_NameAuthority c;
  Some {| ps_Name := cfg_Name c; ps_CredentialAuthority := credential;
          ps_GroupAuthority := group; ps_ClaimAuthority := claim;
          ps_NameAuthority := name; ps_EmailAuthority := email |}.

Section provider.
(** [fmt.Sprintf(pattern, s)]. *)
Context (Sprintf : string → string → string).

(** The claims under their translated names, in the order of an iteration. *)
Definition translate_claims (pattern : string) (entries : list (string * value)) : claims :=
  foldl (λ out kv, <[Sprintf pattern kv.1 := kv.2]> out) ∅ entries.

(** [GetUserDetail]; [exchange] is [proto.Exchange(p.httpClient, "GET", "v1/identity", ...)].
    The outer [None] is a nil dereference. *)
Definition getUserDetail (exchange : IdentityRequest → result string IdentityResponse)
    (c : IdProviderConfig) (login password : string) : option (result string UserDetail) :=
  match exchange {| req_Login := login; req_Password := password |} with
  | Err err =>
      critical ← cfg_Critical c;
      if (critical : bool) then Some (Err err)
      else
        spec ← getSpec c;
        Some (Ok {| ud_User := InitUser login; ud_Status := Undefined; ud_Provider := spec;
                    ud_Translated := {| tr_Uid := None; tr_Groups := [];
                                        tr_Claims := Some ∅ |} |})
  | Ok response =>
      spec ← getSpec c;
      Some (Ok {| ud_User := resp_User response; ud_Status := resp_Status response;
                  ud_Provider := spec;
                  ud_Translated :=
                    {| tr_Uid := match Uid (resp_User response) with
                                 | Some u => Some (wrap64 (u + cfg_UidOffset c))
                                 | None => None
                                 end;
                       tr_Groups := Sprintf (cfg_GroupPattern c) <$> Groups (resp_User response);
                       tr_Claims := Some (translate_claims (cfg_ClaimPattern c)
                                      (map_to_list (map_of (Claims (resp_User response))))) |} |})
  end.

(** [New]: [http] is the result of [httpclient.New], the exchange it gives access to. *)
Definition New (c : IdProviderConfig)
    (http : result string (IdentityRequest → result string IdentityResponse))
    : result string Provider :=
  match http with
  | Err e => Err e
  | Ok exchange =>
      Ok {| GetUserDetail := λ login password,
              default (Err "panic") (getUserDetail exchange (with_defaults c) login password);
            GetName := cfg_Name (with_defaults c) |}
  end.

Lemma getSpec_defaults c : is_Some (getSpec (with_defaults c)).
Proof.
  destruct c as [? cr gr ? cl ? na em ? ?]. unfold getSpec; simpl.
  destruct cr, gr, cl, na, em; eauto.
Qed.

(** After [New], no nil pointer of the configuration is ever dereferenced. *)
Lemma getUserDetail_no_panic exchange c login password :
  is_Some (getUserDetail exchange (with_defaults c) login password).
Proof.
  unfold getUserDetail. destruct (getSpec_defaults c) as [spec Hs]. rewrite Hs.
  destruct (exchange _) as [r|e]; simpl; [eauto|].
  destruct (cfg_Critical c) as [[]|]; simpl; eauto.
Qed.

Lemma getSpec_name c spec : getSpec c = Some spec → ps_Name spec = cfg_Name c.
Proof.
  destruct c as [? cr gr ? cl ? na em ? ?]. unfold getSpec; simpl.
  destruct cr, gr, cl, na, em; simpl; intros; by simplify_eq.
Qed.

#[export] Instance New_ok c http p : New c http = Ok p → ProviderOk p.
Proof.
  unfold New. destruct http as [exchange|e]; [|done]. intros [= <-]. split. simpl.
  intros login password d. destruct (getUserDetail_no_panic exchange c login password) as [r Hr].
  rewrite Hr. simpl. intros ->. revert Hr. unfold getUserDetail.
  destruct (getSpec_defaults c) as [spec Hs]. rewrite Hs. apply getSpec_name in Hs.
  destruct (exchange _) as [r|e]; simpl; [by intros [= <-]|].
  destruct (cfg_Critical c) as [[]|]; simpl; intros; by simplify_eq.
Qed.

(** A provider that answers is reported faithfully: its user and status unchanged, its
    groups through the group pattern one by one, its uid shifted by the offset (modulo 2^64);
    a failure of a critical provider is the error, a failure of a non-critical one is the
    empty user with status [Undefined], which contributes nothing. *)
Theorem provider_detail exchange c p login password :
  New c (Ok exchange) = Ok p →
  match exchange {| req_Login := login; req_Password := password |} with
  | Ok r => ∃ d, GetUserDetail p login password = Ok d ∧
      ud_User d = resp_User r ∧ ud_Status d = resp_Status r ∧
      tr_Groups (ud_Translated d) = Sprintf (or_percent_s (cfg_GroupPattern c)) <$> Groups (resp_User r) ∧
      tr_Uid (ud_Translated d) = (λ u, wrap64 (u + cfg_UidOffset c)) <$> Uid (resp_User r)
  | Err e =>
      if default true (cfg_Critical c) then GetUserDetail p login password = Err e
      else ∃ d, GetUserDetail p login password = Ok d ∧ ud_User d = InitUser login ∧
             ud_Status d = Undefined ∧ tr_Groups (ud_Translated d) = [] ∧
             tr_Claims (ud_Translated d) = Some ∅ ∧ tr_Uid (ud_Translated d) = None
  end.
Proof.
  intros [= <-]. simpl. unfold getUserDetail. destruct (getSpec_defaults c) as [spec Hs].
  rewrite Hs. destruct (exchange _) as [r|e]; simpl.
  - eexists. split; [done|]. simpl. by split_and!.
  - destruct (cfg_Critical c) as [[]|]; simpl; try done. eexists. split; [done|]. done.
Qed.

(** The translated claims of an injective pattern are the claims under their new names,
    whatever the iteration order. *)
Lemma translate_claims_lookup pattern entries k :
  (∀ k1 k2, Sprintf pattern k1 = Sprintf pattern k2 → k1 = k2) → NoDup entries.*1 →
  translate_claims pattern entries !! Sprintf pattern k = (list_to_map entries : claims) !! k.
Proof.
  intros Hinj. unfold translate_claims.
  assert (H : ∀ out : claims, NoDup entries.*1 →
    foldl (λ out kv, <[Sprintf pattern kv.1 := kv.2]> out) out entries !! Sprintf pattern k =
    match (list_to_map entries : claims) !! k with
    | Some v => Some v | None => out !! Sprintf pattern k end).
  { induction entries as [|[i v] entries IH]; intros out Hnd; simpl.
    - by rewrite lookup_empty.
    - apply NoDup_cons in Hnd as [Hi Hnd]. rewrite IH by done.
      destruct (decide (i = k)) as [->|Hne].
      + rewrite !lookup_insert_eq, not_elem_of_list_to_map_1 by done. done.
      + rewrite !lookup_insert_ne; [done|done|]. intros E. by apply Hne, Hinj. }
  intros Hnd. rewrite H by done. rewrite lookup_empty. by destruct (_ !! k).
Qed.
End provider.

(** [fmt.Sprintf] on the patterns made of text and [%s]. *)
Fixpoint sprintf1 (pattern arg : string) : string :=
  match pattern with
  | String "%"%char (String "s"%char rest) => arg +:+ sprintf1 rest arg
  | String c rest => String c (sprintf1 rest arg)
  | EmptyString => EmptyString
  end.

Definition demo_config : IdProviderConfig :=
  {| cfg_Name := "ldap"; cfg_CredentialAuthority := None; cfg_GroupAuthority := None;
     cfg_GroupPattern := "corp-%s"; cfg_ClaimAuthority := None; cfg_ClaimPattern := "";
     cfg_NameAuthority := None; cfg_EmailAuthority := None; cfg_Critical := Some false;
     cfg_UidOffset := 1000 |}.

Lemma provider_detail_witness : ∃ p d,
  New sprintf1 demo_config (Ok (λ _, Err "down")) = Ok p ∧
  GetUserDetail p "bob" "x" = Ok d ∧ ud_User d = InitUser "bob" ∧
  ud_Status d = Undefined ∧ tr_Groups (ud_Translated d) = [] ∧
  tr_Claims (ud_Translated d) = Some ∅ ∧ tr_Uid (ud_Translated d) = None.
Proof.
  eexists.
  pose proof (provider_detail sprintf1 (λ _, Err "down") demo_config _ "bob" "x" eq_refl) as [d H].
  exists d. split; [reflexivity|]. exact H.
Defined.

Example sprintf1_group : sprintf1 "corp-%s!" "dev" = "corp-dev!".
Proof. reflexivity. Qed.
