(* ===== verification/Merger.v ===== *)
(** * cmd/merger/authenticator: merging the identity providers

    [Authenticate] asks every provider in the configured order and folds their details into
    one response. [merge_spec] is the declarative result, field by field, and the main theorem
    is that the loop implements it. *)

From S2P Require Import Prelude Values Misc Proto Provider.

Record mergerAuthenticator := { providers : list Provider }.

(** [New]: one provider per configuration, the first failure is the error. *)
Definition New (mk : IdProviderConfig → result string Provider) (cfgs : list IdProviderConfig)
    : result string mergerAuthenticator :=
  try! ps <- rmap (λ c, match mk c with
                        | Ok p => Ok p
                        | Err e => Err ("unable to setup provider '" +:+ cfg_Name c +:+ "': " +:+ e)
                        end) cfgs;
  Ok {| providers := ps |}.

Definition priorityByStatus : gmap string Z :=
  list_to_map [(Undefined, 0); (UserNotFound, 1); (PasswordMissing, 2);
    (PasswordUnchecked, 3); (PasswordChecked, 4); (PasswordFail, 4); (Disabled, 5)]%Z.

(** A missing key reads as the zero value. *)
Definition priority (status : Status) : Z := default 0%Z (priorityByStatus !! status).

(** The part of the response the loop updates. *)
Record accumulator := {
  acc_User : User;
  acc_Status : Status;
  acc_Authority : string;
}.

(** The credential part of the loop body. *)
Definition merge_status (providerName : string) (d : UserDetail) (r : accumulator) : accumulator :=
  if ps_CredentialAuthority (ud_Provider d) then
    if decide (priority (ud_Status d) > priority (acc_Status r))%Z then
      if decide (priority (ud_Status d) > priority PasswordMissing)%Z then
        {| acc_User := set_Uid (tr_Uid (ud_Translated d)) (acc_User r);
           acc_Status := ud_Status d; acc_Authority := providerName |}
      else
        {| acc_User := acc_User r; acc_Status := ud_Status d; acc_Authority := acc_Authority r |}
    else r
  else r.

(** The enrichment part: groups, emails, name and claims. *)
Definition merge_user (d : UserDetail) (u1 : User) : User :=
  let sp := ud_Provider d in
  let u2 :=
    if ps_GroupAuthority sp
    then set_Groups (Groups u1 ++ tr_Groups (ud_Translated d)) u1 else u1 in
  let u3 :=
    if ps_EmailAuthority sp
    then set_Emails (AppendIfNotPresent (Emails u2) (Emails (ud_User d))) u2 else u2 in
  let u4 :=
    if ps_NameAuthority sp && str_empty (Name u3) then set_Name (Name (ud_User d)) u3 else u3 in
  if ps_ClaimAuthority sp
  then set_Claims (Some (MergeMaps (map_of (tr_Claims (ud_Translated d))) (map_of (Claims u4)))) u4
  else u4.

(** The body of the loop for one detail. *)
Definition merge_detail (providerName : string) (d : UserDetail) (r : accumulator) : accumulator :=
  let r1 := merge_status providerName d r in
  {| acc_User := merge_user d (acc_User r1); acc_Status := acc_Status r1;
     acc_Authority := acc_Authority r1 |}.

Fixpoint merge_loop (ps : list Provider) (request : IdentityRequest) (r : accumulator)
    (details : list UserDetail) : result string (accumulator * list UserDetail) :=
  match ps with
  | [] => Ok (r, details)
  | p :: ps' =>
      match GetUserDetail p (req_Login request) (req_Password request) with
      | Err e => Err e
      | Ok d => merge_loop ps' request (merge_detail (GetName p) d r) (details ++ [d])
      end
  end.

Definition Authenticate (m : mergerAuthenticator) (request : IdentityRequest)
    : result string IdentityResponse :=
  let init := {| acc_User := InitUser (req_Login request); acc_Status := UserNotFound;
                 acc_Authority := "" |} in
  match merge_loop (providers m) request init [] with
  | Err e => Err e
  | Ok (r, details) =>
      Ok {| resp_User := set_Groups (DedupAndSort (Groups (acc_User r))) (acc_User r);
            resp_Status := acc_Status r; resp_Details := Some details;
            resp_Authority := acc_Authority r |}
  end.

#[export] Instance merger_Authenticator : Authenticator unit mergerAuthenticator := {
  Proto.Authenticate m req w := (Authenticate m req, w);
}.

(** ** The declarative result *)

(** A detail that may decide the status: a credential authority that knows the user. *)
Definition candidate (d : UserDetail) : bool :=
  ps_CredentialAuthority (ud_Provider d) && bool_decide (priority (ud_Status d) > 1)%Z.

(** The first candidate of highest priority. *)
Fixpoint deciding (ds : list UserDetail) : option UserDetail :=
  match ds with
  | [] => None
  | d :: ds' =>
      match deciding ds' with
      | Some b =>
          if candidate d && bool_decide (priority (ud_Status b) ≤ priority (ud_Status d))%Z
          then Some d else Some b
      | None => if candidate d then Some d else None
      end
  end.

Definition opt_pick {A} (f : UserDetail → bool) (g : UserDetail → list A) (ds : list UserDetail)
    : list A := concat (g <$> filter (λ d, f d = true) ds).

(** The first non-empty name. *)
Fixpoint first_name (names : list string) : string :=
  match names with
  | [] => ""
  | n :: ns => if str_empty n then first_name ns else n
  end.

Definition claim_layers (ds : list UserDetail) : list claims :=
  (λ d, map_of (tr_Claims (ud_Translated d))) <$>
    filter (λ d, ps_ClaimAuthority (ud_Provider d) = true) ds.

Definition merge_spec (login : string) (ds : list UserDetail) : IdentityResponse :=
  {| resp_User :=
       {| Login := login;
          Uid := match deciding ds with
                 | Some d => if decide (priority (ud_Status d) > 2)%Z
                             then tr_Uid (ud_Translated d) else None
                 | None => None
                 end;
          Name := first_name (opt_pick (λ d, ps_NameAuthority (ud_Provider d))
                                (λ d, [Name (ud_User d)]) ds);
          Emails := nub (opt_pick (λ d, ps_EmailAuthority (ud_Provider d))
                           (λ d, Emails (ud_User d)) ds);
          Groups := DedupAndSort (opt_pick (λ d, ps_GroupAuthority (ud_Provider d))
                                    (λ d, tr_Groups (ud_Translated d)) ds);
          Claims := Some (foldl (λ acc m, MergeMaps m acc) ∅ (claim_layers ds)) |};
     resp_Status := match deciding ds with Some d => ud_Status d | None => UserNotFound end;
     resp_Details := Some ds;
     resp_Authority := match deciding ds with
                       | Some d => if decide (priority (ud_Status d) > 2)%Z
                                   then ps_Name (ud_Provider d) else ""
                       | None => ""
                       end |}.

(** ** The loop implements the declarative result *)

Lemma deciding_candidate ds d : deciding ds = Some d → candidate d = true.
Proof.
  revert d. induction ds as [|x ds IH]; intros d; simpl; [done|].
  destruct (deciding ds) as [b|] eqn:E.
  - destruct (candidate x) eqn:Hx; simpl; [case_bool_decide|]; intros; simplify_eq; eauto.
  - destruct (candidate x) eqn:Hx; intros; by simplify_eq.
Qed.

Lemma candidate_prio d : candidate d = true → (priority (ud_Status d) > 1)%Z.
Proof. unfold candidate. rewrite andb_true_iff, bool_decide_eq_true. tauto. Qed.

Lemma deciding_snoc ds d :
  deciding (ds ++ [d]) =
  match deciding ds with
  | Some b => if candidate d && bool_decide (priority (ud_Status d) > priority (ud_Status b))%Z
              then Some d else Some b
  | None => if candidate d then Some d else None
  end.
Proof.
  induction ds as [|x ds IH]; [done|]. simpl. rewrite IH.
  destruct (deciding ds) as [b|], (candidate d) eqn:Hd, (candidate x) eqn:Hx; simpl;
    repeat (case_bool_decide; simpl); try done; lia.
Qed.

Lemma opt_pick_snoc {A} f (g : UserDetail → list A) ds d :
  opt_pick f g (ds ++ [d]) = opt_pick f g ds ++ (if f d then g d else []).
Proof.
  unfold opt_pick. rewrite filter_app, fmap_app, concat_app. f_equal.
  rewrite filter_cons. destruct (f d); simpl; [|done]. by rewrite app_nil_r.
Qed.

Lemma first_name_snoc ns n :
  first_name (ns ++ [n]) = if str_empty (first_name ns) then n else first_name ns.
Proof.
  induction ns as [|x ns IH]; simpl.
  - unfold str_empty. case_bool_decide; by subst.
  - destruct (str_empty x) eqn:Hx; [done|]. by rewrite Hx.
Qed.

Lemma AppendIfNotPresent_nub_app xs items :
  AppendIfNotPresent (nub xs) items = nub (xs ++ items).
Proof.
  rewrite AppendIfNotPresent_nub, <- mergeStringSlicesDeduped_nub.
  unfold mergeStringSlicesDeduped.
  rewrite append_unseen_empty, append_unseen_nub, seen_after_union. do 2 f_equal.
  apply list_filter_iff. intros x. rewrite elem_of_nub. set_solver.
Qed.

Lemma claim_layers_snoc ds d :
  claim_layers (ds ++ [d]) =
  claim_layers ds ++ (if ps_ClaimAuthority (ud_Provider d)
                      then [map_of (tr_Claims (ud_Translated d))] else []).
Proof.
  unfold claim_layers. rewrite filter_app, fmap_app. f_equal. rewrite filter_cons.
  by destruct (ps_ClaimAuthority _).
Qed.

(** The accumulator after the details [ds]: the declarative result, groups not yet sorted. *)
Definition acc_of (login : string) (ds : list UserDetail) : accumulator :=
  let r := merge_spec login ds in
  {| acc_User := set_Groups (opt_pick (λ d, ps_GroupAuthority (ud_Provider d))
                               (λ d, tr_Groups (ud_Translated d)) ds) (resp_User r);
     acc_Status := resp_Status r; acc_Authority := resp_Authority r |}.

Lemma prio_UserNotFound : priority UserNotFound = 1%Z.
Proof. reflexivity. Qed.
Lemma prio_PasswordMissing : priority PasswordMissing = 2%Z.
Proof. reflexivity. Qed.

(** The status, uid and authority part of one iteration. *)
Lemma merge_decision login ds d :
  let r := acc_of login ds in
  let r' := acc_of login (ds ++ [d]) in
  (acc_Status r', Uid (acc_User r'), acc_Authority r') =
  if ps_CredentialAuthority (ud_Provider d) &&
     bool_decide (priority (ud_Status d) > priority (acc_Status r))%Z
  then if decide (priority (ud_Status d) > priority PasswordMissing)%Z
       then (ud_Status d, tr_Uid (ud_Translated d), ps_Name (ud_Provider d))
       else (ud_Status d, Uid (acc_User r), acc_Authority r)
  else (acc_Status r, Uid (acc_User r), acc_Authority r).
Proof.
  simpl. rewrite deciding_snoc, prio_PasswordMissing.
  destruct (deciding ds) as [b|] eqn:Hb.
  - pose proof (candidate_prio _ (deciding_candidate _ _ Hb)) as Hp. unfold candidate.
    destruct (ps_CredentialAuthority (ud_Provider d)); simpl; [|done].
    repeat (case_bool_decide || case_decide; simpl); try done; lia.
  - unfold candidate. rewrite prio_UserNotFound.
    destruct (ps_CredentialAuthority (ud_Provider d)); simpl; [|done].
    repeat (case_bool_decide || case_decide; simpl); try done; lia.
Qed.

Lemma accumulator_eq r r' :
  (acc_Status r, Uid (acc_User r), acc_Authority r) =
  (acc_Status r', Uid (acc_User r'), acc_Authority r') →
  Login (acc_User r) = Login (acc_User r') → Name (acc_User r) = Name (acc_User r') →
  Emails (acc_User r) = Emails (acc_User r') → Groups (acc_User r) = Groups (acc_User r') →
  Claims (acc_User r) = Claims (acc_User r') → r = r'.
Proof.
  destruct r as [[] ? ?], r' as [[] ? ?]; simpl. intros; by simplify_eq.
Qed.

(** The fields of the user are updated independently. *)
Lemma merge_user_fields d u :
  let u' := merge_user d u in
  let sp := ud_Provider d in
  Login u' = Login u ∧ Uid u' = Uid u ∧
  Name u' = (if ps_NameAuthority sp && str_empty (Name u) then Name (ud_User d) else Name u) ∧
  Emails u' = (if ps_EmailAuthority sp
               then AppendIfNotPresent (Emails u) (Emails (ud_User d)) else Emails u) ∧
  Groups u' = (if ps_GroupAuthority sp
               then Groups u ++ tr_Groups (ud_Translated d) else Groups u) ∧
  Claims u' = (if ps_ClaimAuthority sp
               then Some (MergeMaps (map_of (tr_Claims (ud_Translated d))) (map_of (Claims u)))
               else Claims u).
Proof.
  unfold merge_user. destruct (ud_Provider d) as [n [] [] [] [] []]; simpl;
    destruct (str_empty (Name u)) eqn:E; simpl; rewrite ?E; by split_and!.
Qed.

Lemma merge_status_user name d r :
  let u := acc_User r in
  let u' := acc_User (merge_status name d r) in
  Login u' = Login u ∧ Name u' = Name u ∧ Emails u' = Emails u ∧ Groups u' = Groups u ∧
  Claims u' = Claims u.
Proof.
  cbn zeta. unfold merge_status. destruct (ps_CredentialAuthority _); [|by split_and!].
  destruct (decide _); [|by split_and!]. destruct (decide _); by split_and!.
Qed.

Lemma merge_detail_decision name d r :
  let r' := merge_detail name d r in
  (acc_Status r', Uid (acc_User r'), acc_Authority r') =
  if ps_CredentialAuthority (ud_Provider d) &&
     bool_decide (priority (ud_Status d) > priority (acc_Status r))%Z
  then if decide (priority (ud_Status d) > priority PasswordMissing)%Z
       then (ud_Status d, tr_Uid (ud_Translated d), name)
       else (ud_Status d, Uid (acc_User r), acc_Authority r)
  else (acc_Status r, Uid (acc_User r), acc_Authority r).
Proof.
  unfold merge_detail. simpl.
  destruct (merge_user_fields d (acc_User (merge_status name d r))) as (_ & -> & _).
  unfold merge_status. destruct (ps_CredentialAuthority _); simpl; [|done].
  case_bool_decide; [rewrite decide_True by done|by rewrite decide_False by done].
  by destruct (decide _).
Qed.

Lemma merge_detail_acc login ds d :
  merge_detail (ps_Name (ud_Provider d)) d (acc_of login ds) = acc_of login (ds ++ [d]).
Proof.
  set (name := ps_Name (ud_Provider d)).
  destruct (merge_status_user name d (acc_of login ds)) as (HL' & HN' & HE' & HG' & HC').
  destruct (merge_user_fields d (acc_User (merge_status name d (acc_of login ds))))
    as (HL & _ & HN & HE & HG & HC).
  rewrite HL' in HL. rewrite HN' in HN. rewrite HE' in HE. rewrite HG' in HG. rewrite HC' in HC.
  apply accumulator_eq; unfold merge_detail; cbn [acc_User].
  - unfold name. by rewrite merge_decision, <- (merge_detail_decision _ d (acc_of login ds)).
  - by rewrite HL.
  - rewrite HN. simpl. rewrite opt_pick_snoc.
    destruct (ps_NameAuthority _); simpl; [|by rewrite app_nil_r]. by rewrite first_name_snoc.
  - rewrite HE. simpl. rewrite opt_pick_snoc.
    destruct (ps_EmailAuthority _); [|by rewrite app_nil_r]. apply AppendIfNotPresent_nub_app.
  - rewrite HG. simpl. rewrite opt_pick_snoc. destruct (ps_GroupAuthority _); [done|].
    by rewrite app_nil_r.
  - rewrite HC. simpl. rewrite claim_layers_snoc. destruct (ps_ClaimAuthority _).
    + by rewrite foldl_snoc.
    + by rewrite app_nil_r.
Qed.

Section refinement.
Context (m : mergerAuthenticator).
Context (Hok : Forall ProviderOk (providers m)).

Lemma merge_loop_spec ps request ds :
  Forall ProviderOk ps →
  merge_loop ps request (acc_of (req_Login request) ds) ds =
  match rmap (λ p, GetUserDetail p (req_Login request) (req_Password request)) ps with
  | Ok ds' => Ok (acc_of (req_Login request) (ds ++ ds'), ds ++ ds')
  | Err e => Err e
  end.
Proof.
  intros Hps. revert ds. induction Hps as [|p ps Hp Hps IH]; intros ds; simpl.
  - by rewrite app_nil_r.
  - destruct (GetUserDetail p _ _) as [d|e] eqn:E; simpl; [|done].
    rewrite <- (detail_names_provider _ _ _ E), merge_detail_acc, IH.
    destruct (rmap _ ps); simpl; [|done]. by rewrite <- app_assoc.
Qed.

Lemma Authenticate_merge_spec request :
  Authenticate m request =
  match rmap (λ p, GetUserDetail p (req_Login request) (req_Password request)) (providers m) with
  | Ok ds => Ok (merge_spec (req_Login request) ds)
  | Err e => Err e
  end.
Proof.
  unfold Authenticate.
  change {| acc_User := _; acc_Status := _; acc_Authority := _ |}
    with (acc_of (req_Login request) []).
  rewrite merge_loop_spec by done.
  by destruct (rmap _ _).
Qed.

(** C3. The merger's answer is the declarative merge of its providers' details: the status,
    uid and authority of the first credential authority of highest priority, the sorted
    distinct groups, the distinct emails and the first name of the providers with that
    authority, and the claims merged with the earlier providers on top. It fails exactly when
    a provider fails, with the error of the first one. *)
Theorem Authenticate_refines request :
  Authenticate m request =
  match rmap (λ p, GetUserDetail p (req_Login request) (req_Password request)) (providers m) with
  | Ok ds => Ok (merge_spec (req_Login request) ds)
  | Err e => Err e
  end.
Proof. apply Authenticate_merge_spec. Qed.
End refinement.

(** ** Consequences *)

Lemma deciding_split ds d : deciding ds = Some d →
  ∃ l1 l2, ds = l1 ++ d :: l2 ∧ candidate d = true ∧
    (∀ x, x ∈ l1 → candidate x = true → priority (ud_Status x) < priority (ud_Status d))%Z ∧
    (∀ x, x ∈ l2 → candidate x = true → priority (ud_Status x) ≤ priority (ud_Status d))%Z.
Proof.
  revert d. induction ds as [|x ds IH] using rev_ind; intros d; [done|].
  rewrite deciding_snoc. destruct (deciding ds) as [b|] eqn:E.
  - destruct (IH b eq_refl) as (l1 & l2 & -> & Hb & H1 & H2).
    destruct (candidate x) eqn:Hx; simpl; [case_bool_decide|]; intros [= <-].
    + exists (l1 ++ b :: l2), []. split_and!; [done|done| |set_solver].
      intros y Hy Hc. apply elem_of_app in Hy as [Hy|[->|Hy]%elem_of_cons];
        [specialize (H1 y Hy Hc)| |specialize (H2 y Hy Hc)]; lia.
    + exists l1, (l2 ++ [x]). rewrite <- app_assoc. split_and!; [done|done|done|].
      intros y Hy Hc. apply elem_of_app in Hy as [Hy| ->%list_elem_of_singleton]; [by apply H2|lia].
    + exists l1, (l2 ++ [x]). rewrite <- app_assoc. split_and!; [done|done|done|].
      intros y Hy Hc. apply elem_of_app in Hy as [Hy| ->%list_elem_of_singleton]; [by apply H2|congruence].
  - assert (∀ y, y ∈ ds → candidate y = true → False) as Hno.
    { clear -E. induction ds as [|z ds IH]; [set_solver|]. simpl in E.
      destruct (deciding ds); [by case_match|]. destruct (candidate z) eqn:Hz; [done|].
      intros y [->|Hy]%elem_of_cons; [congruence|]. by apply IH. }
    destruct (candidate x) eqn:Hx; intros [= <-]. exists ds, [].
    split_and!; [done|done| |set_solver]. intros y Hy Hc. by destruct (Hno y).
Qed.

Lemma deciding_max ds x :
  x ∈ ds → candidate x = true →
  ∃ d, deciding ds = Some d ∧ (priority (ud_Status x) ≤ priority (ud_Status d))%Z.
Proof.
  intros Hx Hc. induction ds as [|y ds IH]; [set_solver|]. simpl.
  apply elem_of_cons in Hx as [->|Hx].
  - rewrite Hc. destruct (deciding ds) as [b|]; simpl; [case_bool_decide|]; eexists; split; try done; lia.
  - destruct (IH Hx) as (d & -> & Hd). destruct (candidate y && _) eqn:E; [|eauto].
    apply andb_true_iff in E as [_ E%bool_decide_eq_true]. eexists; split; [done|]. lia.
Qed.

Lemma prio_top s : (5 ≤ priority s)%Z → s = Disabled.
Proof.
  unfold priority. destruct (priorityByStatus !! s) as [p|] eqn:E; simpl; [|lia].
  apply elem_of_list_to_map_2 in E. rewrite !elem_of_cons in E.
  intros. destruct_or!; simplify_eq; try lia; try done. by apply not_elem_of_nil in E.
Qed.

Lemma prio_bounds s : (0 ≤ priority s ≤ 5)%Z.
Proof.
  unfold priority. destruct (priorityByStatus !! s) as [p|] eqn:E; simpl; [|lia].
  apply elem_of_list_to_map_2 in E. rewrite !elem_of_cons in E.
  destruct_or!; simplify_eq; try lia. by apply not_elem_of_nil in E.
Qed.

Section consequences.
Context (m : mergerAuthenticator) (Hok : Forall ProviderOk (providers m)).
Context (request : IdentityRequest) (resp : IdentityResponse).

Lemma Authenticate_details :
  Authenticate m request = Ok resp →
  ∃ ds, rmap (λ p, GetUserDetail p (req_Login request) (req_Password request)) (providers m) = Ok ds ∧
        resp = merge_spec (req_Login request) ds.
Proof.
  intros Hauth. rewrite Authenticate_merge_spec in Hauth by done.
  destruct (rmap _ _) as [ds|e]; [|done]. exists ds. by simplify_eq.
Qed.

Lemma checked_authority :
  Authenticate m request = Ok resp → resp_Status resp = PasswordChecked →
  ∃ ds l1 d l2,
    rmap (λ p, GetUserDetail p (req_Login request) (req_Password request)) (providers m) = Ok ds ∧
    ds = l1 ++ d :: l2 ∧
    ps_CredentialAuthority (ud_Provider d) = true ∧ ud_Status d = PasswordChecked ∧
    resp_Authority resp = ps_Name (ud_Provider d) ∧
    Uid (resp_User resp) = tr_Uid (ud_Translated d) ∧
    (∀ x, x ∈ ds → ps_CredentialAuthority (ud_Provider x) = true → ud_Status x ≠ Disabled) ∧
    (∀ x, x ∈ l1 → ps_CredentialAuthority (ud_Provider x) = true → ud_Status x ≠ PasswordFail).
Proof.
  intros Hauth Hst. destruct (Authenticate_details Hauth) as (ds & Hds & Hresp).
  rewrite Hresp in Hst. unfold merge_spec in Hst. simpl in Hst.
  destruct (deciding ds) as [d|] eqn:E; [|done].
  destruct (deciding_split _ _ E) as (l1 & l2 & Hsp & Hc & H1 & H2).
  exists ds, l1, d, l2. rewrite Hresp. unfold merge_spec; simpl. rewrite E, Hst.
  assert (Hcand : ∀ x, ps_CredentialAuthority (ud_Provider x) = true →
    (priority (ud_Status x) > 1)%Z → candidate x = true).
  { intros x Hx Hp. unfold candidate. rewrite Hx. by apply bool_decide_eq_true. }
  split_and!; try done.
  - unfold candidate in Hc. by apply andb_true_iff in Hc as [? _].
  - intros x Hx Hca Hdis. destruct (deciding_max ds x Hx) as (d' & Hd' & Hle).
    { apply Hcand; [done|]. by rewrite Hdis. }
    rewrite E in Hd'. simplify_eq. rewrite Hdis, Hst in Hle. by vm_compute in Hle.
  - intros x Hx Hca Hf. specialize (H1 x Hx (Hcand x Hca ltac:(by rewrite Hf))).
    rewrite Hf, Hst in H1. by vm_compute in H1.
Qed.

(** C4. A user is authenticated by the merger only on the word of a credential authority: a
    [passwordChecked] answer means that some provider with credential authority checked the
    password, is the recorded authority, that no earlier credential authority rejected it and
    that none at all declares the user disabled. *)
Theorem passwordChecked_sound :
  Authenticate m request = Ok resp → resp_Status resp = PasswordChecked →
  ∃ ds l1 d l2,
    rmap (λ p, GetUserDetail p (req_Login request) (req_Password request)) (providers m) = Ok ds ∧
    ds = l1 ++ d :: l2 ∧
    ps_CredentialAuthority (ud_Provider d) = true ∧ ud_Status d = PasswordChecked ∧
    resp_Authority resp = ps_Name (ud_Provider d) ∧
    Uid (resp_User resp) = tr_Uid (ud_Translated d) ∧
    (∀ x, x ∈ ds → ps_CredentialAuthority (ud_Provider x) = true → ud_Status x ≠ Disabled) ∧
    (∀ x, x ∈ l1 → ps_CredentialAuthority (ud_Provider x) = true → ud_Status x ≠ PasswordFail).
Proof. apply checked_authority. Qed.

(** Disabling a user in any credential authority disables it globally, whatever the other
    providers answer: the merged status is [disabled] exactly when some credential authority
    says so. *)
Theorem disabled_wins :
  Authenticate m request = Ok resp →
  resp_Status resp = Disabled ↔
  ∃ ds d, rmap (λ p, GetUserDetail p (req_Login request) (req_Password request)) (providers m) = Ok ds ∧
    d ∈ ds ∧ ps_CredentialAuthority (ud_Provider d) = true ∧ ud_Status d = Disabled.
Proof.
  intros Hauth. destruct (Authenticate_details Hauth) as (ds & Hds & ->). unfold merge_spec; simpl. split.
  - intros Hst. destruct (deciding ds) as [d|] eqn:E; [|done].
    destruct (deciding_split _ _ E) as (l1 & l2 & -> & Hc & _).
    exists (l1 ++ d :: l2), d. unfold candidate in Hc. apply andb_true_iff in Hc as [? _].
    split_and!; try done. set_solver.
  - intros (ds' & d & Hds' & Hd & Hca & Hdis). rewrite Hds in Hds'. simplify_eq.
    destruct (deciding_max ds' d Hd) as (b & -> & Hle).
    { unfold candidate. rewrite Hca, Hdis. done. }
    rewrite Hdis in Hle. apply prio_top. exact Hle.
Qed.
End consequences.

(** ** A failing non-critical provider *)

Lemma opt_pick_app {A} f (g : UserDetail → list A) ds1 ds2 :
  opt_pick f g (ds1 ++ ds2) = opt_pick f g ds1 ++ opt_pick f g ds2.
Proof. unfold opt_pick. by rewrite filter_app, fmap_app, concat_app. Qed.

Lemma opt_pick_skip {A} f (g : UserDetail → list A) d ds :
  g d = [] → opt_pick f g (d :: ds) = opt_pick f g ds.
Proof. unfold opt_pick. rewrite filter_cons. intros Hg. case_decide; [|done]. csimpl. by rewrite Hg. Qed.

Lemma first_name_skip ns1 ns2 : first_name (ns1 ++ "" :: ns2) = first_name (ns1 ++ ns2).
Proof. induction ns1 as [|n ns1 IH]; [done|]. simpl. by rewrite IH. Qed.

Lemma deciding_skip ds1 d ds2 :
  candidate d = false → deciding (ds1 ++ d :: ds2) = deciding (ds1 ++ ds2).
Proof.
  intros Hd. induction ds1 as [|x ds1 IH]; simpl; [|by rewrite IH].
  rewrite Hd. by destruct (deciding ds2).
Qed.

(** A provider that is down and not critical does not influence the answer: with its
    placeholder detail the merged user, status and authority are those of the other providers
    alone. *)
Theorem undefined_provider_neutral login ds1 d ds2 :
  ud_Status d = Undefined → Name (ud_User d) = "" → Emails (ud_User d) = [] →
  tr_Groups (ud_Translated d) = [] → map_of (tr_Claims (ud_Translated d)) = ∅ →
  let r := merge_spec login (ds1 ++ d :: ds2) in
  let r' := merge_spec login (ds1 ++ ds2) in
  resp_User r = resp_User r' ∧ resp_Status r = resp_Status r' ∧
  resp_Authority r = resp_Authority r'.
Proof.
  intros Hst Hn He Hg Hc. unfold merge_spec. cbn [resp_User resp_Status resp_Authority].
  rewrite deciding_skip by (unfold candidate; rewrite Hst; by rewrite andb_false_r).
  split_and!; try done. f_equal.
  - rewrite !opt_pick_app. unfold opt_pick at 2. rewrite filter_cons.
    case_decide; [|done]. rewrite fmap_cons; simpl. rewrite Hn. apply first_name_skip.
  - by rewrite !opt_pick_app, opt_pick_skip.
  - by rewrite !opt_pick_app, opt_pick_skip.
  - unfold claim_layers. rewrite !filter_app, filter_cons, !fmap_app. f_equal.
    case_decide; [|done]. rewrite fmap_cons, Hc, !foldl_app. simpl. f_equal.
    apply MergeMaps_empty_l.
Qed.

(** ** Concrete mergers *)

Definition demo_detail (name : string) (credential : bool) (st : Status) (uid : Z)
    (groups : list string) : UserDetail :=
  {| ud_User := set_Name name (InitUser "bob"); ud_Status := st;
     ud_Provider := {| ps_Name := name; ps_CredentialAuthority := credential;
       ps_GroupAuthority := true; ps_ClaimAuthority := true; ps_NameAuthority := true;
       ps_EmailAuthority := true |};
     ud_Translated := {| tr_Groups := groups; tr_Claims := Some ∅; tr_Uid := Some uid |} |}.

Definition demo_provider (d : UserDetail) : Provider :=
  {| GetUserDetail := λ _ _, Ok d; GetName := ps_Name (ud_Provider d) |}.

#[export] Instance demo_provider_ok d : ProviderOk (demo_provider d).
Proof. split. intros login password d'. simpl. by intros [= <-]. Qed.

Lemma demo_providers_ok ds : Forall ProviderOk (demo_provider <$> ds).
Proof. apply Forall_fmap, Forall_true. intros d. apply demo_provider_ok. Qed.

Definition demo_details : list UserDetail :=
  [demo_detail "hr" false Disabled 1 ["staff"]; demo_detail "ucrd" true UserNotFound 2 [];
   demo_detail "ldap" true PasswordChecked 3 ["dev"; "staff"]].
Definition demo_merger : mergerAuthenticator := {| providers := demo_provider <$> demo_details |}.
Definition demo_request : IdentityRequest := {| req_Login := "bob"; req_Password := "s3cret" |}.

Lemma Authenticate_refines_witness :
  Authenticate demo_merger demo_request = Ok (merge_spec "bob" demo_details).
Proof.
  rewrite (Authenticate_refines demo_merger (demo_providers_ok _) demo_request). reflexivity.
Defined.

(** A provider without credential authority that declares the user disabled is not heard: the
    user of [demo_details] is authenticated by [ldap]. *)
Lemma passwordChecked_sound_witness : ∃ resp l1 d l2,
  Authenticate demo_merger demo_request = Ok resp ∧ resp_Status resp = PasswordChecked ∧
  demo_details = l1 ++ d :: l2 ∧ resp_Authority resp = ps_Name (ud_Provider d).
Proof.
  destruct (Authenticate demo_merger demo_request) as [resp|e] eqn:E; [|by vm_compute in E].
  assert (Hs : resp_Status resp = PasswordChecked).
  { vm_compute in E. injection E as <-. reflexivity. }
  pose proof (passwordChecked_sound demo_merger (demo_providers_ok _) demo_request resp E Hs)
    as (ds & l1 & d & l2 & Hds & Hsp & _ & _ & Ha & _).
  exists resp, l1, d, l2. split; [reflexivity|]. split; [exact Hs|]. split; [|exact Ha].
  vm_compute in Hds. injection Hds as <-. exact Hsp.
Defined.

Lemma disabled_wins_witness : ∃ resp,
  Authenticate demo_merger demo_request = Ok resp ∧ resp_Status resp ≠ Disabled ∧
  ~ ∃ ds d, rmap (λ p, GetUserDetail p "bob" "s3cret") (providers demo_merger) = Ok ds ∧
    d ∈ ds ∧ ps_CredentialAuthority (ud_Provider d) = true ∧ ud_Status d = Disabled.
Proof.
  destruct (Authenticate demo_merger demo_request) as [resp|e] eqn:E; [|by vm_compute in E].
  assert (Hs : resp_Status resp ≠ Disabled).
  { vm_compute in E. injection E as <-. discriminate. }
  exists resp. split; [reflexivity|]. split; [exact Hs|]. intros H.
  apply Hs, (disabled_wins demo_merger (demo_providers_ok _) demo_request resp E), H.
Defined.

Lemma undefined_provider_neutral_witness :
  let down := {| ud_User := InitUser "bob"; ud_Status := Undefined;
                 ud_Provider := ud_Provider (demo_detail "down" true Undefined 0 []);
                 ud_Translated := {| tr_Groups := []; tr_Claims := Some ∅; tr_Uid := None |} |} in
  resp_User (merge_spec "bob" (demo_details ++ [down])) = resp_User (merge_spec "bob" demo_details).
Proof.
  intros down.
  pose proof (undefined_provider_neutral "bob" demo_details down [] eq_refl eq_refl eq_refl
                eq_refl eq_refl) as (H & _).
  rewrite app_nil_r in H. exact H.
Defined.
