(* ===== verification/Ucrd.v ===== *)
(** * cmd/ucrd/authenticator: users held in Kubernetes resources

    [crdAuthenticator.Authenticate] lists the group bindings of the login, collects the claims
    of the bound groups, then reads the user. The Kubernetes client, the JSON decoder and
    bcrypt are arguments. *)

From S2P Require Import Prelude Values Misc Proto K8s.

(** [kubauthv1alpha1.UserSpec]; [Claims] is the raw JSON text, when the field is present. *)
Record UserSpec := {
  us_Name : string;
  us_Emails : list string;
  us_PasswordHash : string;
  us_Uid : option Z;
  us_Comment : string;
  us_Claims : option string;
  us_Disabled : option bool;
}.

Record GroupSpec := { gs_Comment : string; gs_Claims : option string }.

Record GroupBindingSpec := { gb_User : string; gb_Group : string }.

(** The calls of the Kubernetes client, in the user namespace. *)
Record crd_client := {
  (** [List] with the field index [userkey = login] *)
  list_bindings : string → result string (list GroupBindingSpec);
  get_group : string → get_result GroupSpec;
  get_user : string → get_result UserSpec;
}.

Section ucrd.
(** [json.Unmarshal] into a [map[string]interface{}], and [bcrypt.CompareHashAndPassword]. *)
Context (unmarshal : string → result string claims).
Context (bcrypt_ok : string → string → bool).

(** [merge]: the claims and the error. *)
Definition merge (a : option claims) (b : option string) : option claims * option string :=
  match b with
  | None => (a, None)
  | Some raw =>
      match unmarshal raw with
      | Err e => (None, Some e)
      | Ok bBis => (Some (MergeMaps (map_of a) bBis), None)
      end
  end.

(** The loop over the sorted bindings, on the groups and claims of the response. The error of
    [merge] lands in [err], which the next call overwrites. *)
Fixpoint bindings_loop (c : crd_client) (bindings : list string) (groups : list string)
    (cl : option claims) : result string (list string * option claims) :=
  match bindings with
  | [] => Ok (groups, cl)
  | g :: rest =>
      let groups' := groups ++ [g] in
      match get_group c g with
      | GetErr e => Err ("error fetching Group " +:+ g +:+ ": " +:+ e)
      | NotFound => bindings_loop c rest groups' cl
      | Found grp => bindings_loop c rest groups' (merge cl (gs_Claims grp)).1
      end
  end.

(** The status part: what is known about the password. *)
Definition password_status (usr : UserSpec) (password : string) : Status :=
  if str_empty (us_PasswordHash usr) then PasswordMissing
  else if str_empty password then PasswordUnchecked
  else if bcrypt_ok (us_PasswordHash usr) password then PasswordChecked
  else PasswordFail.

Definition response (u : User) (st : Status) : IdentityResponse :=
  {| resp_User := u; resp_Status := st; resp_Details := None; resp_Authority := "" |}.

(** [sort.Slice] orders the bindings by group, the only field read afterwards. *)
Definition Authenticate (c : crd_client) (request : IdentityRequest)
    : result string IdentityResponse :=
  let user := InitUser (req_Login request) in
  match list_bindings c (req_Login request) with
  | Err e => Err ("failed to list groupBindings for user " +:+ req_Login request +:+ ": " +:+ e)
  | Ok items =>
      try! (groups, cl) <- bindings_loop c (sort_strings (gb_Group <$> items)) [] (Claims user);
      let user := set_Claims cl (set_Groups groups user) in
      match get_user c (req_Login request) with
      | GetErr e => Err ("error fetching User '" +:+ req_Login request +:+ "': " +:+ e)
      | NotFound => Ok (response user UserNotFound)
      | Found usr =>
          let user := match us_Uid usr with Some _ => set_Uid (us_Uid usr) user | None => user end in
          let user := set_Name (us_Name usr) user in
          let user := match us_Emails usr with [] => user | es => set_Emails es user end in
          let user := set_Claims (merge (Claims user) (us_Claims usr)).1 user in
          if BoolPtrFalse (us_Disabled usr) then Ok (response user Disabled)
          else Ok (response user (password_status usr (req_Password request)))
      end
  end.

#[export] Instance crd_Authenticator : Authenticator unit crd_client := {
  Proto.Authenticate c req w := (Authenticate c req, w);
}.

(** ** What the response says *)

(** The claims of the groups that exist, in the order of the bindings; [None] when one of them
    is not a JSON object. *)
Fixpoint group_claims (c : crd_client) (bindings : list string) (acc : claims) : option claims :=
  match bindings with
  | [] => Some acc
  | g :: rest =>
      match get_group c g with
      | Found grp =>
          match gs_Claims grp with
          | None => group_claims c rest acc
          | Some raw => match unmarshal raw with
                        | Ok m => group_claims c rest (MergeMaps acc m)
                        | Err _ => None
                        end
          end
      | _ => group_claims c rest acc
      end
  end.

Definition fetchable {A} (r : get_result A) : Prop :=
  match r with GetErr _ => False | _ => True end.

Lemma bindings_loop_groups c bs groups cl r :
  bindings_loop c bs groups cl = Ok r → r.1 = groups ++ bs ∧ Forall (λ g, fetchable (get_group c g)) bs.
Proof.
  revert groups cl. induction bs as [|g bs IH]; intros groups cl; simpl.
  - intros [= <-]. by rewrite app_nil_r.
  - destruct (get_group c g) as [grp| |e] eqn:E; intros H; [| |done];
      apply IH in H as [-> HF]; rewrite <- app_assoc; simpl; (split; [done|]);
      constructor; by rewrite ?E.
Qed.

Lemma bindings_loop_total c bs groups cl :
  Forall (λ g, fetchable (get_group c g)) bs → ∃ r, bindings_loop c bs groups cl = Ok r.
Proof.
  intros H. revert groups cl. induction H as [|g bs Hg Hbs IH]; intros groups cl; simpl; [eauto|].
  destruct (get_group c g); [apply IH|apply IH|done].
Qed.

Lemma bindings_loop_claims c bs groups acc acc' r :
  group_claims c bs acc = Some acc' → bindings_loop c bs groups (Some acc) = Ok r → r.2 = Some acc'.
Proof.
  revert groups acc. induction bs as [|g bs IH]; intros groups acc; simpl.
  - by intros [= <-] [= <-].
  - destruct (get_group c g) as [grp| |e]; [|apply IH|done].
    unfold merge. destruct (gs_Claims grp) as [raw|]; simpl; [|apply IH].
    destruct (unmarshal raw); simpl; [apply IH|done].
Qed.

(** The shape of a successful answer. *)
Lemma Authenticate_Ok c request resp :
  Authenticate c request = Ok resp →
  ∃ items r, list_bindings c (req_Login request) = Ok items ∧
    bindings_loop c (sort_strings (gb_Group <$> items)) [] (Some ∅) = Ok r ∧
    resp_Details resp = None ∧ resp_Authority resp = "" ∧
    Login (resp_User resp) = req_Login request ∧ Groups (resp_User resp) = r.1 ∧
    match get_user c (req_Login request) with
    | GetErr _ => False
    | NotFound => resp_Status resp = UserNotFound ∧ Claims (resp_User resp) = r.2
    | Found usr =>
        resp_Status resp = (if BoolPtrFalse (us_Disabled usr) then Disabled
                            else password_status usr (req_Password request)) ∧
        Uid (resp_User resp) = us_Uid usr ∧ Name (resp_User resp) = us_Name usr ∧
        Emails (resp_User resp) = us_Emails usr ∧
        Claims (resp_User resp) = (merge r.2 (us_Claims usr)).1
    end.
Proof.
  unfold Authenticate. destruct (list_bindings _ _) as [items|e]; [|done].
  change (Claims (InitUser (req_Login request))) with (Some (∅ : claims)).
  destruct (bindings_loop _ _ _ _) as [[groups cl]|e] eqn:Hl; simpl; [|done].
  intros H. exists items, (groups, cl). split; [done|]. split; [done|].
  destruct (get_user _ _) as [usr| |e]; [|by simplify_eq|done].
  destruct (us_Uid usr) eqn:Hu, (us_Emails usr) eqn:He, (BoolPtrFalse _); simplify_eq/=;
    by rewrite ?Hu, ?He.
Qed.

Lemma checked_iff c request :
  (∃ resp, Authenticate c request = Ok resp ∧ resp_Status resp = PasswordChecked) ↔
  ∃ items usr,
    list_bindings c (req_Login request) = Ok items ∧
    Forall (λ b, fetchable (get_group c (gb_Group b))) items ∧
    get_user c (req_Login request) = Found usr ∧ us_Disabled usr ≠ Some true ∧
    us_PasswordHash usr ≠ "" ∧ req_Password request ≠ "" ∧
    bcrypt_ok (us_PasswordHash usr) (req_Password request) = true.
Proof.
  split.
  - intros (resp & HA & Hst). apply Authenticate_Ok in HA as (items & r & Hi & Hl & _ & _ & _ & _ & H).
    destruct (get_user _ _) as [usr| |e] eqn:Hu; [|rewrite Hst in H; by destruct H|done].
    destruct H as (Hs & _). rewrite Hst in Hs. exists items, usr.
    apply bindings_loop_groups in Hl as [_ HF].
    rewrite sort_strings_perm, Forall_fmap in HF.
    destruct (us_Disabled usr) as [[]|]; simpl in Hs; try done;
      unfold password_status, str_empty in Hs; repeat case_bool_decide; try done;
      destruct (bcrypt_ok _ _) eqn:Hb; try done.
  - intros (items & usr & Hi & HF & Hu & Hd & Hh & Hp & Hb).
    destruct (bindings_loop_total c (sort_strings (gb_Group <$> items)) [] (Some ∅)) as [[gs cl] Hr].
    { by rewrite sort_strings_perm, Forall_fmap. }
    unfold Authenticate. rewrite Hi. change (Claims (InitUser _)) with (Some (∅ : claims)).
    rewrite Hr. simpl. rewrite Hu.
    assert (BoolPtrFalse (us_Disabled usr) = false) as -> by (by destruct (us_Disabled usr) as [[]|]).
    eexists. split; [done|]. simpl. unfold password_status.
    by rewrite (proj2 (str_empty_false _) Hh), (proj2 (str_empty_false _) Hp), Hb.
Qed.

(** A disabled user is reported as such by every answer. *)
Lemma disabled_reported c request resp usr :
  Authenticate c request = Ok resp → get_user c (req_Login request) = Found usr →
  us_Disabled usr = Some true → resp_Status resp = Disabled.
Proof.
  intros HA Hu Hd. apply Authenticate_Ok in HA as (items & r & _ & _ & _ & _ & _ & _ & H).
  rewrite Hu, Hd in H. by destruct H.
Qed.

(** C8. A user resource is authenticated exactly when the cluster could be read, the user
    exists and is not disabled, holds a password hash, a non-empty password is given and
    bcrypt accepts it. In particular every API failure denies. *)
Theorem ucrd_passwordChecked_iff c request :
  (∃ resp, Authenticate c request = Ok resp ∧ resp_Status resp = PasswordChecked) ↔
  ∃ items usr,
    list_bindings c (req_Login request) = Ok items ∧
    Forall (λ b, fetchable (get_group c (gb_Group b))) items ∧
    get_user c (req_Login request) = Found usr ∧ us_Disabled usr ≠ Some true ∧
    us_PasswordHash usr ≠ "" ∧ req_Password request ≠ "" ∧
    bcrypt_ok (us_PasswordHash usr) (req_Password request) = true.
Proof. apply checked_iff. Qed.

(** A successful answer is for the login that was asked, lists exactly the groups bound to
    it, sorted, whether or not the user and the groups exist, and, when every claim document is
    a JSON object, its claims are those of the existing groups merged in the order of their
    names with the user's own claims on top. *)
Theorem ucrd_answer c request resp :
  Authenticate c request = Ok resp →
  ∃ items, list_bindings c (req_Login request) = Ok items ∧
    Login (resp_User resp) = req_Login request ∧
    Groups (resp_User resp) = sort_strings (gb_Group <$> items) ∧
    ∀ gc, group_claims c (sort_strings (gb_Group <$> items)) ∅ = Some gc →
      match get_user c (req_Login request) with
      | Found usr =>
          match us_Claims usr with
          | None => Claims (resp_User resp) = Some gc
          | Some raw => ∀ m, unmarshal raw = Ok m → Claims (resp_User resp) = Some (MergeMaps gc m)
          end
      | _ => Claims (resp_User resp) = Some gc
      end.
Proof.
  intros (items & r & Hi & Hl & _ & _ & Hlog & Hg & H)%Authenticate_Ok.
  exists items. split; [done|]. split; [done|]. split.
  - rewrite Hg. by apply bindings_loop_groups in Hl as [-> _].
  - intros gc Hgc. rewrite (bindings_loop_claims _ _ _ _ _ _ Hgc Hl) in H.
    destruct (get_user _ _) as [usr| |e]; [|by destruct H|done].
    destruct H as (_ & _ & _ & _ & ->). unfold merge. destruct (us_Claims usr) as [raw|]; [|done].
    by intros m ->.
Qed.

(** A claim document of the user that does not decode is not reported: the answer is
    successful and the claims collected from the groups are dropped. *)
Theorem ucrd_bad_claims_dropped c request resp usr raw e :
  Authenticate c request = Ok resp → get_user c (req_Login request) = Found usr →
  us_Claims usr = Some raw → unmarshal raw = Err e →
  Claims (resp_User resp) = None.
Proof.
  intros (items & r & _ & _ & _ & _ & _ & _ & H)%Authenticate_Ok Hu Hc He.
  rewrite Hu in H. destruct H as (_ & _ & _ & _ & ->). unfold merge. by rewrite Hc, He.
Qed.
End ucrd.

(** ** A concrete cluster *)

Definition demo_unmarshal (raw : string) : result string claims :=
  if str_eqb raw "dev-claims" then Ok {["team" := VString "dev"]} else Err "invalid character".
Definition demo_bcrypt (hash password : string) : bool := str_eqb hash ("#" +:+ password).
Definition demo_user (cl : option string) : UserSpec :=
  {| us_Name := "Bob"; us_Emails := ["bob@x.org"]; us_PasswordHash := "#pw"; us_Uid := Some 7%Z;
     us_Comment := ""; us_Claims := cl; us_Disabled := None |}.
Definition demo_cluster (cl : option string) : crd_client :=
  {| list_bindings := λ l, Ok [{| gb_User := l; gb_Group := "ops" |}; {| gb_User := l; gb_Group := "dev" |}];
     get_group := λ g, if str_eqb g "dev"
                       then Found {| gs_Comment := ""; gs_Claims := Some "dev-claims" |} else NotFound;
     get_user := λ l, if str_eqb l "bob" then Found (demo_user cl) else NotFound |}.
Definition bob_pw : IdentityRequest := {| req_Login := "bob"; req_Password := "pw" |}.

Lemma ucrd_answer_witness : ∃ resp,
  Authenticate demo_unmarshal demo_bcrypt (demo_cluster None) bob_pw = Ok resp ∧
  Groups (resp_User resp) = ["dev"; "ops"] ∧
  Claims (resp_User resp) = Some {["team" := VString "dev"]}.
Proof.
  destruct (Authenticate demo_unmarshal demo_bcrypt (demo_cluster None) bob_pw) as [resp|e] eqn:E;
    [|by vm_compute in E].
  exists resp. split; [reflexivity|].
  pose proof (ucrd_answer demo_unmarshal demo_bcrypt (demo_cluster None) bob_pw resp E)
    as (items & Hi & _ & Hg & Hc).
  injection Hi as <-. split; [exact Hg|]. apply (Hc {["team" := VString "dev"]}). reflexivity.
Defined.

Lemma ucrd_bad_claims_dropped_witness : ∃ resp,
  Authenticate demo_unmarshal demo_bcrypt (demo_cluster (Some "[1]")) bob_pw = Ok resp ∧
  Groups (resp_User resp) = ["dev"; "ops"] ∧ Claims (resp_User resp) = None.
Proof.
  destruct (Authenticate demo_unmarshal demo_bcrypt (demo_cluster (Some "[1]")) bob_pw)
    as [resp|e] eqn:E; [|by vm_compute in E].
  exists resp. split; [reflexivity|]. split.
  - vm_compute in E. injection E as <-. reflexivity.
  - exact (ucrd_bad_claims_dropped demo_unmarshal demo_bcrypt _ _ resp _ "[1]" _ E eq_refl
             eq_refl eq_refl).
Defined.
