(* ===== verification/Ldap.v ===== *)
(** * cmd/ldap/authenticator: users of an LDAP directory

    The conversation with the directory is a trace of operations: the directory answers each
    one knowing what came before on the connection (who is bound, in particular), so the
    theorems speak about which searches and binds are made, in which order and as whom. The
    directory (go-ldap and the server) is an argument, [strconv.Atoi] is modelled. *)

From S2P Require Import Prelude Values Misc Paths Proto K8s.

(** ** config.go *)

Record UserSearchConfig := {
  us_BaseDN : string;
  us_Filter : string;
  us_LoginAttr : string;
  us_Scope : string;
  us_NumericalIdAttr : string;
  us_EmailAttr : string;
  us_CnAttr : string;
}.

Record GroupSearchConfig := {
  gs_BaseDN : string;
  gs_Filter : string;
  gs_Scope : string;
  gs_NameAttr : string;
  gs_LinkUserAttr : string;
  gs_LinkGroupAttr : string;
}.

Record LdapConfig := {
  Host : string;
  Port : string;
  TimeoutSec : Z;
  InsecureNoSSL : bool;
  InsecureSkipVerify : bool;
  StartTLS : bool;
  RootCaPath : string;
  RootCaData : string;
  RootCaSecret : string;
  RootCaSecretPath : string;
  ClientCert : string;
  ClientKey : string;
  BindDN : string;
  BindPW : string;
  UserSearch : UserSearchConfig;
  GroupSearch : GroupSearchConfig;
}.

(** ** The connection *)

(** [ldap.ScopeBaseObject], [ScopeSingleLevel] and [ScopeWholeSubtree]. *)
Definition ScopeBaseObject : Z := 0.
Definition ScopeSingleLevel : Z := 1.
Definition ScopeWholeSubtree : Z := 2.
Definition LDAPResultConstraintViolation : Z := 19.
Definition LDAPResultInvalidCredentials : Z := 49.

Record SearchRequest := {
  sr_BaseDN : string;
  sr_Filter : string;
  sr_Scope : Z;
  sr_Attributes : list string;
}.

Record Entry := { DN : string; Attributes : list (string * list string) }.

Inductive op :=
| Dial (hostPort : string)
| DialTLS (hostPort : string)
| DoStartTLS
| Bind (dn pw : string)
| UnauthenticatedBind (dn : string)
| Search (req : SearchRequest)
| Close.

#[export] Instance SearchRequest_eq : EqDecision SearchRequest.
Proof. solve_decision. Defined.
#[export] Instance op_eq : EqDecision op.
Proof. solve_decision. Defined.

(** An error of the library: with its result code when it is an [*ldap.Error]. *)
Record ldap_error := { ResultCode : option Z; le_msg : string }.

(** The directory: the answer to an operation after a history (most recent first). *)
Record directory := {
  on_connect : list op → op → option ldap_error;   (** [Dial], [DialTLS], [StartTLS] *)
  on_bind : list op → op → option ldap_error;
  on_search : list op → SearchRequest → result ldap_error (list Entry);
}.

Inductive auth_error :=
| ConnectFailed (e : ldap_error)
| StartTLSFailed (e : ldap_error)
| ServiceBindFailed (dn : string) (e : ldap_error)
| UserBindFailed (dn : string) (e : ldap_error)
| SearchFailed (req : SearchRequest) (e : ldap_error)
| MultipleResults (n : nat) (filter : string).

(** A computation on the connection: the trace grows, the result may be an error. *)
Definition conn (A : Type) : Type := list op → result auth_error A * list op.

Definition mret {A} (a : A) : conn A := λ tr, (Ok a, tr).
Definition mfail {A} (e : auth_error) : conn A := λ tr, (Err e, tr).
Definition mbind {A B} (c : conn A) (k : A → conn B) : conn B := λ tr,
  match c tr with
  | (Ok a, tr') => k a tr'
  | (Err e, tr') => (Err e, tr')
  end.
Notation "'do!' x '<-' c ';' k" := (mbind c (λ x, k))
  (at level 100, x pattern, c at level 99, k at level 200, right associativity) : go_scope.

(** [ldapAuthenticator], after [New]. *)
Record ldapAuthenticator := {
  config : LdapConfig;
  hostPort : string;
  userSearchScope : Z;
  groupSearchScope : Z;
}.

(** ** authenticate.go *)

Definition getAttrs (e : Entry) (name : string) : list string :=
  if str_eqb name "DN" then [DN e]
  else match list_find (λ a, a.1 = name) (Attributes e) with
       | Some (_, a) => a.2
       | None => []
       end.

Definition getAttr (e : Entry) (name : string) : string :=
  if str_empty name then "" else match getAttrs e name with a :: _ => a | [] => "" end.

(** go-ldap's [Entry.GetAttributeValue]: the first value of the first attribute of that name. *)
Definition GetAttributeValue (e : Entry) (name : string) : string :=
  match list_find (λ a, a.1 = name) (Attributes e) with
  | Some (_, (_, v :: _)) => v
  | _ => ""
  end.

Section ldap.
Context (dir : directory) (EscapeFilter : string → string).
Context (l : ldapAuthenticator).

Definition bind_op (o : op) : conn (option ldap_error) := λ tr, (Ok (on_bind dir tr o), o :: tr).
Definition search_op (req : SearchRequest) : conn (result ldap_error (list Entry)) :=
  λ tr, (Ok (on_search dir tr req), Search req :: tr).

Definition service_op (bindDN bindPW : string) : op :=
  if str_empty bindPW then UnauthenticatedBind bindDN else Bind bindDN bindPW.

Definition serviceBind (bindDN bindPW : string) : conn (option ldap_error) :=
  bind_op (service_op bindDN bindPW).

Definition user_filter (login : string) : string :=
  let us := UserSearch (config l) in
  let filter := "(" +:+ us_LoginAttr us +:+ "=" +:+ EscapeFilter login +:+ ")" in
  if str_empty (us_Filter us) then filter else "(&" +:+ us_Filter us +:+ filter +:+ ")".

Definition if_set (s : string) : list string := if str_empty s then [] else [s].

Definition user_request (login : string) : SearchRequest :=
  let us := UserSearch (config l) in
  {| sr_BaseDN := us_BaseDN us; sr_Filter := user_filter login; sr_Scope := userSearchScope l;
     sr_Attributes := [us_LoginAttr us] ++ if_set (us_NumericalIdAttr us) ++ if_set (us_EmailAttr us)
       ++ if_set (us_CnAttr us) ++ if_set (gs_LinkUserAttr (GroupSearch (config l))) |}.

Definition lookupUser (login : string) : conn (option Entry) :=
  let req := user_request login in
  do! resp <- search_op req;
  match resp with
  | Err err => mfail (SearchFailed req err)
  | Ok [] => mret None
  | Ok [e] => mret (Some e)
  | Ok entries => mfail (MultipleResults (length entries) (sr_Filter req))
  end.

(** The status, when there is no error. *)
Definition checkPassword (user : Entry) (password : string) : conn Status :=
  if str_empty password then mret PasswordFail
  else
    do! r <- bind_op (Bind (DN user) password);
    match r with
    | Some err =>
        if decide (ResultCode err = Some LDAPResultInvalidCredentials) then mret PasswordFail
        else if decide (ResultCode err = Some LDAPResultConstraintViolation) then mret PasswordFail
        else mfail (UserBindFailed (DN user) err)
    | None => mret PasswordChecked
    end.

(** The request of one iteration of the group loop. *)
Definition group_request (attr : string) : SearchRequest :=
  let gs := GroupSearch (config l) in
  if str_eqb (to_upper (gs_LinkGroupAttr gs)) "DN" then
    {| sr_BaseDN := attr;
       sr_Filter := if str_empty (gs_Filter gs) then "(objectClass=top)" else gs_Filter gs;
       sr_Scope := ScopeBaseObject; sr_Attributes := [gs_NameAttr gs] |}
  else
    let filter := "(" +:+ gs_LinkGroupAttr gs +:+ "=" +:+ EscapeFilter attr +:+ ")" in
    {| sr_BaseDN := gs_BaseDN gs;
       sr_Filter := if str_empty (gs_Filter gs) then filter
                    else "(&" +:+ gs_Filter gs +:+ filter +:+ ")";
       sr_Scope := groupSearchScope l; sr_Attributes := [gs_NameAttr gs] |}.

Fixpoint group_loop (attrs : list string) (ldapGroups : list Entry) : conn (list Entry) :=
  match attrs with
  | [] => mret ldapGroups
  | attr :: rest =>
      let req := group_request attr in
      do! resp <- search_op req;
      match resp with
      | Err err => mfail (SearchFailed req err)
      | Ok entries => group_loop rest (ldapGroups ++ entries)
      end
  end.

Definition lookupGroups (user : Entry) : conn (list string) :=
  let gs := GroupSearch (config l) in
  do! ldapGroups <- group_loop (getAttrs user (gs_LinkUserAttr gs)) [];
  mret (filter (.≠ "") ((λ g, GetAttributeValue g (gs_NameAttr gs)) <$> ldapGroups)).

(** The function [Authenticate] runs on the connection: the entry of the user, the status and
    the groups it leaves in the response. *)
Definition session (request : IdentityRequest) : conn (option (Entry * Status * list string)) :=
  do! r <- serviceBind (BindDN (config l)) (BindPW (config l));
  match r with
  | Some err => mfail (ServiceBindFailed (BindDN (config l)) err)
  | None =>
      do! ldapUser <- lookupUser (req_Login request);
      match ldapUser with
      | None => mret None
      | Some user =>
          do! status <- (if str_empty (req_Password request) then mret PasswordUnchecked
                         else checkPassword user (req_Password request));
          do! r <- serviceBind (BindDN (config l)) (BindPW (config l));
          match r with
          | Some err => mfail (ServiceBindFailed (BindDN (config l)) err)
          | None =>
              do! groups <- lookupGroups user;
              mret (Some (user, status, groups))
          end
      end
  end.

(** [do]: connect, run, close. A failing [StartTLS] returns before the deferred [Close]. *)
Definition do_ {A} (f : conn A) : conn A := λ tr,
  let connect (o : op) (tr : list op) := (on_connect dir tr o, o :: tr) in
  let run (tr : list op) := let '(r, tr') := f tr in (r, Close :: tr') in
  if InsecureNoSSL (config l) then
    match connect (Dial (hostPort l)) tr with
    | (Some err, tr') => (Err (ConnectFailed err), tr')
    | (None, tr') => run tr'
    end
  else if StartTLS (config l) then
    match connect (Dial (hostPort l)) tr with
    | (Some err, tr') => (Err (ConnectFailed err), tr')
    | (None, tr') =>
        match connect DoStartTLS tr' with
        | (Some err, tr'') => (Err (StartTLSFailed err), tr'')
        | (None, tr'') => run tr''
        end
    end
  else
    match connect (DialTLS (hostPort l)) tr with
    | (Some err, tr') => (Err (ConnectFailed err), tr')
    | (None, tr') => run tr'
    end.

Definition ldap_user (login : string) (e : Entry) (groups : list string) : User :=
  let us := UserSearch (config l) in
  {| Login := login; Uid := Atoi (getAttr e (us_NumericalIdAttr us));
     Name := getAttr e (us_CnAttr us); Emails := getAttrs e (us_EmailAttr us);
     Groups := groups; Claims := Some ∅ |}.

Definition Authenticate (request : IdentityRequest) : conn IdentityResponse :=
  do! r <- do_ (session request);
  match r with
  | None => mret {| resp_User := InitUser (req_Login request); resp_Status := UserNotFound;
                    resp_Details := None; resp_Authority := "" |}
  | Some (e, status, groups) =>
      mret {| resp_User := ldap_user (req_Login request) e groups; resp_Status := status;
              resp_Details := None; resp_Authority := "" |}
  end.
End ldap.

(** ** A logic for conversations

    [tr ∋ ...] facts about the past are kept as suffixes, since a trace only grows. *)

(** The last bind of the connection. *)
Fixpoint bound_as (tr : list op) : option op :=
  match tr with
  | [] => None
  | (Bind _ _ | UnauthenticatedBind _) as o :: _ => Some o
  | Dial _ :: _ | DialTLS _ :: _ | Close :: _ => None
  | _ :: tr' => bound_as tr'
  end.

(** A disciplined conversation with the service account [svc] of name [dn0]: searches are made
    as the service account, a password bind carries a password, and the only bind without one
    is the service account's own. *)
Fixpoint disciplined (svc : op) (dn0 : string) (tr : list op) : Prop :=
  match tr with
  | [] => True
  | o :: tr' =>
      disciplined svc dn0 tr' ∧
      match o with
      | Search _ => bound_as tr' = Some svc
      | Bind _ pw => pw ≠ ""
      | UnauthenticatedBind dn => dn = dn0
      | _ => True
      end
  end.

Section logic.
Context (svc : op) (dn0 : string).

Definition triple {A} (P : list op → Prop) (c : conn A) (Q : A → list op → Prop) : Prop :=
  ∀ tr, disciplined svc dn0 tr → P tr →
    disciplined svc dn0 (c tr).2 ∧ ∀ a, (c tr).1 = Ok a → Q a (c tr).2.

Lemma triple_ret {A} (a : A) (P : list op → Prop) (Q : A → list op → Prop) :
  (∀ tr, P tr → Q a tr) → triple P (mret a) Q.
Proof. intros H tr Hd HP. split; [done|]. intros a' [= <-]. by apply H. Qed.

Lemma triple_fail {A} P e (Q : A → list op → Prop) : triple P (mfail e) Q.
Proof. intros tr Hd HP. by split. Qed.

Lemma triple_bind {A B} P (c : conn A) (R : A → list op → Prop) (k : A → conn B) Q :
  triple P c R → (∀ a, triple (R a) (k a) Q) → triple P (mbind c k) Q.
Proof.
  intros Hc Hk tr Hd HP. unfold mbind. destruct (Hc tr Hd HP) as [Hd' HR].
  destruct (c tr) as [[a|e] tr']; simpl in *; [|by split].
  apply Hk; [done|]. by apply HR.
Qed.

Lemma triple_weaken {A} (P P' : list op → Prop) (c : conn A) (Q Q' : A → list op → Prop) :
  triple P c Q → (∀ tr, P' tr → P tr) → (∀ a tr, Q a tr → Q' a tr) → triple P' c Q'.
Proof. intros Hc HP HQ tr Hd H. destruct (Hc tr Hd (HP _ H)) as [? HR]. split; [done|]. eauto. Qed.
End logic.

(** Facts about the past. *)
Definition happened (o : op) (R : list op → Prop) (tr : list op) : Prop :=
  ∃ tr0, (o :: tr0) `suffix_of` tr ∧ R tr0.

Lemma happened_now o R tr : R tr → happened o R (o :: tr).
Proof. intros H. by exists tr. Qed.
Lemma happened_cons o R o' tr : happened o R tr → happened o R (o' :: tr).
Proof. intros (tr0 & Hs & HR). exists tr0. split; [by apply suffix_cons_r|done]. Qed.
#[export] Hint Resolve happened_now happened_cons : kubauth.

Section discipline.
Context (dir : directory) (EscapeFilter : string → string) (l : ldapAuthenticator).

Abbreviation cfg := (config l).
Abbreviation svc := (service_op (BindDN cfg) (BindPW cfg)).
Abbreviation triple' := (triple svc (BindDN cfg)).

Definition bound (tr : list op) : Prop := bound_as tr = Some svc.

(** A fact that survives every further operation. *)
Definition stable (F : list op → Prop) : Prop := ∀ o tr, F tr → F (o :: tr).

Lemma stable_happened o R : stable (happened o R).
Proof. intros o' tr. apply happened_cons. Qed.
Lemma stable_and F G : stable F → stable G → stable (λ tr, F tr ∧ G tr).
Proof. intros HF HG o tr [??]. by split; [apply HF|apply HG]. Qed.
Lemma stable_imp (A : Prop) F : stable F → stable (λ tr, A → F tr).
Proof. intros HF o tr H HA. by apply HF, H. Qed.
Lemma stable_const (A : Prop) : stable (λ _, A).
Proof. by intros o tr. Qed.
Hint Resolve stable_happened stable_and stable_imp stable_const : core.

Lemma serviceBind_spec F :
  stable F → triple' F (serviceBind dir (BindDN cfg) (BindPW cfg)) (λ _ tr, bound tr ∧ F tr).
Proof.
  intros HF tr Hd HP. unfold serviceBind, bind_op, bound, service_op in *; simpl.
  destruct (str_empty (BindPW cfg)) eqn:E; simpl.
  - split; [done|]. intros _ _. split; [done|]. by apply HF.
  - apply str_empty_false in E. split; [done|]. intros _ _. split; [done|]. by apply HF.
Qed.

Lemma search_op_spec req F :
  stable F →
  triple' (λ tr, bound tr ∧ F tr) (search_op dir req)
    (λ r tr, bound tr ∧ F tr ∧ happened (Search req) (λ tr0, on_search dir tr0 req = r) tr).
Proof.
  intros HF tr Hd [Hb HP]. simpl. split; [done|]. intros a [= <-].
  split_and!; [done|by apply HF|by apply happened_now].
Qed.

Lemma lookupUser_spec login F :
  stable F →
  triple' (λ tr, bound tr ∧ F tr) (lookupUser dir EscapeFilter l login)
    (λ r tr, bound tr ∧ F tr ∧
       happened (Search (user_request EscapeFilter l login)) (λ tr0,
         on_search dir tr0 (user_request EscapeFilter l login) = Ok (option_list r)) tr).
Proof.
  intros HF. eapply triple_bind; [by apply search_op_spec|]. intros [[|e [|e' es]]|err].
  - apply triple_ret. auto.
  - apply triple_ret. auto.
  - apply triple_fail.
  - apply triple_fail.
Qed.

Lemma checkPassword_spec user password F :
  stable F → password ≠ "" →
  triple' F (checkPassword dir user password)
    (λ st tr, F tr ∧ (st = PasswordChecked ↔ st ≠ PasswordFail) ∧
       (st = PasswordChecked →
          happened (Bind (DN user) password) (λ tr0, on_bind dir tr0 (Bind (DN user) password) = None) tr)).
Proof.
  intros HF Hp. unfold checkPassword. rewrite (proj2 (str_empty_false _) Hp).
  eapply (triple_bind _ _ _ _ (λ r tr, F tr ∧ happened (Bind (DN user) password)
           (λ tr0, on_bind dir tr0 (Bind (DN user) password) = r) tr)).
  - intros tr Hd HP. simpl. split; [done|]. intros a [= <-]. split; [by apply HF|by apply happened_now].
  - intros [err|].
    + repeat case_decide; [apply triple_ret; naive_solver..|apply triple_fail].
    + apply triple_ret. intros tr [HFt Hh]. split_and!; done.
Qed.

Lemma group_loop_spec attrs acc F :
  stable F →
  triple' (λ tr, bound tr ∧ F tr) (group_loop dir EscapeFilter l attrs acc) (λ _ tr, F tr).
Proof.
  intros HF. revert acc. induction attrs as [|a attrs IH]; intros acc; simpl.
  - apply triple_ret. by intros ? [].
  - eapply triple_bind; [by apply search_op_spec|]. intros [es|err]; [|apply triple_fail].
    eapply triple_weaken; [apply IH| |done]. naive_solver.
Qed.

(** What a finished session has established about the past of the connection. *)
Definition established (request : IdentityRequest) (r : option (Entry * Status * list string))
    (tr : list op) : Prop :=
  let req := user_request EscapeFilter l (req_Login request) in
  happened (Search req) (λ tr0, on_search dir tr0 req = Ok (option_list ((λ x, x.1.1) <$> r))) tr ∧
  match r with
  | None => True
  | Some (e, st, _) =>
      if str_empty (req_Password request) then st = PasswordUnchecked
      else (st = PasswordChecked ∨ st = PasswordFail) ∧
           (st = PasswordChecked →
            happened (Bind (DN e) (req_Password request))
              (λ tr0, on_bind dir tr0 (Bind (DN e) (req_Password request)) = None) tr)
  end.

Lemma status_cases st : (st = PasswordChecked ↔ st ≠ PasswordFail) → st = PasswordChecked ∨ st = PasswordFail.
Proof. intros H. destruct (decide (st = PasswordFail)); naive_solver. Qed.

Lemma password_step_spec e password F :
  stable F →
  triple' F (if str_empty password then mret PasswordUnchecked else checkPassword dir e password)
    (λ st tr, F tr ∧
       if str_empty password then st = PasswordUnchecked
       else (st = PasswordChecked ∨ st = PasswordFail) ∧
         (st = PasswordChecked → happened (Bind (DN e) password)
            (λ tr0, on_bind dir tr0 (Bind (DN e) password) = None) tr)).
Proof.
  intros HF. destruct (str_empty password) eqn:E; [apply triple_ret; auto|].
  apply str_empty_false in E. eapply triple_weaken; [by apply (checkPassword_spec e password F)|done|].
  intros st tr (? & ? & ?). split_and!; [done|by apply status_cases|done].
Qed.

Lemma session_spec request :
  triple' (λ _, True) (session dir EscapeFilter l request) (established request).
Proof.
  unfold session. eapply triple_bind; [apply (serviceBind_spec (λ _, True)), stable_const|].
  intros [err|]; [apply triple_fail|].
  eapply triple_bind; [apply (lookupUser_spec _ (λ _, True)), stable_const|]. intros [e|]; cycle 1.
  { apply triple_ret. intros tr (_ & _ & H). by split. }
  set (Found_ := happened (Search (user_request EscapeFilter l (req_Login request)))
    (λ tr0, on_search dir tr0 (user_request EscapeFilter l (req_Login request)) = Ok [e])).
  eapply triple_bind.
  { eapply triple_weaken; [apply (password_step_spec e (req_Password request) Found_), stable_happened| |].
    - intros tr (_ & _ & H). exact H.
    - intros st tr H. exact H. }
  intros st. simpl.
  set (F := λ tr, Found_ tr ∧ _). eapply (triple_bind _ _ _ _ (λ _ tr, bound tr ∧ F tr)).
  { apply serviceBind_spec. unfold F. apply stable_and; [apply stable_happened|].
    destruct (str_empty _); [apply stable_const|].
      apply stable_and; [apply stable_const|]. apply stable_imp, stable_happened. }
  intros [err|]; [apply triple_fail|].
  eapply (triple_bind _ _ _ _ (λ _ tr, F tr)).
  - unfold lookupGroups. eapply triple_bind; [apply group_loop_spec|].
    + unfold F. apply stable_and; [apply stable_happened|].
      destruct (str_empty _); [apply stable_const|].
      apply stable_and; [apply stable_const|]. apply stable_imp, stable_happened.
    + intros gs. by apply triple_ret.
  - intros groups. apply triple_ret. intros tr [H1 H2]. split; [exact H1|exact H2].
Qed.
Lemma stable_established request r : stable (established request r).
Proof.
  apply stable_and; [apply stable_happened|]. destruct r as [[[e st] gs]|]; [|apply stable_const].
  destruct (str_empty _); [apply stable_const|].
  apply stable_and; [apply stable_const|]. apply stable_imp, stable_happened.
Qed.

Lemma do_spec {A} (f : conn A) Q :
  triple' (λ _, True) f Q → (∀ a, stable (Q a)) → triple' (λ _, True) (do_ dir l f) Q.
Proof.
  intros Hf HQ tr Hd _. unfold do_.
  assert (Hrun : ∀ tr, disciplined svc (BindDN cfg) tr →
    let r := let '(r, tr') := f tr in (r, Close :: tr') in
    disciplined svc (BindDN cfg) r.2 ∧ ∀ a, r.1 = Ok a → Q a r.2).
  { intros tr1 Hd1. destruct (Hf tr1 Hd1 I) as [Hd2 HQ2]. destruct (f tr1) as [r tr2]; simpl in *.
    split; [done|]. intros a Ha. by apply HQ, HQ2. }
  destruct (InsecureNoSSL cfg), (StartTLS cfg);
    repeat (destruct (on_connect dir _ _); [by split|]); by apply Hrun.
Qed.

Lemma Authenticate_spec request :
  triple' (λ _, True) (Authenticate dir EscapeFilter l request) (λ resp tr,
    ∃ r, established request r tr ∧ resp_Details resp = None ∧
      resp_Status resp = match r with Some x => x.1.2 | None => UserNotFound end ∧
      resp_User resp = match r with
                       | Some x => ldap_user l (req_Login request) x.1.1 x.2
                       | None => InitUser (req_Login request)
                       end).
Proof.
  unfold Authenticate. eapply triple_bind.
  { eapply do_spec; [apply session_spec|]. apply stable_established. }
  intros r. destruct r as [[[e st] gs]|]; apply triple_ret; intros tr Hr; by eexists.
Qed.

(** Whatever the directory answers, the conversation of a request is disciplined: every
    search, for the user or for its groups, is made as the service account, even after the
    password of the user was checked on the same connection; and no bind is ever sent with an
    empty password for a user entry (which a directory would accept as anonymous), only the
    configured service account may bind without one. *)
Theorem ldap_disciplined request :
  disciplined svc (BindDN cfg) (Authenticate dir EscapeFilter l request []).2.
Proof. by apply Authenticate_spec. Qed.

Lemma checked_bound request resp tr :
  Authenticate dir EscapeFilter l request [] = (Ok resp, tr) →
  resp_Status resp = PasswordChecked →
  req_Password request ≠ "" ∧
  ∃ e groups,
    happened (Search (user_request EscapeFilter l (req_Login request)))
      (λ tr0, on_search dir tr0 (user_request EscapeFilter l (req_Login request)) = Ok [e]) tr ∧
    happened (Bind (DN e) (req_Password request))
      (λ tr0, on_bind dir tr0 (Bind (DN e) (req_Password request)) = None) tr ∧
    resp_User resp = ldap_user l (req_Login request) e groups.
Proof.
  intros HA Hst. destruct (Authenticate_spec request [] I I) as [_ H]. rewrite HA in H.
  destruct (H resp eq_refl) as (r & [Hs Hr] & _ & Hstat & Hu). rewrite Hst in Hstat.
  destruct r as [[[e st] gs]|]; [|done]. simpl in *. subst st.
  destruct (str_empty (req_Password request)) eqn:E; [done|]. apply str_empty_false in E.
  split; [done|]. exists e, gs. split_and!; try done. by apply Hr.
Qed.

(** C7. The LDAP module answers [passwordChecked] only if the directory returned exactly one
    entry for the login and accepted, on that connection, a bind as this entry with the
    non-empty password of the request; the user it returns is built from this entry. *)
Theorem ldap_passwordChecked_sound request resp tr :
  Authenticate dir EscapeFilter l request [] = (Ok resp, tr) →
  resp_Status resp = PasswordChecked →
  req_Password request ≠ "" ∧
  ∃ e groups,
    happened (Search (user_request EscapeFilter l (req_Login request)))
      (λ tr0, on_search dir tr0 (user_request EscapeFilter l (req_Login request)) = Ok [e]) tr ∧
    happened (Bind (DN e) (req_Password request))
      (λ tr0, on_bind dir tr0 (Bind (DN e) (req_Password request)) = None) tr ∧
    resp_User resp = ldap_user l (req_Login request) e groups.
Proof. apply checked_bound. Qed.

(** The connection is closed on every path that opened it, except one: when the server
    refuses StartTLS, the connection is dropped without being closed. *)
Theorem ldap_connection_closed {A} (f : conn A) :
  (∃ tr, (do_ dir l f []).2 = Close :: tr) ∨
  (∃ e o, (do_ dir l f []) = (Err (ConnectFailed e), [o])) ∨
  (∃ e, InsecureNoSSL cfg = false ∧ StartTLS cfg = true ∧
     do_ dir l f [] = (Err (StartTLSFailed e), [DoStartTLS; Dial (hostPort l)])).
Proof.
  unfold do_. destruct (InsecureNoSSL cfg), (StartTLS cfg);
    repeat (destruct (on_connect dir _ _); [naive_solver|]);
    destruct (f _); naive_solver.
Qed.
End discipline.

(** ** ldapauthenticator.go: [New] *)

Definition parseScope (s : string) : Z * bool :=
  if decide (s = "" ∨ s = "sub") then (ScopeWholeSubtree, true)
  else if decide (s = "one") then (ScopeSingleLevel, true)
  else (0%Z, false).

Definition namespaceFile : string := "/var/run/secrets/kubernetes.io/serviceaccount/namespace".

Definition getCurrentNamespace (read_file : string → result string string) (namespace : string)
    : result string string :=
  if negb (str_empty namespace) then Ok namespace
  else match read_file namespaceFile with
       | Err e => Err ("error reading namespace file: " +:+ e +:+
                       ". If running out or Kubernetes context, set namespace explicitly (--namespace)")
       | Ok data => Ok (trim_space data)
       end.

(** The configuration with a port, a timeout and resolved paths. *)
Definition with_port (c : LdapConfig) : string :=
  if str_empty (Port c) then (if InsecureNoSSL c then "389" else "636") else Port c.
Definition with_timeout (c : LdapConfig) : Z := if decide (TimeoutSec c = 0%Z) then 10%Z else TimeoutSec c.

Definition normalize (configFolder : string) (c : LdapConfig) : LdapConfig :=
  {| Host := Host c; Port := with_port c; TimeoutSec := with_timeout c;
     InsecureNoSSL := InsecureNoSSL c; InsecureSkipVerify := InsecureSkipVerify c;
     StartTLS := StartTLS c; RootCaPath := AdjustPath configFolder (RootCaPath c);
     RootCaData := RootCaData c; RootCaSecret := RootCaSecret c;
     RootCaSecretPath := RootCaSecretPath c;
     ClientCert := AdjustPath configFolder (ClientCert c);
     ClientKey := AdjustPath configFolder (ClientKey c);
     BindDN := BindDN c; BindPW := BindPW c; UserSearch := UserSearch c;
     GroupSearch := GroupSearch c |}.

(** The checks of required fields, in the order of the code. *)
Definition missing_field (c : LdapConfig) : option string :=
  if str_empty (Host c) then Some "missing required ldap.host"
  else if str_empty (us_BaseDN (UserSearch c)) then Some "missing required ldap.userSearch.baseDN"
  else if str_empty (us_LoginAttr (UserSearch c)) then Some "missing required ldap.userSearch.loginAttr"
  else if negb (str_empty (gs_BaseDN (GroupSearch c))) then
    if str_empty (gs_BaseDN (GroupSearch c)) then Some "missing required ldap.groupSearch.baseDN"
    else if str_empty (gs_NameAttr (GroupSearch c)) then Some "missing required ldap.groupSearch.nameAttr"
    else if str_empty (gs_LinkGroupAttr (GroupSearch c)) then
      Some "missing required ldap.groupSearch.linkGroupAttr"
    else if str_empty (gs_LinkUserAttr (GroupSearch c)) then
      Some "missing required ldap.groupSearch.linkUserAttr"
    else None
  else None.

Record tlsConfig := {
  ServerName : string;
  tls_SkipVerify : bool;
  RootCAs : option string;          (** the PEM text the pool was built from *)
  Certificates : list (string * string);
}.

(** What [New] gets from outside: the file system, the secrets of the cluster, base64 decoding
    (with the capacity of the destination buffer), and the certificate parsers. *)
Record environment := {
  read_file : string → result string string;
  get_secret : string → string → result string (gmap string string);
  decode_b64 : string → result string string;
  has_certs : string → bool;
  load_key_pair : string → string → result string unit;
}.

Definition NUL : Ascii.ascii := "000"%char.
Fixpoint zeros (n : nat) : string := match n with O => "" | S n' => String NUL (zeros n') end.

(** The CA bytes, from at most one source. [rootCaData] is decoded in a buffer of the maximal
    decoded length, whose end keeps its zeros. *)
Definition ca_data (env : environment) (namespace : string) (c : LdapConfig)
    : result string (option string) :=
  try! data <-
    (if str_empty (RootCaData c) then Ok None
     else match decode_b64 env (RootCaData c) with
          | Err e => Err ("error while parsing RootCaData : " +:+ e)
          | Ok d => Ok (Some (d +:+ zeros (String.length (RootCaData c) / 4 * 3 - String.length d)))
          end);
  try! data <-
    (if str_empty (RootCaPath c) then Ok data
     else match read_file env (RootCaPath c) with
          | Err e => Err ("error while reading CA file: " +:+ e)
          | Ok d => Ok (Some d)
          end);
  if str_empty (RootCaSecret c) then Ok data
  else
    try! ns <- getCurrentNamespace (read_file env) namespace;
    match get_secret env ns (RootCaSecret c) with
    | Err e => Err ("error while getting root CA secret '" +:+ ns +:+ "/" +:+ RootCaSecret c +:+ "': " +:+ e)
    | Ok secret =>
        let caName := if str_empty (RootCaPath c) then "ca.crt" else RootCaPath c in
        match secret !! caName with
        | None => Err ("cA data not found in secret 'namespace/" +:+ RootCaSecret c +:+
                       "' CA path:'" +:+ caName +:+ "'")
        | Some d => Ok (Some d)
        end
    end.

Definition New (env : environment) (configFolder namespace : string) (ldapConfig : LdapConfig)
    : result string (ldapAuthenticator * tlsConfig) :=
  match missing_field ldapConfig with
  | Some e => Err e
  | None =>
      let c := normalize configFolder ldapConfig in
      if decide (CountTrue [negb (str_empty (RootCaData c)); negb (str_empty (RootCaSecret c));
                            negb (str_empty (RootCaPath c))] > 1)%Z
      then Err "at most one of 'rootCaData', 'rootCaSecret' or 'rootCaPath' must be specified"
      else
        try! data <- ca_data env namespace c;
        try! pool <- match data with
                     | None => Ok None
                     | Some d => if has_certs env d then Ok (Some d)
                                 else Err "no certs found in ca file"
                     end;
        try! certs <- (if negb (str_empty (ClientKey c)) && negb (str_empty (ClientCert c)) then
                         match load_key_pair env (ClientCert c) (ClientKey c) with
                         | Err e => Err ("load client cert failed: " +:+ e)
                         | Ok _ => Ok [(ClientCert c, ClientKey c)]
                         end
                       else Ok []);
        let '(uscope, ok) := parseScope (us_Scope (UserSearch c)) in
        if negb ok then Err ("userSearch.Scope unknown value " +:+ quoted (us_Scope (UserSearch c)))
        else
          let '(gscope, ok) := parseScope (gs_Scope (GroupSearch c)) in
          if negb ok then Err ("groupSearch.Scope unknown value " +:+ quoted (gs_Scope (GroupSearch c)))
          else Ok ({| config := c; hostPort := Host c +:+ ":" +:+ Port c;
                      userSearchScope := uscope; groupSearchScope := gscope |},
                   {| ServerName := Host c; tls_SkipVerify := InsecureSkipVerify c;
                      RootCAs := pool; Certificates := certs |})
  end.

Lemma parseScope_valid s z : parseScope s = (z, true) → z = ScopeWholeSubtree ∨ z = ScopeSingleLevel.
Proof. unfold parseScope. repeat case_decide; naive_solver. Qed.

Lemma missing_field_None c : missing_field c = None →
  Host c ≠ "" ∧ us_BaseDN (UserSearch c) ≠ "" ∧ us_LoginAttr (UserSearch c) ≠ "" ∧
  (gs_BaseDN (GroupSearch c) ≠ "" →
     gs_NameAttr (GroupSearch c) ≠ "" ∧ gs_LinkGroupAttr (GroupSearch c) ≠ "" ∧
     gs_LinkUserAttr (GroupSearch c) ≠ "").
Proof. unfold missing_field, str_empty. repeat case_bool_decide; simpl; naive_solver. Qed.

(** A configuration with at most one CA source. *)
Lemma CountTrue_three a b d : ~ (CountTrue [a; b; d] > 1)%Z → (a && b) || (b && d) || (a && d) = false.
Proof. unfold CountTrue. destruct a, b, d; simpl; try done; lia. Qed.

(** The CA bytes are there exactly when a source is configured. *)
Lemma ca_data_Some env ns c data :
  ca_data env ns c = Ok data →
  (RootCaData c ≠ "" ∨ RootCaSecret c ≠ "" ∨ RootCaPath c ≠ "" ↔ data ≠ None).
Proof.
  unfold ca_data. intros H.
  destruct (if str_empty (RootCaData c) then _ else _) as [d1|] eqn:H1; simpl in H; [|done].
  assert (R1 : RootCaData c ≠ "" ↔ d1 ≠ None).
  { rewrite <- str_empty_false. destruct (str_empty (RootCaData c)); [by simplify_eq|].
    destruct (decode_b64 _ _); by simplify_eq. }
  destruct (if str_empty (RootCaPath c) then _ else _) as [d2|] eqn:H2; simpl in H; [|done].
  assert (R2 : RootCaData c ≠ "" ∨ RootCaPath c ≠ "" ↔ d2 ≠ None).
  { rewrite R1, <- (str_empty_false (RootCaPath c)).
    destruct (str_empty (RootCaPath c)); [simplify_eq; naive_solver|].
    destruct (read_file _ _); simplify_eq. naive_solver. }
  assert (R3 : (RootCaSecret c ≠ "" ∨ d2 ≠ None) ↔ data ≠ None); [|tauto].
  rewrite <- (str_empty_false (RootCaSecret c)).
  destruct (str_empty (RootCaSecret c)); [simplify_eq; naive_solver|].
  destruct (getCurrentNamespace _ _); simpl in H; [|done].
  destruct (get_secret _ _ _); [|done]. destruct (_ !! _); simplify_eq. naive_solver.
Qed.

(** [New] accepts a configuration only if the required fields are there, at most one CA
    source is given, and the scopes are known; the authenticator has a port and a non-zero
    timeout, and when a CA source is configured the TLS pool is never left empty (an empty
    pool would mean the system's authorities). *)
Theorem ldap_New_valid env folder ns c a t :
  New env folder ns c = Ok (a, t) →
  Host c ≠ "" ∧ us_BaseDN (UserSearch c) ≠ "" ∧ us_LoginAttr (UserSearch c) ≠ "" ∧
  (userSearchScope a = ScopeWholeSubtree ∨ userSearchScope a = ScopeSingleLevel) ∧
  (groupSearchScope a = ScopeWholeSubtree ∨ groupSearchScope a = ScopeSingleLevel) ∧
  Port (config a) ≠ "" ∧ TimeoutSec (config a) ≠ 0%Z ∧
  (RootCaData c ≠ "" ∨ RootCaSecret c ≠ "" ∨ RootCaPath (config a) ≠ "" ↔ RootCAs t ≠ None).
Proof.
  unfold New. destruct (missing_field c) eqn:Hm; [done|]. apply missing_field_None in Hm.
  set (c' := normalize folder c). case_decide as Hcount; [done|].
  destruct (ca_data env ns c') as [data|e] eqn:Hca; simpl; [|done].
  destruct (match data with None => _ | Some d => _ end) as [pool|e] eqn:Hpool; simpl; [|done].
  destruct (if _ && _ then _ else _) as [certs|e]; simpl; [|done].
  destruct (parseScope (us_Scope (UserSearch c))) as [uscope uok] eqn:Hu.
  destruct uok; simpl; [|done].
  destruct (parseScope (gs_Scope (GroupSearch c))) as [gscope gok] eqn:Hg.
  destruct gok; simpl; [|done]. intros [= <- <-]. simpl.
  apply parseScope_valid in Hu, Hg. destruct Hm as (H1 & H2 & H3 & _).
  split_and!; try assumption.
  - unfold with_port, str_empty. case_bool_decide; [by destruct (InsecureNoSSL c)|assumption].
  - unfold with_timeout. by case_decide.
  - change (RootCaData c) with (RootCaData c'). change (RootCaSecret c) with (RootCaSecret c').
    change (AdjustPath folder (RootCaPath c)) with (RootCaPath c').
    rewrite (ca_data_Some _ _ _ _ Hca). destruct data as [d|]; [|by simplify_eq].
    destruct (has_certs env d); by simplify_eq.
Qed.

(** The key of the CA in the secret is always [ca.crt]: whatever [rootCaSecretPath] says,
    a secret without that key is refused and another key is never read. *)
Theorem ldap_secret_key_fixed env folder ns c a t :
  New env folder ns c = Ok (a, t) → RootCaSecret c ≠ "" →
  ∃ ns' secret d, getCurrentNamespace (read_file env) ns = Ok ns' ∧
    get_secret env ns' (RootCaSecret c) = Ok secret ∧ secret !! "ca.crt" = Some d ∧
    RootCAs t = Some d.
Proof.
  unfold New. destruct (missing_field c); [done|]. set (c' := normalize folder c).
  case_decide as Hcount; [done|]. apply CountTrue_three in Hcount. intros HN Hsec.
  apply str_empty_false in Hsec. change (RootCaSecret c) with (RootCaSecret c') in Hsec |- *.
  assert (str_empty (RootCaData c') = true ∧ str_empty (RootCaPath c') = true) as [Hd Hp].
  { revert Hcount. rewrite Hsec. by destruct (str_empty (RootCaData c')), (str_empty (RootCaPath c')). }
  unfold ca_data in HN. rewrite Hd, Hp, Hsec in HN. simpl in HN.
  destruct (getCurrentNamespace _ _) as [ns'|e] eqn:Hns; simpl in HN; [|done].
  destruct (get_secret env ns' _) as [secret|e] eqn:Hs; simpl in HN; [|done].
  destruct (secret !! "ca.crt") as [d|] eqn:Hk; simpl in HN; [|done].
  destruct (has_certs env d); simpl in HN; [|done].
  destruct (if _ && _ then _ else _) as [certs|e]; simpl in HN; [|done].
  destruct (parseScope (us_Scope _)) as [? []]; simpl in HN; [|done].
  destruct (parseScope (gs_Scope _)) as [? []]; simpl in HN; [|done].
  injection HN as <- <-. by exists ns', secret, d.
Qed.

(** ** A concrete directory *)

Definition demo_ldap_config : LdapConfig :=
  {| Host := "ldap.x.org"; Port := ""; TimeoutSec := 0; InsecureNoSSL := false;
     InsecureSkipVerify := false; StartTLS := true; RootCaPath := ""; RootCaData := "";
     RootCaSecret := "ca"; RootCaSecretPath := "root.pem"; ClientCert := ""; ClientKey := "";
     BindDN := "cn=svc"; BindPW := "svcpw";
     UserSearch := {| us_BaseDN := "ou=people"; us_Filter := ""; us_LoginAttr := "uid";
       us_Scope := ""; us_NumericalIdAttr := "uidNumber"; us_EmailAttr := "mail"; us_CnAttr := "cn" |};
     GroupSearch := {| gs_BaseDN := "ou=groups"; gs_Filter := ""; gs_Scope := "one";
       gs_NameAttr := "cn"; gs_LinkUserAttr := "DN"; gs_LinkGroupAttr := "member" |} |}.

Definition bob_entry : Entry :=
  {| DN := "uid=bob,ou=people"; Attributes := [("cn", ["Bob"]); ("uidNumber", ["1001"])] |}.

(** It knows [bob] with password [pw], and answers searches to the service account only. *)
Definition demo_directory : directory :=
  {| on_connect := λ _ _, None;
     on_bind := λ _ o, if bool_decide (o = Bind "cn=svc" "svcpw" ∨ o = Bind "uid=bob,ou=people" "pw")
                       then None
                       else Some {| ResultCode := Some LDAPResultInvalidCredentials; le_msg := "49" |};
     on_search := λ tr req,
       if bool_decide (bound_as tr = Some (Bind "cn=svc" "svcpw")) then
         if str_eqb (sr_Filter req) "(uid=bob)" then Ok [bob_entry]
         else if str_eqb (sr_Filter req) "(member=uid=bob,ou=people)"
              then Ok [{| DN := "cn=dev,ou=groups"; Attributes := [("cn", ["dev"])] |}] else Ok []
       else Err {| ResultCode := Some 50%Z; le_msg := "insufficient access" |} |}.

Definition demo_environment : environment :=
  {| read_file := λ _, Err "no such file"; decode_b64 := λ s, Ok s; has_certs := λ _, true;
     get_secret := λ _ _, Ok {["ca.crt" := "PEM"]}; load_key_pair := λ _ _, Ok tt |}.

Definition demo_ldap : ldapAuthenticator :=
  {| config := normalize "/etc" demo_ldap_config; hostPort := "ldap.x.org:636";
     userSearchScope := ScopeWholeSubtree; groupSearchScope := ScopeSingleLevel |}.

Definition bob_request (pw : string) : IdentityRequest := {| req_Login := "bob"; req_Password := pw |}.

Lemma ldap_passwordChecked_witness : ∃ resp tr e,
  Authenticate demo_directory (λ s, s) demo_ldap (bob_request "pw") [] = (Ok resp, tr) ∧
  resp_Status resp = PasswordChecked ∧ Groups (resp_User resp) = ["dev"] ∧
  Uid (resp_User resp) = Some 1001%Z ∧
  happened (Bind (DN e) "pw") (λ tr0, on_bind demo_directory tr0 (Bind (DN e) "pw") = None) tr.
Proof.
  destruct (Authenticate demo_directory (λ s, s) demo_ldap (bob_request "pw") []) as [r tr] eqn:E.
  destruct r as [resp|e]; [|by vm_compute in E].
  assert (Hs : resp_Status resp = PasswordChecked ∧ Groups (resp_User resp) = ["dev"] ∧
               Uid (resp_User resp) = Some 1001%Z).
  { vm_compute in E. injection E as <- <-. by split_and!. }
  destruct Hs as (H1 & H2 & H3).
  pose proof (ldap_passwordChecked_sound demo_directory (λ s, s) demo_ldap (bob_request "pw") resp tr
                E H1) as (_ & e & gs & _ & Hb & _).
  exists resp, tr, e. split_and!; [done|done|done|done|exact Hb].
Defined.

Lemma ldap_New_valid_witness : ∃ a t,
  New demo_environment "/etc" "ns" demo_ldap_config = Ok (a, t) ∧ Port (config a) ≠ "" ∧
  TimeoutSec (config a) ≠ 0%Z.
Proof.
  destruct (New demo_environment "/etc" "ns" demo_ldap_config) as [[a t]|e] eqn:E; [|by vm_compute in E].
  exists a, t. split; [reflexivity|].
  pose proof (ldap_New_valid demo_environment "/etc" "ns" demo_ldap_config a t E)
    as (_ & _ & _ & _ & _ & H1 & H2 & _).
  split; assumption.
Defined.

Lemma ldap_secret_key_fixed_witness : ∃ a t,
  New demo_environment "/etc" "ns" demo_ldap_config = Ok (a, t) ∧
  RootCaSecretPath demo_ldap_config = "root.pem" ∧ RootCAs t ≠ None.
Proof.
  destruct (New demo_environment "/etc" "ns" demo_ldap_config) as [[a t]|e] eqn:E; [|by vm_compute in E].
  exists a, t. split; [reflexivity|]. split; [reflexivity|].
  pose proof (ldap_secret_key_fixed demo_environment "/etc" "ns" demo_ldap_config a t E ltac:(discriminate))
    as (ns' & sec & d & _ & _ & _ & ->).
  discriminate.
Defined.
