(* ===== verification/AuditTrail.v ===== *)
(** * cmd/audit: the audit trail

    The audit module passes the identity request on, writes a [LoginAttempt] object for the
    answer and returns it; a background cleaner removes old records. *)

From stdpp Require Import pretty.
From S2P Require Import Prelude Values Proto K8s.

(** ** The record types ([loginattempt_types.go]) *)

Record LoginAttemptDetailProvider := {
  lap_Name : string;
  lap_ClaimAuthority : bool;
  lap_CredentialAuthority : bool;
  lap_EmailAuthority : bool;
  lap_GroupAuthority : bool;
  lap_NameAuthority : bool;
}.

(** The raw JSON of the translated claims; empty when there is none. *)
Record LoginAttemptDetailTranslated := {
  lat_Claims : string;
  lat_Groups : list string;
  lat_Uid : option Z;
}.

Record LoginAttemptUser := {
  lau_Login : string;
  lau_Uid : option Z;
  lau_Name : string;
  lau_Emails : list string;
  lau_Groups : list string;
  lau_Claims : option string;
}.

Record LoginAttemptDetail := {
  lad_Provider : LoginAttemptDetailProvider;
  lad_User : LoginAttemptUser;
  lad_Status : string;
  lad_Translated : LoginAttemptDetailTranslated;
}.

(** [time.Time], broken down in the local zone, with the instant it denotes. *)
Record time := {
  Year : Z; Month : Z; Day : Z; Hour : Z; Minute : Z; Second : Z; Nanosecond : Z;
  instant : Z;
}.

Record LoginAttempt := {
  la_Labels : gmap string string;
  la_When : time;
  la_User : LoginAttemptUser;
  la_Authority : string;
  la_Status : string;
  la_Details : option (list LoginAttemptDetail);
}.

(** ** Names of the records *)

Definition digit_char (d : Z) : Ascii.ascii := Ascii.ascii_of_nat (48 + Z.to_nat d).

(** The [w] low decimal digits. *)
Fixpoint fixed (w : nat) (n : Z) : string :=
  match w with
  | O => ""
  | S w' => fixed w' (n / 10)%Z +:+ String (digit_char (n mod 10)%Z) ""
  end.

(** [fmt.Sprintf("%0wd", n)]: padded with zeros to the width, longer when it does not fit. *)
Definition zero_padded (w : nat) (n : Z) : string :=
  if decide (0 ≤ n < 10 ^ Z.of_nat w)%Z then fixed w n else pretty n.

Definition recordName (login : string) (now : time) : string :=
  login +:+ "-" +:+ zero_padded 4 (Year now) +:+ "-" +:+ zero_padded 2 (Month now) +:+ "-" +:+
  zero_padded 2 (Day now) +:+ "-" +:+ zero_padded 2 (Hour now) +:+ "-" +:+
  zero_padded 2 (Minute now) +:+ "-" +:+ zero_padded 2 (Second now) +:+ "-" +:+
  zero_padded 3 (Nanosecond now / 1000000)%Z.

Section audit.
(** [json.Marshal] of a claim map. *)
Context (marshal : claims → result string string).

Definition marshal_opt (c : option claims) : option string :=
  match c with
  | None => None
  | Some m => match marshal m with Ok raw => Some raw | Err _ => None end
  end.

Definition attempt_user (u : User) : LoginAttemptUser :=
  {| lau_Login := Login u; lau_Uid := Uid u; lau_Name := Name u; lau_Emails := Emails u;
     lau_Groups := Groups u; lau_Claims := marshal_opt (Claims u) |}.

Definition convert_detail (d : UserDetail) : LoginAttemptDetail :=
  {| lad_Provider :=
       {| lap_Name := ps_Name (ud_Provider d);
          lap_ClaimAuthority := ps_ClaimAuthority (ud_Provider d);
          lap_CredentialAuthority := ps_CredentialAuthority (ud_Provider d);
          lap_EmailAuthority := ps_EmailAuthority (ud_Provider d);
          lap_GroupAuthority := ps_GroupAuthority (ud_Provider d);
          lap_NameAuthority := ps_NameAuthority (ud_Provider d) |};
     lad_User := attempt_user (ud_User d);
     lad_Status := ud_Status d;
     lad_Translated :=
       {| lat_Claims := default "" (marshal_opt (tr_Claims (ud_Translated d)));
          lat_Groups := tr_Groups (ud_Translated d);
          lat_Uid := tr_Uid (ud_Translated d) |} |}.

Definition convertDetails (details : option (list UserDetail)) : option (list LoginAttemptDetail) :=
  match details with None => None | Some ds => Some (convert_detail <$> ds) end.

Definition login_record (now : time) (response : IdentityResponse) : LoginAttempt :=
  {| la_Labels := {["kubauth.kubotal.io/login" := Login (resp_User response)]};
     la_When := now;
     la_Authority := resp_Authority response;
     la_Status := resp_Status response;
     la_User := attempt_user (resp_User response);
     la_Details := convertDetails (resp_Details response) |}.

Context {W : Type} `{ObjectStoreLaws W LoginAttempt}.

Definition createLoginAttemptRecord (now : time) (response : IdentityResponse) (w : W)
    : option api_error * W :=
  kcreate (recordName (Login (resp_User response)) now) (login_record now response) w.

(** [Authenticate]: [exchange] is [proto.Exchange(l.httpClient, "GET", "v1/identity", ...)]. *)
Definition Authenticate (exchange : IdentityRequest → result string IdentityResponse) (now : time)
    (request : IdentityRequest) (w : W) : result string IdentityResponse * W :=
  match exchange request with
  | Err e => (Err e, w)
  | Ok response => let '(_, w') := createLoginAttemptRecord now response w in (Ok response, w')
  end.

(** [cleanupAudit]; [lifetime] is [auditParams.recordLifetime], instants in nanoseconds. *)
Definition cleanupAudit (now lifetime : Z) (w : W) : W :=
  let cutoffTime := (now - lifetime)%Z in
  match klist w with
  | Err _ => w
  | Ok items =>
      (sweep (λ a, bool_decide (instant (la_When a) < cutoffTime)%Z) items 0 0 w).2
  end.


(** The cleaner never deletes a record younger than the configured lifetime, never creates
    or changes one, and when it meets no API error it leaves exactly the young records. *)
Theorem cleanupAudit_spec now lifetime w :
  let old (a : LoginAttempt) := bool_decide (instant (la_When a) < now - lifetime)%Z in
  let w' := cleanupAudit now lifetime w in
  (∀ k a, kobjects w' !! k = Some a → kobjects w !! k = Some a) ∧
  (∀ k a, kobjects w !! k = Some a → old a = false → kobjects w' !! k = Some a) ∧
  (∀ l, klist w = Ok l → (sweep old l 0 0 w).1.2 = 0 →
     kobjects w' = filter (λ ka, old ka.2 = false) (kobjects w)).
Proof.
  intros old w'. unfold w', cleanupAudit. destruct (klist w) as [l|e] eqn:Hl; [|by split_and!].
  fold old. destruct (sweep old l 0 0 w) as [[d e] w1] eqn:Hs.
  destruct (sweep_listing old w l d e w1 Hl Hs) as (H1 & H2 & H3).
  split_and!; [done|done|]. intros l' [= <-]. rewrite Hs. exact H3.
Qed.
End audit.

(** ** Uniqueness of the names *)

Lemma fixed_length w n : String.length (fixed w n) = w.
Proof.
  revert n. induction w as [|w IH]; intros n; [done|]. simpl.
  rewrite str_app_length, IH. simpl. lia.
Qed.

Lemma digit_char_inj a b : (0 ≤ a < 10 → 0 ≤ b < 10 → digit_char a = digit_char b → a = b)%Z.
Proof.
  unfold digit_char. intros Ha Hb H. apply (f_equal Ascii.nat_of_ascii) in H.
  rewrite !Ascii.nat_ascii_embedding in H by lia. lia.
Qed.

Lemma fixed_inj w n m :
  (0 ≤ n < 10 ^ Z.of_nat w)%Z → (0 ≤ m < 10 ^ Z.of_nat w)%Z → fixed w n = fixed w m → n = m.
Proof.
  revert n m. induction w as [|w IH]; intros n m Hn Hm; [lia|]. simpl. intros H.
  apply str_app_inj_len_r in H as [H1 H2]; [|done]. injection H2 as H2.
  assert (10 ^ Z.of_nat (S w) = 10 * 10 ^ Z.of_nat w)%Z as Hpow.
  { rewrite Nat2Z.inj_succ, Z.pow_succ_r; lia. }
  apply digit_char_inj in H2; [|apply Z.mod_pos_bound; lia..].
  apply IH in H1; [|split; [apply Z.div_pos; lia|apply Z.div_lt_upper_bound; lia]..].
  rewrite (Z.div_mod n 10), (Z.div_mod m 10) by lia. lia.
Qed.

Lemma zero_padded_spec w n :
  (0 ≤ n < 10 ^ Z.of_nat w)%Z → zero_padded w n = fixed w n ∧ String.length (zero_padded w n) = w.
Proof. intros Hn. unfold zero_padded. rewrite decide_True by done. by rewrite fixed_length. Qed.

Lemma zero_padded_inj w n m :
  (0 ≤ n < 10 ^ Z.of_nat w)%Z → (0 ≤ m < 10 ^ Z.of_nat w)%Z →
  zero_padded w n = zero_padded w m → n = m.
Proof.
  intros Hn Hm. destruct (zero_padded_spec w n Hn) as [-> _], (zero_padded_spec w m Hm) as [-> _].
  by apply fixed_inj.
Qed.

(** The ranges of the fields of a time. *)
Record valid_time (t : time) : Prop := {
  year_range : (0 ≤ Year t < 10000)%Z;
  month_range : (0 ≤ Month t < 100)%Z;
  day_range : (0 ≤ Day t < 100)%Z;
  hour_range : (0 ≤ Hour t < 100)%Z;
  minute_range : (0 ≤ Minute t < 100)%Z;
  second_range : (0 ≤ Second t < 100)%Z;
  milli_range : (0 ≤ Nanosecond t < 1000000000)%Z;
}.

Lemma peel w n m s t :
  (0 ≤ n < 10 ^ Z.of_nat w)%Z → (0 ≤ m < 10 ^ Z.of_nat w)%Z →
  zero_padded w n +:+ s = zero_padded w m +:+ t → n = m ∧ s = t.
Proof.
  intros Hn Hm H. destruct (zero_padded_spec w n Hn) as [_ L1], (zero_padded_spec w m Hm) as [_ L2].
  apply str_app_inj_len in H as [H ->]; [|congruence]. split; [|done]. by apply zero_padded_inj in H.
Qed.

(** Two login attempts have the same record name only if they are for the same login in
    the same millisecond, whatever characters the logins hold: no audit record is lost to a
    collision between different users. *)
Theorem recordName_inj login1 login2 t1 t2 :
  valid_time t1 → valid_time t2 →
  recordName login1 t1 = recordName login2 t2 →
  login1 = login2 ∧ Year t1 = Year t2 ∧ Month t1 = Month t2 ∧ Day t1 = Day t2 ∧
  Hour t1 = Hour t2 ∧ Minute t1 = Minute t2 ∧ Second t1 = Second t2 ∧
  (Nanosecond t1 / 1000000 = Nanosecond t2 / 1000000)%Z.
Proof.
  intros [] [] H. unfold recordName in H.
  assert (Hm1 : (0 ≤ Nanosecond t1 / 1000000 < 10 ^ Z.of_nat 3)%Z).
  { split; [apply Z.div_pos; lia|apply Z.div_lt_upper_bound; lia]. }
  assert (Hm2 : (0 ≤ Nanosecond t2 / 1000000 < 10 ^ Z.of_nat 3)%Z).
  { split; [apply Z.div_pos; lia|apply Z.div_lt_upper_bound; lia]. }
  apply str_app_inj_len_r in H as [Hl H]; cycle 1.
  { rewrite !str_app_length.
    repeat match goal with |- context [String.length (zero_padded ?w ?n)] =>
      rewrite (proj2 (zero_padded_spec w n ltac:(simpl; lia))) end. done. }
  do 6 (apply (str_app_inj_l "-"), peel in H as [? H]; [|simpl; lia..]).
  apply (str_app_inj_l "-") in H. apply zero_padded_inj in H; [|done..]. by split_and!.
Qed.

(** ** Concrete runs *)

Definition noon : time :=
  {| Year := 2025; Month := 3; Day := 9; Hour := 12; Minute := 0; Second := 5;
     Nanosecond := 42000000; instant := 1000 |}.
Definition demo_response : IdentityResponse :=
  {| resp_User := InitUser "bob"; resp_Status := PasswordChecked; resp_Details := None;
     resp_Authority := "ldap" |}.
Definition empty_cluster : cluster LoginAttempt := {| objs := ∅; faults := [] |}.

Example recordName_noon : recordName "bob" noon = "bob-2025-03-09-12-00-05-042".
Proof. reflexivity. Qed.

Lemma recordName_inj_witness : recordName "bob" noon ≠ recordName "bob-2025" noon.
Proof.
  intros H. assert (V : valid_time noon) by (split; simpl; lia).
  pose proof (recordName_inj "bob" "bob-2025" noon noon V V H) as [? _]. discriminate.
Defined.


Definition attempt_at (i : Z) : LoginAttempt :=
  login_record (λ _, Err "") {| Year := 2025; Month := 1; Day := 1; Hour := 0; Minute := 0;
    Second := 0; Nanosecond := 0; instant := i |} demo_response.

Lemma cleanupAudit_spec_witness :
  kobjects (cleanupAudit 100 50 {| objs := {["old" := attempt_at 10; "new" := attempt_at 60]};
                                   faults := [] |}) !! "new" = Some (attempt_at 60).
Proof.
  apply (cleanupAudit_spec 100 50 {| objs := {["old" := attempt_at 10; "new" := attempt_at 60]};
                                     faults := [] |}); reflexivity.
Defined.
