(* ===== verification/HttpProvider.v ===== *)
(** * cmd/oidc/authenticator: the identity source of the OIDC server

    [OidcAuthenticator] is what the OIDC server relies on; [httpprovider] implements it on the
    identity protocol, turning the user's fields into claims. *)

From S2P Require Import Prelude Values Misc Proto.

Record OidcUser := { ou_Login : string; ou_Claims : claims; ou_FullName : string }.

(** The interface. The [option] of [Authenticate] is the pointer: nil when the user is not
    authenticated. *)
Record OidcAuthenticator := {
  Identify : string → string → result string (OidcUser * Status);
  Authenticate : string → string → result string (option OidcUser);
}.

(** What its comment promises: [Authenticate] gives the user only when the password was
    checked, and names it by the login that was asked. *)
Class OidcAuthenticatorOk (a : OidcAuthenticator) : Prop := {
  authenticate_checked login password u :
    Authenticate a login password = Ok (Some u) →
    Identify a login password = Ok (u, PasswordChecked);
  identify_login login password u st :
    Identify a login password = Ok (u, st) → ou_Login u = login;
}.

(** ** httpprovider.go *)

Definition getStringArrayInMap (m : claims) (key : string) : result string (list string) :=
  match m !! key with
  | None | Some VNil => Ok []
  | Some (VStrs v) => Ok v
  | Some (VArr v) => Ok (strings_of v)
  | Some (VString v) => Ok [v]
  | Some _ => Err ("entry Claims[" +:+ key +:+ "] is not a []string")
  end.

(** The claims of the user, enriched with the fields of the response. *)
Definition enrich (response : IdentityResponse) : result string claims :=
  let usr := resp_User response in
  let claims := map_of (Claims usr) in
  let claims := if str_empty (Name usr) then claims else <["name" := VString (Name usr)]> claims in
  try! groupFromClaims <- getStringArrayInMap claims "groups";
  let groups := DedupAndSort (Groups usr ++ groupFromClaims) in
  let claims := match groups with [] => claims | _ => <["groups" := VStrs groups]> claims end in
  try! emailsFromClaims <- getStringArrayInMap claims "emails";
  let emails := AppendIfNotPresent (Emails usr) emailsFromClaims in
  let claims := match emails with
                | [] => claims
                | e :: _ => <["email" := VString e]> (<["emails" := VStrs emails]> claims)
                end in
  let claims := if str_empty (resp_Authority response) then claims
                else <["authority" := VString (resp_Authority response)]> claims in
  let claims := match Uid usr with None => claims | Some u => <["uid" := VInt u]> claims end in
  Ok claims.

Section provider.
(** [proto.Exchange(u.httpClient, "GET", "v1/identity", ...)]. *)
Context (exchange : IdentityRequest → result string IdentityResponse).

Definition identify (login password : string) : result string (OidcUser * Status) :=
  match exchange {| req_Login := login; req_Password := password |} with
  | Err e => Err e
  | Ok response =>
      try! claims <- enrich response;
      Ok ({| ou_Login := login; ou_Claims := claims; ou_FullName := Name (resp_User response) |},
          resp_Status response)
  end.

Definition authenticate (login password : string) : result string (option OidcUser) :=
  try! (user, passwordStatus) <- identify login password;
  if str_eqb passwordStatus PasswordChecked then Ok (Some user) else Ok None.

Definition httpProvider : OidcAuthenticator :=
  {| Identify := identify; Authenticate := authenticate |}.

Lemma authenticate_identify login password u :
  authenticate login password = Ok (Some u) ↔ identify login password = Ok (u, PasswordChecked).
Proof.
  unfold authenticate. destruct (identify login password) as [[u' st]|e]; simpl; [|naive_solver].
  unfold str_eqb. case_bool_decide; naive_solver.
Qed.

#[export] Instance httpProvider_ok : OidcAuthenticatorOk httpProvider.
Proof.
  split; simpl.
  - intros login password u. apply authenticate_identify.
  - intros login password u st. unfold identify. destruct (exchange _) as [r|e]; [|done].
    destruct (enrich r) as [cl|e]; simpl; [|done]. by intros [= <- <-].
Qed.

Lemma authenticate_exchange login password u :
  authenticate login password = Ok (Some u) ↔
  ∃ r, exchange {| req_Login := login; req_Password := password |} = Ok r ∧
    resp_Status r = PasswordChecked ∧ enrich r = Ok (ou_Claims u) ∧
    ou_Login u = login ∧ ou_FullName u = Name (resp_User r).
Proof.
  rewrite authenticate_identify. unfold identify. destruct (exchange _) as [r|e]; [|naive_solver].
  destruct (enrich r) as [cl|e] eqn:E; simpl; split.
  - intros [= <- Hs]. by exists r.
  - intros (r' & [= <-] & Hs & Hc & Hl & Hf). rewrite E in Hc. destruct u; simplify_eq/=.
    by rewrite Hs.
  - done.
  - intros (r' & [= <-] & Hs & Hc & _). congruence.
Qed.

(** C9. The OIDC server gets an authenticated user exactly when the identity module answered
    [passwordChecked] to this login and password, and the claims could be built; an error of the
    identity module is an error, never an authenticated user. *)
Theorem oidc_authenticated_iff login password u :
  authenticate login password = Ok (Some u) ↔
  ∃ r, exchange {| req_Login := login; req_Password := password |} = Ok r ∧
    resp_Status r = PasswordChecked ∧ enrich r = Ok (ou_Claims u) ∧
    ou_Login u = login ∧ ou_FullName u = Name (resp_User r).
Proof. apply authenticate_exchange. Qed.
End provider.

(** The strings a claim entry holds. *)
Definition claim_strings (o : option value) : option (list string) :=
  match o with
  | None | Some VNil => Some []
  | Some (VStrs v) => Some v
  | Some (VArr v) => Some (strings_of v)
  | Some (VString v) => Some [v]
  | Some _ => None
  end.

Lemma getStringArrayInMap_spec m key l :
  getStringArrayInMap m key = Ok l ↔ claim_strings (m !! key) = Some l.
Proof. unfold getStringArrayInMap. destruct (m !! key) as [[]|]; naive_solver. Qed.

(** The claims the OIDC server issues for a user: [groups] is the sorted set of the groups
    of the user and of its [groups] claim, [emails] the emails of the user followed by those of
    its [emails] claim, [email] the first of them, [name], [authority] and [uid] the fields of
    the response when they are set; every other claim is passed on unchanged. *)
Theorem enrich_spec response cl :
  enrich response = Ok cl →
  let usr := resp_User response in
  let c0 := map_of (Claims usr) in
  ∃ gs es,
    claim_strings (c0 !! "groups") = Some gs ∧ claim_strings (c0 !! "emails") = Some es ∧
    let groups := DedupAndSort (Groups usr ++ gs) in
    let emails := AppendIfNotPresent (Emails usr) es in
    cl !! "groups" = (if decide (groups = []) then c0 !! "groups" else Some (VStrs groups)) ∧
    cl !! "emails" = (if decide (emails = []) then c0 !! "emails" else Some (VStrs emails)) ∧
    cl !! "email" = (match emails with [] => c0 !! "email" | e :: _ => Some (VString e) end) ∧
    cl !! "name" = (if decide (Name usr = "") then c0 !! "name" else Some (VString (Name usr))) ∧
    cl !! "authority" = (if decide (resp_Authority response = "") then c0 !! "authority"
                         else Some (VString (resp_Authority response))) ∧
    cl !! "uid" = (match Uid usr with None => c0 !! "uid" | Some u => Some (VInt u) end) ∧
    (∀ k, k ∉ ["groups"; "emails"; "email"; "name"; "authority"; "uid"] → cl !! k = c0 !! k).
Proof.
  unfold enrich, str_empty. cbn zeta.
  destruct (getStringArrayInMap _ "groups") as [gs|] eqn:Hg; simpl; [|done].
  destruct (getStringArrayInMap _ "emails") as [es|] eqn:He; simpl; [|done].
  intros [= <-]. apply getStringArrayInMap_spec in Hg, He.
  exists gs, es.
  assert (Hg' : claim_strings (map_of (Claims (resp_User response)) !! "groups") = Some gs).
  { revert Hg. case_bool_decide; [done|]. by rewrite lookup_insert_ne. }
  assert (He' : claim_strings (map_of (Claims (resp_User response)) !! "emails") = Some es).
  { revert He. destruct (DedupAndSort _); repeat case_bool_decide; by rewrite ?lookup_insert_ne. }
  split; [done|]. split; [done|].
  destruct (DedupAndSort _) as [|g gs'], (AppendIfNotPresent _ _) as [|e es'];
    repeat case_bool_decide; destruct (Uid (resp_User response));
    split_and!; try intros k Hk;
    repeat (rewrite lookup_insert_eq || rewrite lookup_insert_ne by first [done|set_solver]);
    repeat case_decide; done.
Qed.

Definition demo_identity : IdentityResponse :=
  {| resp_User := {| Login := "bob"; Uid := Some 7%Z; Name := "Bob"; Emails := ["b@x.org"];
                     Groups := ["ops"]; Claims := Some {["groups" := VArr [VString "dev"]]} |};
     resp_Status := PasswordChecked; resp_Details := None; resp_Authority := "ldap" |}.

Lemma enrich_spec_witness : ∃ cl,
  enrich demo_identity = Ok cl ∧ cl !! "groups" = Some (VStrs ["dev"; "ops"]) ∧
  cl !! "email" = Some (VString "b@x.org").
Proof.
  destruct (enrich demo_identity) as [cl|e] eqn:E; [|by vm_compute in E].
  exists cl. split; [reflexivity|].
  pose proof (enrich_spec demo_identity cl E) as (gs & es & Hg & He & H1 & _ & H3 & _).
  vm_compute in Hg, He. injection Hg as <-. injection He as <-. split.
  - rewrite H1. reflexivity.
  - rewrite H3. reflexivity.
Defined.
