(* ===== verification/OidcClient.v ===== *)
(** * OidcClient resources and kubauthClient

    The custom resource ([oidcclient_types.go]) and the client the OAuth library sees
    ([oidcstorage/kubauthclient.go]). *)

From S2P Require Import Prelude.

(** ** oidcclient_types.go *)

Record OidcClientSecretSpec := { ocs_Name : string; ocs_Key : string; ocs_Hashed : bool }.

(** Durations are in nanoseconds. *)
Record OidcClientSpec := {
  Enabled : option bool;
  Secrets : option (list OidcClientSecretSpec);
  RedirectURIs : list string;
  GrantTypes : list string;
  ResponseTypes : list string;
  Scopes : list string;
  Public : bool;
  Audiences : list string;
  ForceOpenIdScope : option bool;
  Style : string;
  PostLogoutURL : string;
  DisplayName : string;
  Description : string;
  EntryURL : string;
  AccessTokenLifespan : Z;
  RefreshTokenLifespan : Z;
  IDTokenLifespan : Z;
  ClientId : string;
  UpstreamProviders : list string;
}.

(** The phases; the empty string is the phase of a new object. *)
Definition OidcClientPhaseReady : string := "READY".
Definition OidcClientPhaseError : string := "ERROR".
Definition OidcClientPhaseOff : string := "OFF".

Record OidcClientStatus := { ost_Phase : string; ost_ClientId : string; ost_Message : string }.

Record OidcClient := {
  oc_Name : string;
  oc_Namespace : string;
  oc_Deleting : bool;             (** the deletion timestamp is set *)
  oc_Finalizers : list string;
  oc_Spec : OidcClientSpec;
  oc_Status : OidcClientStatus;
}.

(** ** kubauthclient.go *)

Record kubauthClient := {
  clientId : string;
  k8sObject : OidcClient;
  hashedSecrets : list string;
  k8sId : string;
}.

Definition NewKubauthClient (cli : OidcClient) (id : string) (secrets : list string) : kubauthClient :=
  {| clientId := id; k8sObject := cli; hashedSecrets := secrets;
     k8sId := oc_Namespace cli +:+ ":" +:+ oc_Name cli |}.

Section getters.
Context (k : kubauthClient).

Definition spec : OidcClientSpec := oc_Spec (k8sObject k).
Definition GetID : string := clientId k.
Definition GetK8sId : string := k8sId k.
Definition GetHashedSecret : option string := head (hashedSecrets k).
Definition GetRotatedHashes : list string := tail (hashedSecrets k).
Definition GetSecretCount : Z := Z.of_nat (length (hashedSecrets k)).
Definition IsPublic : bool := Public spec.
Definition GetScopes : list string := Scopes spec.
Definition GetRedirectURIs : list string := RedirectURIs spec.
Definition GetGrantTypes : list string := GrantTypes spec.
Definition GetResponseTypes : list string := ResponseTypes spec.
Definition GetDescription : string := Description spec.
Definition GetEntryURL : string := EntryURL spec.
Definition GetPostLogoutURL : string := PostLogoutURL spec.
Definition GetDisplayName : string := DisplayName spec.
Definition GetStyle : string := Style spec.
Definition GetK8sObject : OidcClient := k8sObject k.

(** The client's own id is always an allowed audience. *)
Definition GetAudience : list string :=
  if bool_decide (clientId k ∈ Audiences spec) then Audiences spec
  else Audiences spec ++ [clientId k].

Definition IsForceOpenIdScope : bool :=
  match ForceOpenIdScope spec with None => false | Some b => b end.

(** [fosite.TokenType]. *)
Inductive TokenType := AccessToken | RefreshToken | IDToken | OtherToken (t : string).

Definition lifespan_or (l fallback : Z) : Z := if decide (l ≠ 0)%Z then l else fallback.

Definition GetEffectiveLifespan (tt : TokenType) (fallback : Z) : Z :=
  match tt with
  | AccessToken => lifespan_or (AccessTokenLifespan spec) fallback
  | RefreshToken => lifespan_or (RefreshTokenLifespan spec) fallback
  | IDToken => lifespan_or (IDTokenLifespan spec) fallback
  | OtherToken _ => fallback
  end.

Definition GetUpstreamProviders : list string := UpstreamProviders spec.

(** [strings.SplitN(k.k8sId, ":", 2)]. *)
Fixpoint cut_colon (s : string) : option (string * string) :=
  match s with
  | EmptyString => None
  | String c s' =>
      if decide (c = ":"%char) then Some ("", s')
      else '(a, b) ← cut_colon s'; Some (String c a, b)
  end.

Definition parseK8sID : option (string * string) := cut_colon (k8sId k).

(** Every secret is either the current one or a rotated one. *)
Lemma secrets_complete : option_list GetHashedSecret ++ GetRotatedHashes = hashedSecrets k.
Proof. unfold GetHashedSecret, GetRotatedHashes. by destruct (hashedSecrets k). Qed.

Lemma GetAudience_self : clientId k ∈ GetAudience.
Proof. unfold GetAudience. case_bool_decide; set_solver. Qed.
End getters.

(** No colon in a namespace or a name: they are DNS labels. *)
Fixpoint no_colon (s : string) : bool :=
  match s with
  | EmptyString => true
  | String c s' => bool_decide (c ≠ ":"%char) && no_colon s'
  end.

Lemma cut_colon_app a b : no_colon a = true → cut_colon (a +:+ ":" +:+ b) = Some (a, b).
Proof.
  induction a as [|c a IH]; [done|]. simpl. rewrite andb_true_iff, bool_decide_eq_true.
  intros [Hc Ha]. change (cut_colon (String c (a +:+ ":" +:+ b)) = Some (String c a, b)).
  simpl. rewrite decide_False by done. by rewrite IH.
Qed.

(** The Kubernetes id identifies the resource. *)
Lemma parseK8sID_New cli id secrets :
  no_colon (oc_Namespace cli) = true →
  parseK8sID (NewKubauthClient cli id secrets) = Some (oc_Namespace cli, oc_Name cli).
Proof. intros H. by apply cut_colon_app. Qed.
