(* ===== verification/Storage.v ===== *)
(** * cmd/oidc/oidcstorage: the in-memory store of the OAuth server

    Every operation of [MemoryStore], on a record with one finite map per Go map. Each method
    holds its mutexes for its whole body (but see [lock_footprint]), so an execution of the
    concurrent server is a sequence of operations, and the properties are about all sequences.
    [fosite.Requester] is an argument with its [GetID]. *)

From S2P Require Import Prelude Proto HttpProvider OidcClient.

(** The errors of the OAuth library the store returns. *)
Inductive store_error :=
| ErrNotFound
| ErrInvalidatedAuthorizeCode
| ErrInactiveToken
| ErrJTIKnown
| ClientDuplicationError (existingClient : string)
| ErrAuthenticator (e : string)
| ErrClientType.

Section store.
Context {Requester AuthorizeRequester Upstream JSONWebKey : Type}.
Context (GetID : Requester → string) (GetName : Upstream → string).

Record StoreAuthorizeCode := { sac_active : bool; sac_Requester : Requester }.
Record StoreRefreshToken := {
  srt_active : bool; srt_accessTokenSignature : string; srt_Requester : Requester }.

Record PublicKeyScopes := { pks_Key : JSONWebKey; pks_Scopes : list string }.
Record SubjectPublicKeys := { spk_Subject : string; spk_Keys : gmap string PublicKeyScopes }.
Record IssuerPublicKeys_ := { ipk_Issuer : string; ipk_KeysBySub : gmap string SubjectPublicKeys }.

Record MemoryStore := {
  Clients : gmap string kubauthClient;
  AuthorizeCodes : gmap string StoreAuthorizeCode;
  IDSessions : gmap string Requester;
  AccessTokens : gmap string Requester;
  RefreshTokens : gmap string StoreRefreshToken;
  PKCES : gmap string Requester;
  BlacklistedJTIs : gmap string Z;
  AccessTokenRequestIDs : gmap string string;
  RefreshTokenRequestIDs : gmap string string;
  IssuerPublicKeys : gmap string IssuerPublicKeys_;
  PARSessions : gmap string AuthorizeRequester;
  Upstreams : gmap string Upstream;
}.

Definition NewMemoryStore : MemoryStore :=
  {| Clients := ∅; AuthorizeCodes := ∅; IDSessions := ∅; AccessTokens := ∅; RefreshTokens := ∅;
     PKCES := ∅; BlacklistedJTIs := ∅; AccessTokenRequestIDs := ∅; RefreshTokenRequestIDs := ∅;
     IssuerPublicKeys := ∅; PARSessions := ∅; Upstreams := ∅ |}.

(** ** Functional updates *)

Definition set_Clients v s := {| Clients := v; AuthorizeCodes := AuthorizeCodes s;
  IDSessions := IDSessions s; AccessTokens := AccessTokens s; RefreshTokens := RefreshTokens s;
  PKCES := PKCES s; BlacklistedJTIs := BlacklistedJTIs s;
  AccessTokenRequestIDs := AccessTokenRequestIDs s;
  RefreshTokenRequestIDs := RefreshTokenRequestIDs s; IssuerPublicKeys := IssuerPublicKeys s;
  PARSessions := PARSessions s; Upstreams := Upstreams s |}.
Definition set_AuthorizeCodes v s := {| Clients := Clients s; AuthorizeCodes := v;
  IDSessions := IDSessions s; AccessTokens := AccessTokens s; RefreshTokens := RefreshTokens s;
  PKCES := PKCES s; BlacklistedJTIs := BlacklistedJTIs s;
  AccessTokenRequestIDs := AccessTokenRequestIDs s;
  RefreshTokenRequestIDs := RefreshTokenRequestIDs s; IssuerPublicKeys := IssuerPublicKeys s;
  PARSessions := PARSessions s; Upstreams := Upstreams s |}.
Definition set_IDSessions v s := {| Clients := Clients s; AuthorizeCodes := AuthorizeCodes s;
  IDSessions := v; AccessTokens := AccessTokens s; RefreshTokens := RefreshTokens s;
  PKCES := PKCES s; BlacklistedJTIs := BlacklistedJTIs s;
  AccessTokenRequestIDs := AccessTokenRequestIDs s;
  RefreshTokenRequestIDs := RefreshTokenRequestIDs s; IssuerPublicKeys := IssuerPublicKeys s;
  PARSessions := PARSessions s; Upstreams := Upstreams s |}.
Definition set_AccessTokens v s := {| Clients := Clients s; AuthorizeCodes := AuthorizeCodes s;
  IDSessions := IDSessions s; AccessTokens := v; RefreshTokens := RefreshTokens s;
  PKCES := PKCES s; BlacklistedJTIs := BlacklistedJTIs s;
  AccessTokenRequestIDs := AccessTokenRequestIDs s;
  RefreshTokenRequestIDs := RefreshTokenRequestIDs s; IssuerPublicKeys := IssuerPublicKeys s;
  PARSessions := PARSessions s; Upstreams := Upstreams s |}.
Definition set_RefreshTokens v s := {| Clients := Clients s; AuthorizeCodes := AuthorizeCodes s;
  IDSessions := IDSessions s; AccessTokens := AccessTokens s; RefreshTokens := v;
  PKCES := PKCES s; BlacklistedJTIs := BlacklistedJTIs s;
  AccessTokenRequestIDs := AccessTokenRequestIDs s;
  RefreshTokenRequestIDs := RefreshTokenRequestIDs s; IssuerPublicKeys := IssuerPublicKeys s;
  PARSessions := PARSessions s; Upstreams := Upstreams s |}.
Definition set_PKCES v s := {| Clients := Clients s; AuthorizeCodes := AuthorizeCodes s;
  IDSessions := IDSessions s; AccessTokens := AccessTokens s; RefreshTokens := RefreshTokens s;
  PKCES := v; BlacklistedJTIs := BlacklistedJTIs s;
  AccessTokenRequestIDs := AccessTokenRequestIDs s;
  RefreshTokenRequestIDs := RefreshTokenRequestIDs s; IssuerPublicKeys := IssuerPublicKeys s;
  PARSessions := PARSessions s; Upstreams := Upstreams s |}.
Definition set_BlacklistedJTIs v s := {| Clients := Clients s; AuthorizeCodes := AuthorizeCodes s;
  IDSessions := IDSessions s; AccessTokens := AccessTokens s; RefreshTokens := RefreshTokens s;
  PKCES := PKCES s; BlacklistedJTIs := v;
  AccessTokenRequestIDs := AccessTokenRequestIDs s;
  RefreshTokenRequestIDs := RefreshTokenRequestIDs s; IssuerPublicKeys := IssuerPublicKeys s;
  PARSessions := PARSessions s; Upstreams := Upstreams s |}.
Definition set_AccessTokenRequestIDs v s := {| Clients := Clients s;
  AuthorizeCodes := AuthorizeCodes s; IDSessions := IDSessions s; AccessTokens := AccessTokens s;
  RefreshTokens := RefreshTokens s; PKCES := PKCES s; BlacklistedJTIs := BlacklistedJTIs s;
  AccessTokenRequestIDs := v;
  RefreshTokenRequestIDs := RefreshTokenRequestIDs s; IssuerPublicKeys := IssuerPublicKeys s;
  PARSessions := PARSessions s; Upstreams := Upstreams s |}.
Definition set_RefreshTokenRequestIDs v s := {| Clients := Clients s;
  AuthorizeCodes := AuthorizeCodes s; IDSessions := IDSessions s; AccessTokens := AccessTokens s;
  RefreshTokens := RefreshTokens s; PKCES := PKCES s; BlacklistedJTIs := BlacklistedJTIs s;
  AccessTokenRequestIDs := AccessTokenRequestIDs s;
  RefreshTokenRequestIDs := v; IssuerPublicKeys := IssuerPublicKeys s;
  PARSessions := PARSessions s; Upstreams := Upstreams s |}.
Definition set_PARSessions v s := {| Clients := Clients s; AuthorizeCodes := AuthorizeCodes s;
  IDSessions := IDSessions s; AccessTokens := AccessTokens s; RefreshTokens := RefreshTokens s;
  PKCES := PKCES s; BlacklistedJTIs := BlacklistedJTIs s;
  AccessTokenRequestIDs := AccessTokenRequestIDs s;
  RefreshTokenRequestIDs := RefreshTokenRequestIDs s; IssuerPublicKeys := IssuerPublicKeys s;
  PARSessions := v; Upstreams := Upstreams s |}.
Definition set_Upstreams v s := {| Clients := Clients s; AuthorizeCodes := AuthorizeCodes s;
  IDSessions := IDSessions s; AccessTokens := AccessTokens s; RefreshTokens := RefreshTokens s;
  PKCES := PKCES s; BlacklistedJTIs := BlacklistedJTIs s;
  AccessTokenRequestIDs := AccessTokenRequestIDs s;
  RefreshTokenRequestIDs := RefreshTokenRequestIDs s; IssuerPublicKeys := IssuerPublicKeys s;
  PARSessions := PARSessions s; Upstreams := v |}.

(** A lookup that fails with [fosite.ErrNotFound]. *)
Definition find {A} (k : string) (m : gmap string A) : result store_error A :=
  match m !! k with Some a => Ok a | None => Err ErrNotFound end.

(** ** OpenID Connect sessions *)

Definition CreateOpenIDConnectSession (code : string) (req : Requester) (s : MemoryStore) : MemoryStore :=
  set_IDSessions (<[code := req]> (IDSessions s)) s.
Definition GetOpenIDConnectSession (code : string) (s : MemoryStore) : result store_error Requester :=
  find code (IDSessions s).
Definition DeleteOpenIDConnectSession (code : string) (s : MemoryStore) : MemoryStore :=
  set_IDSessions (delete code (IDSessions s)) s.

(** ** Upstreams *)

Definition GetUpstream (name : string) (s : MemoryStore) : option Upstream := Upstreams s !! name.
Definition GetUpstreams (s : MemoryStore) : list Upstream := (map_to_list (Upstreams s)).*2.
Definition SetUpstream (u : Upstream) (s : MemoryStore) : MemoryStore :=
  set_Upstreams (<[GetName u := u]> (Upstreams s)) s.
Definition DeleteUpstream (name : string) (s : MemoryStore) : MemoryStore :=
  set_Upstreams (delete name (Upstreams s)) s.

(** ** Clients *)

Definition GetKubauthClient (id : string) (s : MemoryStore) : result store_error kubauthClient :=
  find id (Clients s).

Definition SetClient (c : kubauthClient) (s : MemoryStore) : option store_error * MemoryStore :=
  match Clients s !! OidcClient.GetID c with
  | Some oldClient =>
      if negb (str_eqb (GetK8sId oldClient) (GetK8sId c))
      then (Some (ClientDuplicationError (GetK8sId oldClient)), s)
      else (None, set_Clients (<[OidcClient.GetID c := c]> (Clients s)) s)
  | None => (None, set_Clients (<[OidcClient.GetID c := c]> (Clients s)) s)
  end.

Definition DeleteClient (id : string) (s : MemoryStore) : MemoryStore :=
  set_Clients (delete id (Clients s)) s.

(** [SetTokenLifespans]: a [kubauthClient] never is the type the assertion asks for. *)
Definition SetTokenLifespans (id : string) (s : MemoryStore) : store_error :=
  match Clients s !! id with Some _ => ErrClientType | None => ErrNotFound end.

(** ** JWT assertions: instants in nanoseconds *)

Definition ClientAssertionJWTValid (jti : string) (now : Z) (s : MemoryStore) : option store_error :=
  match BlacklistedJTIs s !! jti with
  | Some exp => if decide (now < exp)%Z then Some ErrJTIKnown else None
  | None => None
  end.

Definition SetClientAssertionJWT (jti : string) (exp now : Z) (s : MemoryStore)
    : option store_error * MemoryStore :=
  let s1 := set_BlacklistedJTIs (filter (λ je, ~ (je.2 < now)%Z) (BlacklistedJTIs s)) s in
  match BlacklistedJTIs s1 !! jti with
  | Some _ => (Some ErrJTIKnown, s1)
  | None => (None, set_BlacklistedJTIs (<[jti := exp]> (BlacklistedJTIs s1)) s1)
  end.

Definition IsJWTUsed (jti : string) (now : Z) (s : MemoryStore) : bool :=
  match ClientAssertionJWTValid jti now s with Some _ => true | None => false end.
Definition MarkJWTUsedForTime := SetClientAssertionJWT.

(** ** Authorisation codes *)

Definition CreateAuthorizeCodeSession (code : string) (req : Requester) (s : MemoryStore) : MemoryStore :=
  set_AuthorizeCodes (<[code := {| sac_active := true; sac_Requester := req |}]> (AuthorizeCodes s)) s.

(** The requester comes with the error when the code was invalidated. *)
Definition GetAuthorizeCodeSession (code : string) (s : MemoryStore)
    : option Requester * option store_error :=
  match AuthorizeCodes s !! code with
  | None => (None, Some ErrNotFound)
  | Some rel =>
      if negb (sac_active rel) then (Some (sac_Requester rel), Some ErrInvalidatedAuthorizeCode)
      else (Some (sac_Requester rel), None)
  end.

Definition InvalidateAuthorizeCodeSession (code : string) (s : MemoryStore)
    : option store_error * MemoryStore :=
  match AuthorizeCodes s !! code with
  | None => (Some ErrNotFound, s)
  | Some rel =>
      (None, set_AuthorizeCodes
               (<[code := {| sac_active := false; sac_Requester := sac_Requester rel |}]>
                  (AuthorizeCodes s)) s)
  end.

(** ** PKCE and PAR sessions *)

Definition CreatePKCERequestSession (code : string) (req : Requester) (s : MemoryStore) : MemoryStore :=
  set_PKCES (<[code := req]> (PKCES s)) s.
Definition GetPKCERequestSession (code : string) (s : MemoryStore) : result store_error Requester :=
  find code (PKCES s).
Definition DeletePKCERequestSession (code : string) (s : MemoryStore) : MemoryStore :=
  set_PKCES (delete code (PKCES s)) s.

Definition CreatePARSession (uri : string) (r : AuthorizeRequester) (s : MemoryStore) : MemoryStore :=
  set_PARSessions (<[uri := r]> (PARSessions s)) s.
Definition GetPARSession (uri : string) (s : MemoryStore) : result store_error AuthorizeRequester :=
  find uri (PARSessions s).
Definition DeletePARSession (uri : string) (s : MemoryStore) : MemoryStore :=
  set_PARSessions (delete uri (PARSessions s)) s.

(** ** Access tokens *)

Definition CreateAccessTokenSession (sig : string) (req : Requester) (s : MemoryStore) : MemoryStore :=
  set_AccessTokenRequestIDs (<[GetID req := sig]> (AccessTokenRequestIDs s))
    (set_AccessTokens (<[sig := req]> (AccessTokens s)) s).
Definition GetAccessTokenSession (sig : string) (s : MemoryStore) : result store_error Requester :=
  find sig (AccessTokens s).
Definition DeleteAccessTokenSession (sig : string) (s : MemoryStore) : MemoryStore :=
  set_AccessTokens (delete sig (AccessTokens s)) s.
Definition RevokeAccessToken (requestID : string) (s : MemoryStore) : MemoryStore :=
  match AccessTokenRequestIDs s !! requestID with
  | Some sig => DeleteAccessTokenSession sig s
  | None => s
  end.

(** ** Refresh tokens *)

Definition CreateRefreshTokenSession (sig accessTokenSignature : string) (req : Requester)
    (s : MemoryStore) : MemoryStore :=
  set_RefreshTokenRequestIDs (<[GetID req := sig]> (RefreshTokenRequestIDs s))
    (set_RefreshTokens (<[sig := {| srt_active := true; srt_Requester := req;
       srt_accessTokenSignature := accessTokenSignature |}]> (RefreshTokens s)) s).

Definition GetRefreshTokenSession (sig : string) (s : MemoryStore)
    : option Requester * option store_error :=
  match RefreshTokens s !! sig with
  | None => (None, Some ErrNotFound)
  | Some rel =>
      if negb (srt_active rel) then (Some (srt_Requester rel), Some ErrInactiveToken)
      else (Some (srt_Requester rel), None)
  end.

Definition DeleteRefreshTokenSession (sig : string) (s : MemoryStore) : MemoryStore :=
  set_RefreshTokens (delete sig (RefreshTokens s)) s.

Definition RevokeRefreshToken (requestID : string) (s : MemoryStore)
    : option store_error * MemoryStore :=
  match RefreshTokenRequestIDs s !! requestID with
  | None => (None, s)
  | Some sig =>
      match RefreshTokens s !! sig with
      | None => (Some ErrNotFound, s)
      | Some rel =>
          (None, set_RefreshTokens
             (<[sig := {| srt_active := false; srt_Requester := srt_Requester rel;
                          srt_accessTokenSignature := srt_accessTokenSignature rel |}]>
                (RefreshTokens s)) s)
      end
  end.

Definition RotateRefreshToken (requestID : string) (s : MemoryStore)
    : option store_error * MemoryStore :=
  match RevokeRefreshToken requestID s with
  | (Some e, s1) => (Some e, s1)
  | (None, s1) => (None, RevokeAccessToken requestID s1)
  end.

(** ** Public keys of JWT assertions *)

Definition GetPublicKeyEntry (issuer subject keyId : string) (s : MemoryStore)
    : option PublicKeyScopes :=
  issuerKeys ← IssuerPublicKeys s !! issuer;
  subKeys ← ipk_KeysBySub issuerKeys !! subject;
  spk_Keys subKeys !! keyId.

Definition GetPublicKey (issuer subject keyId : string) (s : MemoryStore) : result store_error JSONWebKey :=
  match GetPublicKeyEntry issuer subject keyId s with
  | Some ks => Ok (pks_Key ks) | None => Err ErrNotFound end.

Definition GetPublicKeys (issuer subject : string) (s : MemoryStore)
    : result store_error (list JSONWebKey) :=
  match issuerKeys ← IssuerPublicKeys s !! issuer; ipk_KeysBySub issuerKeys !! subject with
  | Some subKeys =>
      match map_to_list (spk_Keys subKeys) with
      | [] => Err ErrNotFound
      | l => Ok ((λ kv, pks_Key kv.2) <$> l)
      end
  | None => Err ErrNotFound
  end.

Definition GetPublicKeyScopes (issuer subject keyId : string) (s : MemoryStore)
    : result store_error (list string) :=
  match GetPublicKeyEntry issuer subject keyId s with
  | Some ks => Ok (pks_Scopes ks) | None => Err ErrNotFound end.

(** ** Users *)

(** [Authenticate]: the outer [None] is the dereference of the nil user an authenticator
    returns for bad credentials. *)
Definition Authenticate (a : OidcAuthenticator) (name secret : string)
    : option (result string string) :=
  match HttpProvider.Authenticate a name secret with
  | Err e => Some (Err e)
  | Ok None => None
  | Ok (Some usr) => Some (Ok (ou_Login usr))
  end.

Definition AuthenticateUserWithClaims (a : OidcAuthenticator) (name secret : string)
    : result string (option OidcUser) := HttpProvider.Authenticate a name secret.

(** ** Sequences of operations *)

Inductive op :=
| OpCreateID (code : string) (r : Requester) | OpDeleteID (code : string)
| OpSetUpstream (u : Upstream) | OpDeleteUpstream (name : string)
| OpSetClient (c : kubauthClient) | OpDeleteClient (id : string)
| OpSetJWT (jti : string) (exp now : Z)
| OpCreateCode (code : string) (r : Requester) | OpInvalidateCode (code : string)
| OpCreatePKCE (code : string) (r : Requester) | OpDeletePKCE (code : string)
| OpCreatePAR (uri : string) (r : AuthorizeRequester) | OpDeletePAR (uri : string)
| OpCreateAccess (sig : string) (r : Requester) | OpDeleteAccess (sig : string)
| OpRevokeAccess (id : string)
| OpCreateRefresh (sig asig : string) (r : Requester) | OpDeleteRefresh (sig : string)
| OpRevokeRefresh (id : string) | OpRotate (id : string).

Definition run (o : op) (s : MemoryStore) : MemoryStore :=
  match o with
  | OpCreateID c r => CreateOpenIDConnectSession c r s
  | OpDeleteID c => DeleteOpenIDConnectSession c s
  | OpSetUpstream u => SetUpstream u s
  | OpDeleteUpstream n => DeleteUpstream n s
  | OpSetClient c => (SetClient c s).2
  | OpDeleteClient id => DeleteClient id s
  | OpSetJWT jti exp now => (SetClientAssertionJWT jti exp now s).2
  | OpCreateCode c r => CreateAuthorizeCodeSession c r s
  | OpInvalidateCode c => (InvalidateAuthorizeCodeSession c s).2
  | OpCreatePKCE c r => CreatePKCERequestSession c r s
  | OpDeletePKCE c => DeletePKCERequestSession c s
  | OpCreatePAR u r => CreatePARSession u r s
  | OpDeletePAR u => DeletePARSession u s
  | OpCreateAccess sig r => CreateAccessTokenSession sig r s
  | OpDeleteAccess sig => DeleteAccessTokenSession sig s
  | OpRevokeAccess id => RevokeAccessToken id s
  | OpCreateRefresh sig asig r => CreateRefreshTokenSession sig asig r s
  | OpDeleteRefresh sig => DeleteRefreshTokenSession sig s
  | OpRevokeRefresh id => (RevokeRefreshToken id s).2
  | OpRotate id => (RotateRefreshToken id s).2
  end.

Definition run_all (os : list op) (s : MemoryStore) : MemoryStore := foldl (λ s o, run o s) s os.

(** An invariant of every allowed operation is an invariant of every sequence of them. *)
Lemma run_all_invariant (I : MemoryStore → Prop) (allowed : op → Prop) os s :
  (∀ o s, allowed o → I s → I (run o s)) → Forall allowed os → I s → I (run_all os s).
Proof.
  intros Hstep Ha. revert s. induction Ha as [|o os Ho Hos IH]; intros s Hs; [done|].
  simpl. apply IH. by apply Hstep.
Qed.

(** Each operation changes only its own maps. *)
Lemma run_AuthorizeCodes o s :
  match o with OpCreateCode _ _ | OpInvalidateCode _ => True
  | _ => AuthorizeCodes (run o s) = AuthorizeCodes s end.
Proof.
  destruct o; try done; simpl; unfold SetClient, SetClientAssertionJWT, RevokeAccessToken,
    RotateRefreshToken, RevokeRefreshToken, RevokeAccessToken; repeat case_match; simplify_eq; done.
Qed.

Lemma run_RefreshTokens o s :
  match o with OpCreateRefresh _ _ _ | OpDeleteRefresh _ | OpRevokeRefresh _ | OpRotate _ => True
  | _ => RefreshTokens (run o s) = RefreshTokens s ∧
         RefreshTokenRequestIDs (run o s) = RefreshTokenRequestIDs s end.
Proof.
  destruct o; try done; simpl; unfold SetClient, SetClientAssertionJWT, RevokeAccessToken,
    InvalidateAuthorizeCodeSession; repeat case_match; simplify_eq; done.
Qed.

Lemma run_BlacklistedJTIs o s :
  match o with OpSetJWT _ _ _ => True | _ => BlacklistedJTIs (run o s) = BlacklistedJTIs s end.
Proof.
  destruct o; try done; simpl; unfold SetClient, RevokeAccessToken, RotateRefreshToken,
    RevokeRefreshToken, InvalidateAuthorizeCodeSession, RevokeAccessToken; repeat case_match;
    simplify_eq; done.
Qed.

Lemma run_Clients o s :
  match o with OpSetClient _ | OpDeleteClient _ => True | _ => Clients (run o s) = Clients s end.
Proof.
  destruct o; try done; simpl; unfold SetClientAssertionJWT, RevokeAccessToken, RotateRefreshToken,
    RevokeRefreshToken, InvalidateAuthorizeCodeSession, RevokeAccessToken; repeat case_match;
    simplify_eq; done.
Qed.

(** *** Authorisation codes are used once *)

(** C16. Once an authorisation code was invalidated, no later sequence of operations that does
    not issue this very code again makes it usable: every read reports it as invalidated. *)
Theorem code_single_use code s s' os :
  InvalidateAuthorizeCodeSession code s = (None, s') →
  Forall (λ o, ~ ∃ r, o = OpCreateCode code r) os →
  (GetAuthorizeCodeSession code (run_all os s')).2 = Some ErrInvalidatedAuthorizeCode.
Proof.
  intros Hinv Hos.
  assert (∃ r, AuthorizeCodes (run_all os s') !! code = Some {| sac_active := false; sac_Requester := r |})
    as [r Hr].
  { eapply (run_all_invariant (λ s, ∃ r, AuthorizeCodes s !! code = Some _)); [|exact Hos|].
    - intros o st Ho [r Hr]. pose proof (run_AuthorizeCodes o st) as Hframe.
      destruct o as [| | | | | | |code' r'|code'| | | | | | | | | | |]; try (rewrite Hframe; eauto);
        simpl.
      + exists r. rewrite lookup_insert_ne; [done|]. intros ->. apply Ho. eauto.
      + unfold InvalidateAuthorizeCodeSession. destruct (AuthorizeCodes st !! code') as [rel|] eqn:E;
          simpl; [|eauto]. destruct (decide (code' = code)) as [->|].
        * rewrite lookup_insert_eq. eauto.
        * rewrite lookup_insert_ne by done. eauto.
    - revert Hinv. unfold InvalidateAuthorizeCodeSession. destruct (_ !! code); [|done].
      intros [= <-]. simpl. rewrite lookup_insert_eq. eauto. }
  unfold GetAuthorizeCodeSession. by rewrite Hr.
Qed.

(** *** Refresh tokens *)

(** Every active refresh token is the one its request id leads to. *)
Definition well_indexed (s : MemoryStore) : Prop :=
  ∀ sig rel, RefreshTokens s !! sig = Some rel → srt_active rel = true →
    RefreshTokenRequestIDs s !! GetID (srt_Requester rel) = Some sig.

Definition no_active (id : string) (s : MemoryStore) : Prop :=
  ∀ sig rel, RefreshTokens s !! sig = Some rel → GetID (srt_Requester rel) = id → srt_active rel = false.

Lemma revoke_refresh_spec id s e s' :
  RevokeRefreshToken id s = (e, s') →
  RefreshTokenRequestIDs s' = RefreshTokenRequestIDs s ∧
  (∀ sig rel, RefreshTokens s' !! sig = Some rel → srt_active rel = true →
     RefreshTokens s !! sig = Some rel ∧ (e = None → RefreshTokenRequestIDs s !! id ≠ Some sig)).
Proof.
  unfold RevokeRefreshToken. destruct (RefreshTokenRequestIDs s !! id) as [sig0|] eqn:Hi.
  - destruct (RefreshTokens s !! sig0) as [rel0|] eqn:Hr; intros [= <- <-]; (split; [done|]).
    + intros sig rel. simpl. destruct (decide (sig0 = sig)) as [->|Hne].
      * rewrite lookup_insert_eq. intros [= <-]. done.
      * rewrite lookup_insert_ne by done. intros H1 H2. split; [done|]. congruence.
    + intros sig rel H1 H2. split; done.
  - intros [= <- <-]. split; [done|]. intros sig rel H1 H2. by split.
Qed.

Lemma RevokeAccessToken_frame id s :
  RefreshTokens (RevokeAccessToken id s) = RefreshTokens s ∧
  RefreshTokenRequestIDs (RevokeAccessToken id s) = RefreshTokenRequestIDs s.
Proof. unfold RevokeAccessToken. by case_match. Qed.

Lemma rotate_spec id s e s' :
  RotateRefreshToken id s = (e, s') →
  RefreshTokenRequestIDs s' = RefreshTokenRequestIDs s ∧
  (∀ sig rel, RefreshTokens s' !! sig = Some rel → srt_active rel = true →
     RefreshTokens s !! sig = Some rel ∧ (e = None → RefreshTokenRequestIDs s !! id ≠ Some sig)).
Proof.
  unfold RotateRefreshToken. destruct (RevokeRefreshToken id s) as [e1 s1] eqn:E.
  apply revoke_refresh_spec in E. destruct (RevokeAccessToken_frame id s1) as [HA HB].
  destruct e1; intros [= <- <-]; [done|]. by rewrite HA, HB.
Qed.

Lemma well_indexed_shrink s s' :
  well_indexed s → RefreshTokenRequestIDs s' = RefreshTokenRequestIDs s →
  (∀ sig rel, RefreshTokens s' !! sig = Some rel → srt_active rel = true → RefreshTokens s !! sig = Some rel) →
  well_indexed s'.
Proof. intros HW HI HT sig rel Hr Ha. rewrite HI. by eapply HW; [apply HT|]. Qed.

Lemma well_indexed_run o s :
  (~ ∃ sig asig r, o = OpCreateRefresh sig asig r) → well_indexed s → well_indexed (run o s).
Proof.
  intros Ho HW. pose proof (run_RefreshTokens o s) as Hframe.
  destruct o as [| | | | | | | | | | | | | | | |sig asig r|sig|id|id];
    try (eapply well_indexed_shrink; [done|apply Hframe|]; intros ??; by rewrite (proj1 Hframe)).
  - destruct Ho. eauto.
  - eapply well_indexed_shrink; [done|done|]. simpl. intros sig' rel.
    rewrite lookup_delete_Some. tauto.
  - simpl. destruct (RevokeRefreshToken id s) as [e s'] eqn:E. apply revoke_refresh_spec in E as [HI HT].
    eapply well_indexed_shrink; [done|done|]. simpl. intros. by eapply HT.
  - simpl. destruct (RotateRefreshToken id s) as [e s'] eqn:E. apply rotate_spec in E as [HI HT].
    eapply well_indexed_shrink; [done|done|]. simpl. intros. by eapply HT.
Qed.

Lemma well_indexed_create sig asig r s :
  well_indexed s → no_active (GetID r) s → well_indexed (CreateRefreshTokenSession sig asig r s).
Proof.
  intros HW Hno sig' rel. simpl. destruct (decide (sig = sig')) as [->|Hne].
  - rewrite lookup_insert_eq. intros [= <-] _. simpl. by rewrite lookup_insert_eq.
  - rewrite lookup_insert_ne by done. intros Hr Ha.
    destruct (decide (GetID (srt_Requester rel) = GetID r)) as [Heq|Hid].
    + rewrite (Hno _ _ Hr Heq) in Ha. done.
    + rewrite lookup_insert_ne by done. by apply HW.
Qed.

Lemma revoked_no_active id s e s' :
  well_indexed s → RevokeRefreshToken id s = (None, s') ∨ RotateRefreshToken id s = (None, s') →
  e = s' → no_active id e.
Proof.
  intros HW Hrev ->.
  assert (H : RefreshTokenRequestIDs s' = RefreshTokenRequestIDs s ∧
    (∀ sig rel, RefreshTokens s' !! sig = Some rel → srt_active rel = true →
      RefreshTokens s !! sig = Some rel ∧ RefreshTokenRequestIDs s !! id ≠ Some sig)).
  { destruct Hrev as [E|E]; [apply revoke_refresh_spec in E|apply rotate_spec in E];
      destruct E as [H1 H2]; (split; [done|]); intros sig rel Hr Ha;
      destruct (H2 sig rel Hr Ha) as [? Hn]; split; auto. }
  intros sig rel Hr Hid. apply not_true_is_false. intros Ha.
  destruct H as [_ H]. destruct (H sig rel Hr Ha) as [Hr0 Hn].
  apply Hn. rewrite <- Hid. by apply HW.
Qed.

(** The token endpoint issues a refresh token for a new request, or for a request whose tokens
    were just rotated; everything else is interleaved freely. *)
Inductive reachable : MemoryStore → Prop :=
| reach_init : reachable NewMemoryStore
| reach_op o s : reachable s → (~ ∃ sig asig r, o = OpCreateRefresh sig asig r) → reachable (run o s)
| reach_issue sig asig r s :
    reachable s → no_active (GetID r) s → reachable (CreateRefreshTokenSession sig asig r s)
| reach_refresh sig asig r s s' :
    reachable s → RotateRefreshToken (GetID r) s = (None, s') →
    reachable (CreateRefreshTokenSession sig asig r s').

Lemma reachable_well_indexed s : reachable s → well_indexed s.
Proof.
  induction 1 as [|o s Hs IH Ho|sig asig r s Hs IH Hno|sig asig r s s' Hs IH Hrot].
  - intros sig rel. simpl. by rewrite lookup_empty.
  - by apply well_indexed_run.
  - by apply well_indexed_create.
  - apply well_indexed_create.
    + apply (well_indexed_run (OpRotate (GetID r))) in IH; [|naive_solver]. simpl in IH.
      by rewrite Hrot in IH.
    + eapply revoked_no_active; eauto.
Qed.

(** C17. A request never has two usable refresh tokens: in every reachable state of the store,
    two active refresh tokens of one request are the same one, so that a rotation or a
    revocation of the request leaves none active. *)
Theorem refresh_token_unique s :
  reachable s →
  (∀ sig1 sig2 r1 r2, GetRefreshTokenSession sig1 s = (Some r1, None) →
     GetRefreshTokenSession sig2 s = (Some r2, None) → GetID r1 = GetID r2 → sig1 = sig2) ∧
  (∀ id s', RevokeRefreshToken id s = (None, s') ∨ RotateRefreshToken id s = (None, s') →
     ∀ sig r, GetRefreshTokenSession sig s' = (Some r, None) → GetID r ≠ id).
Proof.
  intros HW%reachable_well_indexed. unfold GetRefreshTokenSession. split.
  - intros sig1 sig2 r1 r2. destruct (RefreshTokens s !! sig1) as [rel1|] eqn:E1; [|done].
    destruct (srt_active rel1) eqn:A1; simpl; [|done]. intros [= <-].
    destruct (RefreshTokens s !! sig2) as [rel2|] eqn:E2; [|done].
    destruct (srt_active rel2) eqn:A2; simpl; [|done]. intros [= <-] Hid.
    pose proof (HW _ _ E1 A1) as H1. pose proof (HW _ _ E2 A2) as H2. congruence.
  - intros id s' Hrev sig r. pose proof (revoked_no_active id s s' s' HW Hrev eq_refl) as Hno.
    destruct (RefreshTokens s' !! sig) as [rel|] eqn:E; [|done].
    destruct (srt_active rel) eqn:A; simpl; [|done]. intros [= <-] Hid.
    by rewrite (Hno _ _ E Hid) in A.
Qed.

(** *** Access tokens *)

(** Rotating the refresh token of a request removes the access token recorded for it: it is
    refused until the very same signature is issued again. *)
Theorem rotation_revokes_access id s s' sig os :
  RotateRefreshToken id s = (None, s') → AccessTokenRequestIDs s !! id = Some sig →
  Forall (λ o, ~ ∃ r, o = OpCreateAccess sig r) os →
  GetAccessTokenSession sig (run_all os s') = Err ErrNotFound.
Proof.
  intros Hrot Hi Hos. unfold GetAccessTokenSession, find.
  assert (AccessTokens (run_all os s') !! sig = None) as ->; [|done].
  eapply (run_all_invariant (λ s, AccessTokens s !! sig = None)); [|exact Hos|].
  - intros o st Ho Hn. destruct o as [| | | | | | | | | | | | |sig' r'|sig'|id'| | |id'|id']; simpl;
      unfold SetClient, SetClientAssertionJWT, InvalidateAuthorizeCodeSession, RotateRefreshToken,
        RevokeRefreshToken, RevokeAccessToken; repeat (case_match; simplify_eq; try done); simpl.
    all: try (rewrite lookup_delete_None; by right).
    all: try done.
    rewrite lookup_insert_ne; [done|]. intros ->. apply Ho. eauto.
  - revert Hrot. unfold RotateRefreshToken. destruct (RevokeRefreshToken id s) as [[e|] s1] eqn:E; [done|].
    intros [= <-]. unfold RevokeAccessToken.
    assert (AccessTokenRequestIDs s1 = AccessTokenRequestIDs s) as ->.
    { revert E. unfold RevokeRefreshToken. repeat case_match; by intros [= <-]. }
    rewrite Hi. simpl. apply lookup_delete_eq.
Qed.

(** *** JWT assertions are accepted once *)

(** C31. An assertion is not replayed: once its identifier was recorded with an expiry, every
    attempt to record it again until that expiry is refused, whatever operations happen in
    between, as long as the clock does not run backwards. *)
Theorem jti_no_replay jti exp exp' now now' s s' os :
  SetClientAssertionJWT jti exp now s = (None, s') →
  (now' ≤ exp)%Z →
  Forall (λ o, ∀ j e t, o = OpSetJWT j e t → (t ≤ now')%Z) os →
  (SetClientAssertionJWT jti exp' now' (run_all os s')).1 = Some ErrJTIKnown.
Proof.
  intros Hset Hle Hos.
  assert (BlacklistedJTIs (run_all os s') !! jti = Some exp) as Hk.
  { eapply (run_all_invariant (λ s, BlacklistedJTIs s !! jti = Some exp)); [|exact Hos|].
    - intros o st Ho Hk. pose proof (run_BlacklistedJTIs o st) as Hframe.
      destruct o as [| | | | | |j e t| | | | | | | | | | | | |]; try (by rewrite Hframe). simpl.
      unfold SetClientAssertionJWT. simpl. specialize (Ho j e t eq_refl).
      assert (filter (λ je : string * Z, ~ (je.2 < t)%Z) (BlacklistedJTIs st) !! jti = Some exp) as Hf.
      { apply map_lookup_filter_Some. split; [done|]. simpl. lia. }
      destruct (_ !! j) eqn:E; simpl; [done|].
      rewrite lookup_insert_ne; [done|]. congruence.
    - revert Hset. unfold SetClientAssertionJWT. simpl. destruct (_ !! jti); [done|].
      intros [= <-]. simpl. by rewrite lookup_insert_eq. }
  unfold SetClientAssertionJWT. simpl.
  assert (filter (λ je : string * Z, ~ (je.2 < now')%Z) (BlacklistedJTIs (run_all os s')) !! jti = Some exp) as ->.
  { apply map_lookup_filter_Some. split; [done|]. simpl. lia. }
  done.
Qed.

(** At the very instant of its expiry an identifier is reported unused by [IsJWTUsed] and still
    known by [MarkJWTUsedForTime]. *)
Lemma jti_boundary jti exp s :
  BlacklistedJTIs s !! jti = Some exp →
  IsJWTUsed jti exp s = false ∧ (MarkJWTUsedForTime jti exp exp s).1 = Some ErrJTIKnown.
Proof.
  intros Hk. unfold IsJWTUsed, ClientAssertionJWTValid, MarkJWTUsedForTime, SetClientAssertionJWT.
  simpl. rewrite Hk, decide_False by lia. split; [done|].
  assert (filter (λ je : string * Z, ~ (je.2 < exp)%Z) (BlacklistedJTIs s) !! jti = Some exp) as ->; [|done].
  apply map_lookup_filter_Some. split; [done|]. simpl. lia.
Qed.

(** *** Clients *)

(** C18. A registered OIDC client is never taken over by another resource: as long as its id is
    not deleted, the client of an id always belongs to the same Kubernetes resource, and each
    client is stored under its own id. *)
Theorem client_not_hijacked os s id c :
  Clients s !! id = Some c → map_Forall (λ id c, OidcClient.GetID c = id) (Clients s) →
  Forall (λ o, o ≠ OpDeleteClient id) os →
  map_Forall (λ id c, OidcClient.GetID c = id) (Clients (run_all os s)) ∧
  ∃ c', Clients (run_all os s) !! id = Some c' ∧ GetK8sId c' = GetK8sId c.
Proof.
  intros Hc Hf Hos.
  eapply (run_all_invariant (λ s, map_Forall (λ id c, OidcClient.GetID c = id) (Clients s) ∧
    ∃ c', Clients s !! id = Some c' ∧ GetK8sId c' = GetK8sId c)); [|exact Hos|by eauto].
  intros o st Ho [HF (c' & Hc' & Hk)]. pose proof (run_Clients o st) as Hframe.
  destruct o as [| | | |cl|id'| | | | | | | | | | | | | |]; try (rewrite Hframe; by eauto); simpl.
  - unfold SetClient.
    assert (Hins : map_Forall (λ id c, OidcClient.GetID c = id)
                     (<[OidcClient.GetID cl := cl]> (Clients st))).
    { intros i x. rewrite lookup_insert_Some. intros [[<- <-]|[_ ?]]; [done|by apply HF]. }
    destruct (decide (OidcClient.GetID cl = id)) as [<-|Hne].
    + rewrite Hc'. destruct (str_eqb (GetK8sId c') (GetK8sId cl)) eqn:E; simpl; [|by eauto].
      apply str_eqb_true in E. split; [done|]. exists cl. rewrite lookup_insert_eq.
      split; [done|congruence].
    + destruct (Clients st !! OidcClient.GetID cl); [destruct (negb _)|]; simpl; (split; [done|]);
        exists c'; rewrite ?lookup_insert_ne by done; done.
  - split.
    + intros i x. rewrite lookup_delete_Some. intros [_ ?]. by apply HF.
    + exists c'. rewrite lookup_delete_ne; [done|]. by intros ->.
Qed.
End store.

(** ** Credentials *)

(** The resource-owner check of the store crashes instead of refusing: with an
    authenticator that keeps its contract, wrong credentials make [Authenticate] dereference
    the nil user. *)
Theorem store_authenticate_nil_user a name secret :
  OidcAuthenticatorOk a →
  (Authenticate a name secret = None ↔ HttpProvider.Authenticate a name secret = Ok None) ∧
  ∀ subject, Authenticate a name secret = Some (Ok subject) →
    subject = name ∧ ∃ u, Identify a name secret = Ok (u, PasswordChecked).
Proof.
  intros Ha. unfold Authenticate.
  destruct (HttpProvider.Authenticate a name secret) as [[u|]|e] eqn:E; (split; [done|]); try done.
  intros subject [= <-]. apply authenticate_checked in E. split; [|eauto].
  by eapply identify_login.
Qed.

Definition refusing : OidcAuthenticator :=
  httpProvider (λ r, Ok {| resp_User := InitUser (req_Login r); resp_Status := PasswordFail;
                           resp_Details := None; resp_Authority := "" |}).

Lemma store_authenticate_nil_user_witness : Authenticate refusing "bob" "wrong" = None.
Proof.
  apply (store_authenticate_nil_user refusing "bob" "wrong" (httpProvider_ok _)). reflexivity.
Defined.

(** ** Concrete runs: a requester is its id *)

Definition demo_store : @MemoryStore string unit unit unit := NewMemoryStore.
Definition demo_id : string → string := λ r, r.
Definition demo_name : unit → string := λ _, "idp".

Lemma code_single_use_witness :
  (GetAuthorizeCodeSession "c1" (run_all demo_id demo_name [OpCreateCode "c2" "r2"; OpInvalidateCode "c1"]
     (InvalidateAuthorizeCodeSession "c1" (CreateAuthorizeCodeSession "c1" "r1" demo_store)).2)).2
  = Some ErrInvalidatedAuthorizeCode.
Proof.
  apply (code_single_use demo_id demo_name "c1" (CreateAuthorizeCodeSession "c1" "r1" demo_store));
    [reflexivity|].
  repeat constructor; intros [r H]; discriminate H.
Defined.

Lemma refresh_token_unique_witness :
  let s1 := CreateRefreshTokenSession demo_id "t1" "a1" "req" demo_store in
  let s2 := CreateRefreshTokenSession demo_id "t2" "a2" "req" (RotateRefreshToken "req" s1).2 in
  GetRefreshTokenSession "t2" s2 = (Some "req", None) ∧
  ∀ sig r, GetRefreshTokenSession sig s2 = (Some r, None) → r = "req" → sig = "t2".
Proof.
  intros s1 s2. assert (R : reachable demo_id demo_name s2).
  { apply reach_refresh with s1; [|reflexivity]. apply reach_issue; [constructor|].
    intros sig rel H. simpl in H. by rewrite lookup_empty in H. }
  split; [reflexivity|]. intros sig r H1 H2.
  apply (proj1 (refresh_token_unique demo_id demo_name s2 R) sig "t2" r "req" H1 eq_refl H2).
Defined.

Lemma rotation_revokes_access_witness :
  let s1 := CreateAccessTokenSession demo_id "a1" "req" demo_store in
  GetAccessTokenSession "a1" (run_all demo_id demo_name [OpCreateAccess "a2" "req"]
     (RotateRefreshToken "req" s1).2) = Err ErrNotFound.
Proof.
  intros s1. apply (rotation_revokes_access demo_id demo_name "req" s1); [reflexivity|reflexivity|].
  repeat constructor. intros [r H]. discriminate H.
Defined.

Lemma jti_no_replay_witness :
  (SetClientAssertionJWT "j" 90 50 (run_all demo_id demo_name [OpSetJWT "k" 20 10; OpSetJWT "l" 99 40]
     (SetClientAssertionJWT "j" 60 5 demo_store).2)).1 = Some ErrJTIKnown.
Proof.
  apply (jti_no_replay demo_id demo_name "j" 60 90 5 50 demo_store); [reflexivity|lia|].
  apply Forall_cons; split; [|apply Forall_cons; split; [|constructor]];
    intros j e t H; injection H as <- <- <-; lia.
Defined.

Definition demo_spec (id : string) : OidcClientSpec :=
  {| Enabled := None; Secrets := None; RedirectURIs := []; GrantTypes := []; ResponseTypes := [];
     Scopes := []; Public := true; Audiences := []; ForceOpenIdScope := None; Style := "";
     PostLogoutURL := ""; DisplayName := ""; Description := ""; EntryURL := "";
     AccessTokenLifespan := 0; RefreshTokenLifespan := 0; IDTokenLifespan := 0; ClientId := id;
     UpstreamProviders := [] |}.
Definition demo_object (ns name id : string) : OidcClient :=
  {| oc_Name := name; oc_Namespace := ns; oc_Deleting := false; oc_Finalizers := [];
     oc_Spec := demo_spec id;
     oc_Status := {| ost_Phase := ""; ost_ClientId := id; ost_Message := "" |} |}.
Definition demo_client (ns name id : string) : kubauthClient :=
  NewKubauthClient (demo_object ns name id) id [].

Lemma client_not_hijacked_witness :
  let s := (SetClient (demo_client "apps" "web" "web") demo_store).2 in
  ∃ c, Clients (run_all demo_id demo_name [OpSetClient (demo_client "evil" "x" "web")] s) !! "web" = Some c ∧
    GetK8sId c = "apps:web".
Proof.
  intros s. apply (client_not_hijacked demo_id demo_name _ s "web" (demo_client "apps" "web" "web")).
  - reflexivity.
  - intros id c H.
    change ((<["web" := demo_client "apps" "web" "web"]> ∅ : gmap string kubauthClient) !! id = Some c) in H.
    rewrite lookup_insert_Some in H.
    destruct H as [[<- <-]|[_ H]]; [reflexivity|]. by rewrite lookup_empty in H.
  - repeat constructor. discriminate.
Defined.
