(* ===== verification/StoreLocks.v ===== *)
(** * cmd/oidc/oidcstorage: the mutexes of the store

    For each method of [MemoryStore], the mutexes it holds together, in the order it takes
    them, and the maps it touches, read off the code: a write lock and a write access are
    marked [true]. Each map has its own mutex. *)

From S2P Require Import Prelude.

Inductive guarded_map :=
| MClients | MAuthorizeCodes | MIDSessions | MAccessTokens | MRefreshTokens | MPKCES | MUsers
| MBlacklistedJTIs | MAccessTokenRequestIDs | MRefreshTokenRequestIDs | MIssuerPublicKeys
| MPARSessions | MUpstreams.

#[export] Instance guarded_map_eq : EqDecision guarded_map.
Proof. solve_decision. Defined.

Inductive method :=
| CreateOpenIDConnectSession | GetOpenIDConnectSession | DeleteOpenIDConnectSession
| GetUpstream | GetUpstreams | SetUpstream | DeleteUpstream
| GetKubauthClient | SetClient | DeleteClient | SetTokenLifespans
| ClientAssertionJWTValid | SetClientAssertionJWT
| CreateAuthorizeCodeSession | GetAuthorizeCodeSession | InvalidateAuthorizeCodeSession
| CreatePKCERequestSession | GetPKCERequestSession | DeletePKCERequestSession
| CreateAccessTokenSession | GetAccessTokenSession | DeleteAccessTokenSession
| CreateRefreshTokenSession | GetRefreshTokenSession | DeleteRefreshTokenSession
| Authenticate | AuthenticateUserWithClaims
| RevokeRefreshToken | RevokeAccessToken
| GetPublicKey | GetPublicKeys | GetPublicKeyScopes
| CreatePARSession | GetPARSession | DeletePARSession.

Definition locks (m : method) : list (guarded_map * bool) :=
  match m with
  | CreateOpenIDConnectSession | DeleteOpenIDConnectSession => [(MIDSessions, true)]
  | GetOpenIDConnectSession => [(MIDSessions, false)]
  | GetUpstream | GetUpstreams => [(MUpstreams, false)]
  | SetUpstream | DeleteUpstream => [(MUpstreams, true)]
  | GetKubauthClient => [(MClients, false)]
  | SetClient | DeleteClient => [(MClients, true)]
  | SetTokenLifespans => []
  | ClientAssertionJWTValid => [(MBlacklistedJTIs, false)]
  | SetClientAssertionJWT => [(MBlacklistedJTIs, true)]
  | CreateAuthorizeCodeSession | InvalidateAuthorizeCodeSession => [(MAuthorizeCodes, true)]
  | GetAuthorizeCodeSession => [(MAuthorizeCodes, false)]
  | CreatePKCERequestSession | DeletePKCERequestSession => [(MPKCES, true)]
  | GetPKCERequestSession => [(MPKCES, false)]
  | CreateAccessTokenSession => [(MAccessTokenRequestIDs, true); (MAccessTokens, true)]
  | GetAccessTokenSession => [(MAccessTokens, false)]
  | DeleteAccessTokenSession => [(MAccessTokens, true)]
  | CreateRefreshTokenSession => [(MRefreshTokenRequestIDs, true); (MRefreshTokens, true)]
  | GetRefreshTokenSession => [(MRefreshTokens, false)]
  | DeleteRefreshTokenSession => [(MRefreshTokens, true)]
  | Authenticate | AuthenticateUserWithClaims => [(MUsers, false)]
  | RevokeRefreshToken => [(MRefreshTokenRequestIDs, true)]
  | RevokeAccessToken => [(MAccessTokenRequestIDs, false); (MAccessTokens, true)]
  | GetPublicKey | GetPublicKeys | GetPublicKeyScopes => [(MIssuerPublicKeys, false)]
  | CreatePARSession | DeletePARSession => [(MPARSessions, true)]
  | GetPARSession => [(MPARSessions, false)]
  end.

Definition accesses (m : method) : list (guarded_map * bool) :=
  match m with
  | CreateOpenIDConnectSession | DeleteOpenIDConnectSession => [(MIDSessions, true)]
  | GetOpenIDConnectSession => [(MIDSessions, false)]
  | GetUpstream | GetUpstreams => [(MUpstreams, false)]
  | SetUpstream | DeleteUpstream => [(MUpstreams, true)]
  | GetKubauthClient | SetTokenLifespans => [(MClients, false)]
  | SetClient | DeleteClient => [(MClients, true)]
  | ClientAssertionJWTValid => [(MBlacklistedJTIs, false)]
  | SetClientAssertionJWT => [(MBlacklistedJTIs, true)]
  | CreateAuthorizeCodeSession | InvalidateAuthorizeCodeSession => [(MAuthorizeCodes, true)]
  | GetAuthorizeCodeSession => [(MAuthorizeCodes, false)]
  | CreatePKCERequestSession | DeletePKCERequestSession => [(MPKCES, true)]
  | GetPKCERequestSession => [(MPKCES, false)]
  | CreateAccessTokenSession => [(MAccessTokens, true); (MAccessTokenRequestIDs, true)]
  | GetAccessTokenSession => [(MAccessTokens, false)]
  | DeleteAccessTokenSession => [(MAccessTokens, true)]
  | CreateRefreshTokenSession => [(MRefreshTokens, true); (MRefreshTokenRequestIDs, true)]
  | GetRefreshTokenSession => [(MRefreshTokens, false)]
  | DeleteRefreshTokenSession => [(MRefreshTokens, true)]
  | Authenticate | AuthenticateUserWithClaims => []
  | RevokeRefreshToken => [(MRefreshTokenRequestIDs, false); (MRefreshTokens, true)]
  | RevokeAccessToken => [(MAccessTokenRequestIDs, false); (MAccessTokens, true)]
  | GetPublicKey | GetPublicKeys | GetPublicKeyScopes => [(MIssuerPublicKeys, false)]
  | CreatePARSession | DeletePARSession => [(MPARSessions, true)]
  | GetPARSession => [(MPARSessions, false)]
  end.

(** An access is protected by a lock of its mutex that is strong enough. *)
Definition protected (ls : list (guarded_map * bool)) (a : guarded_map * bool) : bool :=
  bool_decide ((a.1, true) ∈ ls) || (negb a.2 && bool_decide ((a.1, false) ∈ ls)).

Definition well_locked (m : method) : bool := forallb (protected (locks m)) (accesses m).

(** Two methods may race on a map: both touch it, one of them writes it, and they hold no
    common mutex in conflicting modes. *)
Definition conflict (a b : guarded_map * bool) : bool := bool_decide (a.1 = b.1) && (a.2 || b.2).
Definition excluded (m n : method) : bool :=
  existsb (λ a, existsb (conflict a) (locks n)) (locks m).
Definition may_race (m n : method) : bool :=
  existsb (λ a, existsb (conflict a) (accesses n)) (accesses m) && negb (excluded m n).

(** The global order of the mutexes: a request-id index before its tokens. *)
Definition rank (g : guarded_map) : nat :=
  match g with MAccessTokenRequestIDs | MRefreshTokenRequestIDs => 0 | _ => 1 end.

Fixpoint ascending (ls : list (guarded_map * bool)) : bool :=
  match ls with
  | a :: ((b :: _) as rest) => (rank a.1 <? rank b.1) && ascending rest
  | _ => true
  end.

Lemma protected_excludes l1 l2 a b :
  protected l1 a = true → protected l2 b = true → conflict a b = true →
  existsb (λ x, existsb (conflict x) l2) l1 = true.
Proof.
  destruct a as [g wa], b as [h wb]. unfold conflict; simpl. intros H1 H2 Hc.
  apply andb_true_iff in Hc as [->%bool_decide_eq_true Hw].
  assert (E : ∀ l w, protected l (h, w) = true → ∃ w', (h, w') ∈ l ∧ (w = true → w' = true)).
  { intros l w. unfold protected; simpl. intros [Hin%bool_decide_eq_true|Hr]%orb_true_iff; [by eauto|].
    apply andb_true_iff in Hr as [Hn Hin%bool_decide_eq_true]. exists false. split; [done|].
    by destruct w. }
  destruct (E _ _ H1) as (w1 & Hin1 & Hw1), (E _ _ H2) as (w2 & Hin2 & Hw2).
  apply existsb_exists. exists (h, w1). split; [by apply list_elem_of_In|].
  apply existsb_exists. exists (h, w2). split; [by apply list_elem_of_In|].
  unfold conflict; simpl. rewrite bool_decide_true by done. simpl.
  destruct wa, wb; simpl in *; try done; [rewrite Hw1|rewrite Hw1|rewrite Hw2]; try done.
  by rewrite orb_true_r.
Qed.

(** The store is free of data races and of lock cycles, with two exceptions: every method
    takes its mutexes in one global order, and two methods that touch the same map, one of
    them writing, exclude each other, unless one of them is [RevokeRefreshToken] (which writes
    the refresh tokens holding only the mutex of the index) or [SetTokenLifespans] (which
    reads the clients without any). *)
Theorem store_lock_discipline :
  (∀ m, ascending (locks m) = true) ∧
  (∀ m n, may_race m n = true →
     m = RevokeRefreshToken ∨ n = RevokeRefreshToken ∨ m = SetTokenLifespans ∨ n = SetTokenLifespans) ∧
  may_race RevokeRefreshToken GetRefreshTokenSession = true ∧
  may_race SetTokenLifespans SetClient = true.
Proof.
  split_and!; [by intros []| |reflexivity|reflexivity].
  assert (W : ∀ m, m ≠ RevokeRefreshToken → m ≠ SetTokenLifespans → well_locked m = true).
  { intros [] H1 H2; done || reflexivity. }
  intros m n Hr.
  destruct (decide (well_locked m = true)) as [Hm|Hm]; cycle 1.
  { destruct m; try (by destruct Hm); auto. }
  destruct (decide (well_locked n = true)) as [Hn|Hn]; cycle 1.
  { destruct n; try (by destruct Hn); auto. }
  exfalso. unfold may_race in Hr. apply andb_true_iff in Hr as [Hc Hx].
  apply existsb_exists in Hc as (a & Ha & Hc). apply existsb_exists in Hc as (b & Hb & Hc).
  unfold well_locked in Hm, Hn. rewrite forallb_forall in Hm, Hn.
  unfold excluded in Hx. rewrite (protected_excludes _ _ _ _ (Hm a Ha) (Hn b Hb) Hc) in Hx. done.
Qed.
