(* ===== verification/ClientController.v ===== *)
(** * cmd/oidc/controllers: the OidcClient reconciler

    One run of [Reconcile] on a resource: what it leaves in the store, what it writes back to
    the resource, and the result it gives to the controller runtime. The answers of the
    Kubernetes API and bcrypt hashing are arguments. *)

From S2P Require Import Prelude Misc K8s OidcClient Storage.

Definition finalizerName : string := "kubauth.kubotal.io/finalizer".

(** The API calls of one run: reads, and the outcome of each write. *)
Record api := {
  api_get : get_result OidcClient;
  api_secret : string → get_result (gmap string string);
  api_patch : OidcClient → option string;
  api_status_update : OidcClient → option string;
}.

Inductive reconcile_result := Done | RequeueAfter (ms : Z) | ReconcileErr (e : string).

(** The state a run leaves: the store, what it wrote to the resource (its status, its
    finalizers), the error counter and the events. *)
Record outcome (S : Type) := {
  out_result : reconcile_result;
  out_store : S;
  out_status : option OidcClientStatus;
  out_finalizers : option (list string);
  out_statusErrorCount : Z;
  out_events : list (string * string * string);
}.
Arguments out_result {S}. Arguments out_store {S}. Arguments out_status {S}. Arguments out_finalizers {S}.
Arguments out_statusErrorCount {S}. Arguments out_events {S}.

Definition set_status (st : OidcClientStatus) (o : OidcClient) : OidcClient :=
  {| oc_Name := oc_Name o; oc_Namespace := oc_Namespace o; oc_Deleting := oc_Deleting o;
     oc_Finalizers := oc_Finalizers o; oc_Spec := oc_Spec o; oc_Status := st |}.
Definition set_finalizers (fs : list string) (o : OidcClient) : OidcClient :=
  {| oc_Name := oc_Name o; oc_Namespace := oc_Namespace o; oc_Deleting := oc_Deleting o;
     oc_Finalizers := fs; oc_Spec := oc_Spec o; oc_Status := oc_Status o |}.
Definition set_style (s : string) (sp : OidcClientSpec) : OidcClientSpec :=
  {| Enabled := Enabled sp; Secrets := Secrets sp; RedirectURIs := RedirectURIs sp;
     GrantTypes := GrantTypes sp; ResponseTypes := ResponseTypes sp; Scopes := Scopes sp;
     Public := Public sp; Audiences := Audiences sp; ForceOpenIdScope := ForceOpenIdScope sp;
     Style := s; PostLogoutURL := PostLogoutURL sp; DisplayName := DisplayName sp;
     Description := Description sp; EntryURL := EntryURL sp;
     AccessTokenLifespan := AccessTokenLifespan sp; RefreshTokenLifespan := RefreshTokenLifespan sp;
     IDTokenLifespan := IDTokenLifespan sp; ClientId := ClientId sp;
     UpstreamProviders := UpstreamProviders sp |}.
Definition set_spec (sp : OidcClientSpec) (o : OidcClient) : OidcClient :=
  {| oc_Name := oc_Name o; oc_Namespace := oc_Namespace o; oc_Deleting := oc_Deleting o;
     oc_Finalizers := oc_Finalizers o; oc_Spec := sp; oc_Status := oc_Status o |}.

Record OidcClientReconciler := {
  ClientPrivilegedNamespace : string;
  DefaultStyle : string;
  statusErrorCount : Z;
}.

Definition buildClientId (r : OidcClientReconciler) (sp : OidcClientSpec) (name namespace : string)
    : string :=
  if negb (str_empty (ClientId sp)) then ClientId sp
  else if negb (str_eqb namespace (ClientPrivilegedNamespace r)) then namespace +:+ "-" +:+ name
  else name.

Definition error_message (e : store_error) : string :=
  match e with
  | ClientDuplicationError existing => "duplicate client_id with " +:+ existing
  | _ => ""
  end.

Section reconcile.
Context {Req AReq Up Key : Type}.
Abbreviation store := (@MemoryStore Req AReq Up Key).
Context (r : OidcClientReconciler) (a : api).
Context (bcrypt_hash : string → option string).

Definition nothing (res : reconcile_result) (st : store) : outcome store :=
  {| out_result := res; out_store := st; out_status := None; out_finalizers := None;
     out_statusErrorCount := statusErrorCount r; out_events := [] |}.

(** The phase and the message of an outcome. *)
Definition phase_message (o : OidcClient) (err : option string) : string * string :=
  match err with
  | Some e => (OidcClientPhaseError, e)
  | None => if negb (BoolPtrTrue (Enabled (oc_Spec o))) then (OidcClientPhaseOff, "Disabled")
            else (OidcClientPhaseReady, "OK")
  end.

(** The status [updateStatus] leaves in the object, whether or not the API accepts it. *)
Definition new_status (o : OidcClient) (err : option string) : OidcClientStatus :=
  {| ost_Phase := (phase_message o err).1; ost_ClientId := ost_ClientId (oc_Status o);
     ost_Message := (phase_message o err).2 |}.

(** [updateStatus]: the status is written only when the phase or the message changes. *)
Definition updateStatus (o : OidcClient) (err : option string) (st : store)
    (events : list (string * string * string)) : outcome store :=
  let status := new_status o err in
  let toUpdate := negb (str_eqb (ost_Phase (oc_Status o)) (ost_Phase status))
                  || negb (str_eqb (ost_Message (oc_Status o)) (ost_Message status)) in
  if toUpdate then
    match api_status_update a (set_status status o) with
    | None => {| out_result := Done; out_store := st; out_status := Some status;
                 out_finalizers := None;
                 out_statusErrorCount := statusErrorCount r; out_events := events |}
    | Some e =>
        if decide (statusErrorCount r = 0%Z) then
          {| out_result := RequeueAfter 200; out_store := st; out_status := None;
             out_finalizers := None; out_statusErrorCount := statusErrorCount r + 1;
             out_events := events |}
        else
          {| out_result := ReconcileErr e; out_store := st; out_status := None;
             out_finalizers := None; out_statusErrorCount := statusErrorCount r;
             out_events := events |}
    end
  else {| out_result := Done; out_store := st; out_status := None; out_finalizers := None;
          out_statusErrorCount := statusErrorCount r; out_events := events |}.

(** [UpdateStorageAndStatus]. The store keeps a pointer to the object, whose status
    [updateStatus] sets afterwards: the registered client holds the final one. *)
Definition UpdateStorageAndStatus (o : OidcClient) (secrets : list string) (err : option string)
    (st : store) : outcome store :=
  let id := ost_ClientId (oc_Status o) in
  match err with
  | None =>
      if BoolPtrTrue (Enabled (oc_Spec o)) then
        match SetClient (NewKubauthClient (set_status (new_status o None) o) id secrets) st with
        | (None, st') =>
            updateStatus o None st' [("Normal", "Created", "Created client with client_id '" +:+ id +:+ "'")]
        | (Some e, st') =>
            updateStatus o (Some (error_message e)) st' [("Warning", "Duplicate", error_message e)]
        end
      else updateStatus o None (DeleteClient id st) [("Normal", "Off", "Disabled")]
  | Some e => updateStatus o (Some e) (DeleteClient id st) [("Warning", "Error", e)]
  end.

(** The loop over the secrets: the hashes, a configuration error, or an API error. *)
Inductive secrets_outcome := Hashes (hs : list string) | BadSecret (e : string) | SecretApiErr (e : string).

Fixpoint hash_secrets (ns : string) (refs : list OidcClientSecretSpec) (acc : list string)
    : secrets_outcome :=
  match refs with
  | [] => Hashes acc
  | ref :: rest =>
      match api_secret a (ocs_Name ref) with
      | NotFound => BadSecret ("unable to fetch secret '" +:+ ns +:+ ":" +:+ ocs_Name ref +:+ "'")
      | GetErr e => SecretApiErr e
      | Found data =>
          match data !! ocs_Key ref with
          | None => BadSecret ("no '" +:+ ocs_Key ref +:+ "' key in secret '" +:+ ns +:+ ":" +:+
                               ocs_Name ref +:+ "'")
          | Some v =>
              if ocs_Hashed ref then hash_secrets ns rest (acc ++ [v])
              else match bcrypt_hash v with
                   | Some h => hash_secrets ns rest (acc ++ [h])
                   | None => BadSecret ("unable to hash value from secret '" +:+ ns +:+ ":" +:+
                                        ocs_Name ref +:+ "[" +:+ ocs_Key ref +:+ "]'")
                   end
          end
      end
  end.

(** [Patch] of the finalizers. *)
Definition patch (o : OidcClient) (fs : list string) (st : store) : outcome store :=
  match api_patch a (set_finalizers fs o) with
  | Some e => nothing (ReconcileErr e) st
  | None => {| out_result := Done; out_store := st; out_status := None; out_finalizers := Some fs;
               out_statusErrorCount := statusErrorCount r; out_events := [] |}
  end.

(** The object with its effective client id. *)
Definition with_client_id (o : OidcClient) (name ns : string) : OidcClient :=
  if str_empty (ost_ClientId (oc_Status o)) then
    set_status {| ost_Phase := ost_Phase (oc_Status o);
                  ost_ClientId := buildClientId r (oc_Spec o) name ns;
                  ost_Message := ost_Message (oc_Status o) |} o
  else o.

Definition with_default_style (o : OidcClient) : OidcClient :=
  if str_empty (Style (oc_Spec o)) then set_spec (set_style (DefaultStyle r) (oc_Spec o)) o else o.

(** [Reconcile] of the request [ns/name]. *)
Definition Reconcile (name ns : string) (st : store) : outcome store :=
  match api_get a with
  | NotFound => nothing Done st
  | GetErr e => nothing (ReconcileErr e) st
  | Found o0 =>
      let o := with_client_id o0 name ns in
      if oc_Deleting o then
        let st' := if str_eqb (ost_Phase (oc_Status o)) OidcClientPhaseReady
                   then DeleteClient (ost_ClientId (oc_Status o)) st else st in
        patch o (filter (.≠ finalizerName) (oc_Finalizers o)) st'
      else if bool_decide (finalizerName ∉ oc_Finalizers o) then
        patch o (oc_Finalizers o ++ [finalizerName]) st
      else if negb (BoolPtrTrue (Enabled (oc_Spec o))) then UpdateStorageAndStatus o [] None st
      else
        let o := with_default_style o in
        if Public (oc_Spec o) then
          match Secrets (oc_Spec o) with
          | Some _ => UpdateStorageAndStatus o [] (Some "'secrets' set while public is enabled") st
          | None => UpdateStorageAndStatus o [] None st
          end
        else
          match Secrets (oc_Spec o) with
          | None | Some [] =>
              UpdateStorageAndStatus o []
                (Some "when not public, one of 'secrets' must be defined with at least one item") st
          | Some refs =>
              match hash_secrets ns refs [] with
              | SecretApiErr e => nothing (ReconcileErr e) st
              | BadSecret e => UpdateStorageAndStatus o [] (Some e) st
              | Hashes hs => UpdateStorageAndStatus o hs None st
              end
          end
  end.

(** ** What a run leaves in the store *)

(** A client holds the resource: it was registered from the resource [ns/name]. *)
Definition owned (ns name : string) (c : kubauthClient) : Prop := GetK8sId c = ns +:+ ":" +:+ name.

(** A confidential client has a secret. *)
Definition secured (c : kubauthClient) : Prop := IsPublic c = true ∨ hashedSecrets c ≠ [].

Lemma updateStatus_store o err st ev : out_store (updateStatus o err st ev) = st.
Proof. unfold updateStatus. repeat case_match; done. Qed.

Lemma updateStatus_status o err st ev :
  out_result (updateStatus o err st ev) = Done →
  let written := default (oc_Status o) (out_status (updateStatus o err st ev)) in
  ost_Phase written = (phase_message o err).1 ∧ ost_ClientId written = ost_ClientId (oc_Status o).
Proof.
  unfold updateStatus. destruct (_ || _) eqn:E.
  - destruct (api_status_update a _); [|done]. by case_decide.
  - intros _. simpl. apply orb_false_iff in E as [E _]. apply negb_false_iff, str_eqb_true in E.
    by rewrite E.
Qed.

Lemma SetClient_spec c (st : store) e st' :
  SetClient c st = (e, st') →
  match e with
  | None => Clients st' = <[OidcClient.GetID c := c]> (Clients st)
  | Some _ => st' = st ∧ ∃ old, Clients st !! OidcClient.GetID c = Some old ∧ GetK8sId old ≠ GetK8sId c
  end.
Proof.
  unfold SetClient. destruct (Clients st !! OidcClient.GetID c) as [old|] eqn:E.
  - destruct (str_eqb (GetK8sId old) (GetK8sId c)) eqn:K; simpl; intros [= <- <-]; [done|].
    apply str_eqb_false in K. eauto.
  - by intros [= <- <-].
Qed.

Lemma UpdateStorageAndStatus_ready o secrets err st :
  let res := UpdateStorageAndStatus o secrets err st in
  out_result res = Done →
  ost_Phase (default (oc_Status o) (out_status res)) = OidcClientPhaseReady ↔
  ∃ c, Clients (out_store res) !! ost_ClientId (oc_Status o) = Some c ∧
    owned (oc_Namespace o) (oc_Name o) c.
Proof.
  set (id := ost_ClientId (oc_Status o)).
  assert (Hdel : ~ ∃ c, Clients (DeleteClient id st) !! id = Some c ∧ owned (oc_Namespace o) (oc_Name o) c).
  { intros (c & Hc & _). simpl in Hc. by rewrite lookup_delete_eq in Hc. }
  unfold UpdateStorageAndStatus. fold id. destruct err as [e|].
  - intros Hres. apply updateStatus_status in Hres as [-> _].
    rewrite updateStatus_store. by split.
  - destruct (BoolPtrTrue (Enabled (oc_Spec o))) eqn:Hen.
    + set (cl := NewKubauthClient (set_status (new_status o None) o) id secrets).
      destruct (SetClient cl st) as [[e|] st'] eqn:Hset; intros Hres;
        apply updateStatus_status in Hres as [-> _]; rewrite updateStatus_store;
        apply SetClient_spec in Hset.
      * destruct Hset as (-> & old & Hold & Hne). simpl. split; [done|].
        intros (c & Hc & Ho). change (OidcClient.GetID cl) with id in Hold.
        rewrite Hold in Hc. by simplify_eq.
      * simpl. rewrite Hen. simpl. split; [|done]. intros _. exists cl. rewrite Hset. split; [|done].
        apply lookup_insert_eq.
    + intros Hres. apply updateStatus_status in Hres as [-> _].
      rewrite updateStatus_store. simpl. rewrite Hen. simpl. by split.
Qed.

(** A run on a live resource that already has its finalizer. *)
Definition effective (o : OidcClient) (name ns : string) : OidcClient :=
  let o := with_client_id o name ns in
  if BoolPtrTrue (Enabled (oc_Spec o)) then with_default_style o else o.

Lemma effective_fields o name ns :
  let e := effective o name ns in
  oc_Name e = oc_Name o ∧ oc_Namespace e = oc_Namespace o ∧
  oc_Status e = oc_Status (with_client_id o name ns) ∧ Public (oc_Spec e) = Public (oc_Spec o).
Proof.
  unfold effective, with_default_style, with_client_id. repeat case_match; done.
Qed.

Lemma hash_secrets_length ns refs acc hs :
  hash_secrets ns refs acc = Hashes hs → length hs = length acc + length refs.
Proof.
  revert acc. induction refs as [|ref refs IH]; intros acc; simpl; [intros [= <-]; lia|].
  destruct (api_secret a _); [|done|done]. destruct (_ !! _); [|done].
  destruct (ocs_Hashed ref); [|destruct (bcrypt_hash _); [|done]]; intros H%IH;
    rewrite H, length_app; simpl; lia.
Qed.

(** Such a run ends in [UpdateStorageAndStatus], or in an API error without effect. *)
Lemma Reconcile_live o name ns st :
  api_get a = Found o → oc_Deleting o = false → finalizerName ∈ oc_Finalizers o →
  (∃ secrets err, Reconcile name ns st = UpdateStorageAndStatus (effective o name ns) secrets err st ∧
     (err = None → BoolPtrTrue (Enabled (oc_Spec o)) = true → Public (oc_Spec o) = true ∨ secrets ≠ [])) ∨
  ∃ e, Reconcile name ns st = nothing (ReconcileErr e) st.
Proof.
  intros Hget Hdel Hfin. unfold Reconcile, effective. rewrite Hget.
  assert (Hw : ∀ {A} (f : OidcClient → A), (∀ x st, f (set_status st x) = f x) →
     f (with_client_id o name ns) = f o).
  { intros A f Hf. unfold with_client_id. by case_match. }
  rewrite (Hw _ oc_Deleting), Hdel by done. rewrite (Hw _ oc_Finalizers) by done.
  rewrite bool_decide_false by tauto.
  rewrite (Hw _ (λ x, Enabled (oc_Spec x))) by done.
  destruct (BoolPtrTrue (Enabled (oc_Spec o))) eqn:Hen; simpl; [|left; exists [], None; by split].
  set (o1 := with_default_style (with_client_id o name ns)).
  assert (Public (oc_Spec o1) = Public (oc_Spec o) ∧ Secrets (oc_Spec o1) = Secrets (oc_Spec o)) as [Hp Hs].
  { unfold o1, with_default_style, with_client_id. repeat case_match; done. }
  rewrite Hp, Hs. destruct (Public (oc_Spec o)) eqn:Hpub.
  - destruct (Secrets (oc_Spec o)); left; [exists [], (Some "'secrets' set while public is enabled")|exists [], None];
      (split; [done|]); auto.
  - set (missing := "when not public, one of 'secrets' must be defined with at least one item").
    destruct (Secrets (oc_Spec o)) as [[|ref refs]|];
      [left; exists [], (Some missing); by split| |left; exists [], (Some missing); by split].
    destruct (hash_secrets ns (ref :: refs) []) as [hs|e|e] eqn:Hh; [left|left|right; by eexists].
    + exists hs, None. split; [done|]. intros _ _. right. apply hash_secrets_length in Hh.
      intros ->. simpl in Hh. lia.
    + exists [], (Some e). by split.
Qed.

(** After a successful run on a live OidcClient the phase of the resource is READY exactly
    when the store holds, under its client id, the client of this very resource: a resource in
    error, disabled, or whose id belongs to another resource has no client of its own. *)
Theorem ready_iff_registered o name ns st :
  api_get a = Found o → oc_Deleting o = false → finalizerName ∈ oc_Finalizers o →
  oc_Name o = name → oc_Namespace o = ns →
  let res := Reconcile name ns st in
  let o' := with_client_id o name ns in
  out_result res = Done →
  ost_Phase (default (oc_Status o') (out_status res)) = OidcClientPhaseReady ↔
  ∃ c, Clients (out_store res) !! ost_ClientId (oc_Status o') = Some c ∧ owned ns name c.
Proof.
  intros Hget Hdel Hfin Hn Hns res o' Hres. unfold res in *. subst name ns.
  destruct (effective_fields o (oc_Name o) (oc_Namespace o)) as (E1 & E2 & E3 & _).
  destruct (Reconcile_live o (oc_Name o) (oc_Namespace o) st Hget Hdel Hfin)
    as [(secrets & err & Heq & _)|(e & Heq)]; rewrite Heq in *; [|done].
  pose proof (UpdateStorageAndStatus_ready _ _ _ _ Hres) as H.
  rewrite E1, E2, E3 in H. exact H.
Qed.

(** C19. No run ever registers a confidential client without a secret: if every client of the
    store is public or has a hashed secret before the run, so it is afterwards, whatever the
    resource says and whatever the API answers. *)
Theorem clients_stay_secured name ns st :
  map_Forall (λ _, secured) (Clients st) →
  map_Forall (λ _, secured) (Clients (out_store (Reconcile name ns st))).
Proof.
  intros HS.
  assert (Hdel : ∀ id, map_Forall (λ _, secured) (Clients (DeleteClient id st))).
  { intros id i c. simpl. rewrite lookup_delete_Some. intros [_ Hc]. by eapply HS. }
  destruct (api_get a) as [o| |e] eqn:Hget; [|by unfold Reconcile; rewrite Hget..].
  destruct (oc_Deleting o) eqn:Hd.
  { unfold Reconcile. rewrite Hget.
    assert (oc_Deleting (with_client_id o name ns) = true) as ->.
    { unfold with_client_id. by case_match. }
    unfold patch. destruct (str_eqb _ _), (api_patch a _); simpl; auto; apply (Hdel (ost_ClientId _)). }
  destruct (decide (finalizerName ∈ oc_Finalizers o)) as [Hf|Hf]; cycle 1.
  { unfold Reconcile. rewrite Hget.
    assert (oc_Deleting (with_client_id o name ns) = false ∧
            oc_Finalizers (with_client_id o name ns) = oc_Finalizers o) as [-> ->].
    { unfold with_client_id. by case_match. }
    rewrite bool_decide_true by done. unfold patch. by case_match. }
  destruct (Reconcile_live o name ns st Hget Hd Hf) as [(secrets & err & -> & Hsec)|(e & ->)]; [|done].
  unfold UpdateStorageAndStatus. destruct err as [e|]; [rewrite updateStatus_store; auto|].
  destruct (effective_fields o name ns) as (_ & _ & _ & Hpub).
  assert (Enabled (oc_Spec (effective o name ns)) = Enabled (oc_Spec o)) as Hen.
  { unfold effective, with_default_style, with_client_id. repeat case_match; done. }
  rewrite Hen. destruct (BoolPtrTrue (Enabled (oc_Spec o))) eqn:E; [|rewrite updateStatus_store; auto].
  destruct (SetClient _ st) as [[e|] st'] eqn:Hset; apply SetClient_spec in Hset;
    rewrite updateStatus_store; [by destruct Hset as [-> _]|].
  rewrite Hset. intros i c. rewrite lookup_insert_Some. intros [[_ <-]|[_ Hc]]; [|by eapply HS].
  destruct (Hsec eq_refl eq_refl) as [Hp|Hp]; [left|right; exact Hp].
  unfold IsPublic, OidcClient.spec. simpl. by rewrite Hpub.
Qed.

(** Disabling an OidcClient removes whatever is registered under its client id, even the
    ready client of another resource that holds this id. *)
Theorem disabled_evicts_any o name ns st :
  api_get a = Found o → oc_Deleting o = false → finalizerName ∈ oc_Finalizers o →
  Enabled (oc_Spec o) = Some false →
  Clients (out_store (Reconcile name ns st)) !! ost_ClientId (oc_Status (with_client_id o name ns)) = None.
Proof.
  intros Hget Hdel Hfin Hen. destruct (effective_fields o name ns) as (_ & _ & E3 & _).
  assert (Enabled (oc_Spec (effective o name ns)) = Some false) as Hen'.
  { unfold effective, with_default_style, with_client_id. repeat case_match; done. }
  unfold Reconcile. rewrite Hget.
  assert (oc_Deleting (with_client_id o name ns) = false ∧
          oc_Finalizers (with_client_id o name ns) = oc_Finalizers o ∧
          Enabled (oc_Spec (with_client_id o name ns)) = Some false) as (-> & -> & ->).
  { unfold with_client_id. by case_match. }
  rewrite bool_decide_false by tauto. simpl. unfold UpdateStorageAndStatus.
  assert (Enabled (oc_Spec (with_client_id o name ns)) = Some false) as ->.
  { unfold with_client_id. by case_match. }
  simpl. rewrite updateStatus_store. simpl. apply lookup_delete_eq.
Qed.
End reconcile.

(** ** Default client ids *)

(** The default client ids do not identify the resource: two resources of different
    namespaces without an explicit id can get the same one. *)
Theorem default_client_id_collision r sp :
  ClientId sp = "" → ClientPrivilegedNamespace r = "kubauth-system" →
  buildClientId r sp "web-app" "team" = buildClientId r sp "app" "team-web".
Proof. intros H1 H2. unfold buildClientId. by rewrite H1, H2. Qed.

(** ** Concrete runs *)

Definition demo_reconciler : OidcClientReconciler :=
  {| ClientPrivilegedNamespace := "kubauth-system"; DefaultStyle := "light"; statusErrorCount := 0 |}.
Definition with_finalizer (o : OidcClient) : OidcClient := set_finalizers [finalizerName] o.
Definition demo_api (o : OidcClient) : api :=
  {| api_get := Found o; api_secret := λ _, NotFound; api_patch := λ _, None;
     api_status_update := λ _, None |}.
Definition web : OidcClient := with_finalizer (demo_object "apps" "web" "web").
Definition off_web : OidcClient :=
  let o := with_finalizer (demo_object "other" "w" "web") in
  set_spec {| Enabled := Some false; Secrets := None; RedirectURIs := []; GrantTypes := [];
    ResponseTypes := []; Scopes := []; Public := true; Audiences := []; ForceOpenIdScope := None;
    Style := ""; PostLogoutURL := ""; DisplayName := ""; Description := ""; EntryURL := "";
    AccessTokenLifespan := 0; RefreshTokenLifespan := 0; IDTokenLifespan := 0; ClientId := "web";
    UpstreamProviders := [] |} o.

Definition after_web : @MemoryStore string unit unit unit :=
  out_store (Reconcile demo_reconciler (demo_api web) (λ _, None) "web" "apps" demo_store).

Lemma ready_iff_registered_witness : ∃ c, Clients after_web !! "web" = Some c ∧ owned "apps" "web" c.
Proof.
  apply (ready_iff_registered demo_reconciler (demo_api web) (λ _, None) web "web" "apps" demo_store);
    [reflexivity|reflexivity|apply list_elem_of_singleton; reflexivity|reflexivity|reflexivity
    |reflexivity|reflexivity].
Defined.

Lemma clients_stay_secured_witness : map_Forall (λ _, secured) (Clients after_web).
Proof.
  apply (clients_stay_secured demo_reconciler (demo_api web) (λ _, None) "web" "apps" demo_store).
  apply map_Forall_empty.
Defined.

Lemma disabled_evicts_any_witness :
  Clients after_web !! "web" ≠ None ∧
  Clients (out_store (Reconcile demo_reconciler (demo_api off_web) (λ _, None) "w" "other" after_web))
    !! "web" = None.
Proof.
  split; [discriminate|].
  apply (disabled_evicts_any demo_reconciler (demo_api off_web) (λ _, None) off_web);
    [reflexivity|reflexivity|apply list_elem_of_singleton; reflexivity|reflexivity].
Defined.

Lemma default_client_id_collision_witness :
  buildClientId demo_reconciler (demo_spec "") "web-app" "team" = "team-web-app" ∧
  buildClientId demo_reconciler (demo_spec "") "app" "team-web" = "team-web-app".
Proof.
  split; [reflexivity|].
  rewrite <- (default_client_id_collision demo_reconciler (demo_spec "") eq_refl eq_refl). reflexivity.
Defined.
