(* ===== verification/Upstreams.v ===== *)
(** * cmd/oidc/upstreams: upstream identity providers

    The UpstreamProvider resource, the in-memory upstream built from it, its OAuth2 settings,
    and the claim transformations (renaming and clean-up). The go-oidc library is an argument:
    discovery, token verification and user info. *)

From S2P Require Import Prelude Values Misc HttpClient.

(** ** upstreamprovider_type.go *)

Record LocalConfigMapSpec := { cms_Name : string; cms_Key : string }.
Record LocalSecretSpec := { ls_Name : string; ls_Key : string }.
Record CertificateAuthoritySource := {
  ca_ConfigMap : option LocalConfigMapSpec; ca_Secret : option LocalSecretSpec }.

Record UpstreamProviderConfig := {
  AuthURL : string;
  TokenURL : string;
  DeviceAuthURL : string;
  UserInfoURL : string;
  JWKSURL : string;
  Algorithms : list string;
  IntrospectionURL : string;
  EndSessionURL : string;
}.

Definition UpstreamProviderTypeOidc : string := "oidc".
Definition UpstreamProviderTypeInternal : string := "internal".
Definition RenamingOperationRename : string := "rename".
Definition RenamingOperationCopy : string := "copy".

Record ClaimRenamingSpec := { OldName : string; NewName : string; Operation : string }.

Record UpstreamProviderSpec := {
  us_Enabled : option bool;
  us_Type : string;
  us_DisplayName : string;
  us_ClientSpecific : bool;
  us_IssuerURL : string;
  us_CertificateAuthority : option CertificateAuthoritySource;
  us_InsecureSkipVerify : bool;
  us_RedirectURL : string;
  us_ClientId : string;
  us_ClientSecret : LocalSecretSpec;
  us_Scopes : list string;
  us_UseUserInfo : bool;
  us_ClaimRenamings : list ClaimRenamingSpec;
  us_ClaimRemovals : list string;
  us_LocalEnrichment : option bool;
  us_ExplicitConfig : option UpstreamProviderConfig;
  us_DumpExchanges : bool;
}.

Definition UpstreamProviderPhaseReady : string := "READY".
Definition UpstreamProviderPhaseError : string := "ERROR".
Definition UpstreamProviderPhaseOff : string := "OFF".

Record UpstreamProviderStatus := {
  ups_Phase : string; ups_Message : string; ups_EffectiveConfig : option UpstreamProviderConfig }.

Record UpstreamProvider := {
  upp_Name : string;
  upp_Deleting : bool;
  upp_Finalizers : list string;
  upp_Spec : UpstreamProviderSpec;
  upp_Status : UpstreamProviderStatus;
}.

(** ** upstream.go *)

(** A nil claim set is [None]. *)
Abbreviation ClaimSet := (option claims).

Definition oidcIDTokenRegisteredClaims : gset string :=
  list_to_set ["iss"; "aud"; "exp"; "iat"; "auth_time"; "nonce"; "acr"; "amr"; "azp"; "at_hash"; "c_hash"].

Record extraConfig := {
  ec_IntrospectionURL : string;
  ec_EndSessionURL : string;
  ec_JwksURL : string;
  ec_Algorithms : list string;
  ec_CodeChallengeMethods : list string;
}.
Definition no_extra : extraConfig :=
  {| ec_IntrospectionURL := ""; ec_EndSessionURL := ""; ec_JwksURL := ""; ec_Algorithms := [];
     ec_CodeChallengeMethods := [] |}.

(** What the code reads of an [*oidc.Provider]. *)
Record provider := {
  p_AuthURL : string; p_TokenURL : string; p_DeviceAuthURL : string; p_UserInfoEndpoint : string }.

(** go-oidc's [ProviderConfig]. *)
Record ProviderConfig := {
  pc_IssuerURL : string; pc_AuthURL : string; pc_TokenURL : string; pc_DeviceAuthURL : string;
  pc_UserInfoURL : string; pc_JWKSURL : string; pc_Algorithms : list string }.

Record upstream := {
  up_name : string;
  up_spec : UpstreamProviderSpec;
  up_clientSecret : string;
  up_provider : option provider;
  up_httpClient : option Config;       (** the configuration its HTTP client was built from *)
  up_extraConfig : extraConfig;
}.

Definition cloneClaimSet (c : ClaimSet) : ClaimSet :=
  match c with None => None | Some m => Some m end.

Definition ToOIDCProviderConfig (issuerURL : string) (d : option UpstreamProviderConfig)
    : option ProviderConfig :=
  match d with
  | None => None
  | Some d => Some {| pc_IssuerURL := issuerURL; pc_AuthURL := AuthURL d; pc_TokenURL := TokenURL d;
                      pc_DeviceAuthURL := DeviceAuthURL d; pc_UserInfoURL := UserInfoURL d;
                      pc_JWKSURL := JWKSURL d; pc_Algorithms := Algorithms d |}
  end.

(** The spec of an upstream without any field but its type and label. *)
Definition internal_spec (label : string) : UpstreamProviderSpec :=
  {| us_Enabled := None; us_Type := UpstreamProviderTypeInternal; us_DisplayName := label;
     us_ClientSpecific := false; us_IssuerURL := ""; us_CertificateAuthority := None;
     us_InsecureSkipVerify := false; us_RedirectURL := ""; us_ClientId := "";
     us_ClientSecret := {| ls_Name := ""; ls_Key := "" |}; us_Scopes := []; us_UseUserInfo := false;
     us_ClaimRenamings := []; us_ClaimRemovals := []; us_LocalEnrichment := None;
     us_ExplicitConfig := None; us_DumpExchanges := false |}.

Definition NewInternalUpstream (defaultLoginLabel : string) : upstream :=
  {| up_name := "internal"; up_spec := internal_spec defaultLoginLabel; up_clientSecret := "";
     up_provider := None; up_httpClient := None; up_extraConfig := no_extra |}.

Section library.
(** [httpclient.New]'s error, and go-oidc: discovery, the raw discovery document, the provider
    of an explicit configuration, token verification and user info. *)
Context (http_new : Config → option string).
Context (discover : Config → string → result string provider).
Context (provider_claims : provider → result string extraConfig).
Context (config_provider : ProviderConfig → provider).
Context (verify : provider → string → string → result string claims).
Context (user_info : provider → string → result string claims).

Definition http_config (up : UpstreamProvider) (caPEM : list Ascii.ascii) : Config :=
  let sp := upp_Spec up in
  {| BaseURL := us_IssuerURL sp; RootCaPaths := []; RootCaDatas := [];
     RootCaBytes := match caPEM with [] => [] | _ => [caPEM] end;
     InsecureSkipVerify := us_InsecureSkipVerify sp; DumpExchanges := us_DumpExchanges sp;
     HttpAuth_ := None; Label := "upstreamProvider/" +:+ upp_Name up |}.

Definition NewUpstream (up : UpstreamProvider) (clientSecret : string) (caPEM : list Ascii.ascii)
    : result string upstream :=
  let sp := upp_Spec up in
  if str_eqb (us_Type sp) UpstreamProviderTypeInternal then
    Ok {| up_name := upp_Name up; up_spec := sp; up_clientSecret := ""; up_provider := None;
          up_httpClient := None; up_extraConfig := no_extra |}
  else
    let cfg := http_config up caPEM in
    match http_new cfg with
    | Some e => Err ("error creating http client: " +:+ e)
    | None =>
        match us_ExplicitConfig sp with
        | None =>
            match discover cfg (us_IssuerURL sp) with
            | Err e => Err ("error on upstream oidc provider: " +:+ e)
            | Ok p =>
                match provider_claims p with
                | Err e => Err ("error fetching complementary endpoints: " +:+ e)
                | Ok extra =>
                    Ok {| up_name := upp_Name up; up_spec := sp; up_clientSecret := clientSecret;
                          up_provider := Some p; up_httpClient := Some cfg; up_extraConfig := extra |}
                end
            end
        | Some ec =>
            Ok {| up_name := upp_Name up; up_spec := sp; up_clientSecret := clientSecret;
                  up_provider := config_provider <$> ToOIDCProviderConfig (us_IssuerURL sp) (Some ec);
                  up_httpClient := Some cfg;
                  up_extraConfig :=
                    {| ec_IntrospectionURL := IntrospectionURL ec; ec_EndSessionURL := EndSessionURL ec;
                       ec_JwksURL := JWKSURL ec; ec_Algorithms := Algorithms ec;
                       ec_CodeChallengeMethods := [] |} |}
        end
    end.

Definition GetName (u : upstream) : string := up_name u.
Definition GetDisplayName (u : upstream) : string :=
  if str_empty (us_DisplayName (up_spec u)) then up_name u else us_DisplayName (up_spec u).
Definition GetProviderType (u : upstream) : string := us_Type (up_spec u).
Definition IsClientSpecific (u : upstream) : bool := us_ClientSpecific (up_spec u).
Definition LocalEnrichment (u : upstream) : bool := BoolPtrTrue (us_LocalEnrichment (up_spec u)).
Definition UseUserInfo (u : upstream) : bool := us_UseUserInfo (up_spec u).

Definition GetEffectiveConfig (u : upstream) : option UpstreamProviderConfig :=
  p ← up_provider u;
  Some {| AuthURL := p_AuthURL p; TokenURL := p_TokenURL p; DeviceAuthURL := p_DeviceAuthURL p;
          UserInfoURL := p_UserInfoEndpoint p; JWKSURL := ec_JwksURL (up_extraConfig u);
          Algorithms := ec_Algorithms (up_extraConfig u);
          IntrospectionURL := ec_IntrospectionURL (up_extraConfig u);
          EndSessionURL := ec_EndSessionURL (up_extraConfig u) |}.

(** [CleanupClaims]: the iteration over the set of registered names is a difference. *)
Definition CleanupClaims (u : upstream) (c : ClaimSet) : ClaimSet :=
  match cloneClaimSet c with
  | None => None
  | Some out =>
      let out := filter (λ kv, kv.1 ∉ oidcIDTokenRegisteredClaims) out in
      Some (foldl (λ (out : claims) k, if str_empty k then out else delete k out)
              out (us_ClaimRemovals (up_spec u)))
  end.

Definition rename_step (out : claims) (rule : ClaimRenamingSpec) : claims :=
  if str_empty (OldName rule) || str_empty (NewName rule) then out
  else match out !! OldName rule with
       | None => out
       | Some val =>
           if str_eqb (Operation rule) RenamingOperationCopy then <[NewName rule := val]> out
           else <[NewName rule := val]> (delete (OldName rule) out)
       end.

Definition PerformRenaming (u : upstream) (c : ClaimSet) : ClaimSet :=
  match c with
  | None => c
  | Some m => match us_ClaimRenamings (up_spec u) with
              | [] => c
              | rules => Some (foldl rename_step m rules)
              end
  end.

(** ** upstream_oauth.go *)

Record OAuth2AuthCodeSettings_ := {
  st_ClientID : string;
  st_ClientSecret : string;
  st_RedirectURL : string;
  st_AuthURL : string;
  st_TokenURL : string;
  st_SupportsPKCES256 : bool;
  st_Scopes : list string;
}.

Definition supportsPKCES256 (u : upstream) : bool :=
  bool_decide ("S256" ∈ ec_CodeChallengeMethods (up_extraConfig u)).

Definition OAuth2AuthCodeSettings (u : upstream) : option OAuth2AuthCodeSettings_ :=
  p ← up_provider u;
  Some {| st_ClientID := us_ClientId (up_spec u); st_ClientSecret := up_clientSecret u;
          st_RedirectURL := us_RedirectURL (up_spec u); st_AuthURL := p_AuthURL p;
          st_TokenURL := p_TokenURL p; st_SupportsPKCES256 := supportsPKCES256 u;
          st_Scopes := us_Scopes (up_spec u) |}.

Definition ParseAndVerifyIDToken (u : upstream) (rawIDToken : string) : result string claims :=
  match up_provider u with
  | None => Err "upstream has no OIDC provider"
  | Some p => verify p (us_ClientId (up_spec u)) rawIDToken
  end.

(** The token source is the access token it yields. *)
Definition FetchUserInfoClaims (u : upstream) (token : string) : result string ClaimSet :=
  match up_provider u with
  | None => Ok None
  | Some p =>
      if str_empty (p_UserInfoEndpoint p) then Ok None
      else try! c <- user_info p token; Ok (Some c)
  end.

(** ** Properties of an upstream *)

(** The internal upstream, however it was made, never takes part in an OAuth2 flow. *)
Lemma internal_no_oauth up secret ca u :
  us_Type (upp_Spec up) = UpstreamProviderTypeInternal → NewUpstream up secret ca = Ok u →
  OAuth2AuthCodeSettings u = None ∧ ∀ t, ParseAndVerifyIDToken u t = Err "upstream has no OIDC provider".
Proof. intros Ht. unfold NewUpstream. rewrite Ht. simpl. by intros [= <-]. Qed.

(** An upstream built from a resource keeps the resource's name, client id, redirect URL
    and scopes, verifies ID tokens for its own client id only, and trusts the configured CA
    bundle unless verification is explicitly disabled. *)
Theorem NewUpstream_spec up secret ca u :
  NewUpstream up secret ca = Ok u →
  GetName u = upp_Name up ∧ up_spec u = upp_Spec up ∧
  (us_Type (upp_Spec up) ≠ UpstreamProviderTypeInternal →
   ∃ p cfg st, up_provider u = Some p ∧ up_httpClient u = Some cfg ∧ http_new cfg = None ∧
     InsecureSkipVerify cfg = us_InsecureSkipVerify (upp_Spec up) ∧
     (ca ≠ [] → RootCaBytes cfg = [ca]) ∧
     OAuth2AuthCodeSettings u = Some st ∧ st_ClientID st = us_ClientId (upp_Spec up) ∧
     st_ClientSecret st = secret ∧ st_RedirectURL st = us_RedirectURL (upp_Spec up) ∧
     (∀ raw, ParseAndVerifyIDToken u raw = verify p (us_ClientId (upp_Spec up)) raw)).
Proof.
  unfold NewUpstream. destruct (str_eqb _ _) eqn:Ht.
  { apply str_eqb_true in Ht. intros [= <-]. by split_and!. }
  destruct (http_new (http_config up ca)) as [e|] eqn:Hh; [done|].
  assert (Hca : ca ≠ [] → RootCaBytes (http_config up ca) = [ca]) by (by destruct ca).
  destruct (us_ExplicitConfig (upp_Spec up)) as [ec|].
  - intros [= <-]. split_and!; [done|done|]. intros _. do 3 eexists. split_and!; try done.
  - destruct (discover _ _) as [p|e]; [|done]. destruct (provider_claims p) as [extra|e]; [|done].
    intros [= <-]. split_and!; [done|done|]. intros _. do 3 eexists. split_and!; try done.
Qed.

(** [CleanupClaims] removes exactly the registered ID-token claims and the configured
    removals: the subject is kept unless it is listed, and no claim is added or changed. *)
Theorem CleanupClaims_spec u (c : claims) :
  ∃ out, CleanupClaims u (Some c) = Some out ∧ ∀ k,
  out !! k = if decide (k ∈ oidcIDTokenRegisteredClaims ∨ (k ≠ "" ∧ k ∈ us_ClaimRemovals (up_spec u)))
             then None else c !! k.
Proof.
  eexists. split; [done|]. generalize (us_ClaimRemovals (up_spec u)) as ks. intros ks k.
  assert (H : ∀ m : claims, foldl (λ (out : claims) k, if str_empty k then out else delete k out) m ks !! k
    = if decide (k ≠ "" ∧ k ∈ ks) then None else m !! k).
  { induction ks as [|k' ks IH]; intros m; simpl.
    - by rewrite decide_False by set_solver.
    - rewrite IH. unfold str_empty. case_bool_decide as Hk'.
      + subst. repeat case_decide; set_solver.
      + destruct (decide (k' = k)) as [->|Hne].
        * rewrite lookup_delete_eq. repeat case_decide; set_solver.
        * rewrite lookup_delete_ne by done. repeat case_decide; set_solver. }
  rewrite H. destruct (decide (k ∈ oidcIDTokenRegisteredClaims)) as [Hr|Hr].
  - rewrite (decide_True (P := _ ∨ _)) by auto.
    case_decide; [done|]. apply map_lookup_filter_None. right. simpl. tauto.
  - assert (filter (λ kv : string * value, kv.1 ∉ oidcIDTokenRegisteredClaims) c !! k = c !! k) as ->.
    { destruct (c !! k) as [v|] eqn:E.
      - by apply map_lookup_filter_Some.
      - apply map_lookup_filter_None. by left. }
    repeat case_decide; tauto.
Qed.

(** The keys a list of rules may touch. *)
Definition touched (rules : list ClaimRenamingSpec) : list string :=
  (OldName <$> rules) ++ (NewName <$> rules).

Lemma rename_step_spec m rule k v :
  rename_step m rule !! k = Some v →
  m !! k = Some v ∨ (k = NewName rule ∧ m !! OldName rule = Some v).
Proof.
  unfold rename_step. destruct (_ || _); [by left|]. destruct (m !! OldName rule) as [val|] eqn:E; [|by left].
  destruct (str_eqb _ _); rewrite lookup_insert_Some.
  - intros [[<- <-]|[_ H]]; auto.
  - intros [[<- <-]|[_ H]]; auto. apply lookup_delete_Some in H as [_ H]. auto.
Qed.

Lemma rename_step_other m rule k :
  k ≠ OldName rule → k ≠ NewName rule → rename_step m rule !! k = m !! k.
Proof.
  intros H1 H2. unfold rename_step. destruct (_ || _); [done|]. destruct (m !! OldName rule); [|done].
  destruct (str_eqb _ _); rewrite lookup_insert_ne by done; [done|]. by rewrite lookup_delete_ne.
Qed.

(** Renaming invents nothing: every claim value after [PerformRenaming] is one the upstream
    sent, and a claim no rule names is unchanged. With a single rename rule the value moves to
    its new name, overriding what was there. *)
Theorem PerformRenaming_spec u (c : claims) :
  ∃ out, PerformRenaming u (Some c) = Some out ∧
  (∀ k v, out !! k = Some v → ∃ k', c !! k' = Some v) ∧
  (∀ k, k ∉ touched (us_ClaimRenamings (up_spec u)) → out !! k = c !! k) ∧
  (∀ rule v, us_ClaimRenamings (up_spec u) = [rule] → OldName rule ≠ "" → NewName rule ≠ "" →
     c !! OldName rule = Some v →
     out !! NewName rule = Some v ∧
     (Operation rule ≠ RenamingOperationCopy → OldName rule ≠ NewName rule → out !! OldName rule = None)).
Proof.
  set (rules := us_ClaimRenamings (up_spec u)).
  exists (foldl rename_step c rules). split.
  { unfold PerformRenaming. fold rules. by destruct rules. }
  split_and!.
  - generalize c. induction rules as [|rule rules IH]; intros m k v; simpl; [eauto|].
    intros (k' & Hk')%IH. apply rename_step_spec in Hk' as [?|[_ ?]]; eauto.
  - generalize c. induction rules as [|rule rules IH]; intros m k Hk; simpl; [done|].
    unfold touched in Hk. rewrite !fmap_cons in Hk.
    rewrite IH by (unfold touched; set_solver). apply rename_step_other; set_solver.
  - intros rule v -> H1 H2 Hv. simpl. unfold rename_step.
    rewrite (proj2 (str_empty_false _) H1), (proj2 (str_empty_false _) H2), Hv. simpl.
    destruct (str_eqb (Operation rule) RenamingOperationCopy) eqn:E; rewrite lookup_insert_eq; (split; [done|]).
    + apply str_eqb_true in E. done.
    + intros _ Hne. rewrite lookup_insert_ne by done. apply lookup_delete_eq.
Qed.
End library.

Definition demo_oidc_spec : UpstreamProviderSpec :=
  {| us_Enabled := None; us_Type := UpstreamProviderTypeOidc; us_DisplayName := "Corp";
     us_ClientSpecific := false; us_IssuerURL := "https://idp.corp"; us_CertificateAuthority := None;
     us_InsecureSkipVerify := false; us_RedirectURL := "https://kubauth/upstream/callback";
     us_ClientId := "kubauth"; us_ClientSecret := {| ls_Name := ""; ls_Key := "" |};
     us_Scopes := ["openid"]; us_UseUserInfo := false; us_ClaimRenamings := [];
     us_ClaimRemovals := []; us_LocalEnrichment := None; us_ExplicitConfig := None;
     us_DumpExchanges := false |}.
Definition demo_upstream : UpstreamProvider :=
  {| upp_Name := "corp"; upp_Deleting := false; upp_Finalizers := []; upp_Spec := demo_oidc_spec;
     upp_Status := {| ups_Phase := ""; ups_Message := ""; ups_EffectiveConfig := None |} |}.
Definition demo_oidc_provider : provider :=
  {| p_AuthURL := "https://idp.corp/auth"; p_TokenURL := "https://idp.corp/token";
     p_DeviceAuthURL := ""; p_UserInfoEndpoint := "" |}.

Lemma NewUpstream_spec_witness : ∃ u,
  NewUpstream (λ _, None) (λ _ _, Ok demo_oidc_provider) (λ _, Ok no_extra)
    (λ _, demo_oidc_provider) demo_upstream "s3cret" [] = Ok u ∧ GetName u = "corp" ∧
  up_spec u = demo_oidc_spec.
Proof.
  eexists. split; [reflexivity|].
  pose proof (NewUpstream_spec (λ _, None) (λ _ _, Ok demo_oidc_provider) (λ _, Ok no_extra)
    (λ _, demo_oidc_provider) (λ _ _ _, Err "") demo_upstream "s3cret" [] _ eq_refl) as (H1 & H2 & _).
  split; [exact H1|exact H2].
Defined.
