(* ===== verification/UpstreamController.v ===== *)
(** * cmd/oidc/controllers: the UpstreamProvider reconciler

    One run of [Reconcile] on an upstream resource. As for the clients, the answers of the
    Kubernetes API are arguments, and so is [upstreams.NewUpstream] with the libraries it
    needs. *)

From S2P Require Import Prelude Misc K8s OidcClient Storage ClientController Upstreams.

(** The API calls of one run. Secrets and config maps are their data. *)
Record uapi := {
  uapi_get : get_result UpstreamProvider;
  uapi_secret : string → get_result (gmap string string);
  uapi_configmap : string → get_result (gmap string string);
  uapi_patch : UpstreamProvider → option string;
  uapi_status_update : UpstreamProvider → option string;
}.

Definition defaultUpstreamCAKey : string := "ca.crt".

Definition set_ustatus (st : UpstreamProviderStatus) (o : UpstreamProvider) : UpstreamProvider :=
  {| upp_Name := upp_Name o; upp_Deleting := upp_Deleting o; upp_Finalizers := upp_Finalizers o;
     upp_Spec := upp_Spec o; upp_Status := st |}.
Definition set_ufinalizers (fs : list string) (o : UpstreamProvider) : UpstreamProvider :=
  {| upp_Name := upp_Name o; upp_Deleting := upp_Deleting o; upp_Finalizers := fs;
     upp_Spec := upp_Spec o; upp_Status := upp_Status o |}.

Record uoutcome (S : Type) := {
  uout_result : reconcile_result;
  uout_store : S;
  uout_status : option UpstreamProviderStatus;
  uout_finalizers : option (list string);
  uout_statusErrorCount : Z;
  uout_events : list (string * string * string);
}.
Arguments uout_result {S}. Arguments uout_store {S}. Arguments uout_status {S}.
Arguments uout_finalizers {S}. Arguments uout_statusErrorCount {S}. Arguments uout_events {S}.

Record UpstreamProviderReconciler := { UpstreamNamespace : string; ustatusErrorCount : Z }.

(** The checks of the input values. *)
Definition check_spec (sp : UpstreamProviderSpec) : option string :=
  if negb (str_eqb (us_Type sp) UpstreamProviderTypeOidc)
  then Some ("upstream provider type " +:+ us_Type sp +:+ " is not supported")
  else if str_empty (us_DisplayName sp) then Some "upstream provider has no displayName"
  else if str_empty (us_IssuerURL sp) then Some "upstream provider has no issuerURL"
  else if str_empty (us_RedirectURL sp) then Some "upstream provider has no redirectURL"
  else if str_empty (us_ClientId sp) then Some "upstream provider has no clientId"
  else match us_Scopes sp with
       | [] => Some "upstream provider has no scopes"
       | _ =>
           match us_ExplicitConfig sp with
           | Some ec => if str_empty (AuthURL ec)
                        then Some "upstream provider explicitConfig has no authURL" else None
           | None => None
           end
       end.

Section reconcile.
Context {Req AReq Key : Type}.
Abbreviation store := (@MemoryStore Req AReq upstream Key).
Context (r : UpstreamProviderReconciler) (a : uapi).
(** [upstreams.NewUpstream] and the bytes of a string. *)
Context (new_upstream : UpstreamProvider → string → list Ascii.ascii → result string upstream).

Definition fetchClientSecret (namespace secretName secretKey : string) : result string string :=
  if str_empty secretName then Err "clientSecret.name is required"
  else if str_empty secretKey then Err "clientSecret.key is required"
  else match uapi_secret a secretName with
       | NotFound => Err ("client secret " +:+ quoted secretName +:+ " not found in namespace " +:+ quoted namespace)
       | GetErr e => Err e
       | Found data =>
           match data !! secretKey with
           | None => Err ("no key " +:+ quoted secretKey +:+ " in secret " +:+ quoted namespace +:+ "/" +:+ quoted secretName)
           | Some v => Ok v
           end
       end.

(** The value at a key (or the default key) of a secret or config map. *)
Definition fetch_key (kind what namespace name key : string) (got : get_result (gmap string string))
    : result string string :=
  let key := if str_empty key then defaultUpstreamCAKey else key in
  match got with
  | NotFound => Err ("certificate authority " +:+ kind +:+ " " +:+ quoted name +:+ " not found in namespace "
                     +:+ quoted namespace)
  | GetErr e => Err e
  | Found data =>
      match data !! key with
      | None => Err ("no key " +:+ quoted key +:+ " in " +:+ what +:+ " " +:+ quoted namespace +:+ "/" +:+ quoted name)
      | Some v => Ok v
      end
  end.

Definition fetchCertificateAuthority (namespace : string) (src : CertificateAuthoritySource)
    : result string string :=
  let cm := match ca_ConfigMap src with Some c => if str_empty (cms_Name c) then None else Some c
                                   | None => None end in
  let sec := match ca_Secret src with Some s => if str_empty (ls_Name s) then None else Some s
                                 | None => None end in
  match cm, sec with
  | Some _, Some _ => Err "certificateAuthority: set only one of configMap or secret"
  | None, None => Err "certificateAuthority: one of configMap or secret is required"
  | Some c, None => fetch_key "configMap" "configmap" namespace (cms_Name c) (cms_Key c) (uapi_configmap a (cms_Name c))
  | None, Some s => fetch_key "secret" "secret" namespace (ls_Name s) (ls_Key s) (uapi_secret a (ls_Name s))
  end.

(** The status of an outcome; the message of a disabled upstream is [OK]. *)
Definition new_ustatus (o : UpstreamProvider) (u : option upstream) (err : option string)
    : UpstreamProviderStatus :=
  {| ups_Phase := match err with
                  | Some _ => UpstreamProviderPhaseError
                  | None => if BoolPtrTrue (us_Enabled (upp_Spec o)) then UpstreamProviderPhaseReady
                            else UpstreamProviderPhaseOff
                  end;
     ups_Message := default "OK" err;
     ups_EffectiveConfig := u ← u; GetEffectiveConfig u |}.

Definition unothing (res : reconcile_result) (st : store) : uoutcome store :=
  {| uout_result := res; uout_store := st; uout_status := None; uout_finalizers := None;
     uout_statusErrorCount := ustatusErrorCount r; uout_events := [] |}.

Definition add_events (es : list (string * string * string)) (res : uoutcome store) : uoutcome store :=
  {| uout_result := uout_result res; uout_store := uout_store res; uout_status := uout_status res;
     uout_finalizers := uout_finalizers res; uout_statusErrorCount := uout_statusErrorCount res;
     uout_events := es ++ uout_events res |}.

(** [updateStatus] always writes the status. *)
Definition updateStatus (o : UpstreamProvider) (u : option upstream) (err : option string)
    (st : store) : uoutcome store :=
  let status := new_ustatus o u err in
  match uapi_status_update a (set_ustatus status o) with
  | None => {| uout_result := Done; uout_store := st; uout_status := Some status;
               uout_finalizers := None; uout_statusErrorCount := ustatusErrorCount r; uout_events := [] |}
  | Some e =>
      if decide (ustatusErrorCount r = 0%Z) then
        {| uout_result := RequeueAfter 200; uout_store := st; uout_status := None;
           uout_finalizers := None; uout_statusErrorCount := ustatusErrorCount r + 1; uout_events := [] |}
      else unothing (ReconcileErr e) st
  end.

Definition upatch (o : UpstreamProvider) (fs : list string) (st : store) : uoutcome store :=
  match uapi_patch a (set_ufinalizers fs o) with
  | Some e => unothing (ReconcileErr e) st
  | None => {| uout_result := Done; uout_store := st; uout_status := None; uout_finalizers := Some fs;
               uout_statusErrorCount := ustatusErrorCount r; uout_events := [] |}
  end.

(** A configuration error: an event, and the status. *)
Definition configuration_error (o : UpstreamProvider) (e : string) (st : store) : uoutcome store :=
  add_events [("Warning", "Configuration", e)] (updateStatus o None (Some e) st).

(** The part of [Reconcile] after the input checks. *)
Definition build (o : UpstreamProvider) (ns : string) (st : store) : uoutcome store :=
  let sp := upp_Spec o in
  match (if str_empty (ls_Name (us_ClientSecret sp)) then Ok ""
         else fetchClientSecret ns (ls_Name (us_ClientSecret sp)) (ls_Key (us_ClientSecret sp))) with
  | Err e => configuration_error o e st
  | Ok clientSecret =>
      match match us_CertificateAuthority sp with
            | None => Ok ""
            | Some src => fetchCertificateAuthority ns src
            end with
      | Err e => configuration_error o e st
      | Ok caPEM =>
          match new_upstream o clientSecret (String.list_ascii_of_string caPEM) with
          | Err e =>
              let res := updateStatus o None (Some e) st in
              match uout_result res with
              | ReconcileErr _ => res
              | _ => {| uout_result := ReconcileErr e; uout_store := uout_store res;
                        uout_status := uout_status res; uout_finalizers := uout_finalizers res;
                        uout_statusErrorCount := uout_statusErrorCount res;
                        uout_events := [("Warning", "CreationFailure", e)] |}
              end
          | Ok u => add_events [("Normal", "Created", "Created upstream OIDC server")]
                      (updateStatus o (Some u) None (SetUpstream GetName u st))
          end
      end
  end.

Definition Reconcile (name ns : string) (st : store) : uoutcome store :=
  if negb (str_eqb ns (UpstreamNamespace r)) then unothing Done st
  else
  match uapi_get a with
  | NotFound => unothing Done st
  | GetErr e => unothing (ReconcileErr e) st
  | Found o =>
      if upp_Deleting o then
        let st' := if str_eqb (ups_Phase (upp_Status o)) UpstreamProviderPhaseReady
                   then DeleteUpstream (upp_Name o) st else st in
        upatch o (filter (.≠ finalizerName) (upp_Finalizers o)) st'
      else if bool_decide (finalizerName ∉ upp_Finalizers o) then
        upatch o (upp_Finalizers o ++ [finalizerName]) st
      else if negb (BoolPtrTrue (us_Enabled (upp_Spec o))) then
        add_events [("Normal", "Off", "Disabled")] (updateStatus o None None (DeleteUpstream (upp_Name o) st))
      else if str_eqb (us_Type (upp_Spec o)) UpstreamProviderTypeInternal then
        match new_upstream o "" [] with
        | Ok u => add_events [("Normal", "Created", "Created internal upstream")]
                    (updateStatus o (Some u) None (SetUpstream GetName u st))
        | Err e => unothing (ReconcileErr e) st      (** not reached for an internal upstream *)
        end
      else match check_spec (upp_Spec o) with
           | Some e => configuration_error o e st
           | None => build o ns st
           end
  end.

(** ** Properties *)

Lemma ustatus_store o u err st : uout_store (updateStatus o u err st) = st.
Proof. unfold updateStatus. repeat case_match; done. Qed.

(** [new_upstream] names the upstream after its resource ([NewUpstream] does). *)
Hypothesis new_upstream_name : ∀ o s ca u, new_upstream o s ca = Ok u → up_name u = upp_Name o.

(** [build] ends in error without touching the store, or registers the upstream. *)
Lemma build_cases o ns st :
  (∃ e, build o ns st = configuration_error o e st) ∨
  (∃ e, uout_result (build o ns st) = ReconcileErr e ∧ uout_store (build o ns st) = st) ∨
  (∃ u s ca, new_upstream o s ca = Ok u ∧
     build o ns st = add_events [("Normal", "Created", "Created upstream OIDC server")]
                       (updateStatus o (Some u) None (SetUpstream GetName u st))).
Proof.
  unfold build.
  destruct (if str_empty (ls_Name _) then _ else _) as [secret|e]; [|left; eauto].
  destruct (match us_CertificateAuthority _ with None => _ | Some _ => _ end) as [ca|e]; [|left; eauto].
  destruct (new_upstream o secret _) as [u|e] eqn:Hu; [right; right; eauto|right; left].
  destruct (uout_result (updateStatus o None (Some e) st)) eqn:Hr; simpl;
    rewrite ?ustatus_store; eauto.
Qed.

(** A run, by its effect on the upstreams of the store. *)
Lemma updateStatus_phase o u err st p :
  ups_Phase <$> uout_status (updateStatus o u err st) = Some p → p = ups_Phase (new_ustatus o u err).
Proof.
  unfold updateStatus. destruct (uapi_status_update a _); [case_decide|]; simpl; congruence.
Qed.

(** A run only ever touches the upstream of its own resource, and when it ends with the
    phase READY the store holds an upstream of this name. *)
Theorem upstream_ready_registered o name ns st :
  uapi_get a = Found o → upp_Name o = name →
  let res := Reconcile name ns st in
  (∀ n, n ≠ name → Upstreams (uout_store res) !! n = Upstreams st !! n) ∧
  (uout_result res = Done → ups_Phase <$> uout_status res = Some UpstreamProviderPhaseReady →
   ∃ u, Upstreams (uout_store res) !! name = Some u ∧ up_name u = name).
Proof.
  intros Hget <-. unfold Reconcile. rewrite Hget.
  assert (Hset : ∀ s ca u es, new_upstream o s ca = Ok u →
    let res := add_events es (updateStatus o (Some u) None (SetUpstream GetName u st)) in
    (∀ n, n ≠ upp_Name o → Upstreams (uout_store res) !! n = Upstreams st !! n) ∧
    ∃ u, Upstreams (uout_store res) !! upp_Name o = Some u ∧ up_name u = upp_Name o).
  { intros s ca u es Hu%new_upstream_name. cbn zeta. simpl. rewrite ustatus_store. simpl. unfold GetName. rewrite Hu.
    split; [intros n Hn; by rewrite lookup_insert_ne|]. exists u. by rewrite lookup_insert_eq. }
  assert (Herr : ∀ e, let res := configuration_error o e st in
    uout_store res = st ∧ ups_Phase <$> uout_status res ≠ Some UpstreamProviderPhaseReady).
  { intros e. cbn zeta. unfold configuration_error. simpl. rewrite ustatus_store. split; [done|]. by intros H%updateStatus_phase. }
  destruct (negb (str_eqb ns _)); [done|]. destruct (upp_Deleting o).
  { unfold upatch. destruct (str_eqb _ _), (uapi_patch a _); simpl; split; try done;
      intros n Hn; by rewrite lookup_delete_ne. }
  destruct (bool_decide _). { unfold upatch. by destruct (uapi_patch a _). }
  destruct (BoolPtrTrue _) eqn:Hen; simpl; cycle 1.
  { rewrite ustatus_store. split; [intros n Hn; simpl; by rewrite lookup_delete_ne|].
    intros _ H%updateStatus_phase. simpl in H. by rewrite Hen in H. }
  destruct (str_eqb (us_Type _) _).
  { destruct (new_upstream o "" []) as [u|e] eqn:Hu; [|done]. by destruct (Hset _ _ _ [("Normal", "Created", "Created internal upstream")] Hu). }
  destruct (check_spec _) as [e|]; [destruct (Herr e) as [-> ?]; by split|].
  destruct (build_cases o ns st) as [(e & ->)|[(e & He & ->)|(u & s & ca & Hu & ->)]].
  - destruct (Herr e) as [-> ?]. by split.
  - split; [done|]. by rewrite He.
  - by destruct (Hset _ _ _ [("Normal", "Created", "Created upstream OIDC server")] Hu).
Qed.

(** A registered upstream whose configuration becomes invalid stays usable: the run that
    finds the error marks the resource ERROR and leaves the upstream in the store. *)
Theorem invalid_upstream_stays o name ns st e :
  uapi_get a = Found o → ns = UpstreamNamespace r → upp_Deleting o = false →
  finalizerName ∈ upp_Finalizers o → BoolPtrTrue (us_Enabled (upp_Spec o)) = true →
  us_Type (upp_Spec o) ≠ UpstreamProviderTypeInternal → check_spec (upp_Spec o) = Some e →
  let res := Reconcile name ns st in
  Upstreams (uout_store res) = Upstreams st ∧
  (uout_result res = Done → ups_Phase <$> uout_status res = Some UpstreamProviderPhaseError).
Proof.
  intros Hget -> Hdel Hfin Hen Hty Hck. unfold Reconcile.
  rewrite str_eqb_refl, Hget, Hdel, bool_decide_false, Hen, (proj2 (str_eqb_false _ _) Hty), Hck by tauto.
  unfold configuration_error. simpl. rewrite ustatus_store. split; [done|]. unfold updateStatus.
  destruct (uapi_status_update a _); [case_decide|]; done.
Qed.

(** Deleting the resource of an upstream in error does not unregister the upstream: the
    finalizer is removed and the store is left as it was. *)
Theorem deleted_error_upstream_stays o name ns st :
  uapi_get a = Found o → upp_Deleting o = true →
  ups_Phase (upp_Status o) = UpstreamProviderPhaseError →
  let res := Reconcile name ns st in
  uout_store res = st ∧ (uout_result res = Done → ns = UpstreamNamespace r →
    ∃ fs, uout_finalizers res = Some fs ∧ finalizerName ∉ fs).
Proof.
  intros Hget Hdel Hph. unfold Reconcile.
  destruct (str_eqb ns (UpstreamNamespace r)) eqn:Ens; simpl; cycle 1.
  { split; [done|]. apply str_eqb_false in Ens. done. }
  rewrite Hget, Hdel, Hph. simpl. unfold upatch. destruct (uapi_patch a _); simpl; (split; [done|]); [done|].
  intros _ _. eexists. split; [done|]. rewrite list_elem_of_filter. tauto.
Qed.
End reconcile.

(** ** Concrete runs *)

Definition corp (phase : string) (deleting : bool) (issuer : string) : UpstreamProvider :=
  {| upp_Name := "corp"; upp_Deleting := deleting; upp_Finalizers := [finalizerName];
     upp_Spec := {| us_Enabled := None; us_Type := UpstreamProviderTypeOidc; us_DisplayName := "Corp";
       us_ClientSpecific := false; us_IssuerURL := issuer; us_CertificateAuthority := None;
       us_InsecureSkipVerify := false; us_RedirectURL := "https://k/cb"; us_ClientId := "kubauth";
       us_ClientSecret := {| ls_Name := ""; ls_Key := "" |}; us_Scopes := ["openid"];
       us_UseUserInfo := false; us_ClaimRenamings := []; us_ClaimRemovals := [];
       us_LocalEnrichment := None; us_ExplicitConfig := None; us_DumpExchanges := false |};
     upp_Status := {| ups_Phase := phase; ups_Message := ""; ups_EffectiveConfig := None |} |}.

Definition demo_uapi (o : UpstreamProvider) : uapi :=
  {| uapi_get := Found o; uapi_secret := λ _, NotFound; uapi_configmap := λ _, NotFound;
     uapi_patch := λ _, None; uapi_status_update := λ _, None |}.
Definition demo_urec : UpstreamProviderReconciler :=
  {| UpstreamNamespace := "kubauth"; ustatusErrorCount := 0 |}.
Definition demo_new (o : UpstreamProvider) (secret : string) (ca : list Ascii.ascii)
    : result string upstream :=
  NewUpstream (λ _, None) (λ _ _, Ok demo_oidc_provider) (λ _, Ok no_extra) (λ _, demo_oidc_provider)
    o secret ca.

Lemma demo_new_name o s ca u : demo_new o s ca = Ok u → up_name u = upp_Name o.
Proof.
  unfold demo_new, NewUpstream. destruct (str_eqb _ _); [by intros [= <-]|]. simpl.
  destruct (us_ExplicitConfig _); by intros [= <-].
Qed.

Definition ustore0 : @MemoryStore unit unit upstream unit := NewMemoryStore.
Definition ustore1 : @MemoryStore unit unit upstream unit :=
  uout_store (Reconcile demo_urec (demo_uapi (corp "" false "https://idp")) demo_new "corp" "kubauth" ustore0).

Lemma upstream_ready_registered_witness :
  ∃ u, Upstreams ustore1 !! "corp" = Some u ∧ up_name u = "corp".
Proof.
  apply (upstream_ready_registered demo_urec (demo_uapi (corp "" false "https://idp")) demo_new
    demo_new_name (corp "" false "https://idp") "corp" "kubauth" ustore0); reflexivity.
Defined.

Lemma invalid_upstream_stays_witness :
  Upstreams (uout_store (Reconcile demo_urec (demo_uapi (corp "READY" false "")) demo_new
    "corp" "kubauth" ustore1)) = Upstreams ustore1 ∧ Upstreams ustore1 !! "corp" ≠ None.
Proof.
  split; [|discriminate].
  apply (invalid_upstream_stays demo_urec (demo_uapi (corp "READY" false "")) demo_new
    (corp "READY" false "") "corp" "kubauth" ustore1 "upstream provider has no issuerURL");
    [reflexivity|reflexivity|reflexivity|apply list_elem_of_singleton; reflexivity|reflexivity
    |discriminate|reflexivity].
Defined.

Lemma deleted_error_upstream_stays_witness :
  uout_store (Reconcile demo_urec (demo_uapi (corp "ERROR" true "")) demo_new "corp" "kubauth" ustore1)
  = ustore1.
Proof.
  apply (deleted_error_upstream_stays demo_urec (demo_uapi (corp "ERROR" true "")) demo_new
    (corp "ERROR" true "") "corp" "kubauth" ustore1); reflexivity.
Defined.
