(* ===== verification/SsoStore.v ===== *)
(** * cmd/oidc/sessionstore and sessioncodec: SSO sessions as Kubernetes objects

    The store behind the SSO session manager, its JSON codec and the cleaner of expired
    sessions, against the [ObjectStore] interface. SHA-256 and the JSON library are arguments;
    a zero [time.Time] is [None]. *)

From S2P Require Import Prelude Values Proto K8s.

(** [SsoSession]: its annotations and spec. *)
Record SsoSession := {
  ss_Annotations : option (gmap string string);
  ss_Login : string;
  ss_FullName : string;
  ss_Deadline : option Z;
  ss_Expiry : option Z;
  ss_Claims : option string;
  ss_WebToken : string;
}.

Definition annotationRawSession : string := "kubauth.kubotal.io/session".

(** [sessionEnvelope] and the codec's [jsonPayload]. *)
Record sessionEnvelope := { env_Deadline : option Z; env_Values : option claims }.

(** ** jsoncodec.go *)

Section codec.
Context (marshal : sessionEnvelope → result string string).
Context (unmarshal : string → result string sessionEnvelope).

Definition Encode (deadline : option Z) (values : option claims) : result string string :=
  marshal {| env_Deadline := deadline; env_Values := values |}.

Definition Decode (b : string) : result string (option Z * claims) :=
  if str_empty b then Ok (None, ∅)
  else try! payload <- unmarshal b; Ok (env_Deadline payload, map_of (env_Values payload)).

(** A session whose JSON reads back as the same values is restored. *)
Lemma Decode_Encode deadline values b :
  b ≠ "" → Encode deadline (Some values) = Ok b →
  unmarshal b = Ok {| env_Deadline := deadline; env_Values := Some values |} →
  Decode b = Ok (deadline, values).
Proof.
  intros Hb _ Hu. unfold Decode. by rewrite (proj2 (str_empty_false b) Hb), Hu.
Qed.
End codec.

(** ** kubessostore.go: the user of a session *)

(** The first key present among an upper-case and a lower-case spelling. *)
Definition either (m : claims) (k1 k2 : string) : option value :=
  match m !! k1 with Some v => Some v | None => m !! k2 end.

Definition asUser (v : value) : option (string * option claims * string) :=
  match as_map v with
  | None => None
  | Some m =>
      match either m "Login" "login" with
      | None => None
      | Some loginV =>
          Some (default "" (as_string loginV),
                (c ← either m "Claims" "claims"; as_map c),
                default "" (f ← either m "FullName" "fullName"; as_string f))
      end
  end.

Fixpoint first_user (vs : list value) : option (string * option claims * string) :=
  match vs with
  | [] => None
  | v :: vs' => match asUser v with Some u => Some u | None => first_user vs' end
  end.

(** [extractUser]; [order] is the order in which the runtime enumerates the map. *)
Definition extractUser (order : claims → list (string * value)) (values : option claims)
    : string * option claims * string :=
  match values with
  | None => ("", None, "")
  | Some vs =>
      match (v ← vs !! "ssoUser"; asUser v) with
      | Some u => u
      | None => default ("", None, "") (first_user (order vs).*2)
      end
  end.

Section store.
Context {W : Type} `{ObjectStoreLaws W SsoSession}.
Context (sha256_hex : string → string).
Context (unmarshal : string → result string sessionEnvelope).
Context (marshal_claims : claims → result string string).
Context (order : claims → list (string * value)).

Definition encodeName (token : string) : string := "h-" +:+ sha256_hex token.

(** [FindCtx]: the bytes when they are found, or an error. *)
Definition Find (token : string) (w : W) : result string (option string) :=
  match kget (encodeName token) w with
  | NotFound => Ok None
  | GetErr e => Err e
  | Found sess =>
      match ss_Annotations sess with
      | None => Ok None
      | Some ann =>
          match ann !! annotationRawSession with
          | None => Ok None
          | Some raw => if str_empty raw then Ok None else Ok (Some raw)
          end
      end
  end.

Definition claims_json (c : option claims) : option string :=
  match c with
  | None => None
  | Some m => Some (match marshal_claims m with Ok raw => raw | Err _ => "" end)
  end.

Definition session_object (token b : string) (expiry deadline : option Z)
    (u : string * option claims * string) (ann : gmap string string) : SsoSession :=
  {| ss_Annotations := Some (<[annotationRawSession := b]> ann); ss_Login := u.1.1;
     ss_FullName := u.2; ss_WebToken := token; ss_Deadline := deadline; ss_Expiry := expiry;
     ss_Claims := claims_json u.1.2 |}.

(** [CommitCtx]. *)
Definition Commit (token b : string) (expiry : option Z) (w : W) : option string * W :=
  match (if str_empty b then Ok {| env_Deadline := None; env_Values := None |} else unmarshal b) with
  | Err e => (Some e, w)
  | Ok env =>
      let u := extractUser order (env_Values env) in
      if str_empty u.1.1 then (None, w)
      else
        let name := encodeName token in
        match kget name w with
        | Found existing =>
            let '(err, w') := kupdate name (session_object token b expiry (env_Deadline env) u
                                              (default ∅ (ss_Annotations existing))) w in
            ((λ _, "update") <$> err, w')
        | _ =>
            let '(err, w') := kcreate name (session_object token b expiry (env_Deadline env) u ∅) w in
            ((λ _, "create") <$> err, w')
        end
  end.

(** [DeleteCtx]. *)
Definition Delete (token : string) (w : W) : option api_error * W := kdelete (encodeName token) w.

(** [AllCtx]. *)
Definition All (w : W) : result string (list string) :=
  try! items <- klist w;
  Ok (filter (.≠ "") ((λ ka, ss_WebToken ka.2) <$> items)).

(** ** kubessocleaner.go *)

Definition expired (now : Z) (s : SsoSession) : bool :=
  match ss_Expiry s with Some e => bool_decide (e < now)%Z | None => false end ||
  match ss_Deadline s with Some d => bool_decide (d < now)%Z | None => false end.

Definition cleanupOnce (now : Z) (w : W) : W :=
  match klist w with
  | Err _ => w
  | Ok items => (sweep (expired now) items 0 0 w).2
  end.

(** ** Properties *)

Lemma Commit_effect token b expiry w err w' :
  Commit token b expiry w = (err, w') →
  kobjects w' = kobjects w ∨
  ∃ env ann, unmarshal b = Ok env ∧ (extractUser order (env_Values env)).1.1 ≠ "" ∧ err = None ∧
    kobjects w' = <[encodeName token := session_object token b expiry (env_Deadline env)
                     (extractUser order (env_Values env)) ann]> (kobjects w).
Proof.
  unfold Commit. destruct (str_empty b) eqn:Hb.
  { simpl. intros [= <- <-]. by left. }
  destruct (unmarshal b) as [env|e] eqn:Hu; [|intros [= <- <-]; by left].
  destruct (str_empty (extractUser _ _).1.1) eqn:Hl; [intros [= <- <-]; by left|].
  apply str_empty_false in Hl.
  destruct (kget (encodeName token) w) as [existing| |e] eqn:Hg.
  - destruct (kupdate _ _ w) as [[er|] w1] eqn:Hw; intros [= <- <-].
    + left. by eapply kupdate_err.
    + right. apply kupdate_ok in Hw as [_ ->]. eauto 10.
  - destruct (kcreate _ _ w) as [[er|] w1] eqn:Hw; intros [= <- <-].
    + left. by eapply kcreate_err.
    + right. apply kcreate_ok in Hw as [_ ->]. eauto 10.
  - destruct (kcreate _ _ w) as [[er|] w1] eqn:Hw; intros [= <- <-].
    + left. by eapply kcreate_err.
    + right. apply kcreate_ok in Hw as [_ ->]. eauto 10.
Qed.

(** What [Find] can answer, by the object under the name of the token. *)
Definition raw_of (o : option SsoSession) : option string :=
  s ← o; ann ← ss_Annotations s; raw ← ann !! annotationRawSession;
  if str_empty raw then None else Some raw.

Lemma Find_spec token w r : Find token w = Ok r → r = raw_of (kobjects w !! encodeName token).
Proof.
  unfold Find. destruct (kget (encodeName token) w) as [s| |e] eqn:Hg; [| |done].
  - apply kget_Found in Hg. rewrite Hg. simpl. destruct (ss_Annotations s) as [ann|]; simpl; [|congruence].
    destruct (ann !! _) as [raw|]; simpl; [|congruence]. destruct (str_empty raw); congruence.
  - apply kget_NotFound in Hg. rewrite Hg. simpl. congruence.
Qed.

(** A commit of a session with a user writes its object. *)
Lemma Commit_stores token b expiry w w' env :
  unmarshal b = Ok env → b ≠ "" → (extractUser order (env_Values env)).1.1 ≠ "" →
  Commit token b expiry w = (None, w') →
  ∃ ann, kobjects w' = <[encodeName token := session_object token b expiry (env_Deadline env)
                           (extractUser order (env_Values env)) ann]> (kobjects w).
Proof.
  intros Hu Hb Hl. unfold Commit. rewrite (proj2 (str_empty_false b) Hb), Hu, (proj2 (str_empty_false _) Hl).
  destruct (kget (encodeName token) w) as [existing| |e].
  - destruct (kupdate _ _ w) as [[er|] w1] eqn:Hw; intros [= <-]. apply kupdate_ok in Hw as [_ ->]. eauto.
  - destruct (kcreate _ _ w) as [[er|] w1] eqn:Hw; intros [= <-]. apply kcreate_ok in Hw as [_ ->]. eauto.
  - destruct (kcreate _ _ w) as [[er|] w1] eqn:Hw; intros [= <-]. apply kcreate_ok in Hw as [_ ->]. eauto.
Qed.

(** The object under a token decides what is found. *)
Lemma Find_stored token b expiry deadline u ann w r :
  b ≠ "" → kobjects w !! encodeName token = Some (session_object token b expiry deadline u ann) →
  Find token w = Ok r → r = Some b.
Proof.
  intros Hb Hobj ->%Find_spec. rewrite Hobj. simpl. rewrite lookup_insert_eq. simpl.
  by rewrite (proj2 (str_empty_false b) Hb).
Qed.


(** After a logout the session is gone: a successful delete of a token makes it not found,
    and leaves the sessions of the other tokens alone. *)
Theorem sso_delete_find token w w' :
  Delete token w = (None, w') →
  (∀ r, Find token w' = Ok r → r = None) ∧
  (∀ other r r', sha256_hex other ≠ sha256_hex token →
     Find other w = Ok r → Find other w' = Ok r' → r' = r).
Proof.
  unfold Delete. intros Hobj%kdelete_ok. split.
  - intros r ->%Find_spec. by rewrite Hobj, lookup_delete_eq.
  - intros other r r' Hne ->%Find_spec ->%Find_spec. rewrite Hobj, lookup_delete_ne; [done|].
    intros E. apply Hne. symmetry. by apply (str_app_inj_l "h-").
Qed.

(** The session cleaner only deletes sessions whose expiry or deadline has passed, and
    leaves exactly the live ones when no call fails. *)
Theorem cleanupOnce_spec now w :
  let w' := cleanupOnce now w in
  (∀ k s, kobjects w' !! k = Some s → kobjects w !! k = Some s) ∧
  (∀ k s, kobjects w !! k = Some s → expired now s = false → kobjects w' !! k = Some s) ∧
  (∀ l, klist w = Ok l → (sweep (expired now) l 0 0 w).1.2 = 0 →
     kobjects w' = filter (λ ks, expired now ks.2 = false) (kobjects w)).
Proof.
  intros w'. unfold w', cleanupOnce. destruct (klist w) as [l|e] eqn:Hl; [|by split_and!].
  destruct (sweep (expired now) l 0 0 w) as [[d e] w1] eqn:Hs.
  destruct (sweep_listing (expired now) w l d e w1 Hl Hs) as (H1 & H2 & H3).
  split_and!; [done|done|]. intros l' [= <-]. rewrite Hs. exact H3.
Qed.

(** An expired session is still served: [Find] returns the bytes of the object whatever its
    expiry and its deadline, as long as the cleaner has not removed it. *)
Theorem sso_find_ignores_expiry token w s ann raw now :
  kget (encodeName token) w = Found s → ss_Annotations s = Some ann →
  ann !! annotationRawSession = Some raw → raw ≠ "" → expired now s = true →
  Find token w = Ok (Some raw).
Proof.
  intros Hg Ha Hr Hne _. unfold Find. rewrite Hg, Ha, Hr. by rewrite (proj2 (str_empty_false raw) Hne).
Qed.

(** The user of a session under [ssoUser] does not depend on the enumeration of the map. *)
Lemma extractUser_ssoUser vs v u :
  vs !! "ssoUser" = Some v → asUser v = Some u → extractUser order (Some vs) = u.
Proof. intros Hv Hu. simpl. rewrite Hv. simpl. by rewrite Hu. Qed.
End store.

(** ** Concrete runs *)

Definition bob_values : claims :=
  {["ssoUser" := VMap (<["Login" := VString "bob"]> {["Claims" := VMap ∅]})]}.
Definition demo_unmarshal (b : string) : result string sessionEnvelope :=
  if str_eqb b "bob-session" then Ok {| env_Deadline := Some 100%Z; env_Values := Some bob_values |}
  else Err "invalid".
Definition empty_sessions : cluster SsoSession := {| objs := ∅; faults := [] |}.
Definition demo_hash : string → string := λ t, t.
Definition demo_order : claims → list (string * value) := map_to_list.
Definition bob_committed : cluster SsoSession :=
  (Commit demo_hash demo_unmarshal (λ _, Err "") demo_order "tok" "bob-session" (Some 100%Z)
     empty_sessions).2.


Lemma sso_delete_find_witness :
  Find demo_hash "tok" (Delete demo_hash "tok" bob_committed).2 = Ok None.
Proof.
  pose proof (sso_delete_find demo_hash "tok" bob_committed (Delete demo_hash "tok" bob_committed).2
    eq_refl) as [H _].
  destruct (Find demo_hash "tok" _) as [r|e] eqn:E; [|by vm_compute in E].
  by rewrite (H r eq_refl).
Defined.

Lemma sso_find_ignores_expiry_witness :
  Find demo_hash "tok" bob_committed = Ok (Some "bob-session").
Proof.
  apply (sso_find_ignores_expiry demo_hash "tok" bob_committed
    (session_object (λ _, Err "") "tok" "bob-session" (Some 100%Z) (Some 100%Z) ("bob", Some ∅, "") ∅)
    {[annotationRawSession := "bob-session"]} "bob-session" 5000%Z);
    [reflexivity|reflexivity|reflexivity|discriminate|reflexivity].
Defined.

Lemma cleanupOnce_spec_witness :
  kobjects (cleanupOnce 5000 bob_committed) !! encodeName demo_hash "tok" = None ∧
  kobjects (cleanupOnce 50 bob_committed) = kobjects bob_committed.
Proof.
  destruct (cleanupOnce_spec 5000 bob_committed) as (_ & _ & H).
  destruct (cleanupOnce_spec 50 bob_committed) as (_ & _ & H').
  destruct (klist bob_committed) as [l|e] eqn:E; [|by vm_compute in E].
  vm_compute in E. injection E as <-. split.
  - rewrite (H _ eq_refl ltac:(vm_compute; reflexivity)). vm_compute. reflexivity.
  - rewrite (H' _ eq_refl ltac:(vm_compute; reflexivity)). vm_compute. reflexivity.
Defined.
