(* ===== verification/Session.v ===== *)
(** * cmd/oidc/fositepatch and newSession: what the OAuth library is given

    The sessions the server hands to the OAuth library ([fositepatch/session.go],
    [newSession] of [oidcserver.go]) and the scopes and audiences it grants
    ([fositepatch/scopehandler.go]). The library's own types are interfaces with the laws its
    documentation states: a request accumulates granted scopes without duplicates, and adding a
    claim writes into the extra map of the claims, creating it when it is nil.

    The extra claims are a Go map, shared by everything that points to it; the maps of a request
    are kept in a heap and referred to by location. *)

From S2P Require Import Prelude Values HttpProvider OidcClient.

(** ** Claim maps in memory *)

Abbreviation heap := (list claims).
Abbreviation loc := nat.

(** Reading through a reference; a nil map reads as an empty one. *)
Definition deref (h : heap) (r : option loc) : claims :=
  match r with Some l => default ∅ (h !! l) | None => ∅ end.

Definition alloc (h : heap) (c : claims) : heap * loc := (h ++ [c], length h).

(** [jwt.IDTokenClaims.Add] and [jwt.JWTClaims.Add] of the OAuth library, on their [Extra]. *)
Class ClaimAdder := Add : string → value → heap → option loc → heap * option loc.

(** "Add will add a key-value pair to the extra field": in the map at hand, or in a new one when
    there is none. *)
Class ClaimAdderOk (A : ClaimAdder) : Prop := {
  Add_some k v h l c : h !! l = Some c → Add k v h (Some l) = (<[l := <[k := v]> c]> h, Some l);
  Add_none k v h : Add k v h None = (h ++ [{[k := v]}], Some (length h));
}.

(** ** fositepatch/session.go *)

(** [time.Time] in nanoseconds since the Unix epoch; the zero time is year 1. *)
Definition zero_time : Z := (- 62135596800 * 10 ^ 9)%Z.

Record IDTokenClaims := {
  Issuer : string; id_Subject : string; Audience : list string;
  IssuedAt : Z; RequestedAt : Z; AuthTime : Z; Extra : option loc;
}.
Record JWTClaims := {
  j_Issuer : string; j_Subject : string; j_Audience : list string;
  j_IssuedAt : Z; j_ExpiresAt : Z; j_Extra : option loc;
}.

(** The types of tokens are strings in the library. *)
Definition token_name (t : TokenType) : string :=
  match t with
  | AccessToken => "access_token" | RefreshToken => "refresh_token" | IDToken => "id_token"
  | OtherToken s => s
  end.

Record OIDCSession := {
  IDTokenClaims_ : option IDTokenClaims;
  JWTClaims_ : option JWTClaims;
  Headers : option (gmap string value);
  ExpiresAt : option (gmap string Z);
  Username : string;
  Subject : string;
}.

(** With nil claims the assignment panics: [None]. *)
Definition SetAudience (audience : list string) (s : OIDCSession) : option OIDCSession :=
  match IDTokenClaims_ s, JWTClaims_ s with
  | Some i, Some j =>
      Some {| IDTokenClaims_ := Some {| Issuer := Issuer i; id_Subject := id_Subject i;
                Audience := audience; IssuedAt := IssuedAt i; RequestedAt := RequestedAt i;
                AuthTime := AuthTime i; Extra := Extra i |};
              JWTClaims_ := Some {| j_Issuer := j_Issuer j; j_Subject := j_Subject j;
                j_Audience := audience; j_IssuedAt := j_IssuedAt j;
                j_ExpiresAt := j_ExpiresAt j; j_Extra := j_Extra j |};
              Headers := Headers s; ExpiresAt := ExpiresAt s; Username := Username s;
              Subject := Subject s |}
  | _, _ => None
  end.

Definition with_expiries (m : option (gmap string Z)) (s : OIDCSession) : OIDCSession :=
  {| IDTokenClaims_ := IDTokenClaims_ s; JWTClaims_ := JWTClaims_ s; Headers := Headers s;
     ExpiresAt := m; Username := Username s; Subject := Subject s |}.

Definition SetExpiresAt (key : TokenType) (exp : Z) (s : OIDCSession) : OIDCSession :=
  with_expiries (Some (<[token_name key := exp]> (default ∅ (ExpiresAt s)))) s.

(** The getter creates the map when it is nil. *)
Definition GetExpiresAt (key : TokenType) (s : OIDCSession) : Z * OIDCSession :=
  let m := default ∅ (ExpiresAt s) in
  (default zero_time (m !! token_name key), with_expiries (Some m) s).

Definition SetSubject (subject : string) (s : OIDCSession) : OIDCSession :=
  {| IDTokenClaims_ := IDTokenClaims_ s; JWTClaims_ := JWTClaims_ s; Headers := Headers s;
     ExpiresAt := ExpiresAt s; Username := Username s; Subject := subject |}.

(** Methods on a possibly nil session. *)
Definition GetUsername (s : option OIDCSession) : string := from_option Username "" s.
Definition GetSubject (s : option OIDCSession) : string := from_option Subject "" s.

Lemma GetExpiresAt_Set key key' exp s :
  (GetExpiresAt key' (SetExpiresAt key exp s)).1 =
  if decide (token_name key' = token_name key) then exp else (GetExpiresAt key' s).1.
Proof.
  unfold GetExpiresAt, SetExpiresAt. simpl. case_decide as E.
  - by rewrite E, lookup_insert_eq.
  - by rewrite lookup_insert_ne.
Qed.

(** ** oidcserver.go: newSession *)

(** An [*authenticator.OidcUser]: its claims are a reference. *)
Record user_ref := { ur_Login : string; ur_Claims : option loc; ur_FullName : string }.

(** What the authenticator returns, put in memory. *)
Definition alloc_user (h : heap) (u : OidcUser) : heap * user_ref :=
  let '(h, l) := alloc h (ou_Claims u) in
  (h, {| ur_Login := ou_Login u; ur_Claims := Some l; ur_FullName := ou_FullName u |}).

Section sessions.
Context {A : ClaimAdder}.

(** [if clientId != "" { claims.Add("azp", clientId) }] *)
Definition add_azp (clientId : string) (h : heap) (extra : option loc) : heap * option loc :=
  if str_empty clientId then (h, extra) else Add "azp" (VString clientId) h extra.

Definition newSession (issuer keyID : string) (accessTokenLifespan now : Z)
    (user : option user_ref) (clientId : string) (h : heap) : heap * OIDCSession :=
  let subject := from_option ur_Login "" user in
  let extra := user ≫= ur_Claims in
  let '(h, idExtra) := add_azp clientId h extra in
  let '(h, jwtExtra) := add_azp clientId h extra in
  (h, {| IDTokenClaims_ := Some {| Issuer := issuer; id_Subject := subject;
           Audience := [clientId]; IssuedAt := now; RequestedAt := now; AuthTime := now;
           Extra := idExtra |};
         JWTClaims_ := Some {| j_Issuer := issuer; j_Subject := subject;
           j_Audience := [clientId]; j_IssuedAt := now;
           j_ExpiresAt := (now + accessTokenLifespan)%Z; j_Extra := jwtExtra |};
         Headers := Some {["kid" := VString keyID]};
         ExpiresAt := None; Username := subject; Subject := subject |}).

(** flow_resource_owner.go: the session of the password grant. *)
Definition createSessionWithUserClaims (issuer keyID : string) (now : Z)
    (user : option user_ref) (clientId : string) (h : heap) : heap * OIDCSession :=
  let subject := from_option ur_Login "" user in
  let extra := user ≫= ur_Claims in
  let '(h, idExtra) := add_azp clientId h extra in
  (h, {| IDTokenClaims_ := Some {| Issuer := issuer; id_Subject := subject;
           Audience := [clientId]; IssuedAt := now; RequestedAt := now; AuthTime := now;
           Extra := idExtra |};
         JWTClaims_ := Some {| j_Issuer := issuer; j_Subject := subject;
           j_Audience := [clientId]; j_IssuedAt := now; j_ExpiresAt := zero_time;
           j_Extra := extra |};
         Headers := Some {["kid" := VString keyID]};
         ExpiresAt := None; Username := subject; Subject := subject |}).

(** What a session says of the user, with the references resolved. *)
Record view := {
  v_Subject : string; v_Username : string; v_id : claims; v_jwt : claims;
  v_Audience : list string; v_kid : option value;
}.

Definition session_view (h : heap) (s : OIDCSession) : view :=
  {| v_Subject := Subject s; v_Username := Username s;
     v_id := from_option (λ i, deref h (Extra i)) ∅ (IDTokenClaims_ s);
     v_jwt := from_option (λ j, deref h (j_Extra j)) ∅ (JWTClaims_ s);
     v_Audience := from_option Audience [] (IDTokenClaims_ s);
     v_kid := Headers s ≫= λ m, m !! "kid" |}.

(** The claims a client is issued for a user. *)
Definition issued_claims (c : claims) (clientId : string) : claims :=
  if decide (clientId = "") then c else <["azp" := VString clientId]> c.

Definition user_view (login : string) (c : claims) (clientId keyID : string) : view :=
  {| v_Subject := login; v_Username := login;
     v_id := issued_claims c clientId; v_jwt := issued_claims c clientId;
     v_Audience := [clientId]; v_kid := Some (VString keyID) |}.
End sessions.

(** ** fositepatch/scopehandler.go *)

(** [fosite.Client]: the type assertion to [KubauthClient] succeeds on the first kind. *)
Record other_client := {
  other_id : string; other_GrantTypes : list string; other_Scopes : list string;
  other_Audience : list string;
}.
Inductive fclient := KClient (k : kubauthClient) | OtherClient (c : other_client).

Definition client_id (c : fclient) : string :=
  match c with KClient k => GetID k | OtherClient c => other_id c end.
Definition client_GrantTypes (c : fclient) : list string :=
  match c with KClient k => GrantTypes (spec k) | OtherClient c => other_GrantTypes c end.
Definition client_Scopes (c : fclient) : list string :=
  match c with KClient k => GetScopes k | OtherClient c => other_Scopes c end.
Definition client_Audience (c : fclient) : list string :=
  match c with KClient k => GetAudience k | OtherClient c => other_Audience c end.

(** [ScopeRequester] and [AudienceRequester], the requests of the OAuth library. *)
Class Requester (R : Type) := {
  GetRequestedScopes : R → list string;
  GetRequestedAudience : R → list string;
  GetClient : R → fclient;
  GetGrantedScopes : R → list string;
  GetGrantedAudience : R → list string;
  GrantScope : string → R → R;
  GrantAudience : string → R → R;
}.

Definition add_missing (l : list string) (s : string) : list string :=
  if bool_decide (s ∈ l) then l else l ++ [s].

(** Granting adds to its own list, without duplicates, and touches nothing else. *)
Class RequesterOk (R : Type) `{Requester R} : Prop := {
  granted_scope s r : GetGrantedScopes (GrantScope s r) = add_missing (GetGrantedScopes r) s;
  granted_scope_aud s r : GetGrantedAudience (GrantScope s r) = GetGrantedAudience r;
  granted_scope_client s r : GetClient (GrantScope s r) = GetClient r;
  granted_scope_req s r : GetRequestedAudience (GrantScope s r) = GetRequestedAudience r;
  granted_aud a r : GetGrantedAudience (GrantAudience a r) = add_missing (GetGrantedAudience r) a;
  granted_aud_scope a r : GetGrantedScopes (GrantAudience a r) = GetGrantedScopes r;
  granted_aud_client a r : GetClient (GrantAudience a r) = GetClient r;
}.

Section granting.
Context {R : Type} `{Requester R}.

Definition HandleScopes (ar : R) : R :=
  let client := GetClient ar in
  let ar := foldl (λ r sc, GrantScope sc r) ar (GetRequestedScopes ar) in
  match client with
  | KClient client2 => if IsForceOpenIdScope client2 then GrantScope "openid" ar else ar
  | OtherClient _ => ar
  end.

Definition HandleAudience (ar : R) : R :=
  match GetRequestedAudience ar with
  | [] => GrantAudience (client_id (GetClient ar)) ar
  | aud => foldl (λ r a, GrantAudience a r) ar aud
  end.

Definition forces_openid (c : fclient) : Prop :=
  match c with KClient k => IsForceOpenIdScope k = true | OtherClient _ => False end.

Context `{!RequesterOk R}.

Lemma elem_of_add_missing x l s : x ∈ add_missing l s ↔ x ∈ l ∨ x = s.
Proof. unfold add_missing. case_bool_decide; set_solver. Qed.

Lemma NoDup_add_missing l s : NoDup l → NoDup (add_missing l s).
Proof.
  unfold add_missing. case_bool_decide; [done|]. intros. apply NoDup_app. split; [done|].
  split; [set_solver|apply NoDup_singleton].
Qed.

Lemma grant_scopes_all l r x :
  let r' := foldl (λ r sc, GrantScope sc r) r l in
  (x ∈ GetGrantedScopes r' ↔ x ∈ GetGrantedScopes r ∨ x ∈ l) ∧
  (NoDup (GetGrantedScopes r) → NoDup (GetGrantedScopes r')) ∧
  GetGrantedAudience r' = GetGrantedAudience r ∧ GetClient r' = GetClient r ∧
  GetRequestedAudience r' = GetRequestedAudience r.
Proof.
  revert r. induction l as [|s l IH]; intros r; simpl; [set_solver|].
  destruct (IH (GrantScope s r)) as (H1 & H2 & H3 & H4 & H5).
  rewrite H1, H3, H4, H5, granted_scope, granted_scope_aud, granted_scope_client, granted_scope_req.
  rewrite granted_scope in H2. split; [rewrite elem_of_add_missing; set_solver|].
  split; [|done]. auto using NoDup_add_missing.
Qed.

Lemma grant_audience_all l r x :
  let r' := foldl (λ r a, GrantAudience a r) r l in
  (x ∈ GetGrantedAudience r' ↔ x ∈ GetGrantedAudience r ∨ x ∈ l) ∧
  GetGrantedScopes r' = GetGrantedScopes r.
Proof.
  revert r. induction l as [|s l IH]; intros r; simpl; [set_solver|].
  destruct (IH (GrantAudience s r)) as [H1 H2]. rewrite H1, H2, granted_aud, granted_aud_scope.
  rewrite elem_of_add_missing. set_solver.
Qed.

Lemma HandleScopes_granted r x :
  x ∈ GetGrantedScopes (HandleScopes r) ↔
  x ∈ GetGrantedScopes r ∨ x ∈ GetRequestedScopes r ∨ (x = "openid" ∧ forces_openid (GetClient r)).
Proof.
  unfold HandleScopes. destruct (grant_scopes_all (GetRequestedScopes r) r x) as [H1 _].
  destruct (GetClient r) as [k|id]; simpl; [|rewrite H1; naive_solver].
  destruct (IsForceOpenIdScope k); [rewrite granted_scope, elem_of_add_missing|]; rewrite H1; naive_solver.
Qed.

Lemma HandleScopes_frame r :
  GetGrantedAudience (HandleScopes r) = GetGrantedAudience r ∧
  GetClient (HandleScopes r) = GetClient r ∧
  GetRequestedAudience (HandleScopes r) = GetRequestedAudience r ∧
  (NoDup (GetGrantedScopes r) → NoDup (GetGrantedScopes (HandleScopes r))).
Proof.
  unfold HandleScopes.
  destruct (grant_scopes_all (GetRequestedScopes r) r "") as (_ & H2 & H3 & H4 & H5).
  destruct (GetClient r) as [k|id] eqn:E; [destruct (IsForceOpenIdScope k)|];
    rewrite ?granted_scope_aud, ?granted_scope_client, ?granted_scope_req, ?granted_scope; split_and!;
    auto using NoDup_add_missing.
Qed.

Lemma HandleAudience_client r : GetClient (HandleAudience r) = GetClient r.
Proof.
  unfold HandleAudience.
  assert (∀ l r, GetClient (foldl (λ r a, GrantAudience a r) r l) = GetClient r) as Hf.
  { induction l as [|x l IH]; intros r0; simpl; [done|]. by rewrite IH, granted_aud_client. }
  destruct (GetRequestedAudience r) as [|a l]; [apply granted_aud_client|apply (Hf (a :: l))].
Qed.

(** What the server grants on a fresh request: exactly the requested scopes, and [openid] when
    the client forces it, without duplicates; exactly the requested audience, or the client's own
    id when none is requested. *)
Theorem granted_spec r x :
  GetGrantedScopes r = [] → GetGrantedAudience r = [] →
  let r' := HandleAudience (HandleScopes r) in
  (x ∈ GetGrantedScopes r' ↔
     x ∈ GetRequestedScopes r ∨ (x = "openid" ∧ forces_openid (GetClient r))) ∧
  NoDup (GetGrantedScopes r') ∧
  (x ∈ GetGrantedAudience r' ↔
     if decide (GetRequestedAudience r = []) then x = client_id (GetClient r)
     else x ∈ GetRequestedAudience r).
Proof.
  intros Hs Ha. cbn zeta. pose proof (HandleScopes_granted r x) as H1.
  destruct (HandleScopes_frame r) as (H2 & H3 & H4 & H5).
  unfold HandleAudience. rewrite H4, H3.
  destruct (GetRequestedAudience r) as [|a l].
  - rewrite granted_aud_scope, granted_aud, elem_of_add_missing, H1, H2, Hs, Ha. simpl.
    rewrite Hs in H5. split_and!; [set_solver| |set_solver]. apply H5, NoDup_nil_2.
  - destruct (grant_audience_all (a :: l) (HandleScopes r) x) as [H6 H7].
    rewrite H7, H6, H1, H2, Hs, Ha. rewrite Hs in H5. simpl.
    split_and!; [set_solver| |set_solver]. apply H5, NoDup_nil_2.
Qed.
End granting.

(** ** What a session carries *)

Section session_lemmas.
Context {A : ClaimAdder} `{!ClaimAdderOk A}.

Lemma add_azp_some clientId h l c :
  h !! l = Some c →
  add_azp clientId h (Some l) = (<[l := issued_claims c clientId]> h, Some l).
Proof.
  intros Hl. unfold add_azp, str_empty, issued_claims. case_bool_decide; case_decide; try done.
  - by rewrite list_insert_id.
  - by apply Add_some.
Qed.

Lemma issued_claims_idem c clientId :
  issued_claims (issued_claims c clientId) clientId = issued_claims c clientId.
Proof. unfold issued_claims. case_decide; [done|]. by rewrite insert_insert_eq. Qed.

(** A session for a user: the two sets of claims are the user's own map, into which the
    authorised party was written. *)
Lemma newSession_user issuer keyID life now u clientId h l c :
  ur_Claims u = Some l → h !! l = Some c →
  let '(h', s) := newSession issuer keyID life now (Some u) clientId h in
  h' = <[l := issued_claims c clientId]> h ∧
  session_view h' s = user_view (ur_Login u) c clientId keyID ∧
  (Extra <$> IDTokenClaims_ s) = Some (Some l) ∧ (j_Extra <$> JWTClaims_ s) = Some (Some l).
Proof.
  intros Hu Hl. unfold newSession. simpl. rewrite Hu.
  rewrite (add_azp_some clientId h l c Hl).
  assert (l < length h) as Hlt by (eapply lookup_lt_Some; eauto).
  rewrite (add_azp_some clientId _ l (issued_claims c clientId)) by (by apply list_lookup_insert_eq).
  rewrite issued_claims_idem, list_insert_insert_eq. split; [done|].
  unfold session_view, user_view. simpl. rewrite list_lookup_insert_eq by done. simpl.
  rewrite lookup_singleton_eq. done.
Qed.

(** A session for nobody (token, user-info and introspection endpoints) carries at most the
    authorised party, in maps of its own. *)
Lemma newSession_none issuer keyID life now clientId h :
  let '(h', s) := newSession issuer keyID life now None clientId h in
  (∀ l c, h !! l = Some c → h' !! l = Some c) ∧
  session_view h' s = user_view "" ∅ clientId keyID.
Proof.
  unfold newSession, session_view, user_view. simpl. unfold add_azp, str_empty, issued_claims.
  case_bool_decide; case_decide; try done; simpl.
  rewrite !Add_none. simpl. split.
  - intros l c Hl. by repeat apply lookup_app_l_Some.
  - f_equal.
    + rewrite lookup_app_l by (rewrite length_app; simpl; lia).
      by rewrite lookup_app_r, Nat.sub_diag by lia.
    + by rewrite lookup_app_r, Nat.sub_diag by lia.
Qed.

Definition valid_ref (h : heap) (r : option loc) : Prop :=
  match r with Some l => is_Some (h !! l) | None => True end.

(** The same for a user whose claims may be nil. *)
Lemma newSession_ref issuer keyID life now u clientId h :
  valid_ref h (ur_Claims u) →
  let '(h', s) := newSession issuer keyID life now (Some u) clientId h in
  session_view h' s = user_view (ur_Login u) (deref h (ur_Claims u)) clientId keyID.
Proof.
  intros Hv. destruct (ur_Claims u) as [l|] eqn:E.
  - destruct Hv as [c Hc].
    pose proof (newSession_user issuer keyID life now u clientId h l c E Hc) as Hn.
    destruct (newSession _ _ _ _ _ _ _) as [h' s]. destruct Hn as (_ & -> & _). simpl. by rewrite Hc.
  - pose proof (newSession_none issuer keyID life now clientId h) as Hn. unfold newSession in *. simpl in *.
    rewrite E. destruct (add_azp clientId h None) as [h1 e1].
    destruct (add_azp clientId h1 None) as [h2 e2]. destruct Hn as [_ Hn].
    injection Hn as Hid Hjwt. unfold session_view, user_view. simpl. by rewrite Hid, Hjwt.
Qed.
End session_lemmas.

(** A session for a user is the user's: its subject and user name are the login, both kinds of
    tokens get the user's claims with the client as the authorised party [azp], and the headers
    name the signing key. The claims are not copied: the user's own map receives [azp], so that a
    user kept elsewhere (the SSO session) is changed with it, and no other map is. *)
Theorem newSession_shares_claims {A : ClaimAdder} `{!ClaimAdderOk A}
    issuer keyID life now u clientId h l c :
  ur_Claims u = Some l → h !! l = Some c →
  let '(h', s) := newSession issuer keyID life now (Some u) clientId h in
  session_view h' s = user_view (ur_Login u) c clientId keyID ∧
  h' !! l = Some (issued_claims c clientId) ∧ (∀ l', l' ≠ l → h' !! l' = h !! l').
Proof.
  intros Hu Hl. pose proof (newSession_user issuer keyID life now u clientId h l c Hu Hl) as H.
  destruct (newSession _ _ _ _ _ _ _) as [h' s]. destruct H as (-> & Hv & _).
  split; [done|]. split; [|intros l' Hne; by rewrite list_lookup_insert_ne].
  apply list_lookup_insert_eq. by eapply lookup_lt_Some.
Qed.

(** ** Instances: the library's documented behaviour can be met *)

Definition plain_add : ClaimAdder := λ k v h r,
  match r with
  | Some l => (alter (<[k := v]>) l h, Some l)
  | None => (h ++ [{[k := v]}], Some (length h))
  end.

#[export] Instance plain_add_ok : ClaimAdderOk plain_add.
Proof.
  split; [|done]. intros k v h l c Hl. unfold Add, plain_add. f_equal.
  apply list_eq. intros i. destruct (decide (i = l)) as [->|Hne].
  - rewrite list_lookup_alter_eq, Hl, list_lookup_insert_eq; [done|by eapply lookup_lt_Some].
  - by rewrite list_lookup_alter_ne, list_lookup_insert_ne.
Qed.

Record plain_request := {
  pr_scopes : list string; pr_aud : list string; pr_client : fclient;
  pr_gscopes : list string; pr_gaud : list string;
}.

#[export] Instance plain_requester : Requester plain_request := {|
  GetRequestedScopes := pr_scopes; GetRequestedAudience := pr_aud; GetClient := pr_client;
  GetGrantedScopes := pr_gscopes; GetGrantedAudience := pr_gaud;
  GrantScope := λ s r, {| pr_scopes := pr_scopes r; pr_aud := pr_aud r; pr_client := pr_client r;
                          pr_gscopes := add_missing (pr_gscopes r) s; pr_gaud := pr_gaud r |};
  GrantAudience := λ a r, {| pr_scopes := pr_scopes r; pr_aud := pr_aud r; pr_client := pr_client r;
                             pr_gscopes := pr_gscopes r; pr_gaud := add_missing (pr_gaud r) a |};
|}.

#[export] Instance plain_requester_ok : RequesterOk plain_request.
Proof. split; done. Qed.

Definition demo_request : plain_request :=
  {| pr_scopes := ["profile"; "profile"]; pr_aud := []; pr_client := OtherClient {| other_id := "web"; other_GrantTypes := []; other_Scopes := [];
       other_Audience := [] |};
     pr_gscopes := []; pr_gaud := [] |}.

Lemma granted_spec_witness :
  "web" ∈ GetGrantedAudience (HandleAudience (HandleScopes demo_request)) ∧
  NoDup (GetGrantedScopes (HandleAudience (HandleScopes demo_request))).
Proof.
  split.
  - apply (granted_spec demo_request "web"); reflexivity.
  - apply (granted_spec demo_request "web"); reflexivity.
Defined.

Definition demo_claims : claims := {["name" := VString "Bob"]}.
Definition demo_ref : user_ref := {| ur_Login := "bob"; ur_Claims := Some 0; ur_FullName := "Bob" |}.

Lemma newSession_shares_claims_witness :
  let '(h', s) := @newSession plain_add "iss" "kid1" 10 5 (Some demo_ref) "web" [demo_claims] in
  v_Subject (session_view h' s) = "bob" ∧ (h' !! 0 ≫= (.!! "azp")) = Some (VString "web").
Proof.
  pose proof (newSession_shares_claims (A := plain_add) "iss" "kid1" 10 5 demo_ref "web" [demo_claims]
    0 demo_claims eq_refl eq_refl) as H.
  destruct (newSession _ _ _ _ _ _ _) as [h' s]. destruct H as (Hv & Hl & _).
  rewrite Hv, Hl. split; reflexivity.
Defined.
