(* ===== verification/Url.v ===== *)
(** * Query strings

    What the handlers use of [net/url]: [url.ParseQuery] and [Values.Get], [url.QueryUnescape],
    [Values.Encode] of one pair, and the request [http.NewRequestWithContext] builds from
    ["/oauth2/auth?" + rawQuery]. Strings are byte strings. *)

From S2P Require Import Prelude.

Fixpoint split_on (sep : Ascii.ascii) (s : string) : list string :=
  match s with
  | EmptyString => [""]
  | String c s' =>
      if decide (c = sep) then "" :: split_on sep s'
      else match split_on sep s' with
           | x :: xs => String c x :: xs
           | [] => [String c ""]
           end
  end.

(** [strings.Cut]: without the separator, the whole string and an empty one. *)
Fixpoint cut (sep : Ascii.ascii) (s : string) : string * string :=
  match s with
  | EmptyString => ("", "")
  | String c s' =>
      if decide (c = sep) then ("", s') else let '(a, b) := cut sep s' in (String c a, b)
  end.

Fixpoint str_exists (p : Ascii.ascii → bool) (s : string) : bool :=
  match s with EmptyString => false | String c s' => p c || str_exists p s' end.

Definition hex_digit (c : Ascii.ascii) : option nat :=
  let n := Ascii.nat_of_ascii c in
  if (48 <=? n) && (n <=? 57) then Some (n - 48)
  else if (97 <=? n) && (n <=? 102) then Some (n - 87)
  else if (65 <=? n) && (n <=? 70) then Some (n - 55)
  else None.

(** [url.QueryUnescape]; [None] on a malformed escape. In a fragment a plus sign is itself. *)
Fixpoint unescape (plus : bool) (s : string) : option string :=
  match s with
  | EmptyString => Some EmptyString
  | String c s' =>
      if decide (c = "%"%char) then
        match s' with
        | String a (String b s'') =>
            match hex_digit a, hex_digit b with
            | Some x, Some y => t ← unescape plus s''; Some (String (Ascii.ascii_of_nat (16 * x + y)) t)
            | _, _ => None
            end
        | _ => None
        end
      else t ← unescape plus s';
           Some (String (if plus && bool_decide (c = "+"%char) then " "%char else c) t)
  end.

(** One [key=value] part: [None] when it is skipped, [Some None] when it is malformed. *)
Definition parse_pair (part : string) : option (option (string * string)) :=
  if str_exists (λ c, bool_decide (c = ";"%char)) part then Some None
  else if str_empty part then None
  else
    let '(k, v) := cut "="%char part in
    match unescape true k, unescape true v with
    | Some k, Some v => Some (Some (k, v))
    | _, _ => Some None
    end.

(** The pairs that parse, in order: what [URL.Query] keeps. *)
Definition parse_query (q : string) : list (string * string) :=
  omap (λ p, parse_pair p ≫= id) (split_on "&"%char q).

(** Whether [url.ParseQuery] reports an error. *)
Definition query_error (q : string) : bool :=
  existsb (λ p, bool_decide (parse_pair p = Some None)) (split_on "&"%char q).

(** [Values.Get]: the first value of the key, or the empty string. *)
Definition values_get (vs : list (string * string)) (key : string) : string :=
  from_option snd "" (head (filter (λ kv, kv.1 = key) vs)).

Definition query_get (q key : string) : string := values_get (parse_query q) key.

(** [url.QueryEscape]. *)
Definition unreserved (c : Ascii.ascii) : bool :=
  let n := Ascii.nat_of_ascii c in
  ((48 <=? n) && (n <=? 57)) || ((65 <=? n) && (n <=? 90)) || ((97 <=? n) && (n <=? 122)) ||
  bool_decide (c ∈ ["-"; "_"; "."; "~"]%char).

Definition hex_upper (n : nat) : Ascii.ascii :=
  Ascii.ascii_of_nat (if n <? 10 then 48 + n else 55 + n).

Definition escape_char (c : Ascii.ascii) : string :=
  if unreserved c then String c ""
  else if decide (c = " "%char) then "+"
  else let n := Ascii.nat_of_ascii c in
       String "%"%char (String (hex_upper (n / 16)) (String (hex_upper (n mod 16)) "")).

Fixpoint escape (s : string) : string :=
  match s with EmptyString => "" | String c s' => escape_char c +:+ escape s' end.

(** [Values.Encode] with one pair. *)
Definition encode_pair (k v : string) : string := escape k +:+ "=" +:+ escape v.

(** [http.NewRequest(GET, "/oauth2/auth?" + q)]: the raw query of the request it builds, or
    [None] on a control character or a malformed fragment. *)
Definition is_ctl (c : Ascii.ascii) : bool :=
  let n := Ascii.nat_of_ascii c in (n <? 32) || (n =? 127).

Definition new_request (q : string) : option string :=
  let '(q, frag) := cut "#"%char q in
  if str_exists is_ctl q then None
  else match unescape false frag with Some _ => Some q | None => None end.

(** ** Escaping round trip *)

Lemma unescape_char c s :
  unescape true (escape_char c +:+ s) = (t ← unescape true s; Some (String c t)).
Proof. destruct c as [[] [] [] [] [] [] [] []]; reflexivity. Qed.

Lemma unescape_escape s : unescape true (escape s) = Some s.
Proof. induction s as [|c s IH]; [done|]. simpl. rewrite unescape_char, IH. done. Qed.

Lemma str_exists_app p s t : str_exists p (s +:+ t) = str_exists p s || str_exists p t.
Proof.
  induction s as [|c s IH]; [done|]. change (String c s +:+ t) with (String c (s +:+ t)). simpl.
  by rewrite IH, orb_assoc.
Qed.

Definition is_sep (c : Ascii.ascii) : bool := bool_decide (c ∈ ["&"; ";"; "="; "#"]%char) || is_ctl c.

Lemma escape_no_sep s : str_exists is_sep (escape s) = false.
Proof.
  induction s as [|c s IH]; [done|]. simpl. rewrite str_exists_app, IH, orb_false_r.
  destruct c as [[] [] [] [] [] [] [] []]; reflexivity.
Qed.

Lemma split_on_none sep s :
  str_exists (λ c, bool_decide (c = sep)) s = false → split_on sep s = [s].
Proof.
  induction s as [|c s IH]; simpl; [done|]. rewrite orb_false_iff, bool_decide_eq_false.
  intros [Hc Hs]. rewrite decide_False, IH by done. done.
Qed.

Lemma cut_app sep s t :
  str_exists (λ c, bool_decide (c = sep)) s = false → cut sep (s +:+ String sep t) = (s, t).
Proof.
  induction s as [|c s IH]; simpl.
  - intros _. by rewrite decide_True.
  - rewrite orb_false_iff, bool_decide_eq_false. intros [Hc Hs].
    change (String c s +:+ String sep t) with (String c (s +:+ String sep t)). simpl.
    rewrite decide_False, IH by done. done.
Qed.

Lemma str_exists_weaken (p q : Ascii.ascii → bool) s :
  (∀ c, p c = true → q c = true) → str_exists q s = false → str_exists p s = false.
Proof.
  intros Hpq. induction s as [|c s IH]; simpl; [done|]. rewrite !orb_false_iff. intros [Hc Hs].
  split; [|auto]. destruct (p c) eqn:E; [|done]. by rewrite Hpq in Hc.
Qed.

Lemma escape_not sep s :
  is_sep sep = true → str_exists (λ c, bool_decide (c = sep)) (escape s) = false.
Proof.
  intros Hsep. eapply str_exists_weaken, escape_no_sep. intros c. by intros ->%bool_decide_eq_true.
Qed.

(** The parameter of a redirection is read back as it was set. *)
Lemma query_get_encode k v : query_get (encode_pair k v) k = v.
Proof.
  unfold query_get, parse_query, encode_pair.
  rewrite (split_on_none "&"%char).
  - simpl. unfold parse_pair.
    assert (str_exists (λ c, bool_decide (c = ";"%char)) (escape k +:+ "=" +:+ escape v) = false) as ->.
    { rewrite !str_exists_app, !escape_not; done. }
    assert (str_empty (escape k +:+ "=" +:+ escape v) = false) as ->.
    { apply str_empty_false. by destruct (escape k). }
    change ("=" +:+ escape v) with (String "="%char (escape v)).
    rewrite cut_app by (by apply escape_not). rewrite !unescape_escape. simpl.
    unfold values_get. by rewrite filter_cons_True.
  - rewrite !str_exists_app, !escape_not; done.
Qed.
