(* ===== verification/Json.v ===== *)
(** * JSON text

    What the program uses of [encoding/json] below the types: the text of a value, and the value
    of a text. Strings are byte strings; as in Go a byte that is not part of valid UTF-8 becomes
    the replacement character, when it is printed and when it is read. Numbers stay literals; the
    conversion to float64 belongs to the decoding into Go values ([GoJson]).

    The main result is the round trip: reading the text of a value gives this value, its strings
    cleaned, up to the nesting limit of the decoder. *)

From stdpp Require Import pretty.
From S2P Require Import Prelude Values Url.

(** ** Values *)

Unset Elimination Schemes.
Inductive json :=
| JNull
| JBool (b : bool)
| JNum (lit : string)
| JStr (s : string)
| JArr (l : list json)
| JObj (members : list (string * json)).
Set Elimination Schemes.

Section json_ind.
Variable P : json → Prop.
Hypothesis Hnull : P JNull.
Hypothesis Hbool : ∀ b, P (JBool b).
Hypothesis Hnum : ∀ lit, P (JNum lit).
Hypothesis Hstr : ∀ s, P (JStr s).
Hypothesis Harr : ∀ l, Forall P l → P (JArr l).
Hypothesis Hobj : ∀ l, Forall (λ m, P m.2) l → P (JObj l).

Fixpoint json_ind (j : json) : P j :=
  match j with
  | JNull => Hnull
  | JBool b => Hbool b
  | JNum lit => Hnum lit
  | JStr s => Hstr s
  | JArr l => Harr l ((fix go l : Forall P l :=
      match l with [] => Forall_nil_2 _ | x :: l => Forall_cons_2 _ _ _ (json_ind x) (go l) end) l)
  | JObj l => Hobj l ((fix go l : Forall (λ m, P m.2) l :=
      match l with [] => Forall_nil_2 _ | x :: l => Forall_cons_2 _ _ _ (json_ind x.2) (go l) end) l)
  end.
End json_ind.

(** ** Bytes and UTF-8 *)

Definition quote : Ascii.ascii := "034"%char.
Definition backslash : Ascii.ascii := "092"%char.

Definition byte_in (lo hi : nat) (c : Ascii.ascii) : bool :=
  let n := Ascii.nat_of_ascii c in bool_decide (lo ≤ n) && bool_decide (n ≤ hi).

Definition cont : Ascii.ascii → bool := byte_in 128 191.

(** The second byte after the first one ([utf8.acceptRanges]). *)
Definition second (c0 c1 : Ascii.ascii) : bool :=
  match Ascii.nat_of_ascii c0 with
  | 224 => byte_in 160 191 c1
  | 237 => byte_in 128 159 c1
  | 240 => byte_in 144 191 c1
  | 244 => byte_in 128 143 c1
  | _ => cont c1
  end.

(** A string, cut where [utf8.DecodeRuneInString] cuts it: ASCII bytes, encodings of other
    characters, bytes that are not valid. *)
Inductive chunk :=
| One (c : Ascii.ascii)
| Rune2 (a b : Ascii.ascii)
| Rune3 (a b c : Ascii.ascii)
| Rune4 (a b c d : Ascii.ascii)
| Bad (c : Ascii.ascii).

Fixpoint chunks (s : string) : list chunk :=
  match s with
  | EmptyString => []
  | String a s1 =>
      if byte_in 0 127 a then One a :: chunks s1
      else
        match s1 with
        | String b s2 =>
            if byte_in 194 223 a && cont b then Rune2 a b :: chunks s2
            else
              match s2 with
              | String c s3 =>
                  if byte_in 224 239 a && second a b && cont c then Rune3 a b c :: chunks s3
                  else
                    match s3 with
                    | String d s4 =>
                        if byte_in 240 244 a && second a b && cont c && cont d
                        then Rune4 a b c d :: chunks s4 else Bad a :: chunks s1
                    | EmptyString => Bad a :: chunks s1
                    end
              | EmptyString => Bad a :: chunks s1
              end
        | EmptyString => Bad a :: chunks s1
        end
  end.

(** U+FFFD. *)
Definition replacement : string := String "239" (String "191" (String "189" "")).

Definition chunk_text (k : chunk) : string :=
  match k with
  | One c => String c ""
  | Rune2 a b => String a (String b "")
  | Rune3 a b c => String a (String b (String c ""))
  | Rune4 a b c d => String a (String b (String c (String d "")))
  | Bad _ => replacement
  end.

Definition concat_map {A} (f : A → string) (l : list A) : string := foldr (λ x s, f x +:+ s) "" l.

(** What is left of a string that goes through JSON. *)
Definition clean_string (s : string) : string := concat_map chunk_text (chunks s).

Definition is_bad (k : chunk) : bool := match k with Bad _ => true | _ => false end.
Definition valid_utf8 (s : string) : bool := negb (existsb is_bad (chunks s)).

(** ** Printing *)

Definition hex_lower (n : nat) : Ascii.ascii :=
  Ascii.ascii_of_nat (if bool_decide (n < 10) then 48 + n else 87 + n).

(** One byte below 128 ([appendString], with the escapes for HTML). *)
Definition escape_ascii (c : Ascii.ascii) : string :=
  let n := Ascii.nat_of_ascii c in
  let short e := String backslash (String e "") in
  match n with
  | 34 | 92 => short c
  | 8 => short "b"%char
  | 9 => short "t"%char
  | 10 => short "n"%char
  | 12 => short "f"%char
  | 13 => short "r"%char
  | 38 | 60 | 62 => String backslash ("u00" +:+ String (hex_lower (n / 16)) (String (hex_lower (n mod 16)) ""))
  | _ => if bool_decide (n < 32)
         then String backslash ("u00" +:+ String (hex_lower (n / 16)) (String (hex_lower (n mod 16)) ""))
         else String c ""
  end.

(** U+2028 and U+2029 are escaped. *)
Definition separator (a b c : Ascii.ascii) : option string :=
  if byte_in 226 226 a && byte_in 128 128 b then
    if byte_in 168 168 c then Some (String backslash "u2028")
    else if byte_in 169 169 c then Some (String backslash "u2029")
    else None
  else None.

Definition print_chunk (k : chunk) : string :=
  match k with
  | One c => escape_ascii c
  | Bad _ => String backslash "ufffd"
  | Rune3 a b c => default (chunk_text k) (separator a b c)
  | _ => chunk_text k
  end.

Definition print_string (s : string) : string :=
  String quote (concat_map print_chunk (chunks s) +:+ String quote "").

Fixpoint join_comma (l : list string) : string :=
  match l with
  | [] => ""
  | [x] => x
  | x :: l => x +:+ "," +:+ join_comma l
  end.

Fixpoint print (j : json) : string :=
  match j with
  | JNull => "null"
  | JBool true => "true"
  | JBool false => "false"
  | JNum lit => lit
  | JStr s => print_string s
  | JArr l => "[" +:+ join_comma (print <$> l) +:+ "]"
  | JObj l => "{" +:+ join_comma ((λ m, print_string m.1 +:+ ":" +:+ print m.2) <$> l) +:+ "}"
  end.

(** ** Reading *)

Definition is_space (c : Ascii.ascii) : bool :=
  match Ascii.nat_of_ascii c with 9 | 10 | 13 | 32 => true | _ => false end.

Fixpoint skip_space (s : string) : string :=
  match s with String c s' => if is_space c then skip_space s' else s | EmptyString => "" end.

Fixpoint drop_prefix (p s : string) : option string :=
  match p, s with
  | EmptyString, _ => Some s
  | String a p', String b s' => if decide (a = b) then drop_prefix p' s' else None
  | _, _ => None
  end.

(** *** Strings *)

(** [utf8.EncodeRune] of a code point outside the surrogates. *)
Definition encode_rune (r : N) : string :=
  let b n := Ascii.ascii_of_N n in
  (if r <? 128 then String (b r) ""
   else if r <? 2048
     then String (b (192 + r / 64)) (String (b (128 + r mod 64)) "")
   else if r <? 65536
     then String (b (224 + r / 4096)) (String (b (128 + (r / 64) mod 64)) (String (b (128 + r mod 64)) ""))
   else String (b (240 + r / 262144)) (String (b (128 + (r / 4096) mod 64))
          (String (b (128 + (r / 64) mod 64)) (String (b (128 + r mod 64)) ""))))%N.

(** [getu4]: four hexadecimal digits. *)
Definition hex4 (a b c d : Ascii.ascii) : option N :=
  a ← hex_digit a; b ← hex_digit b; c ← hex_digit c; d ← hex_digit d;
  Some (4096 * N.of_nat a + 256 * N.of_nat b + 16 * N.of_nat c + N.of_nat d)%N.

Definition surrogate (r : N) : bool := bool_decide (55296 ≤ r < 57344)%N.

(** [utf16.DecodeRune]. *)
Definition pair_rune (r1 r2 : N) : option N :=
  (if bool_decide (55296 ≤ r1 < 56320) && bool_decide (56320 ≤ r2 < 57344)
   then Some (65536 + 1024 * (r1 - 55296) + (r2 - 56320)) else None)%N.

(** The character of a one-letter escape. *)
Definition unescape_letter (c : Ascii.ascii) : option Ascii.ascii :=
  match Ascii.nat_of_ascii c with
  | 34 | 47 | 92 => Some c
  | 98 => Some "008"%char
  | 102 => Some "012"%char
  | 110 => Some "010"%char
  | 114 => Some "013"%char
  | 116 => Some "009"%char
  | _ => None
  end.

(** What follows an opening quote: the string and the rest. *)
Fixpoint read_chars (s : string) : option (string * string) :=
  let cont_with (t : string) (r : option (string * string)) :=
    '(x, rest) ← r; Some (t +:+ x, rest) in
  match s with
  | EmptyString => None
  | String a s1 =>
      if decide (a = quote) then Some ("", s1)
      else if decide (a = backslash) then
        match s1 with
        | String e s2 =>
            if decide (e = "u"%char) then
              match s2 with
              | String h1 (String h2 (String h3 (String h4 s6))) =>
                  match hex4 h1 h2 h3 h4 with
                  | None => None
                  | Some r =>
                      if surrogate r then
                        match s6 with
                        | String b1 (String u (String g1 (String g2 (String g3 (String g4 s12))))) =>
                            if decide (b1 = backslash ∧ u = "u"%char) then
                              match r2 ← hex4 g1 g2 g3 g4; pair_rune r r2 with
                              | Some x => cont_with (encode_rune x) (read_chars s12)
                              | None => cont_with replacement (read_chars s6)
                              end
                            else cont_with replacement (read_chars s6)
                        | _ => cont_with replacement (read_chars s6)
                        end
                      else cont_with (encode_rune r) (read_chars s6)
                  end
              | _ => None
              end
            else
              match unescape_letter e with
              | Some c => cont_with (String c "") (read_chars s2)
              | None => None
              end
        | EmptyString => None
        end
      else if byte_in 0 31 a then None
      else if byte_in 32 127 a then cont_with (String a "") (read_chars s1)
      else
        match s1 with
        | String b s2 =>
            if byte_in 194 223 a && cont b then cont_with (String a (String b "")) (read_chars s2)
            else
              match s2 with
              | String c s3 =>
                  if byte_in 224 239 a && second a b && cont c
                  then cont_with (String a (String b (String c ""))) (read_chars s3)
                  else
                    match s3 with
                    | String d s4 =>
                        if byte_in 240 244 a && second a b && cont c && cont d
                        then cont_with (String a (String b (String c (String d "")))) (read_chars s4)
                        else cont_with replacement (read_chars s1)
                    | EmptyString => cont_with replacement (read_chars s1)
                    end
              | EmptyString => cont_with replacement (read_chars s1)
              end
        | EmptyString => cont_with replacement (read_chars s1)
        end
  end.

(** *** Numbers *)

Definition is_digit : Ascii.ascii → bool := byte_in 48 57.

Fixpoint span_digits (s : string) : string * string :=
  match s with
  | String c s' => if is_digit c then let '(d, r) := span_digits s' in (String c d, r) else ("", s)
  | EmptyString => ("", "")
  end.

Definition read_int (s : string) : option (string * string) :=
  match s with
  | String c s' =>
      if decide (c = "0"%char) then Some ("0", s')
      else if is_digit c then Some (span_digits s) else None
  | EmptyString => None
  end.

Definition read_frac (s : string) : option (string * string) :=
  match s with
  | String c s' =>
      if decide (c = "."%char)
      then let '(d, r) := span_digits s' in if str_empty d then None else Some (String "." d, r)
      else Some ("", s)
  | EmptyString => Some ("", s)
  end.

Definition read_exp (s : string) : option (string * string) :=
  match s with
  | String c s' =>
      if decide (c = "e"%char ∨ c = "E"%char)
      then
        let '(sg, s'') := match s' with
                          | String x y => if decide (x = "+"%char ∨ x = "-"%char) then (String x "", y) else ("", s')
                          | EmptyString => ("", s')
                          end in
        let '(d, r) := span_digits s'' in
        if str_empty d then None else Some (String c (sg +:+ d), r)
      else Some ("", s)
  | EmptyString => Some ("", s)
  end.

Definition read_unsigned (s : string) : option (string * string) :=
  '(i, s) ← read_int s; '(f, s) ← read_frac s; '(e, s) ← read_exp s; Some (i +:+ f +:+ e, s).

Definition read_number (s : string) : option (string * string) :=
  match s with
  | String c s' =>
      if decide (c = "-"%char) then '(x, r) ← read_unsigned s'; Some ("-" +:+ x, r) else read_unsigned s
  | EmptyString => None
  end.

(** *** Values

    [n] bounds the number of calls (the text is longer), [d] is what is left of the nesting limit. *)
Fixpoint read_value (n d : nat) (s : string) {struct n} : option (json * string) :=
  match n with
  | O => None
  | S n =>
      match skip_space s with
      | EmptyString => None
      | String c s' as t =>
          if decide (c = quote) then '(x, r) ← read_chars s'; Some (JStr x, r)
          else if decide (c = "["%char) then
            match d with
            | O => None
            | S d =>
                match skip_space s' with
                | String c' r => if decide (c' = "]"%char) then Some (JArr [], r)
                                 else '(l, r) ← read_items n d s'; Some (JArr l, r)
                | EmptyString => None
                end
            end
          else if decide (c = "{"%char) then
            match d with
            | O => None
            | S d =>
                match skip_space s' with
                | String c' r => if decide (c' = "}"%char) then Some (JObj [], r)
                                 else '(l, r) ← read_members n d s'; Some (JObj l, r)
                | EmptyString => None
                end
            end
          else if decide (c = "n"%char) then r ← drop_prefix "null" t; Some (JNull, r)
          else if decide (c = "t"%char) then r ← drop_prefix "true" t; Some (JBool true, r)
          else if decide (c = "f"%char) then r ← drop_prefix "false" t; Some (JBool false, r)
          else '(lit, r) ← read_number t; Some (JNum lit, r)
      end
  end
with read_items (n d : nat) (s : string) {struct n} : option (list json * string) :=
  match n with
  | O => None
  | S n =>
      '(x, r) ← read_value n d s;
      match skip_space r with
      | String c r =>
          if decide (c = ","%char) then '(l, r) ← read_items n d r; Some (x :: l, r)
          else if decide (c = "]"%char) then Some ([x], r) else None
      | EmptyString => None
      end
  end
with read_members (n d : nat) (s : string) {struct n} : option (list (string * json) * string) :=
  match n with
  | O => None
  | S n =>
      match skip_space s with
      | String c s =>
          if decide (c = quote) then
            '(k, r) ← read_chars s;
            match skip_space r with
            | String c r =>
                if decide (c = ":"%char) then
                  '(x, r) ← read_value n d r;
                  match skip_space r with
                  | String c r =>
                      if decide (c = ","%char) then '(l, r) ← read_members n d r; Some ((k, x) :: l, r)
                      else if decide (c = "}"%char) then Some ([(k, x)], r) else None
                  | EmptyString => None
                  end
                else None
            | EmptyString => None
            end
          else None
      | EmptyString => None
      end
  end.

Definition maxNestingDepth : nat := Z.to_nat 10000.

(** [json.Decoder.Decode]: the first value of the text, and what follows. *)
Definition decode_first (s : string) : option (json * string) :=
  read_value (S (String.length s)) maxNestingDepth s.

(** [json.Unmarshal] up to the types: one value and nothing else. *)
Definition parse (s : string) : option json :=
  '(j, r) ← decode_first s; if str_empty (skip_space r) then Some j else None.

(** ** Strings come back *)

Lemma str_app_cons c s t : String c s +:+ t = String c (s +:+ t).
Proof. done. Qed.
Lemma str_app_nil t : "" +:+ t = t.
Proof. done. Qed.

Definition with_text (t : string) (r : option (string * string)) : option (string * string) :=
  '(x, rest) ← r; Some (t +:+ x, rest).

Definition wf_chunk (k : chunk) : bool :=
  match k with
  | One c => byte_in 0 127 c
  | Rune2 a b => byte_in 194 223 a && cont b
  | Rune3 a b c => byte_in 224 239 a && second a b && cont c
  | Rune4 a b c d => byte_in 240 244 a && second a b && cont c && cont d
  | Bad _ => true
  end.

#[local] Ltac split_andb H := repeat (rewrite andb_true_iff in H; destruct H as [H ?]).

Definition head_byte (k : chunk) : Ascii.ascii :=
  match k with One c | Rune2 c _ | Rune3 c _ _ | Rune4 c _ _ _ | Bad c => c end.

Lemma byte_in_spec lo hi c :
  byte_in lo hi c = true ↔ lo ≤ Ascii.nat_of_ascii c ≤ hi.
Proof. unfold byte_in. rewrite andb_true_iff, !bool_decide_eq_true. tauto. Qed.

Lemma byte_in_false lo hi lo' hi' c :
  byte_in lo hi c = true → hi < lo' ∨ hi' < lo → byte_in lo' hi' c = false.
Proof.
  rewrite byte_in_spec. intros ??. destruct (byte_in lo' hi' c) eqn:E; [|done].
  apply byte_in_spec in E. lia.
Qed.

Lemma byte_in_ne lo hi c c' :
  byte_in lo hi c = true → Ascii.nat_of_ascii c' < lo → c ≠ c'.
Proof. rewrite byte_in_spec. intros ? ? ->. lia. Qed.

Lemma byte_is n c : byte_in n n c = true → c = Ascii.ascii_of_nat n.
Proof.
  rewrite byte_in_spec. intros H. rewrite <- (Ascii.ascii_nat_embedding c). f_equal. lia.
Qed.

Lemma chunks_wf s : forallb wf_chunk (chunks s) = true.
Proof.
  remember (String.length s) as n eqn:Hn. revert s Hn.
  induction n as [n IH] using lt_wf_ind. intros [|a s1] ->; [done|].
  assert (IH1 : ∀ s, String.length s < S (String.length s1) → forallb wf_chunk (chunks s) = true)
    by (intros; by eapply IH). clear IH. cbn [chunks].
  repeat case_match; subst; cbn [forallb]; rewrite IH1 by (cbn; lia); rewrite andb_true_r; auto.
Qed.

(** Past the ASCII bytes, reading cuts the text as [chunks] does. *)
Lemma read_high a s :
  byte_in 128 255 a = true →
  read_chars (String a s) =
  match s with
  | String b s2 =>
      if byte_in 194 223 a && cont b then with_text (String a (String b "")) (read_chars s2)
      else
        match s2 with
        | String c s3 =>
            if byte_in 224 239 a && second a b && cont c
            then with_text (String a (String b (String c ""))) (read_chars s3)
            else
              match s3 with
              | String d s4 =>
                  if byte_in 240 244 a && second a b && cont c && cont d
                  then with_text (String a (String b (String c (String d "")))) (read_chars s4)
                  else with_text replacement (read_chars s)
              | EmptyString => with_text replacement (read_chars s)
              end
        | EmptyString => with_text replacement (read_chars s)
        end
  | EmptyString => with_text replacement (read_chars s)
  end.
Proof.
  intros Ha. change (read_chars (String a s)) with
    (let r := read_chars (String a s) in r) at 1. cbn zeta. unfold read_chars at 1. fold read_chars.
  destruct (decide (a = quote)) as [->|_]; [by vm_compute in Ha|].
  destruct (decide (a = backslash)) as [->|_]; [by vm_compute in Ha|].
  rewrite (byte_in_false _ _ 0 31 a Ha), (byte_in_false _ _ 32 127 a Ha) by lia. reflexivity.
Qed.

Lemma read_bytes k t :
  wf_chunk k = true → is_bad k = false → byte_in 128 255 (head_byte k) = true →
  read_chars (chunk_text k +:+ t) = with_text (chunk_text k) (read_chars t).
Proof.
  intros Hk Hb Ha.
  destruct k as [c|a b|a b c|a b c d|c]; cbn [wf_chunk is_bad head_byte] in *; [|..|done].
  { exfalso. apply byte_in_spec in Hk, Ha. lia. }
  all: cbn [chunk_text]; rewrite !str_app_cons, read_high, ?str_app_nil by done; split_andb Hk.
  - by rewrite Hk, H.
  - rewrite (byte_in_false _ _ 194 223 a Hk) by lia. by rewrite Hk, H0, H.
  - rewrite (byte_in_false _ _ 194 223 a Hk), (byte_in_false _ _ 224 239 a Hk) by lia.
    by rewrite Hk, H1, H0, H.
Qed.

Lemma read_escaped c t :
  byte_in 0 127 c = true → read_chars (escape_ascii c +:+ t) = with_text (String c "") (read_chars t).
Proof.
  destruct c as [[] [] [] [] [] [] [] []]; intros H; try (vm_compute in H; discriminate H);
    reflexivity.
Qed.

Lemma high_byte lo hi a : byte_in lo hi a = true → 128 ≤ lo → hi ≤ 255 → byte_in 128 255 a = true.
Proof. rewrite !byte_in_spec. lia. Qed.

Lemma separator_text a b c t x :
  separator a b c = Some x → read_chars (x +:+ t) = with_text (chunk_text (Rune3 a b c)) (read_chars t).
Proof.
  unfold separator. intros Hs.
  destruct (byte_in 226 226 a) eqn:Ea; [apply byte_is in Ea as ->|done].
  destruct (byte_in 128 128 b) eqn:Eb; [apply byte_is in Eb as ->|done].
  destruct (byte_in 168 168 c) eqn:Ec; [apply byte_is in Ec as ->; by injection Hs as <-|].
  destruct (byte_in 169 169 c) eqn:Ec'; [apply byte_is in Ec' as ->; by injection Hs as <-|done].
Qed.

Lemma read_print_chunk k t :
  wf_chunk k = true → read_chars (print_chunk k +:+ t) = with_text (chunk_text k) (read_chars t).
Proof.
  intros Hk. pose proof Hk as Hw. destruct k as [c|a b|a b c|a b c d|c]; cbn [wf_chunk] in Hk.
  - by apply read_escaped.
  - split_andb Hk. apply read_bytes; [done..|]. eapply high_byte; [exact Hk|lia..].
  - cbn [print_chunk]. destruct (separator a b c) as [x|] eqn:Hs; cbn [default]; [by apply separator_text|].
    split_andb Hk. apply read_bytes; [done..|]. eapply high_byte; [exact Hk|lia..].
  - split_andb Hk. apply read_bytes; [done..|]. eapply high_byte; [exact Hk|lia..].
  - reflexivity.
Qed.

Lemma read_print_chunks l rest :
  forallb wf_chunk l = true →
  read_chars (concat_map print_chunk l +:+ String quote rest) = Some (concat_map chunk_text l, rest).
Proof.
  induction l as [|k l IH]; intros Hl; [done|]. cbn in Hl. apply andb_prop in Hl as [Hk Hl].
  change (concat_map print_chunk (k :: l)) with (print_chunk k +:+ concat_map print_chunk l).
  by rewrite str_app_assoc, read_print_chunk, IH.
Qed.

(** A printed string reads as the string, cleaned. *)
Lemma read_print_string s rest :
  read_chars (concat_map print_chunk (chunks s) +:+ String quote rest) = Some (clean_string s, rest).
Proof. apply read_print_chunks, chunks_wf. Qed.

Lemma clean_valid s : valid_utf8 s = true → clean_string s = s.
Proof.
  unfold valid_utf8, clean_string. remember (String.length s) as n eqn:Hn. revert s Hn.
  induction n as [n IH] using lt_wf_ind. intros [|a s1] -> Hv; [done|].
  assert (IH1 : ∀ s, String.length s < S (String.length s1) → negb (existsb is_bad (chunks s)) = true →
                     concat_map chunk_text (chunks s) = s) by (intros; by eapply IH). clear IH.
  cbn [chunks] in Hv |- *.
  repeat case_match; subst; cbn in Hv; try discriminate;
    cbn [concat_map foldr chunk_text]; rewrite !str_app_cons, ?str_app_nil;
    repeat f_equal; apply IH1; cbn; try lia; done.
Qed.

(** ** Numbers come back *)

Definition valid_number (lit : string) : bool := bool_decide (read_number lit = Some (lit, "")).

(** A number ends before what cannot continue it. *)
Definition number_stops (rest : string) : bool :=
  match rest with
  | String c _ => negb (is_digit c || bool_decide (c ∈ [".";"e";"E"]%char))
  | EmptyString => true
  end.

Lemma span_digits_app s rest :
  number_stops rest = true →
  span_digits (s +:+ rest) = let '(d, r) := span_digits s in (d, r +:+ rest).
Proof.
  intros Hr. induction s as [|c s IH].
  - rewrite str_app_nil. destruct rest as [|c rest]; [done|]. cbn in Hr |- *.
    by destruct (is_digit c).
  - rewrite str_app_cons. cbn [span_digits]. destruct (is_digit c); [|done]. rewrite IH.
    by destruct (span_digits s).
Qed.

Lemma read_int_app s rest i r :
  number_stops rest = true → read_int s = Some (i, r) → read_int (s +:+ rest) = Some (i, r +:+ rest).
Proof.
  intros Hr. destruct s as [|c s]; [done|]. rewrite str_app_cons. unfold read_int.
  destruct (decide (c = "0"%char)); [by intros [= <- <-]|]. destruct (is_digit c) eqn:Hc; [|done].
  intros H. rewrite <- str_app_cons, span_digits_app by done. assert (span_digits (String c s) = (i, r)) as -> by congruence.
  done.
Qed.

Lemma read_frac_app s rest f r :
  number_stops rest = true → read_frac s = Some (f, r) → read_frac (s +:+ rest) = Some (f, r +:+ rest).
Proof.
  intros Hr. destruct s as [|c s].
  - intros [= <- <-]. rewrite str_app_nil. destruct rest as [|c rest]; [done|].
    unfold read_frac. destruct (decide (c = "."%char)) as [->|]; [by vm_compute in Hr|done].
  - rewrite str_app_cons. unfold read_frac. destruct (decide (c = "."%char)); [|by intros [= <- <-]].
    rewrite span_digits_app by done. destruct (span_digits s) as [d t]. destruct (str_empty d); [done|].
    by intros [= <- <-].
Qed.

Lemma read_exp_app s rest e r :
  number_stops rest = true → read_exp s = Some (e, r) → read_exp (s +:+ rest) = Some (e, r +:+ rest).
Proof.
  intros Hr. destruct s as [|c s].
  - intros [= <- <-]. rewrite str_app_nil. destruct rest as [|c rest]; [done|].
    unfold read_exp. destruct (decide (c = "e"%char ∨ c = "E"%char)) as [[->| ->]|]; [by vm_compute in Hr..|done].
  - rewrite str_app_cons. unfold read_exp.
    destruct (decide (c = "e"%char ∨ c = "E"%char)); [|by intros [= <- <-]].
    destruct s as [|x s]; [done|]. rewrite str_app_cons.
    destruct (decide (x = "+"%char ∨ x = "-"%char)); [|rewrite <- str_app_cons];
      rewrite span_digits_app by done;
      [destruct (span_digits s) as [d t]|destruct (span_digits (String x s)) as [d t]];
      (destruct (str_empty d); [done|]); by intros [= <- <-].
Qed.

Lemma read_unsigned_app s rest lit r :
  number_stops rest = true →
  read_unsigned s = Some (lit, r) → read_unsigned (s +:+ rest) = Some (lit, r +:+ rest).
Proof.
  intros Hr H. unfold read_unsigned in *. apply bind_Some in H as ([i t1] & Hi & H).
  apply bind_Some in H as ([f t2] & Hf & H). apply bind_Some in H as ([e t3] & He & [= <- <-]).
  rewrite (read_int_app _ _ _ _ Hr Hi). cbn. rewrite (read_frac_app _ _ _ _ Hr Hf). cbn.
  by rewrite (read_exp_app _ _ _ _ Hr He).
Qed.

Lemma read_number_app s rest lit r :
  number_stops rest = true → read_number s = Some (lit, r) → read_number (s +:+ rest) = Some (lit, r +:+ rest).
Proof.
  intros Hr. destruct s as [|c s]; [done|]. rewrite str_app_cons. unfold read_number.
  destruct (decide (c = "-"%char)); intros H.
  - apply bind_Some in H as ([x t] & Hx & [= <- <-]). by rewrite (read_unsigned_app _ _ _ _ Hr Hx).
  - rewrite <- str_app_cons. by apply read_unsigned_app.
Qed.

Lemma read_valid_number lit rest :
  valid_number lit = true → number_stops rest = true → read_number (lit +:+ rest) = Some (lit, rest).
Proof. intros H%bool_decide_eq_true Hr. by rewrite (read_number_app _ _ _ _ Hr H). Qed.

Lemma valid_number_head lit :
  valid_number lit = true → ∃ c t, lit = String c t ∧ (c = "-"%char ∨ is_digit c = true).
Proof.
  intros H%bool_decide_eq_true. destruct lit as [|c t]; [done|]. exists c, t. split; [done|].
  unfold read_number in H. destruct (decide (c = "-"%char)) as [|Hc]; [by left|]. right.
  unfold read_unsigned, read_int in H. destruct (decide (c = "0"%char)) as [->|]; [done|].
  by destruct (is_digit c).
Qed.

(** ** Values come back *)

Fixpoint depth (j : json) : nat :=
  match j with
  | JArr l => S (foldr (λ x n, depth x `max` n) 0 l)
  | JObj l => S (foldr (λ m n, depth m.2 `max` n) 0 l)
  | _ => 0
  end.

(** Every number of the value is written as JSON writes numbers. *)
Fixpoint good_numbers (j : json) : bool :=
  match j with
  | JNum lit => valid_number lit
  | JArr l => forallb good_numbers l
  | JObj l => forallb (λ m, good_numbers m.2) l
  | _ => true
  end.

Fixpoint clean (j : json) : json :=
  match j with
  | JStr s => JStr (clean_string s)
  | JArr l => JArr (clean <$> l)
  | JObj l => JObj ((λ m, (clean_string m.1, clean m.2)) <$> l)
  | _ => j
  end.

Lemma print_head j :
  good_numbers j = true → ∃ c t, print j = String c t ∧ is_space c = false ∧ c ≠ "]"%char.
Proof.
  intros Hg. destruct j as [|[]|lit|s|l|l]; try (by eexists _, _; split_and!).
  apply valid_number_head in Hg as (c & t & -> & Hc). exists c, t. split; [done|].
  destruct Hc as [->|Hc]; [done|]. destruct c as [[] [] [] [] [] [] [] []]; try (by vm_compute in Hc); done.
Qed.

Lemma skip_space_stop c t : is_space c = false → skip_space (String c t) = String c t.
Proof. intros H. cbn. by rewrite H. Qed.

Lemma skip_space_print j rest :
  good_numbers j = true → skip_space (print j +:+ rest) = print j +:+ rest.
Proof. intros (c & t & -> & H & _)%print_head. rewrite str_app_cons. by apply skip_space_stop. Qed.

#[local] Ltac str_norm := repeat (rewrite str_app_assoc || rewrite str_app_cons || rewrite str_app_nil).

Definition reads_back (j : json) : Prop :=
  ∀ n d rest, good_numbers j = true → depth j ≤ d → String.length (print j) < n →
    number_stops rest = true → read_value n d (print j +:+ rest) = Some (clean j, rest).

(** The elements of an array, up to its closing bracket. *)
Lemma read_items_print l x n d rest :
  Forall reads_back (x :: l) → forallb good_numbers (x :: l) = true →
  foldr (λ x n, depth x `max` n) 0 (x :: l) ≤ d →
  S (String.length (join_comma (print <$> x :: l))) < n →
  read_items n d (join_comma (print <$> x :: l) +:+ String "]" rest) = Some (clean <$> x :: l, rest).
Proof.
  revert x n. induction l as [|y l IH]; intros x [|n] [Hx Hl]%Forall_cons_1 Hg Hd Hn; try lia.
  - cbn in Hg, Hd, Hn. rewrite andb_true_r in Hg. cbn [fmap list_fmap join_comma read_items].
    rewrite Hx by (first [done|lia]). done.
  - apply andb_prop in Hg as [Hgx Hg]. cbn [foldr] in Hd.
    change (join_comma (print <$> x :: y :: l)) with (print x +:+ "," +:+ join_comma (print <$> y :: l)) in *.
    rewrite !str_app_length in Hn. cbn [String.length] in Hn.
    rewrite !str_app_assoc. cbn [read_items]. rewrite Hx by (first [done|lia]).
    cbn [mbind option_bind]. rewrite str_app_cons, str_app_nil, skip_space_stop, decide_True by done.
    rewrite IH by (first [done|cbn [foldr]; lia]). done.
Qed.

(** The members of an object, up to its closing brace. *)
Definition print_member (m : string * json) : string := print_string m.1 +:+ ":" +:+ print m.2.

Lemma read_members_print l m n d rest :
  Forall (λ m, reads_back m.2) (m :: l) → forallb (λ m, good_numbers m.2) (m :: l) = true →
  foldr (λ m n, depth m.2 `max` n) 0 (m :: l) ≤ d →
  S (String.length (join_comma (print_member <$> m :: l))) < n →
  read_members n d (join_comma (print_member <$> m :: l) +:+ String "}" rest)
  = Some ((λ m, (clean_string m.1, clean m.2)) <$> m :: l, rest).
Proof.
  assert (Hone : ∀ m n rest, reads_back m.2 → good_numbers m.2 = true → depth m.2 ≤ d →
    String.length (print_member m) ≤ n → number_stops rest = true →
    read_members (S n) d (print_member m +:+ rest) =
    match skip_space rest with
    | String c r =>
        if decide (c = ","%char)
        then '(l, r) ← read_members n d r; Some ((clean_string m.1, clean m.2) :: l, r)
        else if decide (c = "}"%char) then Some ([(clean_string m.1, clean m.2)], r) else None
    | EmptyString => None
    end).
  { intros [k j] n' rest' Hj Hg Hd Hn Hr. unfold print_member, print_string in *. cbn [fst snd] in *.
    rewrite !str_app_length in Hn. cbn [String.length] in Hn. rewrite !str_app_length in Hn. cbn [String.length] in Hn.
    str_norm. cbn [read_members]. rewrite skip_space_stop by done. rewrite decide_True by done.
    rewrite read_print_string. cbn [mbind option_bind]. rewrite skip_space_stop, decide_True by done.
    rewrite Hj by (first [done|lia]). done. }
  revert m n. induction l as [|y l IH]; intros m [|n] [Hx Hl]%Forall_cons_1 Hg Hd Hn; try lia.
  - cbn in Hg, Hd, Hn. rewrite andb_true_r in Hg. cbn [fmap list_fmap join_comma].
    rewrite Hone by (first [done|lia]). done.
  - apply andb_prop in Hg as [Hgx Hg]. cbn [foldr] in Hd.
    change (join_comma (print_member <$> m :: y :: l)) with (print_member m +:+ "," +:+ join_comma (print_member <$> y :: l)) in *.
    rewrite !str_app_length in Hn. cbn [String.length] in Hn.
    rewrite !str_app_assoc. rewrite Hone by (first [done|lia]).
    rewrite str_app_cons, str_app_nil, skip_space_stop, decide_True by done.
    rewrite IH by (first [done|cbn [foldr]; lia]). done.
Qed.

Lemma read_value_print j : reads_back j.
Proof.
  induction j as [|[]|lit|s|l IH|l IH] using json_ind; intros [|n] d rest Hg Hd Hn Hr; try lia; try done.
  - cbn [read_value]. rewrite (skip_space_print (JNum lit)) by done. cbn [print].
    pose proof (read_valid_number lit rest Hg Hr) as E.
    apply valid_number_head in Hg as (c & t & -> & Hc). rewrite str_app_cons in *.
    rewrite E. destruct Hc as [->|Hc]; [done|].
    rewrite !decide_False by (intros ->; by vm_compute in Hc). done.
  - cbn [read_value print]. unfold print_string. str_norm. rewrite skip_space_stop, decide_True by done.
    by rewrite read_print_string.
  - cbn [read_value print]. destruct d as [|d]; [cbn in Hd; lia|]. str_norm. rewrite skip_space_stop by done.
    rewrite decide_False, decide_True by done.
    destruct l as [|x l]; [done|].
    cbn [print] in Hn. rewrite !str_app_length in Hn. cbn [String.length] in Hn.
    rewrite read_items_print by (first [done|exact (le_S_n _ _ Hd)|lia]).
    assert (∃ c t, join_comma (print <$> x :: l) = String c t ∧ is_space c = false ∧ c ≠ "]"%char)
      as (c & t & -> & Hc & Hb).
    { apply andb_prop in Hg as [Hg _]. apply print_head in Hg as (c & t & E & ? & ?).
      destruct l; cbn [fmap list_fmap join_comma]; rewrite E; eauto. }
    by rewrite str_app_cons, skip_space_stop, decide_False by done.
  - cbn [read_value print]. destruct d as [|d]; [cbn in Hd; lia|]. str_norm. rewrite skip_space_stop by done.
    rewrite decide_False, decide_False, decide_True by done.
    destruct l as [|x l]; [done|].
    cbn [print] in Hn. rewrite !str_app_length in Hn. cbn [String.length] in Hn.
    fold print_member in *. rewrite read_members_print by (first [done|exact (le_S_n _ _ Hd)|lia]).
    assert (∃ t, join_comma (print_member <$> x :: l) = String quote t) as (t & E)
      by (destruct l; cbn [fmap list_fmap join_comma]; unfold print_member, print_string;
          rewrite !str_app_cons; eauto).
    change (λ m, print_string m.1 +:+ ":" +:+ print m.2) with print_member. rewrite E.
    by rewrite str_app_cons, skip_space_stop, decide_False by done.
Qed.

(** [json.Unmarshal] on what [json.Marshal] wrote. *)
Lemma parse_print j :
  good_numbers j = true → depth j ≤ maxNestingDepth → parse (print j) = Some (clean j).
Proof.
  intros Hg Hd. unfold parse, decode_first.
  pose proof (read_value_print j (S (String.length (print j))) maxNestingDepth "" Hg Hd) as E.
  rewrite str_app_nil_r in E. by rewrite E by (first [done|lia]).
Qed.

(** A larger nesting limit only reads more. *)
Lemma read_deeper n d d' :
  d ≤ d' →
  (∀ s x, read_value n d s = Some x → read_value n d' s = Some x) ∧
  (∀ s x, read_items n d s = Some x → read_items n d' s = Some x) ∧
  (∀ s x, read_members n d s = Some x → read_members n d' s = Some x).
Proof.
  revert d d'. induction n as [|n IH]; intros d d' Hd; [done|]. split_and!; intros s x.
  - cbn [read_value]. destruct (skip_space s) as [|c s']; [done|].
    case_decide; [done|]. case_decide; [|case_decide; [|done]];
      (destruct d as [|d]; [done|]; destruct d' as [|d']; [lia|]; destruct (IH d d' ltac:(lia)) as (_ & Hi & Hm);
       destruct (skip_space s') as [|c' r]; [done|]; case_decide; [done|]).
    + destruct (read_items n d s') as [y|] eqn:E; [|done]. by rewrite (Hi _ _ E).
    + destruct (read_members n d s') as [y|] eqn:E; [|done]. by rewrite (Hm _ _ E).
  - cbn [read_items]. destruct (IH d d' Hd) as (Hv & Hi & _).
    destruct (read_value n d s) as [[y r]|] eqn:E; [|done]. rewrite (Hv _ _ E). cbn.
    destruct (skip_space r) as [|c r']; [done|]. case_decide; [|done].
    destruct (read_items n d r') as [z|] eqn:E'; [|done]. by rewrite (Hi _ _ E').
  - cbn [read_members]. destruct (IH d d' Hd) as (Hv & _ & Hm).
    destruct (skip_space s) as [|c s']; [done|]. case_decide; [|done].
    destruct (read_chars s') as [[k r]|]; [|done]. cbn. destruct (skip_space r) as [|c' r']; [done|].
    case_decide; [|done]. destruct (read_value n d r') as [[y q]|] eqn:E; [|done]. rewrite (Hv _ _ E). cbn.
    destruct (skip_space q) as [|c'' q']; [done|]. case_decide; [|done].
    destruct (read_members n d q') as [z|] eqn:E'; [|done]. by rewrite (Hm _ _ E').
Qed.

(** Whatever is read from the text of a value is this value, however deep it nests. *)
Lemma parse_printed j j' : good_numbers j = true → parse (print j) = Some j' → j' = clean j.
Proof.
  intros Hg. unfold parse, decode_first. intros ([j0 r] & Hr & Hj)%bind_Some.
  destruct (str_empty _); [|done]. injection Hj as ->.
  apply (proj1 (read_deeper _ _ (maxNestingDepth `max` depth j) (Nat.le_max_l _ _))) in Hr.
  pose proof (read_value_print j (S (String.length (print j))) (maxNestingDepth `max` depth j) "" Hg) as E.
  rewrite str_app_nil_r, Hr in E. by injection (E ltac:(lia) ltac:(lia) eq_refl) as -> _.
Qed.

(** [Decoder.Decode] on what [Encoder.Encode] wrote: the value, then a newline. *)
Lemma decode_encode j rest :
  good_numbers j = true → depth j ≤ maxNestingDepth →
  decode_first (print j +:+ String "010" rest) = Some (clean j, String "010" rest).
Proof.
  intros Hg Hd. apply read_value_print; [done..| |done]. rewrite str_app_length. lia.
Qed.

(** ** The text of an integer *)

Lemma pretty_char_digit n : (n < 10)%N →
  is_digit (pretty_N_char n) = true ∧ digit (pretty_N_char n) = Some (Z.of_N n) ∧
  (pretty_N_char n = "0"%char → n = 0%N).
Proof.
  intros H. assert (n = 0 ∨ n = 1 ∨ n = 2 ∨ n = 3 ∨ n = 4 ∨ n = 5 ∨ n = 6 ∨ n = 7 ∨ n = 8 ∨ n = 9)%N as Hn by lia.
  by destruct_or! Hn; subst.
Qed.

(** The digits in front of [s]: no leading zero, and their value. *)
Lemma pretty_go n s : (0 < n)%N →
  ∃ c t, pretty_N_go n s = String c t +:+ s ∧ c ≠ "0"%char ∧
    (∀ u, span_digits (String c t +:+ u) = let '(d, r) := span_digits u in (String c t +:+ d, r)) ∧
    (∀ acc u, ∃ p, Prelude.digits acc (String c t +:+ u) = Prelude.digits (acc * p + Z.of_N n)%Z u).
Proof.
  revert s. induction (N.lt_wf_0 n) as [n _ IH]; intros s Hn.
  rewrite pretty_N_go_step by done. pose proof (N.mod_lt n 10) as Hm.
  destruct (pretty_char_digit (n mod 10)) as (Hd & Hv & Hz); [lia|].
  destruct (decide (n < 10)%N) as [Hs|Hs].
  - rewrite N.div_small, pretty_N_go_0 by done. rewrite N.mod_small in * by done.
    exists (pretty_N_char n), "". split; [done|]. split; [intros ->%Hz; lia|]. split.
    + intros u. rewrite str_app_cons, str_app_nil. cbn [span_digits]. rewrite Hd. by destruct (span_digits u).
    + intros acc u. exists 10%Z. rewrite str_app_cons, str_app_nil. cbn [Prelude.digits]. rewrite Hv. cbn.
      f_equal. lia.
  - destruct (IH (n / 10)%N) with (s := String (pretty_N_char (n mod 10)) s) as (c & t & E & Hc & Hspan & Hval);
      [apply N.div_lt; lia|apply N.div_str_pos; lia|].
    exists c, (t +:+ String (pretty_N_char (n mod 10)) ""). rewrite E. rewrite !str_app_cons, !str_app_assoc.
    split; [by rewrite str_app_cons|]. split; [done|]. split.
    + intros u. specialize (Hspan (String (pretty_N_char (n mod 10)) u)). rewrite str_app_cons in Hspan.
      rewrite !str_app_cons, str_app_assoc, str_app_cons, str_app_nil, Hspan. cbn [span_digits]. rewrite Hd.
      destruct (span_digits u). by rewrite !str_app_cons, str_app_assoc, str_app_cons.
    + intros acc u. destruct (Hval acc (String (pretty_N_char (n mod 10)) u)) as [p Hp].
      exists (10 * p)%Z. rewrite str_app_cons in Hp |- *. rewrite str_app_assoc, str_app_cons, str_app_nil, Hp.
      cbn [Prelude.digits]. rewrite Hv. cbn. f_equal. pose proof (N.div_mod n 10). lia.
Qed.

Lemma pretty_positive_text (x : positive) :
  ∃ c t, pretty (N.pos x) = String c t ∧ c ≠ "0"%char ∧ span_digits (String c t) = (String c t, "") ∧
    unsigned (String c t) = Some (Z.pos x).
Proof.
  destruct (pretty_go (N.pos x) "") as (c & t & E & Hc & Hs & Hv); [lia|]. exists c, t.
  rewrite str_app_nil_r in E. split; [done|]. split; [done|]. split.
  - specialize (Hs ""). rewrite !str_app_nil_r in Hs. rewrite Hs. cbn. by rewrite str_app_nil_r.
  - destruct (Hv 0%Z "") as [p Hp]. rewrite str_app_nil_r in Hp. cbn [unsigned]. by rewrite Hp.
Qed.

Lemma pretty_pos x : pretty (Z.pos x) = pretty (N.pos x).
Proof. done. Qed.
Lemma pretty_neg x : pretty (Z.neg x) = "-" +:+ pretty (N.pos x).
Proof. done. Qed.

Lemma span_head c t d r : span_digits (String c t) = (String c d, r) → is_digit c = true.
Proof. cbn. by destruct (is_digit c). Qed.

Lemma valid_pretty (z : Z) : valid_number (pretty z) = true.
Proof.
  apply bool_decide_eq_true. destruct z as [|x|x]; [done| |];
    destruct (pretty_positive_text x) as (c & t & E & Hc & Hs & _);
    rewrite ?pretty_pos, ?pretty_neg, E; pose proof (span_head _ _ _ _ Hs) as Hd.
  - assert (read_unsigned (String c t) = Some (String c t, "")) as Hr.
    { unfold read_unsigned, read_int. rewrite decide_False, Hd, Hs by done. cbn. by rewrite !str_app_nil_r. }
    unfold read_number. rewrite decide_False by (intros ->; by vm_compute in Hd). done.
  - assert (read_unsigned (String c t) = Some (String c t, "")) as Hr.
    { unfold read_unsigned, read_int. rewrite decide_False, Hd, Hs by done. cbn. by rewrite !str_app_nil_r. }
    rewrite str_app_cons, str_app_nil. unfold read_number. rewrite decide_True by done. by rewrite Hr.
Qed.

Lemma Atoi_unsigned c t :
  is_digit c = true →
  Atoi (String c t) = z ← unsigned (String c t); if decide (- 2 ^ 63 ≤ z ≤ 2 ^ 63 - 1)%Z then Some z else None.
Proof. intros H. destruct c as [[] [] [] [] [] [] [] []]; try (by vm_compute in H); done. Qed.

Lemma Atoi_pretty (z : Z) : in_int64 z → Atoi (pretty z) = Some z.
Proof.
  intros Hz. unfold in_int64, int64_min, int64_max in Hz.
  destruct z as [|x|x]; [done| |]; destruct (pretty_positive_text x) as (c & t & E & Hc & Hs & Hu);
    rewrite ?pretty_pos, ?pretty_neg, E.
  - pose proof (span_head _ _ _ _ Hs) as Hd. rewrite Atoi_unsigned, Hu by done. cbn. by rewrite decide_True by lia.
  - rewrite str_app_cons, str_app_nil. unfold Atoi. rewrite Hu. cbn. by rewrite decide_True by lia.
Qed.

(** ** Values that hold valid UTF-8 only *)

Fixpoint utf8_json (j : json) : bool :=
  match j with
  | JStr s => valid_utf8 s
  | JArr l => forallb utf8_json l
  | JObj l => forallb (λ m, valid_utf8 m.1 && utf8_json m.2) l
  | _ => true
  end.

Lemma clean_utf8 j : utf8_json j = true → clean j = j.
Proof.
  induction j as [|b|lit|s|l IH|l IH] using json_ind; intros H; cbn [clean utf8_json] in *; try done.
  - by rewrite clean_valid.
  - f_equal. induction IH as [|x l Hx _ IHl]; [done|]. rewrite fmap_cons. cbn [forallb] in *. apply andb_prop in H as [? ?].
    by rewrite Hx, IHl.
  - f_equal. induction IH as [|[k x] l Hx _ IHl]; [done|]. rewrite fmap_cons. cbn [forallb fst snd] in *.
    rewrite !andb_true_iff in H. destruct H as [[? ?] ?]. by rewrite clean_valid, Hx, IHl.
Qed.
