(* ===== verification/Float64.v ===== *)
(** * Numbers of JSON as float64

    A JSON number decoded without a type is a float64 ([strconv.ParseFloat]) and is written again
    in the shortest form that reads back as the same float64 (the number encoder of
    [encoding/json]). A float64 is written here as this text, so the two together are one function
    [float64] on literals; [None] is the range error.

    The main result: an integer of at most 53 bits is kept ([float64_int]). *)

From stdpp Require Import pretty.
From S2P Require Import Prelude Json.

#[local] Open Scope Z_scope.

(** ** Rounding to 53 bits *)

Definition half_even (a b : Z) : Z :=
  let f := a / b in
  let r := 2 * (a mod b) in
  if r <? b then f else if b <? r then f + 1 else if Z.even f then f else f + 1.

(** [2 ^ q] as a fraction. *)
Definition pow2_num (q : Z) : Z := 2 ^ Z.max 0 q.
Definition pow2_den (q : Z) : Z := 2 ^ Z.max 0 (- q).

(** The exponent of a positive fraction: [2 ^ e <= n / d < 2 ^ (e + 1)]. *)
Definition exponent (n d : Z) : Z :=
  let k := Z.log2 n - Z.log2 d in
  if d * pow2_num k <=? n * pow2_den k then k else k - 1.

(** A positive float64 is [m * 2 ^ q], with 53 bits or the smallest exponent; [None] is an overflow. *)
Definition normal (m q : Z) : Z * Z := if m =? 2 ^ 53 then (2 ^ 52, q + 1) else (m, q).

Definition round (n d : Z) : option (Z * Z) :=
  let q := Z.max (exponent n d - 52) (-1074) in
  let '(m, q) := normal (half_even (n * pow2_den q) (d * pow2_num q)) q in
  if 971 <? q then None else Some (m, q).

(** ** The shortest decimal *)

(** The number of decimal digits of a natural number. *)
Fixpoint width (fuel : nat) (n : Z) : Z :=
  match fuel with
  | O => 0
  | S fuel => if n <? 1 then 0 else 1 + width fuel (n / 10)
  end.

(** The zeros between the point and the first digit of a fraction below 1. *)
Fixpoint leading_zeros (fuel : nat) (n d : Z) : Z :=
  match fuel with
  | O => 0
  | S fuel => if d <=? 10 * n then 0 else 1 + leading_zeros fuel (10 * n) d
  end.

(** [10 ^ (point - 1) <= n / d < 10 ^ point]. A float64 has at most 309 digits before the point and
    less than 324 zeros behind it. *)
Definition point (n d : Z) : Z := if d <=? n then width 400 (n / d) else - leading_zeros 400 n d.

Definition same_float (f : Z * Z) (o : option (Z * Z)) : bool := bool_decide (o = Some f).

(** A decimal of [i] digits with the same float64, the closer one of two. *)
Definition decimal (f : Z * Z) (n d k i : Z) : option Z :=
  let num := n * 10 ^ Z.max 0 (i - k) in
  let den := d * 10 ^ Z.max 0 (k - i) in
  let lo := num / den in
  let reads c := same_float f (round (c * 10 ^ Z.max 0 (k - i)) (10 ^ Z.max 0 (i - k))) in
  let below := bool_decide (0 < lo) && reads lo in
  let above := negb (num mod den =? 0) && reads (lo + 1) in
  if below && (negb above || (2 * (num mod den) <=? den)) then Some lo
  else if above then Some (lo + 1) else None.

(** The digits, their number and the place of the point. 17 digits are always enough; 9 may become
    10. *)
Fixpoint shortest (fuel : nat) (f : Z * Z) (n d k i : Z) : Z * Z * Z :=
  match fuel with
  | O => (0, 0, k)
  | S fuel =>
      match decimal f n d k i with
      | Some c => if c =? 10 ^ i then (1, 1, k + 1) else (c, i, k)
      | None => shortest fuel f n d k (i + 1)
      end
  end.

Definition zeros (n : Z) : string := foldr (λ _ s, String "0" s) "" (replicate (Z.to_nat n) tt).

(** [i] digits with the point behind the [k]-th. *)
Definition format_f (c i k : Z) : string :=
  if k <=? 0 then "0." +:+ zeros (- k) +:+ pretty c
  else if i <=? k then pretty c +:+ zeros (k - i)
  else String.substring 0 (Z.to_nat k) (pretty c) +:+ "." +:+
       String.substring (Z.to_nat k) (Z.to_nat (i - k)) (pretty c).

Definition format_e (c i k : Z) : string :=
  String.substring 0 1 (pretty c) +:+ (if 1 <? i then "." +:+ String.substring 1 (Z.to_nat (i - 1)) (pretty c) else "")
  +:+ "e" +:+ (if k - 1 <? 0 then "-" else "+") +:+ pretty (Z.abs (k - 1)).

(** The float64 next to 0.000001, as a fraction. *)
Definition micro : Z * Z :=
  Eval vm_compute in default (0, 0) ((λ f, (f.1 * pow2_num f.2, pow2_den f.2)) <$> round 1 (10 ^ 6)).

Definition float_text (f : Z * Z) : string :=
  let n := f.1 * pow2_num f.2 in
  let d := pow2_den f.2 in
  let '(c, i, k) := shortest 17 f n d (point n d) 1 in
  if (n * micro.2 <? micro.1 * d) || (10 ^ 21 * d <=? n) then format_e c i k else format_f c i k.

(** ** Literals *)

(** The digits of a literal without its sign, and the power of ten they are multiplied by. *)
Definition decompose (s : string) : option (Z * Z) :=
  '(i, s) ← read_int s; '(f, s) ← read_frac s; '(e, _) ← read_exp s;
  let frac := match f with String _ f => f | EmptyString => "" end in
  n ← unsigned (i +:+ frac);
  x ← match e with
      | String _ (String "+" x) => unsigned x
      | String _ (String "-" x) => Z.opp <$> unsigned x
      | String _ x => unsigned x
      | EmptyString => Some 0
      end;
  Some (n, x - Z.of_nat (String.length frac)).

(** Far from the range the value is not computed. *)
Definition magnitude (s : string) : option string :=
  '(n, x) ← decompose s;
  if n =? 0 then Some "0"
  else
    let w := Z.log2 n * 3 / 10 + x in
    if w <? -400 then Some "0"
    else if 400 <? w then None
    else
      f ← round (n * 10 ^ Z.max 0 x) (10 ^ Z.max 0 (- x));
      Some (if f.1 =? 0 then "0" else float_text f).

Definition float64 (lit : string) : option string :=
  match lit with
  | String "-" s => String "-" <$> magnitude s
  | _ => magnitude lit
  end.

(** ** Integers are exact *)

(** An integer that 53 bits can hold is its own float64, and another one has another float64. *)
Definition holds (n m q : Z) : Prop := n * pow2_den q = m * pow2_num q.

Lemma holds_inj n n' m q : holds n m q → holds n' m q → n = n'.
Proof.
  unfold holds, pow2_den. intros H1 H2. apply (Z.mul_cancel_r _ _ (2 ^ Z.max 0 (- q))); [|lia].
  apply Z.pow_nonzero; lia.
Qed.

Lemma half_even_exact a b c : 0 < b → a = c * b → half_even a b = c.
Proof.
  intros Hb ->. unfold half_even. rewrite Z.div_mul, Z.mod_mul by lia. cbv zeta.
  by rewrite (proj2 (Z.ltb_lt _ _)) by lia.
Qed.

Lemma exponent_int n : 0 < n → exponent n 1 = Z.log2 n.
Proof.
  intros Hn. unfold exponent. cbv zeta. change (Z.log2 1) with 0. rewrite Z.sub_0_r.
  unfold pow2_num, pow2_den. pose proof (Z.log2_nonneg n). rewrite Z.max_r, Z.max_l by lia.
  destruct (Z.log2_spec n Hn) as [H1 _]. by rewrite (proj2 (Z.leb_le _ _)) by lia.
Qed.

(** Up to [2 ^ 53] every integer is exact; up to [2 ^ 54] the even ones. *)
Lemma round_int n :
  0 < n → n < 2 ^ 53 ∨ n < 2 ^ 54 ∧ Z.even n = true → ∃ m q, round n 1 = Some (m, q) ∧ holds n m q.
Proof.
  intros Hn Hr. unfold round. rewrite exponent_int by done. pose proof (Z.log2_nonneg n) as H0.
  destruct (Z.log2_spec n Hn) as [H1 H2].
  assert (Z.log2 n < 53 ∨ Z.log2 n = 53 ∧ Z.even n = true) as [Hl|[Hl He]].
  { destruct Hr as [Hr|[Hr He]].
    - left. by apply Z.log2_lt_pow2.
    - apply Z.log2_lt_pow2 in Hr; [|done]. destruct (decide (Z.log2 n = 53)); [by right|left; lia]. }
  - set (q := Z.log2 n - 52). rewrite (Z.max_l q) by lia.
    assert (half_even (n * pow2_den q) (1 * pow2_num q) = n * pow2_den q) as ->.
    { unfold pow2_num. rewrite Z.max_l by lia. rewrite Z.mul_1_l. change (2 ^ 0) with 1.
      apply half_even_exact; lia. }
    assert (n * pow2_den q < 2 ^ 53) as Hm.
    { unfold pow2_den. rewrite Z.max_r by lia. replace (2 ^ 53) with (2 ^ Z.succ (Z.log2 n) * 2 ^ (- q)).
      - apply Z.mul_lt_mono_pos_r; [apply Z.pow_pos_nonneg; lia|done].
      - rewrite <- Z.pow_add_r by lia. f_equal. lia. }
    unfold normal. rewrite (proj2 (Z.eqb_neq _ _)) by lia. rewrite (proj2 (Z.ltb_ge _ _)) by lia.
    eexists _, _. split; [done|]. unfold holds, pow2_num. rewrite Z.max_l by lia. change (2 ^ 0) with 1. lia.
  - rewrite Hl. change (Z.max (53 - 52) (-1074)) with 1. change (pow2_den 1) with 1. change (pow2_num 1) with 2.
    apply Z.even_spec in He as [c ->]. rewrite (half_even_exact _ _ c) by lia.
    unfold normal. rewrite Hl in H2. change (2 ^ Z.succ 53) with (2 * 2 ^ 53) in H2.
    rewrite (proj2 (Z.eqb_neq _ _)) by lia. eexists _, _. split; [done|].
    unfold holds. change (pow2_den 1) with 1. change (pow2_num 1) with 2. lia.
Qed.

(** ** Integers are printed as they are *)

Lemma width_spec fuel z : 0 < z < 10 ^ Z.of_nat fuel → 1 ≤ width fuel z ∧ 10 ^ (width fuel z - 1) ≤ z < 10 ^ width fuel z.
Proof.
  revert z. induction fuel as [|fuel IH]; intros z Hz; [cbn in Hz; lia|]. cbn [width].
  rewrite (proj2 (Z.ltb_ge z 1)) by lia. rewrite Nat2Z.inj_succ, Z.pow_succ_r in Hz by lia.
  destruct (decide (z < 10)) as [Hs|Hs].
  - rewrite Z.div_small by lia. replace (width fuel 0) with 0 by (by destruct fuel). cbn. lia.
  - set (P := 10 ^ Z.of_nat fuel) in *. clearbody P. destruct (IH (z / 10)) as (H1 & H2 & H3).
    { Z.to_euclidean_division_equations; lia. }
    set (w := width fuel (z / 10)) in *. split; [lia|]. replace (1 + w - 1) with (Z.succ (w - 1)) by lia.
    rewrite (Z.add_comm 1 w), Z.add_1_r, !Z.pow_succ_r by lia.
    set (a := 10 ^ (w - 1)) in *. set (b := 10 ^ w) in *. clearbody a b w. Z.to_euclidean_division_equations; lia.
Qed.

Lemma pretty_go_app n s : pretty_N_go n s = pretty_N_go n "" +:+ s.
Proof.
  revert s. induction (N.lt_wf_0 n) as [n _ IH]; intros s. destruct (decide (n = 0)%N) as [->|Hn]; [done|].
  rewrite (pretty_N_go_step n s), (pretty_N_go_step n "") by lia.
  assert (n / 10 < n)%N as Hlt by (apply N.div_lt; lia).
  rewrite (IH _ Hlt (String _ s)). rewrite (IH _ Hlt (String _ EmptyString)).
  by rewrite str_app_assoc, str_app_cons, str_app_nil.
Qed.

Lemma pretty_ten z : 0 < z → pretty (10 * z) = pretty z +:+ "0".
Proof.
  intros Hz. destruct z as [|x|x]; try lia. change (10 * Z.pos x) with (Z.pos (10 * x)). rewrite !pretty_pos.
  change (pretty (N.pos (10 * x))) with (pretty_N_go (N.pos (10 * x)) "").
  change (pretty (N.pos x)) with (pretty_N_go (N.pos x) "").
  rewrite pretty_N_go_step by lia. change (N.pos (10 * x)) with (10 * N.pos x)%N.
  rewrite N.mul_comm, N.div_mul, N.Div0.mod_mul by lia. apply pretty_go_app.
Qed.

Lemma pretty_zeros c k : 0 < c → pretty c +:+ zeros (Z.of_nat k) = pretty (c * 10 ^ Z.of_nat k).
Proof.
  intros Hc. unfold zeros. rewrite Nat2Z.id. revert c Hc. induction k as [|k IH]; intros c Hc.
  - cbn. by rewrite str_app_nil_r, Z.mul_1_r.
  - cbn [replicate foldr]. rewrite Nat2Z.inj_succ, Z.pow_succ_r, Z.mul_assoc, (Z.mul_comm c 10) by lia.
    rewrite <- IH by lia. rewrite pretty_ten by done. by rewrite str_app_assoc, str_app_cons, str_app_nil.
Qed.

Section integer.
Context (z : Z) (Hz : 0 < z ≤ 2 ^ 53) (f : Z * Z) (Hf : round z 1 = Some f).

Lemma reads_int c : 0 < c → c < 2 ^ 53 ∨ c < 2 ^ 54 ∧ Z.even c = true → same_float f (round c 1) = (c =? z).
Proof using Hz Hf.
  intros Hc Hr. destruct (round_int c Hc Hr) as (m & q & Hm & Hh).
  destruct (round_int z) as (m' & q' & Hm' & Hh'); [lia| |].
  { destruct (decide (z = 2 ^ 53)) as [->|]; [right; split; [lia|done]|left; lia]. }
  rewrite Hf in Hm'. injection Hm' as ->. unfold same_float. rewrite Hm.
  destruct (Z.eqb_spec c z) as [->|Hne]; [apply bool_decide_eq_true|apply bool_decide_eq_false].
  - congruence.
  - intros [= -> ->]. by apply Hne, (holds_inj _ _ m' q').
Qed.

Lemma float_is_int : f.1 * pow2_num f.2 = z * pow2_den f.2 ∧ 0 < pow2_den f.2.
Proof using Hz Hf.
  split; [|apply Z.pow_pos_nonneg; lia].
  destruct (round_int z) as (m & q & Hm & Hh); [lia| |].
  { destruct (decide (z = 2 ^ 53)) as [->|]; [right; split; [lia|done]|left; lia]. }
  rewrite Hf in Hm. injection Hm as ->. cbn. by unfold holds in Hh.
Qed.

Context (k : Z) (Hk : 1 ≤ k ∧ 10 ^ (k - 1) ≤ z < 10 ^ k).

Lemma places : k ≤ 16.
Proof using Hz Hk.
  destruct (decide (k ≤ 16)); [done|]. destruct Hk as (_ & H & _).
  assert (10 ^ 16 ≤ 10 ^ (k - 1)) by (apply Z.pow_le_mono_r; lia). lia.
Qed.

(** With [i] digits: exact when the digits that are left out are zeros, otherwise no decimal reads
    back. *)
Lemma decimal_int i :
  1 ≤ i ≤ k →
  decimal f (f.1 * pow2_num f.2) (pow2_den f.2) k i
  = if z mod 10 ^ (k - i) =? 0 then Some (z / 10 ^ (k - i)) else None.
Proof using Hz Hf Hk.
  intros Hi. destruct float_is_int as [-> Hd]. pose proof places as H16.
  set (d := pow2_den f.2) in *. unfold decimal.
  rewrite (Z.max_l 0 (i - k)), (Z.max_r 0 (k - i)) by lia. change (10 ^ 0) with 1. rewrite Z.mul_1_r.
  set (p := 10 ^ (k - i)).
  assert (0 < p) as Hp by (apply Z.pow_pos_nonneg; lia).
  assert (p ≤ 10 ^ (k - 1)) as Hpz by (apply Z.pow_le_mono_r; lia).
  assert (10 ^ (k - 1) ≤ 10 ^ 15) as Hp15 by (apply Z.pow_le_mono_r; lia).
  assert (p = 1 ∨ Z.even p = true) as Hev.
  { destruct (decide (k = i)) as [->|]; [left; subst p; by rewrite Z.sub_diag|right].
    subst p. replace (k - i) with (Z.succ (k - i - 1)) by lia. rewrite Z.pow_succ_r by lia. by rewrite Z.even_mul. }
  rewrite (Z.mul_comm z d), Z.div_mul_cancel_l, Zmult_mod_distr_l by lia.
  pose proof (Z.div_mod z p ltac:(lia)) as Hdm. pose proof (Z.mod_pos_bound z p Hp) as Hmod.
  set (lo := z / p) in *. set (r := z mod p) in *.
  assert (0 < lo) as Hlo by nia.
  rewrite bool_decide_true by done.
  rewrite (reads_int (lo * p)); [|nia|].
  2: { destruct (decide (lo * p < 2 ^ 53)); [by left|right]. assert (r = 0) as Hr by nia.
       assert (lo * p = 2 ^ 53) as -> by nia. split; [lia|done]. }
  destruct (Z.eqb_spec r 0) as [Hr|Hr].
  - rewrite (proj2 (Z.eqb_eq (d * r) 0)) by nia. rewrite (proj2 (Z.eqb_eq (lo * p) z)) by nia. done.
  - rewrite (proj2 (Z.eqb_neq (d * r) 0)) by nia. rewrite (proj2 (Z.eqb_neq (lo * p) z)) by nia.
    rewrite (reads_int ((lo + 1) * p)); [|nia|].
    + by rewrite (proj2 (Z.eqb_neq ((lo + 1) * p) z)) by nia.
    + right. split; [nia|]. destruct Hev as [Hp1|Hev]; [nia|]. rewrite Z.even_mul, Hev. by rewrite orb_true_r.
Qed.

Lemma shortest_int fuel i :
  1 ≤ i ≤ k → k < i + Z.of_nat fuel →
  ∃ i', 1 ≤ i' ≤ k ∧ z mod 10 ^ (k - i') = 0 ∧
    shortest fuel f (f.1 * pow2_num f.2) (pow2_den f.2) k i = (z / 10 ^ (k - i'), i', k).
Proof using Hz Hf Hk.
  revert i. induction fuel as [|fuel IH]; intros i Hi Hfuel; [lia|]. cbn [shortest]. rewrite decimal_int by done.
  destruct (Z.eqb_spec (z mod 10 ^ (k - i)) 0) as [Hr|Hr].
  - exists i. split; [done|]. split; [done|].
    assert (z / 10 ^ (k - i) < 10 ^ i) as Hlt.
    { apply Z.div_lt_upper_bound; [apply Z.pow_pos_nonneg; lia|]. rewrite <- Z.pow_add_r by lia.
      replace (k - i + i) with k by lia. lia. }
    by rewrite (proj2 (Z.eqb_neq _ _)) by lia.
  - apply IH; [|lia]. split; [lia|]. destruct (decide (i = k)) as [->|]; [|lia].
    rewrite Z.sub_diag in Hr. by rewrite Z.mod_1_r in Hr.
Qed.
End integer.

Lemma float_text_int z f : 0 < z ≤ 2 ^ 53 → round z 1 = Some f → float_text f = pretty z.
Proof.
  intros Hz Hf. destruct (float_is_int z Hz f Hf) as [Hn Hd].
  assert (point (f.1 * pow2_num f.2) (pow2_den f.2) = width 400 z) as Hp.
  { unfold point. rewrite Hn, (proj2 (Z.leb_le _ _)) by nia. by rewrite Z.div_mul by lia. }
  pose proof (width_spec 400 z) as Hk. unfold float_text. rewrite Hp. set (k := width 400 z) in *.
  assert (1 ≤ k ∧ 10 ^ (k - 1) ≤ z < 10 ^ k) as Hk'.
  { apply Hk. split; [lia|]. assert (10 ^ 16 ≤ 10 ^ Z.of_nat 400) by (apply Z.pow_le_mono_r; lia). lia. }
  pose proof (places z Hz k Hk') as H16.
  destruct (shortest_int z Hz f Hf k Hk' 17 1) as (i & Hi & Hr & ->); [lia|lia|].
  rewrite Hn. rewrite (proj2 (Z.ltb_ge _ _)), (proj2 (Z.leb_gt _ _)) by (cbn [micro fst snd]; nia). cbn [orb].
  unfold format_f. rewrite (proj2 (Z.leb_gt _ _)), (proj2 (Z.leb_le _ _)) by lia.
  replace (k - i) with (Z.of_nat (Z.to_nat (k - i))) by lia. rewrite pretty_zeros; rewrite Z2Nat.id by lia.
  - f_equal. pose proof (Z.div_mod z (10 ^ (k - i))) as Hdm. rewrite Hr in Hdm.
    assert (10 ^ (k - i) ≠ 0) by (apply Z.pow_nonzero; lia). lia.
  - apply Z.div_str_pos. split; [apply Z.pow_pos_nonneg; lia|].
    transitivity (10 ^ (k - 1)); [apply Z.pow_le_mono_r; lia|lia].
Qed.

Lemma decompose_pretty (x : positive) : decompose (pretty (N.pos x)) = Some (Z.pos x, 0).
Proof.
  destruct (pretty_positive_text x) as (c & t & -> & Hc & Hs & Hu). pose proof (span_head _ _ _ _ Hs) as Hd.
  unfold decompose, read_int. rewrite decide_False, Hd, Hs by done. cbn [mbind option_bind read_frac read_exp].
  by rewrite str_app_nil_r, Hu.
Qed.

Lemma magnitude_int (x : positive) : Z.pos x ≤ 2 ^ 53 → magnitude (pretty (N.pos x)) = Some (pretty (N.pos x)).
Proof.
  intros Hx. unfold magnitude. rewrite decompose_pretty. cbn [mbind option_bind]. rewrite (proj2 (Z.eqb_neq _ _)) by lia.
  assert (Z.log2 (Z.pos x) ≤ 53) by (rewrite <- (Z.log2_pow2 53) by lia; by apply Z.log2_le_mono).
  pose proof (Z.log2_nonneg (Z.pos x)).
  assert (0 ≤ Z.log2 (Z.pos x) * 3 / 10 ≤ 400) by (Z.to_euclidean_division_equations; lia).
  rewrite (proj2 (Z.ltb_ge _ _)), (proj2 (Z.ltb_ge _ _)) by lia.
  change (10 ^ Z.max 0 (- 0)) with 1. change (10 ^ Z.max 0 0) with 1. rewrite Z.mul_1_r.
  destruct (round_int (Z.pos x)) as (m & q & Hm & Hh); [lia| |].
  { destruct (decide (Z.pos x = 2 ^ 53)) as [->|]; [right; split; [lia|done]|left; lia]. }
  rewrite Hm. cbn [mbind option_bind fst]. rewrite (float_text_int (Z.pos x)) by (first [done|lia]).
  destruct (Z.eqb_spec m 0) as [->|]; [|done]. unfold holds, pow2_den in Hh.
  assert (0 < 2 ^ Z.max 0 (- q)) by (apply Z.pow_pos_nonneg; lia). nia.
Qed.

(** An integer of at most 53 bits is kept. *)
Lemma float64_int z : Z.abs z ≤ 2 ^ 53 → float64 (pretty z) = Some (pretty z).
Proof.
  intros Hz. destruct z as [|x|x]; [done| |].
  - rewrite pretty_pos. destruct (pretty_positive_text x) as (c & t & E & Hc & Hs & _).
    pose proof (span_head _ _ _ _ Hs) as Hd. pose proof (magnitude_int x Hz) as Hm. rewrite E in *.
    rewrite <- Hm. unfold float64. destruct c as [[] [] [] [] [] [] [] []]; try (by vm_compute in Hd); done.
  - rewrite pretty_neg, str_app_cons, str_app_nil. cbn [float64]. by rewrite magnitude_int.
Qed.

#[global] Arguments float64 : simpl never.

(** ** Examples *)

Example float64_tenth : float64 "0.1" = Some "0.1".
Proof. vm_compute. reflexivity. Qed.
Example float64_54_bits : float64 "9007199254740993" = Some "9007199254740992".
Proof. vm_compute. reflexivity. Qed.
Example float64_exponent : float64 "-1.50e3" = Some "-1500".
Proof. vm_compute. reflexivity. Qed.
Example float64_overflow : float64 "2e308" = None.
Proof. vm_compute. reflexivity. Qed.
Example float64_large : float64 "1e23" = Some "1e+23".
Proof. vm_compute. reflexivity. Qed.
Example float64_small : float64 "0.000001" = Some "0.000001".
Proof. vm_compute. reflexivity. Qed.
Example float64_minus_zero : float64 "-0.0" = Some "-0".
Proof. vm_compute. reflexivity. Qed.
