(* ===== verification/Rfc3339.v ===== *)
(** * Times as RFC 3339 text

    What the program uses of [time.Time] in JSON: [MarshalJSON] writes a time in UTC as
    [2006-01-02T15:04:05.999999999Z], without the zeros at the end of the fraction, and fails for a
    year of more than four digits; [UnmarshalJSON] reads RFC 3339 with any zone. A time is its number
    of nanoseconds since 1970; [None] is the zero time, the first second of the year 1.

    The main result is the round trip [time_kept]. *)

From S2P Require Import Prelude Json.

#[local] Ltac Zify.zify_post_hook ::= Z.to_euclidean_division_equations.
#[local] Open Scope Z_scope.

(** ** The calendar *)

Definition leap (y : Z) : bool := (y mod 4 =? 0) && (negb (y mod 100 =? 0) || (y mod 400 =? 0)).

Definition daysIn (m y : Z) : Z :=
  if m =? 2 then if leap y then 29 else 28
  else if (m =? 4) || (m =? 6) || (m =? 9) || (m =? 11) then 30 else 31.

(** Days since 1970-01-01. Years are counted from March, in eras of 400 years. *)
Definition days_from_civil (y m d : Z) : Z :=
  let y' := if m <=? 2 then y - 1 else y in
  let yoe := y' mod 400 in
  let mp := if 2 <? m then m - 3 else m + 9 in
  let doy := (153 * mp + 2) / 5 + d - 1 in
  y' / 400 * 146097 + (yoe * 365 + yoe / 4 - yoe / 100 + doy) - 719468.

Definition civil_from_days (z : Z) : Z * Z * Z :=
  let z := z + 719468 in
  let doe := z mod 146097 in
  let yoe := (doe - doe / 1460 + doe / 36524 - doe / 146096) / 365 in
  let doy := doe - (365 * yoe + yoe / 4 - yoe / 100) in
  let mp := (5 * doy + 2) / 153 in
  let d := doy - (153 * mp + 2) / 5 + 1 in
  let m := if mp <? 10 then mp + 3 else mp - 9 in
  let y := yoe + z / 146097 * 400 in
  ((if m <=? 2 then y + 1 else y), m, d).

(** The year of an era and the day of this year; the last day of a year of 366 days is the leap
    day. *)
Lemma year_of_era doe yoe doy :
  0 ≤ doe < 146097 →
  yoe = (doe - doe / 1460 + doe / 36524 - doe / 146096) / 365 →
  doy = doe - (365 * yoe + yoe / 4 - yoe / 100) →
  0 ≤ yoe < 400 ∧ 0 ≤ doy ≤ 365 ∧ (doy = 365 → leap (yoe + 1) = true).
Proof.
  intros H Hy Hd.
  assert (0 ≤ yoe < 400) by lia. split; [assumption|].
  assert (0 ≤ doy ≤ 365) by lia. split; [assumption|]. intros E. unfold leap. lia.
Qed.

(** The month, counted from March, and its day. *)
Lemma month_day doy mp d m :
  0 ≤ doy ≤ 365 → mp = (5 * doy + 2) / 153 → d = doy - (153 * mp + 2) / 5 + 1 →
  m = (if mp <? 10 then mp + 3 else mp - 9) →
  1 ≤ m ≤ 12 ∧ 1 ≤ d ∧ (if 2 <? m then m - 3 else m + 9) = mp ∧ (m <=? 2) = negb (mp <? 10) ∧
  ∀ y, (doy = 365 → leap y = true) → d ≤ daysIn m y.
Proof.
  intros H Hm Hd ->.
  assert (0 ≤ mp ≤ 11) by lia.
  assert (mp = 0 ∨ mp = 1 ∨ mp = 2 ∨ mp = 3 ∨ mp = 4 ∨ mp = 5 ∨ mp = 6 ∨ mp = 7 ∨ mp = 8 ∨ mp = 9 ∨ mp = 10 ∨ mp = 11)
    as C by lia.
  assert (1 ≤ d) by lia.
  split; [destruct (Z.ltb_spec mp 10); lia|]. split; [lia|].
  split. { destruct (Z.ltb_spec mp 10), (Z.ltb_spec 2 (mp+3)), (Z.ltb_spec 2 (mp-9)); lia. }
  split. { destruct (Z.ltb_spec mp 10); cbn; [apply Z.leb_gt|apply Z.leb_le]; lia. }
  intros y Hy.
  repeat destruct C as [->|C]; [..|revert C; intros ->]; cbv -[Z.le leap]; try lia.
  destruct (leap y); [lia|]. assert (doy ≠ 365) by (intros ->; discriminate (Hy eq_refl)). lia.
Qed.

Lemma leap_era y k : leap (y + k * 400) = leap y.
Proof. unfold leap. rewrite (Z.add_comm y). f_equal; [|f_equal; [f_equal|]]; f_equal; lia. Qed.

Lemma civil_days z y m d :
  civil_from_days z = (y, m, d) → days_from_civil y m d = z ∧ 1 ≤ m ≤ 12 ∧ 1 ≤ d ≤ daysIn m y.
Proof.
  unfold civil_from_days. cbv zeta. set (z' := z + 719468). set (doe := z' mod 146097).
  set (yoe := _ / 365). set (doy := doe - _). set (mp := _ / 153).
  set (d0 := doy - (153 * mp + 2) / 5 + 1). set (m0 := if mp <? 10 then mp + 3 else mp - 9). intros [= <- <- <-].
  destruct (year_of_era doe yoe doy) as (Hy & Hd & Hl); [subst doe; lia|reflexivity|reflexivity|].
  destruct (month_day doy mp d0 m0 Hd eq_refl eq_refl eq_refl) as (Hm & Hd1 & Hmp & Hlt & Hin).
  split; [|split; [exact Hm|split; [exact Hd1|]]].
  - unfold days_from_civil. cbv zeta. rewrite Hmp.
    set (y0 := yoe + _ * 400). set (y1 := if m0 <=? 2 then y0 + 1 else y0).
    replace (if m0 <=? 2 then y1 - 1 else y1) with y0 by (subst y1; destruct (m0 <=? 2); lia). subst y0.
    rewrite Z.mod_add, Z.mod_small, Z.div_add, Z.div_small by lia.
    assert (doy = doe - (365 * yoe + yoe / 4 - yoe / 100)) as Ed by reflexivity.
    assert (doe = z' - 146097 * (z' / 146097)) as Ee by (subst doe; lia).
    assert (z' = z + 719468) as Ez by reflexivity.
    assert (d0 = doy - (153 * mp + 2) / 5 + 1) as E0 by reflexivity. clear y1. clearbody d0 m0 mp doy yoe doe z'. lia.
  - apply Hin. intros E. specialize (Hl E).
    assert ((m0 <=? 2) = true) as ->.
    { rewrite Hlt. assert (mp = 11) as -> by (subst mp; rewrite E; reflexivity). reflexivity. }
    rewrite <- Hl. replace (yoe + z' / 146097 * 400 + 1) with (yoe + 1 + z' / 146097 * 400) by lia. apply leap_era.
Qed.

(** ** Numbers of a fixed width *)

Definition show_digit (d : Z) : Ascii.ascii := Ascii.ascii_of_nat (Z.to_nat (48 + d)).

Definition digit_value (c : Ascii.ascii) : option Z :=
  if is_digit c then Some (Z.of_nat (Ascii.nat_of_ascii c) - 48) else None.

(** The last [n] digits of a number. *)
Fixpoint last_digits (n : nat) (z : Z) : list Z :=
  match n with
  | O => []
  | S n => last_digits n (z / 10) ++ [z mod 10]
  end.

Definition number (l : list Z) : Z := foldl (λ a d, 10 * a + d) 0 l.

Definition show (l : list Z) : string := foldr (λ d s, String (show_digit d) s) "" l.

(** [n] digits of a text, and what follows. *)
Fixpoint read_digits (n : nat) (s : string) : option (list Z * string) :=
  match n, s with
  | O, _ => Some ([], s)
  | S n, String c s => d ← digit_value c; '(l, r) ← read_digits n s; Some (d :: l, r)
  | S _, EmptyString => None
  end.

Definition read_fixed (n : nat) (s : string) : option (Z * string) :=
  '(l, r) ← read_digits n s; Some (number l, r).

Definition expect (c : Ascii.ascii) (s : string) : option string :=
  match s with String c' r => if decide (c' = c) then Some r else None | EmptyString => None end.

Abbreviation is_digits := (Forall (λ d, 0 ≤ d ≤ 9)).

Lemma digit_cases (P : Z → Prop) :
  P 0 → P 1 → P 2 → P 3 → P 4 → P 5 → P 6 → P 7 → P 8 → P 9 → ∀ d, 0 ≤ d ≤ 9 → P d.
Proof.
  intros; assert (d = 0 ∨ d = 1 ∨ d = 2 ∨ d = 3 ∨ d = 4 ∨ d = 5 ∨ d = 6 ∨ d = 7 ∨ d = 8 ∨ d = 9) as C by lia.
  repeat destruct C as [->|C]; [done..|by subst].
Qed.

Lemma digit_shown d : 0 ≤ d ≤ 9 → is_digit (show_digit d) = true ∧ digit_value (show_digit d) = Some d.
Proof. revert d. by apply digit_cases. Qed.

Lemma last_digits_ok n z : is_digits (last_digits n z) ∧ length (last_digits n z) = n.
Proof.
  revert z. induction n as [|n IH]; intros z; cbn [last_digits]; [done|]. destruct (IH (z / 10)) as [Hd Hl].
  rewrite length_app, Hl. cbn. split; [|lia]. apply Forall_app. split; [done|]. constructor; [lia|done].
Qed.

Lemma number_snoc l d : number (l ++ [d]) = 10 * number l + d.
Proof. unfold number. by rewrite foldl_app. Qed.

Lemma number_last_digits n z : 0 ≤ z < 10 ^ Z.of_nat n → number (last_digits n z) = z.
Proof.
  revert z. induction n as [|n IH]; intros z Hz.
  - cbn in *. unfold number. cbn. lia.
  - cbn [last_digits]. rewrite number_snoc, IH; [lia|].
    rewrite Nat2Z.inj_succ, Z.pow_succ_r in Hz by lia. set (p := 10 ^ Z.of_nat n) in *. clearbody p. lia.
Qed.

Lemma read_shown l rest : is_digits l → read_digits (length l) (show l +:+ rest) = Some (l, rest).
Proof.
  induction 1 as [|d l Hd Hl IH]; [done|]. cbn [show foldr length read_digits]. rewrite str_app_cons. cbn.
  fold (show l). rewrite (proj2 (digit_shown d Hd)). cbn. by rewrite IH.
Qed.

Lemma read_fixed_show n z rest :
  0 ≤ z < 10 ^ Z.of_nat n → read_fixed n (show (last_digits n z) +:+ rest) = Some (z, rest).
Proof.
  intros Hz. unfold read_fixed. destruct (last_digits_ok n z) as [Hd Hl].
  rewrite <- Hl at 1. rewrite read_shown by done. cbn. by rewrite number_last_digits.
Qed.

(** ** The text of a time *)

Fixpoint strip (l : list Z) : list Z :=
  match l with
  | [] => []
  | d :: l => match strip l with [] => if decide (d = 0) then [] else [d] | l' => d :: l' end
  end.

Definition fraction (ns : Z) : string := match strip (last_digits 9 ns) with [] => "" | l => "." +:+ show l end.

Definition zero_time : Z := days_from_civil 1 1 1 * 86400 * 10 ^ 9.

(** The text of a day, a second of it and a fraction of the second. *)
Definition text (y m d s ns : Z) : string :=
  show (last_digits 4 y) +:+ "-" +:+ show (last_digits 2 m) +:+ "-" +:+ show (last_digits 2 d) +:+ "T" +:+
  show (last_digits 2 (s / 3600)) +:+ ":" +:+ show (last_digits 2 (s / 60 mod 60)) +:+ ":" +:+
  show (last_digits 2 (s mod 60)) +:+ fraction ns +:+ "Z".

(** [Time.MarshalJSON] without its quotes, for a time in UTC. *)
Definition time_text (t : option Z) : option string :=
  let t := default zero_time t in
  let secs := t / 10 ^ 9 in
  let '(y, m, d) := civil_from_days (secs / 86400) in
  if decide (0 ≤ y ≤ 9999) then Some (text y m d (secs mod 86400) (t mod 10 ^ 9)) else None.

(** *** Reading *)

Definition in_range (lo hi z : Z) : option unit := if decide (lo ≤ z ≤ hi) then Some () else None.

(** A fraction needs a digit; digits after the ninth are dropped. *)
Definition read_fraction (s : string) : Z * string :=
  match s with
  | String c r =>
      let '(ds, r') := span_digits r in
      if decide (c = "."%char ∧ ds ≠ "") then
        let l := take 9 (omap digit_value (String.list_ascii_of_string ds)) in
        (number l * 10 ^ (9 - Z.of_nat (length l)), r')
      else (0, s)
  | EmptyString => (0, s)
  end.

(** The seconds a zone is ahead of UTC. *)
Definition read_zone (s : string) : option Z :=
  match s with
  | String c r =>
      if decide (c = "Z"%char ∧ r = "") then Some 0
      else
        '(h, r) ← read_fixed 2 r; r ← expect ":"%char r; '(m, r) ← read_fixed 2 r;
        in_range 0 23 h;; in_range 0 59 m;;
        if decide (r = "") then
          if decide (c = "-"%char) then Some (- ((h * 60 + m) * 60))
          else if decide (c = "+"%char) then Some ((h * 60 + m) * 60) else None
        else None
  | EmptyString => None
  end.

(** The date and the time of the day. *)
Definition read_date (s : string) : option ((Z * Z * Z) * string) :=
  '(y, s) ← read_fixed 4 s; s ← expect "-"%char s;
  '(m, s) ← read_fixed 2 s; s ← expect "-"%char s;
  '(d, s) ← read_fixed 2 s;
  in_range 1 12 m;; in_range 1 (daysIn m y) d;; Some ((y, m, d), s).

Definition read_clock (s : string) : option (Z * string) :=
  '(hh, s) ← read_fixed 2 s; s ← expect ":"%char s;
  '(mm, s) ← read_fixed 2 s; s ← expect ":"%char s;
  '(ss, s) ← read_fixed 2 s;
  in_range 0 23 hh;; in_range 0 59 mm;; in_range 0 59 ss;; Some (hh * 3600 + mm * 60 + ss, s).

(** [parseStrictRFC3339]. *)
Definition time_value (s : string) : option (option Z) :=
  '((y, m, d), s) ← read_date s; s ← expect "T"%char s; '(sec, s) ← read_clock s;
  let '(ns, s) := read_fraction s in
  zone ← read_zone s;
  let t := (days_from_civil y m d * 86400 + sec - zone) * 10 ^ 9 + ns in
  Some (if decide (t = zero_time) then None else Some t).

(** ** Times come back *)

Lemma strip_app l : ∃ k, l = strip l ++ replicate k 0.
Proof.
  induction l as [|d l (k & Hk)]; [by exists O|]. cbn [strip]. destruct (strip l) as [|e l'].
  - case_decide as Hd; [exists (S k)|exists k]; cbn; rewrite Hk at 1; by rewrite ?Hd.
  - exists k. by rewrite Hk at 1.
Qed.

Lemma number_zeros l k : number (l ++ replicate k 0) = number l * 10 ^ Z.of_nat k.
Proof.
  induction k as [|k IH]; [rewrite app_nil_r; lia|].
  rewrite replicate_S_end, app_assoc, number_snoc, IH, Nat2Z.inj_succ, Z.pow_succ_r by lia. lia.
Qed.

Lemma span_shown l rest :
  is_digits l → number_stops rest = true → span_digits (show l +:+ rest) = (show l, rest).
Proof.
  intros Hl Hr. rewrite span_digits_app by done.
  assert (span_digits (show l) = (show l, "")) as ->; [|done].
  induction Hl as [|d l Hd Hl IH]; [done|]. cbn [show foldr span_digits]. fold (show l).
  by rewrite (proj1 (digit_shown d Hd)), IH.
Qed.

Lemma shown_values l : is_digits l → omap digit_value (String.list_ascii_of_string (show l)) = l.
Proof.
  induction 1 as [|d l Hd Hl IH]; [done|]. cbn [show foldr String.list_ascii_of_string omap list_omap].
  fold (show l). rewrite (proj2 (digit_shown d Hd)). by f_equal.
Qed.

Lemma read_fraction_text ns : 0 ≤ ns < 10 ^ 9 → read_fraction (fraction ns +:+ "Z") = (ns, "Z").
Proof.
  intros Hns. destruct (last_digits_ok 9 ns) as [Hd Hl]. pose proof (number_last_digits 9 ns Hns) as Hn.
  destruct (strip_app (last_digits 9 ns)) as (k & Hk). unfold fraction.
  assert (is_digits (strip (last_digits 9 ns))) as Hs by (rewrite Hk in Hd; by apply Forall_app in Hd as [? _]).
  assert (number (strip (last_digits 9 ns)) * 10 ^ Z.of_nat k = ns) as Hv by (by rewrite <- number_zeros, <- Hk).
  assert (Z.of_nat k = 9 - Z.of_nat (length (strip (last_digits 9 ns)))) as Hlen.
  { rewrite Hk, length_app, length_replicate in Hl. lia. }
  destruct (strip (last_digits 9 ns)) as [|d l] eqn:El.
  - cbn in Hv. unfold number in Hv. cbn in Hv. by replace ns with 0 by lia.
  - unfold read_fraction. rewrite str_app_assoc, str_app_cons, str_app_nil, span_shown by done.
    rewrite decide_True by done. rewrite shown_values by done.
    rewrite take_ge by lia. by rewrite <- Hlen, Hv.
Qed.

Lemma in_range_ok lo hi z : lo ≤ z ≤ hi → in_range lo hi z = Some ().
Proof. intros H. unfold in_range. by rewrite decide_True. Qed.

Lemma read_date_text y m d rest :
  0 ≤ y ≤ 9999 → 1 ≤ m ≤ 12 → 1 ≤ d ≤ daysIn m y →
  read_date (show (last_digits 4 y) +:+ "-" +:+ show (last_digits 2 m) +:+ "-" +:+ show (last_digits 2 d) +:+ rest)
  = Some ((y, m, d), rest).
Proof.
  intros Hy Hm Hd. assert (daysIn m y ≤ 31) by (unfold daysIn; repeat case_match; lia). unfold read_date.
  do 2 (rewrite read_fixed_show by (cbn; lia); cbn [mbind option_bind]; rewrite str_app_cons, str_app_nil;
        cbn [expect]; rewrite decide_True by done; cbn [mbind option_bind]).
  rewrite read_fixed_show by (cbn; lia). cbn [mbind option_bind]. by rewrite !in_range_ok.
Qed.

Lemma read_clock_text s rest :
  0 ≤ s < 86400 →
  read_clock (show (last_digits 2 (s / 3600)) +:+ ":" +:+ show (last_digits 2 (s / 60 mod 60)) +:+ ":" +:+
              show (last_digits 2 (s mod 60)) +:+ rest) = Some (s, rest).
Proof.
  intros Hs. unfold read_clock.
  do 2 (rewrite read_fixed_show by (cbn; lia); cbn [mbind option_bind]; rewrite str_app_cons, str_app_nil;
        cbn [expect]; rewrite decide_True by done; cbn [mbind option_bind]).
  rewrite read_fixed_show by (cbn; lia). cbn [mbind option_bind]. rewrite !in_range_ok by lia. cbn.
  do 2 f_equal. lia.
Qed.

(** A time whose year has at most four digits is read back from its text. *)
Lemma time_kept t s : t ≠ Some zero_time → time_text t = Some s → time_value s = Some t.
Proof.
  intros Ht. unfold time_text. set (z := default zero_time t). set (secs := z / 10 ^ 9).
  destruct (civil_from_days (secs / 86400)) as [[y m] d] eqn:Hc. apply civil_days in Hc as (Hdays & Hm & Hd).
  case_decide as Hy; [|done]. intros [= <-]. unfold time_value, text.
  rewrite read_date_text by done. cbn [mbind option_bind]. rewrite str_app_cons, str_app_nil. cbn [expect].
  rewrite decide_True by done. cbn [mbind option_bind]. rewrite read_clock_text by lia. cbn [mbind option_bind].
  rewrite read_fraction_text by lia. cbn [read_zone]. rewrite decide_True by done. cbn [mbind option_bind].
  assert ((days_from_civil y m d * 86400 + secs mod 86400 - 0) * 10 ^ 9 + z mod 10 ^ 9 = z) as ->.
  { rewrite Hdays. subst secs. lia. }
  subst z. destruct t as [t|]; cbn [from_option id]; [by rewrite decide_False by (intros ->; done)|done].
Qed.

(** Years begin where the calendar says. *)
Lemma year_days y m d :
  1 ≤ m ≤ 12 → 1 ≤ d ≤ 31 →
  (0 ≤ y ↔ -719528 ≤ days_from_civil y m d) ∧ (y ≤ 9999 ↔ days_from_civil y m d < 2932897).
Proof.
  intros Hm Hd. unfold days_from_civil. cbv zeta.
  destruct (Z.leb_spec m 2), (Z.ltb_spec 2 m); try lia; (split; split; intros; lia).
Qed.

(** Times from the year 0 to the year 9999 have a text. *)
Lemma time_has_text t :
  is_Some (time_text t) ↔ -719528 * 86400 * 10 ^ 9 ≤ default zero_time t < 2932897 * 86400 * 10 ^ 9.
Proof.
  unfold time_text. set (z := default zero_time t).
  destruct (civil_from_days _) as [[y m] d] eqn:Hc. apply civil_days in Hc as (Hdays & Hm & Hd).
  assert (daysIn m y ≤ 31) by (unfold daysIn; repeat case_match; lia).
  destruct (year_days y m d Hm ltac:(lia)) as [H0 H1]. rewrite Hdays in H0, H1.
  case_decide as Hy; (split; [intros Hs|intros Hz]); [|by eexists|by destruct Hs|exfalso; apply Hy]; lia.
Qed.

(** The text of a time is plain ASCII. *)
Fixpoint ascii_only (s : string) : bool :=
  match s with String c s => byte_in 0 127 c && ascii_only s | EmptyString => true end.

Lemma ascii_app s s' : ascii_only (s +:+ s') = ascii_only s && ascii_only s'.
Proof. induction s as [|c s IH]; [done|]. rewrite str_app_cons. cbn. by rewrite IH, andb_assoc. Qed.

Lemma ascii_valid s : ascii_only s = true → valid_utf8 s = true.
Proof.
  unfold valid_utf8. induction s as [|c s IH]; [done|]. cbn [ascii_only]. intros [Hc Hs]%andb_prop.
  cbn [chunks]. rewrite Hc. cbn. auto.
Qed.

Lemma show_ascii l : is_digits l → ascii_only (show l) = true.
Proof.
  induction 1 as [|d l Hd Hl IH]; [done|]. cbn [show foldr ascii_only]. fold (show l). rewrite IH.
  revert d Hd. by apply digit_cases.
Qed.

Lemma time_text_valid t s : time_text t = Some s → valid_utf8 s = true.
Proof.
  unfold time_text. destruct (civil_from_days _) as [[y m] d]. case_decide; [|done]. intros [= <-].
  apply ascii_valid. unfold text, fraction. set (ns := _ mod 10 ^ 9).
  rewrite !ascii_app, !show_ascii by apply last_digits_ok. cbn [ascii_only andb].
  destruct (strip_app (last_digits 9 ns)) as (k & Hk). destruct (last_digits_ok 9 ns) as [Hd _].
  rewrite Hk in Hd. apply Forall_app in Hd as [Hd _]. destruct (strip _) as [|e l]; [done|].
  by rewrite ascii_app, show_ascii.
Qed.

#[global] Arguments time_text : simpl never.
#[global] Arguments time_value : simpl never.

(** ** Examples *)

Example time_text_2026 : time_text (Some (1767225600500000000)) = Some "2026-01-01T00:00:00.5Z".
Proof. reflexivity. Qed.
Example time_text_zero : time_text None = Some "0001-01-01T00:00:00Z".
Proof. reflexivity. Qed.
Example time_value_zone : time_value "2024-02-29T12:00:00+02:00" = time_value "2024-02-29T10:00:00Z".
Proof. reflexivity. Qed.
Example time_value_day : time_value "2023-02-29T12:00:00Z" = None.
Proof. reflexivity. Qed.
