(* ===== verification/Server.v ===== *)
(** * cmd/oidc/oidcserver: the state a request works on

    A handler of the OIDC server reads and writes the data of two browser sessions (the SSO
    session and the login session, both managed by the scs library), the store, the claim maps of
    the request, and answers. A handler is a program of the state monad [M] below; [None] is a
    panic, which ends the request without saving the sessions.

    The session library is the interface [SessionData] with its documented laws, the OAuth
    library a pair of functions on the store. Answers are recorded as the calls that write them,
    in order: the first one decides the status of the response. *)

From stdpp Require Import pretty.
From S2P Require Import Prelude Values Misc Proto HttpProvider OidcClient Storage Upstreams Session.

(** ** Browser sessions *)

(** A value kept in a session: what the handlers put there, or what the codec decoded. *)
Inductive sval :=
| SString (s : string)
| SUser (u : user_ref)
| SAny (v : value).

Class SessionData (S : Type) := {
  sd_get : string → S → option sval;
  sd_put : string → sval → S → S;
  sd_remove : string → S → S;
  sd_renew : S → S;                        (** [RenewToken], whose error is ignored *)
  sd_destroy : S → option string * S;
}.

Class SessionDataOk (S : Type) `{SessionData S} : Prop := {
  get_put k v s : sd_get k (sd_put k v s) = Some v;
  get_put_ne k k' v s : k ≠ k' → sd_get k' (sd_put k v s) = sd_get k' s;
  get_remove k s : sd_get k (sd_remove k s) = None;
  get_remove_ne k k' s : k ≠ k' → sd_get k' (sd_remove k s) = sd_get k' s;
  get_renew k s : sd_get k (sd_renew s) = sd_get k s;
  get_destroy k s s' : sd_destroy s = (None, s') → sd_get k s' = None;
  keep_destroy k s e s' : sd_destroy s = (Some e, s') → sd_get k s' = sd_get k s;
}.

(** [GetString]: the empty string when absent or of another type. *)
Definition sd_string {S : Type} `{SessionData S} (k : string) (s : S) : string :=
  match sd_get k s with Some (SString x) => x | Some (SAny (VString x)) => x | _ => "" end.

(** ** Saving and loading

    At the end of a request the SSO session is encoded by the JSON codec, and decoded at the next
    one: a [[]string] comes back as a [[]interface{}], an [int] as a number, a struct as a map of
    its fields. *)

Fixpoint json_image (v : value) : value :=
  match v with
  | VInt z => VNum (pretty z)
  | VStrs l => VArr (VString <$> l)
  | VArr l => VArr (json_image <$> l)
  | VMap m => VMap (json_image <$> m)
  | _ => v
  end.

Definition json_user (login : string) (c : option claims) (fullName : string) : value :=
  VMap (<["Login" := VString login]> (<["Claims" := from_option (λ c, VMap (json_image <$> c)) VNil c]>
    {["FullName" := VString fullName]})).

Definition json_sval (h : heap) (v : sval) : sval :=
  match v with
  | SString s => SAny (VString s)
  | SUser u => SAny (json_user (ur_Login u) (l ← ur_Claims u; Some (deref h (Some l))) (ur_FullName u))
  | SAny v => SAny (json_image v)
  end.

(** [s'] is what the next request reads of a session saved as [s]. *)
Definition reloaded {S : Type} `{SessionData S} (h : heap) (s s' : S) : Prop :=
  ∀ k, sd_get k s' = json_sval h <$> sd_get k s.

(** ** The server *)

Definition SsoAlways : string := "always".
Definition SsoOnDemand : string := "onDemand".
Definition SsoNever : string := "never".

Record OIDCServer := {
  sv_Issuer : string;
  Authenticator : OidcAuthenticator;
  sv_PostLogoutURL : string;
  DefaultStyle : string;
  SsoMode : string;
  DefaultLoginLabel : string;
  keyID : string;
  sv_AccessTokenLifespan : Z;
  AllowPasswordGrant : bool;
  AllowPKCEPlain : bool;
}.

(** What the handlers read of an [*http.Request]; [r_PostForm] is [None] when [ParseForm] fails. *)
Record request := {
  r_Method : string;
  r_RawQuery : string;
  r_PostForm : option (list (string * string));
  r_Header : string → string;
}.

(** ** Pages *)

Record UpstreamButtonModel := { ub_Name : string; ub_DisplayName : string }.

Record LoginModel := {
  InvalidLogin : bool;
  lm_Style : string;
  UpstreamButtons : list UpstreamButtonModel;
  ShowLoginForm : bool;
  FieldsetLabel : string;
  ShowNoProviderMessage : bool;
  ShowSsoCheck : bool;
}.

Record UpstreamWelcomeModel := { wm_UserName : string; wm_Style : string }.

Record indexEntry := { ie_DisplayName : string; ie_Description : string; ie_EntryURL : string }.

Inductive page :=
| LoginPage (m : LoginModel)
| WelcomePage (m : UpstreamWelcomeModel)
| IndexPage (entries : list indexEntry) (style : string).

(** ** The handlers' monad *)

Section monad.
Context {Rq PAR JWK : Type}.                      (** of the store *)
Context {AR Resp OErr : Type} `{Requester AR}.    (** of the OAuth library *)
Context {SS LS : Type} `{SessionData SS, SessionData LS}.

Abbreviation store := (@MemoryStore Rq PAR upstream JWK).

(** The calls that write a response. *)
Inductive write :=
| HttpError (code : Z) (msg : string)
| HttpRedirect (url : string)
| HttpPage (p : page)
| HttpNotFound
| AuthorizeError (ar : option AR) (e : OErr)
| AuthorizeResponse (ar : AR) (resp : Resp).

Record state := {
  st_heap : heap;
  st_sso : SS;
  st_login : LS;
  st_store : store;
  st_writes : list write;
  st_issued : list (AR * view);        (** calls to [NewAuthorizeResponse] *)
  st_events : list (string * string);  (** warning events: client, upstream *)
}.

Definition M (A : Type) : Type := state → option (A * state).

#[export] Instance M_ret : MRet M := λ A a s, Some (a, s).
#[export] Instance M_bind : MBind M := λ A B k m s,
  match m s with Some (a, s') => k a s' | None => None end.

Definition panic {A} : M A := λ _, None.
Definition get : M state := λ s, Some (s, s).

Definition with_heap (h : heap) (s : state) : state :=
  {| st_heap := h; st_sso := st_sso s; st_login := st_login s; st_store := st_store s;
     st_writes := st_writes s; st_issued := st_issued s; st_events := st_events s |}.
Definition with_sso (x : SS) (s : state) : state :=
  {| st_heap := st_heap s; st_sso := x; st_login := st_login s; st_store := st_store s;
     st_writes := st_writes s; st_issued := st_issued s; st_events := st_events s |}.
Definition with_login (x : LS) (s : state) : state :=
  {| st_heap := st_heap s; st_sso := st_sso s; st_login := x; st_store := st_store s;
     st_writes := st_writes s; st_issued := st_issued s; st_events := st_events s |}.
Definition with_store (x : store) (s : state) : state :=
  {| st_heap := st_heap s; st_sso := st_sso s; st_login := st_login s; st_store := x;
     st_writes := st_writes s; st_issued := st_issued s; st_events := st_events s |}.
Definition with_write (w : write) (s : state) : state :=
  {| st_heap := st_heap s; st_sso := st_sso s; st_login := st_login s; st_store := st_store s;
     st_writes := st_writes s ++ [w]; st_issued := st_issued s; st_events := st_events s |}.
Definition with_issued (x : AR * view) (s : state) : state :=
  {| st_heap := st_heap s; st_sso := st_sso s; st_login := st_login s; st_store := st_store s;
     st_writes := st_writes s; st_issued := st_issued s ++ [x]; st_events := st_events s |}.
Definition with_event (x : string * string) (s : state) : state :=
  {| st_heap := st_heap s; st_sso := st_sso s; st_login := st_login s; st_store := st_store s;
     st_writes := st_writes s; st_issued := st_issued s; st_events := st_events s ++ [x] |}.

Definition upd (f : state → state) : M unit := λ s, Some (tt, f s).

Definition http_error (code : Z) (msg : string) : M unit := upd (with_write (HttpError code msg)).
Definition redirect (url : string) : M unit := upd (with_write (HttpRedirect url)).

Definition sso_get (k : string) : M (option sval) := λ s, Some (sd_get k (st_sso s), s).
Definition sso_put (k : string) (v : sval) : M unit := upd (λ s, with_sso (sd_put k v (st_sso s)) s).
Definition sso_renew : M unit := upd (λ s, with_sso (sd_renew (st_sso s)) s).
Definition login_put (k v : string) : M unit :=
  upd (λ s, with_login (sd_put k (SString v) (st_login s)) s).
Definition login_string (k : string) : M string := λ s, Some (sd_string k (st_login s), s).
Definition login_remove (k : string) : M unit := upd (λ s, with_login (sd_remove k (st_login s)) s).

Definition new_user (u : OidcUser) : M user_ref := λ s,
  let '(h, r) := alloc_user (st_heap s) u in Some (r, with_heap h s).

(** ** The OAuth library and the templates *)

Context (NewAuthorizeRequest : request → store → result (option AR * OErr) AR * store).
Context (NewAuthorizeResponse : AR → view → store → result OErr Resp * store).
Context (executes : page → bool).
Context {A : ClaimAdder}.
Context (sv : OIDCServer).

Definition newAuthorizeRequest (r : request) : M (result (option AR * OErr) AR) := λ s,
  let '(res, st) := NewAuthorizeRequest r (st_store s) in Some (res, with_store st s).

Definition newAuthorizeResponse (ar : AR) (session : OIDCSession) : M (result OErr Resp) := λ s,
  let v := session_view (st_heap s) session in
  let '(res, st) := NewAuthorizeResponse ar v (st_store s) in
  Some (res, with_issued (ar, v) (with_store st s)).

Definition server_session (now : Z) (user : option user_ref) (clientId : string) : M OIDCSession := λ s,
  let '(h, ses) := newSession (sv_Issuer sv) (keyID sv) (sv_AccessTokenLifespan sv) now user clientId
                     (st_heap s) in
  Some (ses, with_heap h s).

(** A template writes the page; when it fails the error is written after it. *)
Definition render (p : page) (msg : string) : M unit :=
  upd (with_write (HttpPage p));;
  if executes p then mret tt else http_error 500 msg.
End monad.

(** ** An instance of the session interface *)

#[export] Instance plain_session : SessionData (gmap string sval) := {|
  sd_get := λ k s, s !! k; sd_put := λ k v s, <[k := v]> s; sd_remove := λ k s, delete k s;
  sd_renew := λ s, s; sd_destroy := λ _, (None, ∅);
|}.

#[export] Instance plain_session_ok : SessionDataOk (gmap string sval).
Proof.
  split; simpl; intros.
  - apply lookup_insert_eq.
  - by apply lookup_insert_ne.
  - apply lookup_delete_eq.
  - by apply lookup_delete_ne.
  - done.
  - by simplify_eq.
  - done.
Qed.
