(* ===== verification/GoJson.v ===== *)
(** * encoding/json: Go values to JSON and back

    The rules by which [encoding/json] writes Go values and reads them back, for the types the
    program sends: strings, booleans, integers, times, claim maps, pointers, slices and structs.
    A Go type is described by [gtype] (a struct by the JSON names of its fields, in order), so one
    theorem covers every message of the program; [Wire] gives the types.

    A decoded number is a float64, written as its literal ([Float64]); times are RFC 3339 texts
    ([Rfc3339]). *)

From stdpp Require Import pretty.
From S2P Require Import Prelude Values Proto Url Json Float64 Rfc3339.
From S2P Require Import Session Server.

(** ** Values of type interface *)

Lemma forallb_Forall {A} (f : A → bool) l : forallb f l = true ↔ Forall (λ x, f x = true) l.
Proof. rewrite forallb_forall, Forall_forall. by setoid_rewrite list_elem_of_In. Qed.

Lemma mapM_fmap {A B} (f : A → option B) (h : A → B) l :
  (∀ x, x ∈ l → f x = Some (h x)) → mapM f l = Some (h <$> l).
Proof.
  induction l as [|x l IH]; intros H; [done|]. cbn. rewrite H by (by left). cbn.
  rewrite IH; [done|]. intros y ?. apply H. by right.
Qed.

Lemma mapM_fmap_fmap {A B C} (f : B → option C) (g : A → B) (h : A → C) l :
  (∀ x, x ∈ l → f (g x) = Some (h x)) → mapM f (g <$> l) = Some (h <$> l).
Proof.
  intros H. induction l as [|x l IH]; [done|]. rewrite !fmap_cons. cbn. rewrite H by (by left). cbn.
  rewrite IH; [done|]. intros y ?. apply H. by right.
Qed.

(** The members of an object, by key ([json] sorts the keys of a map). *)
Definition members (m : gmap string json) : list (string * json) :=
  omap (λ k, j ← m !! k; Some (k, j)) (sort_strings (elements (dom m))).

Fixpoint of_value (v : value) : json :=
  match v with
  | VNil => JNull
  | VBool b => JBool b
  | VInt z => JNum (pretty z)
  | VNum lit => JNum lit
  | VString s => JStr s
  | VStrs l => JArr (JStr <$> l)
  | VArr l => JArr (of_value <$> l)
  | VMap m => JObj (members (of_value <$> m))
  end.

Lemma members_keys m : (members m).*1 = sort_strings (elements (dom m)).
Proof.
  unfold members. assert (∀ l, (∀ k, k ∈ l → is_Some (m !! k)) →
    (omap (λ k, j ← m !! k; Some (k, j)) l).*1 = l) as H.
  { induction l as [|k l IH]; intros Hl; [done|]. destruct (Hl k) as [j Hj]; [by left|].
    cbn. rewrite Hj. cbn. f_equal. apply IH. intros k' ?. apply Hl. by right. }
  apply H. intros k. by rewrite elem_of_sort_strings, elem_of_elements, elem_of_dom.
Qed.

Lemma members_nodup m : NoDup (members m).*1.
Proof. rewrite members_keys, sort_strings_perm. apply NoDup_elements. Qed.

Lemma elem_of_members m k j : (k, j) ∈ members m ↔ m !! k = Some j.
Proof.
  unfold members. rewrite list_elem_of_omap. split.
  - intros (k' & _ & H). apply bind_Some in H as (j' & Hj & [= -> ->]). done.
  - intros H. exists k. rewrite elem_of_sort_strings, elem_of_elements, elem_of_dom, H. by split; [eexists|].
Qed.

(** Assignments in order: the last one of a key stays. *)
Definition assign (m : claims) (l : list (string * value)) : claims :=
  foldl (range_step (λ _ _ v, v)) m l.

Fixpoint to_value (j : json) : option value :=
  match j with
  | JNull => Some VNil
  | JBool b => Some (VBool b)
  | JNum lit => VNum <$> float64 lit
  | JStr s => Some (VString s)
  | JArr l => VArr <$> mapM to_value l
  | JObj l => (λ l, VMap (assign ∅ l)) <$> mapM (λ m, v ← to_value m.2; Some (m.1, v)) l
  end.

Definition to_member (m : string * json) : option (string * value) := v ← to_value m.2; Some (m.1, v).

(** Reading the members of a map that was written gives the map of what each value reads as. *)
Lemma members_value (m : claims) (f : value → json) (g : value → value) :
  (∀ k j, (k, j) ∈ members (f <$> m) → ∃ v, m !! k = Some v ∧ to_value j = Some (g v)) →
  mapM to_member (members (f <$> m)) = Some ((λ k, (k, default VNil (g <$> m !! k))) <$> (members (f <$> m)).*1) ∧
  assign ∅ ((λ k, (k, default VNil (g <$> m !! k))) <$> (members (f <$> m)).*1) = g <$> m.
Proof.
  intros H. split.
  - rewrite <- list_fmap_compose. apply mapM_fmap. intros [k j] Hkj. destruct (H k j Hkj) as (v & Hv & Hj). unfold to_member. cbn.
    by rewrite Hj, Hv.
  - apply map_eq. intros k. unfold assign. rewrite lookup_range_list.
    2: { rewrite <- list_fmap_compose, list_fmap_id. apply members_nodup. }
    rewrite lookup_empty, lookup_fmap.
    destruct (m !! k) as [v|] eqn:Hv; cbn.
    + rewrite (elem_of_list_to_map_1 _ k (g v)); [done| |].
      { rewrite <- list_fmap_compose, list_fmap_id. apply members_nodup. }
      apply list_elem_of_fmap. exists k. rewrite Hv. split; [done|]. apply list_elem_of_fmap.
      exists (k, f v). split; [done|]. by rewrite elem_of_members, lookup_fmap, Hv.
    + rewrite not_elem_of_list_to_map_1; [done|]. rewrite <- list_fmap_compose, list_fmap_id, members_keys.
      rewrite elem_of_sort_strings, elem_of_elements, elem_of_dom, lookup_fmap, Hv. by intros [].
Qed.

(** ** Values of the other types *)

Unset Elimination Schemes.
Inductive gtype :=
| TString | TBool | TInt | TTime
| TClaims                                   (** [map[string]interface{}] *)
| TPtr (t : gtype)
| TSlice (t : gtype)
| TStruct (fields : list (string * gtype)). (** by JSON name *)

Inductive gval :=
| GString (s : string)
| GBool (b : bool)
| GInt (z : Z)
| GTime (t : option Z)
| GNil                                      (** a nil pointer, slice or map *)
| GClaims (m : claims)
| GPtr (v : gval)
| GSlice (l stale : list gval)              (** its elements, and what its array holds beyond them *)
| GStruct (l : list gval).
Set Elimination Schemes.

Section gtype_ind.
Variable P : gtype → Prop.
Hypothesis Hstring : P TString.
Hypothesis Hbool : P TBool.
Hypothesis Hint : P TInt.
Hypothesis Htime : P TTime.
Hypothesis Hclaims : P TClaims.
Hypothesis Hptr : ∀ t, P t → P (TPtr t).
Hypothesis Hslice : ∀ t, P t → P (TSlice t).
Hypothesis Hstruct : ∀ fs, Forall (λ f, P f.2) fs → P (TStruct fs).

Fixpoint gtype_ind (t : gtype) : P t :=
  match t with
  | TString => Hstring
  | TBool => Hbool
  | TInt => Hint
  | TTime => Htime
  | TClaims => Hclaims
  | TPtr t => Hptr t (gtype_ind t)
  | TSlice t => Hslice t (gtype_ind t)
  | TStruct fs => Hstruct fs ((fix go l : Forall (λ f, P f.2) l :=
      match l with [] => Forall_nil_2 _ | f :: l => Forall_cons_2 _ _ _ (gtype_ind f.2) (go l) end) fs)
  end.
End gtype_ind.

Fixpoint zero (t : gtype) : gval :=
  match t with
  | TString => GString ""
  | TBool => GBool false
  | TInt => GInt 0
  | TTime => GTime None
  | TClaims | TPtr _ | TSlice _ => GNil
  | TStruct fs => GStruct ((λ f, zero f.2) <$> fs)
  end.

(** *** Writing *)

Fixpoint encode_fields (es : list (string * (gval → option json))) (l : list gval) : option (list (string * json)) :=
  match es, l with
  | [], [] => Some []
  | e :: es, v :: l => j ← e.2 v; r ← encode_fields es l; Some ((e.1, j) :: r)
  | _, _ => None
  end.

Definition guard_number (j : json) : option json := if good_numbers j then Some j else None.

(** [json.Marshal]; [None] for an error, which only a time can cause (a value of another type than
    [t] has no encoding, nor have claims with a number that is none). *)
Fixpoint encode (t : gtype) (v : gval) {struct t} : option json :=
  match t, v with
  | TString, GString s => Some (JStr s)
  | TBool, GBool b => Some (JBool b)
  | TInt, GInt z => Some (JNum (pretty z))
  | TTime, GTime x => JStr <$> time_text x
  | (TClaims | TPtr _ | TSlice _), GNil => Some JNull
  | TClaims, GClaims m => guard_number (of_value (VMap m))
  | TPtr t, GPtr v => encode t v
  | TSlice t, GSlice l _ => JArr <$> mapM (encode t) l
  | TStruct fs, GStruct l => JObj <$> encode_fields ((λ f, (f.1, encode f.2)) <$> fs) l
  | _, _ => None
  end.

(** *** Reading *)

(** [foldName]: letters without their case; the long s and the Kelvin sign fold to letters. *)
Definition fold_chunk (k : chunk) : string :=
  match k with
  | One c => String (ascii_lower c) ""
  | Rune2 a b => if byte_in 197 197 a && byte_in 191 191 b then "s" else chunk_text k
  | Rune3 a b c => if byte_in 226 226 a && byte_in 132 132 b && byte_in 170 170 c then "k" else chunk_text k
  | _ => chunk_text k
  end.
Definition fold_name (s : string) : string := concat_map fold_chunk (chunks s).

(** The field of a key: the one of this name, else the first one of this name up to case. *)
Definition find_field (names : list string) (k : string) : option nat :=
  match list_find (λ n, n = k) names with
  | Some (i, _) => Some i
  | None => (λ p, p.1) <$> list_find (λ n, fold_name n = fold_name k) names
  end.

Section decode.
(** [DisallowUnknownFields]. *)
Context (disallow : bool).

Definition set_member (ds : list (string * (gval → json → option gval))) (vs : list gval) (m : string * json) :
    option (list gval) :=
  match find_field ds.*1 m.1 with
  | None => if disallow then None else Some vs
  | Some i => d ← ds !! i; v ← vs !! i; v' ← d.2 v m.2; Some (<[i := v']> vs)
  end.

Fixpoint set_members (ds : list (string * (gval → json → option gval))) (vs : list gval)
    (ms : list (string * json)) : option (list gval) :=
  match ms with
  | [] => Some vs
  | m :: ms => vs ← set_member ds vs m; set_members ds vs ms
  end.

(** The elements of a slice are read into those its array already has; the rest is new. *)
Fixpoint read_elements (d : gval → json → option gval) (z : gval) (old : list gval) (l : list json) :
    option (list gval * list gval) :=
  match l with
  | [] => Some ([], old)
  | j :: l =>
      v ← d (default z (head old)) j;
      '(vs, stale) ← read_elements d z (tail old) l;
      Some (v :: vs, stale)
  end.

(** [json.Unmarshal] into a variable that holds [cur]; [None] when an error is reported. *)
Fixpoint decode (t : gtype) : gval → json → option gval :=
  match t with
  | TString => λ cur j, match j with JNull => Some cur | JStr s => Some (GString s) | _ => None end
  | TBool => λ cur j, match j with JNull => Some cur | JBool b => Some (GBool b) | _ => None end
  | TInt => λ cur j, match j with JNull => Some cur | JNum lit => GInt <$> Atoi lit | _ => None end
  | TTime => λ cur j, match j with JNull => Some cur | JStr s => GTime <$> time_value s | _ => None end
  | TClaims => λ cur j,
      match j with
      | JNull => Some GNil
      | JObj ms =>
          l ← mapM to_member ms;
          Some (GClaims (assign (match cur with GClaims m => m | _ => ∅ end) l))
      | _ => None
      end
  | TPtr t => λ cur j,
      match j with
      | JNull => Some GNil
      | _ => GPtr <$> decode t (match cur with GPtr v => v | _ => zero t end) j
      end
  | TSlice t => λ cur j,
      match j with
      | JNull => Some GNil
      | JArr [] => Some (GSlice [] [])
      | JArr l =>
          '(vs, stale) ← read_elements (decode t) (zero t) (match cur with GSlice a b => a ++ b | _ => [] end) l;
          Some (GSlice vs stale)
      | _ => None
      end
  | TStruct fs => λ cur j,
      match j with
      | JNull => Some cur
      | JObj ms =>
          match cur with
          | GStruct vs => GStruct <$> set_members ((λ f, (f.1, decode f.2)) <$> fs) vs ms
          | _ => None
          end
      | _ => None
      end
  end.
End decode.

(** With [DisallowUnknownFields], a member that names no field is an error. *)
Lemma unknown_member fs cur ms k j :
  (k, j) ∈ ms → find_field fs.*1 k = None → decode true (TStruct fs) cur (JObj ms) = None.
Proof.
  intros Hin Hk. cbn [decode]. destruct cur as [| | | | | | | |vs]; try done.
  assert (set_members true ((λ f, (f.1, decode true f.2)) <$> fs) vs ms = None) as ->; [|done].
  revert vs. induction ms as [|m ms IH]; intros vs; [by apply elem_of_nil in Hin|].
  cbn [set_members]. apply elem_of_cons in Hin as [<-|Hin].
  - unfold set_member. cbn [fst]. rewrite <- list_fmap_compose. unfold compose. cbn [fst].
    change ((λ x : string * gtype, x.1) <$> fs) with (fs.*1). by rewrite Hk.
  - destruct (set_member true _ vs m) as [vs'|]; [|done]. cbn. by apply IH.
Qed.

Definition Marshal (t : gtype) (v : gval) : option string := print <$> encode t v.
Definition Unmarshal (t : gtype) (s : string) : option gval :=
  j ← parse s; decode false t (zero t) j.

(** [Encoder.Encode] ends the value by a newline; [Decoder.Decode] reads the first value. *)
Definition Encode (t : gtype) (v : gval) : option string := (λ s, s +:+ String "010" "") <$> Marshal t v.
Definition Decode_strict (t : gtype) (s : string) : option gval :=
  '(j, _) ← decode_first s; decode true t (zero t) j.
(** ** What goes through *)

Fixpoint sendable (v : value) : bool :=
  match v with
  | VNil | VBool _ => true
  | VInt z => bool_decide (Z.abs z ≤ 2 ^ 53)%Z
  | VNum lit => valid_number lit && bool_decide (float64 lit = Some lit)
  | VString s => valid_utf8 s
  | VStrs l => forallb valid_utf8 l
  | VArr l => forallb sendable l
  | VMap m => map_fold (λ k w b, valid_utf8 k && sendable w && b) true m
  end.

Lemma sendable_map (m : claims) :
  sendable (VMap m) = true ↔ map_Forall (λ k w, valid_utf8 k = true ∧ sendable w = true) m.
Proof.
  cbn [sendable]. apply (map_fold_weak_ind (λ b (m : claims),
    b = true ↔ map_Forall (λ k w, valid_utf8 k = true ∧ sendable w = true) m)).
  - split; [intros _; apply map_Forall_empty|done].
  - intros k w m' b Hk IH. rewrite map_Forall_insert, !andb_true_iff, IH by done. tauto.
Qed.

Lemma of_value_ok v :
  sendable v = true →
  good_numbers (of_value v) = true ∧ utf8_json (of_value v) = true ∧ to_value (of_value v) = Some (json_image v).
Proof.
  induction v as [|b|z|lit|s|l|l IH|m IH] using value_nested_ind; intros Hs.
  - done.
  - done.
  - cbn in Hs. apply bool_decide_eq_true in Hs. split; [apply valid_pretty|]. split; [done|].
    cbn. by rewrite float64_int.
  - cbn in Hs. apply andb_prop in Hs as [Hv Hf%bool_decide_eq_true]. split; [done|]. split; [done|].
    cbn. by rewrite Hf.
  - done.
  - cbn in Hs. cbn [of_value good_numbers utf8_json to_value json_image].
    apply forallb_Forall in Hs. rewrite !forallb_Forall, !Forall_fmap.
    split; [by apply Forall_true|]. split; [done|].
    rewrite (mapM_fmap_fmap _ _ VString); [done|]. done.
  - cbn [of_value good_numbers utf8_json to_value json_image sendable] in *.
    rewrite forallb_Forall in Hs.
    assert (Forall (λ v, good_numbers (of_value v) = true ∧ utf8_json (of_value v) = true ∧
      to_value (of_value v) = Some (json_image v)) l) as H
      by (rewrite Forall_forall in *; auto).
    rewrite !Forall_and in H. destruct H as (H1 & H2 & H3).
    rewrite !forallb_Forall, !Forall_fmap. split; [done|]. split; [done|].
    rewrite (mapM_fmap_fmap _ _ json_image); [done|]. by apply Forall_forall.
  - apply sendable_map in Hs. cbn [of_value good_numbers utf8_json to_value json_image].
    assert (∀ k j, (k, j) ∈ members (of_value <$> m) → ∃ v, m !! k = Some v ∧ j = of_value v ∧
      valid_utf8 k = true ∧ good_numbers j = true ∧ utf8_json j = true ∧ to_value j = Some (json_image v)) as H.
    { intros k j. rewrite elem_of_members, lookup_fmap, fmap_Some. intros (v & Hv & ->).
      destruct (Hs k v Hv) as [? Hw]. destruct (IH k v Hv Hw) as (? & ? & ?). by exists v. }
    rewrite !forallb_Forall, !Forall_forall. split; [|split].
    + intros [k j] (v & ?)%H. cbn. naive_solver.
    + intros [k j] (v & ?)%H. cbn. rewrite andb_true_iff. naive_solver.
    + change (λ m0 : string * json, v ← to_value m0.2; Some (m0.1, v)) with to_member.
      destruct (members_value m of_value json_image) as [-> E]; [intros k j (v & ?)%H; naive_solver|].
      cbn. by rewrite E.
Qed.
(** *** Values of a type *)

Definition nilable (t : gtype) : bool :=
  match t with TClaims | TPtr _ | TSlice _ => true | _ => false end.

(** The names of a struct are distinct, and no pointer leads to another nil. *)
Fixpoint wf_type (t : gtype) : bool :=
  match t with
  | TPtr t => negb (nilable t) && wf_type t
  | TSlice t => wf_type t
  | TStruct fs => bool_decide (NoDup fs.*1) && forallb (λ f, valid_utf8 f.1 && wf_type f.2) fs
  | _ => true
  end.

Fixpoint all2 (ps : list (gval → bool)) (l : list gval) : bool :=
  match ps, l with
  | [], [] => true
  | p :: ps, v :: l => p v && all2 ps l
  | _, _ => false
  end.

Fixpoint sendable_as (t : gtype) (v : gval) {struct t} : bool :=
  match t, v with
  | TString, GString s => valid_utf8 s
  | TBool, GBool _ => true
  | TInt, GInt z => bool_decide (int64_min ≤ z ≤ int64_max)%Z
  | TTime, GTime x => bool_decide (x ≠ Some zero_time ∧ time_text x ≠ None)
  | (TClaims | TPtr _ | TSlice _), GNil => true
  | TClaims, GClaims m => sendable (VMap m)
  | TPtr t, GPtr v => sendable_as t v
  | TSlice t, GSlice l _ => forallb (sendable_as t) l
  | TStruct fs, GStruct l => all2 ((λ f, sendable_as f.2) <$> fs) l
  | _, _ => false
  end.

(** What the other side gets: the same value, its claims as JSON values. *)
Fixpoint arrive (v : gval) : gval :=
  match v with
  | GClaims m => GClaims (json_image <$> m)
  | GPtr v => GPtr (arrive v)
  | GSlice l _ => GSlice (arrive <$> l) []
  | GStruct l => GStruct (arrive <$> l)
  | _ => v
  end.

Section roundtrip.
Context (disallow : bool).

Definition crosses (t : gtype) : Prop :=
  ∀ v, sendable_as t v = true →
    ∃ j, encode t v = Some j ∧ good_numbers j = true ∧ utf8_json j = true ∧
      (nilable t = false → j ≠ JNull) ∧ decode disallow t (zero t) j = Some (arrive v).

Lemma find_field_exact names i k : NoDup names → names !! i = Some k → find_field names k = Some i.
Proof.
  intros Hn Hi. unfold find_field.
  assert (list_find (λ n, n = k) names = Some (i, k)) as ->; [|done].
  apply list_find_Some. split; [done|]. split; [done|]. intros j y Hj Hlt ->.
  pose proof (NoDup_lookup _ _ _ _ Hn Hi Hj). lia.
Qed.

(** The fields of a struct, one after the other: those before are done, those after are zero. *)
Lemma struct_fields (fs : list (string * gtype)) (before : list (string * gtype)) (done : list gval) (l : list gval) :
  NoDup (before ++ fs).*1 → length done = length before →
  Forall (λ f, valid_utf8 f.1 = true ∧ crosses f.2) fs →
  all2 ((λ f, sendable_as f.2) <$> fs) l = true →
  ∃ ms, encode_fields ((λ f, (f.1, encode f.2)) <$> fs) l = Some ms ∧
    forallb (λ m, good_numbers m.2) ms = true ∧ forallb (λ m, valid_utf8 m.1 && utf8_json m.2) ms = true ∧
    set_members disallow ((λ f, (f.1, decode disallow f.2)) <$> before ++ fs) (done ++ ((λ f, zero f.2) <$> fs)) ms
    = Some (done ++ (arrive <$> l)).
Proof.
  revert before done l. induction fs as [|f fs IH]; intros before dn l Hnd Hlen Hfs Hl.
  { destruct l; [|done]. exists []. by rewrite !app_nil_r. }
  destruct l as [|v l]; [done|]. rewrite fmap_cons in Hl. cbn in Hl. apply andb_prop in Hl as [Hv Hl].
  apply Forall_cons in Hfs as [[Hu Hf] Hfs]. destruct (Hf v Hv) as (j & Hj & Hg & Hutf & _ & Hd).
  destruct (IH (before ++ [f]) (dn ++ [arrive v]) l) as (ms & Hms & Hmg & Hmu & Hset);
    [by rewrite <- app_assoc|rewrite !length_app; cbn; lia|done|done|].
  exists ((f.1, j) :: ms). rewrite fmap_cons. cbn [encode_fields fst snd]. rewrite Hj. cbn [mbind option_bind].
  rewrite Hms. split; [done|]. cbn [forallb fst snd]. rewrite Hg, Hu, Hutf, Hmg, Hmu. split; [done|]. split; [done|].
  cbn [set_members]. unfold set_member at 1. cbn [fst snd].
  rewrite (find_field_exact _ (length before) f.1).
  3: { rewrite <- list_fmap_compose, fmap_app, fmap_cons. by apply list_lookup_middle; rewrite length_fmap. }
  2: { rewrite <- list_fmap_compose. exact Hnd. }
  assert (((λ f, (f.1, decode disallow f.2)) <$> before ++ f :: fs) !! length before = Some (f.1, decode disallow f.2)) as ->
    by (rewrite fmap_app, fmap_cons; by apply list_lookup_middle; rewrite length_fmap).
  assert ((dn ++ ((λ f, zero f.2) <$> f :: fs)) !! length before = Some (zero f.2)) as E
    by (rewrite fmap_cons; by apply list_lookup_middle).
  cbn [mbind option_bind snd]. rewrite E. cbn [mbind option_bind]. rewrite Hd. cbn [mbind option_bind].
  rewrite <- !app_assoc in Hset. rewrite insert_app_r_alt, Hlen, Nat.sub_diag by lia. exact Hset.
Qed.

Lemma type_crosses t : wf_type t = true → crosses t.
Proof.
  induction t as [| | | | |t IH|t IH|fs IH] using gtype_ind; intros Hw v Hv.
  - destruct v; try done. by eexists.
  - destruct v; try done. by eexists.
  - destruct v as [| |z| | | | | |]; try done. cbn in Hv. apply bool_decide_eq_true in Hv.
    eexists. split; [done|]. split; [apply valid_pretty|]. split; [done|]. split; [done|].
    cbn. by rewrite Atoi_pretty.
  - destruct v as [| | |x| | | | |]; try done. cbn in Hv |- *. apply bool_decide_eq_true in Hv as [Hz Ht].
    destruct (time_text x) as [s|] eqn:Hs; [|done]. eexists. split; [done|]. cbn.
    by rewrite (time_text_valid _ _ Hs), (time_kept _ _ Hz Hs).
  - destruct v as [| | | | |m| | |]; try done; [by eexists|].
    destruct (of_value_ok (VMap m) Hv) as (Hg & Hu & Ht). exists (of_value (VMap m)). cbn [encode].
    unfold guard_number. rewrite Hg. split; [done|]. split; [done|].
    split; [done|]. split; [done|]. cbn [of_value to_value decode] in *.
    fold to_member in *. change (λ m0 : string * json, v ← to_value m0.2; Some (m0.1, v)) with to_member in Ht.
    destruct (mapM to_member _) as [l|]; [|done]. cbn in Ht |- *. by injection Ht as ->.
  - cbn in Hw. apply andb_prop in Hw as [Hn Hw]. destruct v as [| | | | | |v| |]; try done; [by eexists|].
    destruct (IH Hw v Hv) as (j & Hj & Hg & Hu & Hnn & Hd). exists j. split_and!; try done.
    cbn [decode zero]. destruct j; try (by rewrite Hd). destruct Hnn; [|done]. by destruct (nilable t).
  - destruct v as [| | | | | | |l st|]; try done; [by eexists|]. cbn [sendable_as] in Hv.
    assert (∃ js, mapM (encode t) l = Some js ∧ forallb good_numbers js = true ∧ forallb utf8_json js = true ∧
      read_elements (decode disallow t) (zero t) [] js = Some (arrive <$> l, [])) as (js & Hjs & Hg & Hu & Hr).
    { induction l as [|v l IHl]; [by exists []|]. cbn in Hv. apply andb_prop in Hv as [Hv Hl].
      destruct (IH Hw v Hv) as (j & Hj & Hg & Hu & _ & Hd). destruct (IHl Hl) as (js & Hjs & Hgs & Hus & Hr).
      exists (j :: js). cbn. rewrite Hj. cbn. rewrite Hjs. cbn. rewrite Hg, Hu, Hd. cbn. by rewrite Hr. }
    exists (JArr js). cbn [encode]. rewrite Hjs. split_and!; try done. cbn [decode zero arrive].
    destruct js as [|j js]; [|by rewrite Hr]. cbn in Hr. by injection Hr as <-.
  - cbn [wf_type] in Hw. apply andb_prop in Hw as [Hnd%bool_decide_eq_true Hw].
    destruct v as [| | | | | | | |l]; try done. cbn [sendable_as] in Hv.
    destruct (struct_fields fs [] [] l) as (ms & Hms & Hg & Hu & Hs); [done|done| |done|].
    { apply forallb_Forall in Hw. rewrite Forall_forall in *. intros f Hf. specialize (Hw f Hf).
      apply andb_prop in Hw as [? ?]. auto. }
    exists (JObj ms). cbn [encode]. rewrite Hms. split_and!; try done. cbn [decode zero]. cbn in Hs. by rewrite Hs.
Qed.
End roundtrip.

Lemma encode_fields_good (fs : list (string * gtype)) l ms :
  Forall (λ f, ∀ v j, encode f.2 v = Some j → good_numbers j = true) fs →
  encode_fields ((λ f, (f.1, encode f.2)) <$> fs) l = Some ms → forallb (λ m, good_numbers m.2) ms = true.
Proof.
  revert l ms. induction fs as [|f fs IH]; intros [|v l] ms Hf; try done; [by intros [= <-]|].
  apply Forall_cons in Hf as [Hf Hfs]. cbn. intros (j & Hj & (r & Hr & [= <-])%bind_Some)%bind_Some.
  cbn. by rewrite (Hf _ _ Hj), (IH _ _ Hfs Hr).
Qed.

(** Every number of an encoding is written as JSON writes numbers. *)
Lemma encode_good t v j : encode t v = Some j → good_numbers j = true.
Proof.
  revert v j.
  induction t as [| | | | |t IH|t IH|fs IH] using gtype_ind; intros v j; destruct v; try done; cbn [encode];
    try (by intros [= <-]).
  - intros [= <-]. apply valid_pretty.
  - by intros (s & _ & ->)%fmap_Some.
  - unfold guard_number. destruct (good_numbers _) eqn:E; [|done]. by intros [= <-].
  - apply IH.
  - intros (js & Hjs & ->)%fmap_Some. cbn. apply forallb_Forall. revert Hjs. generalize (l).
    intros l0. rewrite mapM_Some. intros H2. induction H2; constructor; eauto.
  - intros (ms & Hms & ->)%fmap_Some. by eapply encode_fields_good.
Qed.

(** Whatever [json.Unmarshal] makes of an encoding, it makes of the value with its strings cleaned. *)
Lemma Unmarshal_cleaned t v s w :
  Marshal t v = Some s → Unmarshal t s = Some w →
  ∃ j, encode t v = Some j ∧ decode false t (zero t) (clean j) = Some w.
Proof.
  unfold Marshal, Unmarshal. intros (j & Hj & ->)%fmap_Some (j' & Hp & Hd)%bind_Some. exists j.
  split; [done|]. apply parse_printed in Hp as ->; [done|]. by eapply encode_good.
Qed.

(** How deep the text of a value nests. *)
Definition nesting (t : gtype) (v : gval) : nat := from_option depth 0 (encode t v).

Lemma Marshal_crosses t v :
  wf_type t = true → sendable_as t v = true → nesting t v ≤ maxNestingDepth →
  ∃ j, Marshal t v = Some (print j) ∧ parse (print j) = Some j ∧
    (∀ rest, decode_first (print j +:+ String "010" rest) = Some (j, String "010" rest)) ∧
    ∀ disallow, decode disallow t (zero t) j = Some (arrive v).
Proof.
  intros Hw Hv Hn. destruct (type_crosses true t Hw v Hv) as (j & Hj & Hg & Hu & _ & Hd).
  unfold nesting in Hn. rewrite Hj in Hn. exists j. unfold Marshal. rewrite Hj. split; [done|].
  split; [by rewrite parse_print, clean_utf8|]. split; [intros rest; by rewrite decode_encode, clean_utf8|].
  intros []; [done|]. destruct (type_crosses false t Hw v Hv) as (j' & Hj' & _ & _ & _ & Hd'). congruence.
Qed.

Lemma Unmarshal_Marshal t v :
  wf_type t = true → sendable_as t v = true → nesting t v ≤ maxNestingDepth →
  ∃ s, Marshal t v = Some s ∧ s ≠ "" ∧ Unmarshal t s = Some (arrive v).
Proof.
  intros Hw Hv Hn. destruct (Marshal_crosses t v Hw Hv Hn) as (j & Hm & Hp & _ & Hd).
  exists (print j). split; [done|]. split; [by intros E; rewrite E in Hp|]. unfold Unmarshal. by rewrite Hp; cbn.
Qed.

Lemma Decode_Encode_strict t v :
  wf_type t = true → sendable_as t v = true → nesting t v ≤ maxNestingDepth →
  ∃ s, Encode t v = Some s ∧ Decode_strict t s = Some (arrive v).
Proof.
  intros Hw Hv Hn. destruct (Marshal_crosses t v Hw Hv Hn) as (j & Hm & _ & Hf & Hd).
  exists (print j +:+ String "010" ""). unfold Encode. rewrite Hm. split; [done|].
  unfold Decode_strict. by rewrite Hf; cbn.
Qed.

(** The decoder does not need the newline. *)
Lemma Decode_Marshal_strict t v :
  wf_type t = true → sendable_as t v = true → nesting t v ≤ maxNestingDepth →
  ∃ s, Marshal t v = Some s ∧ Decode_strict t s = Some (arrive v).
Proof.
  intros Hw Hv Hn. destruct (Marshal_crosses t v Hw Hv Hn) as (j & Hm & Hp & _ & Hd).
  exists (print j). split; [done|]. unfold Decode_strict, parse in *.
  destruct (decode_first (print j)) as [[j' r]|]; [|done]. cbn in Hp |- *.
  destruct (str_empty _); [|done]. by injection Hp as ->.
Qed.
