(* ===== verification/LoginFlow.v ===== *)
(** * cmd/oidc/oidcserver: authorize, login, logout and index

    The handlers of [handle-authorize.go], [handle-login.go] with [display-login.go],
    [handle-logout.go] and [handle-index.go], as programs on the state of [Server]. *)

From S2P Require Import Prelude Values Misc Proto HttpProvider OidcClient Storage Upstreams Session.
From S2P Require Import Url Server.

(** ** display-login.go: the models *)

(** [populateLoginModelWithUpstreams]: the internal provider if any, the buttons, and the
    providers the client names that are not available. *)
Record choice := {
  ch_internal : option upstream;
  ch_buttons : list UpstreamButtonModel;
  ch_missing : list string;
}.

Definition no_choice : choice := {| ch_internal := None; ch_buttons := []; ch_missing := [] |}.

Definition is_internal (u : upstream) : bool :=
  str_eqb (GetProviderType u) UpstreamProviderTypeInternal.

Definition add_upstream (c : choice) (u : upstream) : choice :=
  if is_internal u
  then {| ch_internal := Some u; ch_buttons := ch_buttons c; ch_missing := ch_missing c |}
  else {| ch_internal := ch_internal c;
          ch_buttons := ch_buttons c ++
            [{| ub_Name := Upstreams.GetName u; ub_DisplayName := GetDisplayName u |}];
          ch_missing := ch_missing c |}.

(** [sort.Slice] by name: the names of registered upstreams are distinct. *)
Definition name_le (u v : upstream) : Prop := String.le (Upstreams.GetName u) (Upstreams.GetName v).
#[export] Instance name_le_dec : RelDecision name_le.
Proof. intros u v. unfold name_le. apply _. Defined.
Definition sort_upstreams (l : list upstream) : list upstream := merge_sort name_le l.

Section choices.
Context {Rq PAR JWK : Type}.
Abbreviation store := (@MemoryStore Rq PAR upstream JWK).

(** One name of the client's list. *)
Definition add_named (st : store) (c : choice) (name : string) : choice :=
  match GetUpstream name st with
  | Some u => add_upstream c u
  | None => {| ch_internal := ch_internal c; ch_buttons := ch_buttons c;
               ch_missing := ch_missing c ++ [name] |}
  end.

Definition choose (defaultLoginLabel : string) (k : kubauthClient) (st : store) : choice :=
  match GetUpstreamProviders k with
  | [] =>
      match GetUpstreams st with
      | [] => {| ch_internal := Some (NewInternalUpstream defaultLoginLabel);
                 ch_buttons := []; ch_missing := [] |}
      | us => foldl (λ c u, if IsClientSpecific u then c else add_upstream c u) no_choice
                (sort_upstreams us)
      end
  | names => foldl (add_named st) no_choice names
  end.

Definition populate (c : choice) (m : LoginModel) : LoginModel :=
  {| InvalidLogin := InvalidLogin m; lm_Style := lm_Style m;
     UpstreamButtons := if decide (ch_buttons c = []) then UpstreamButtons m else ch_buttons c;
     ShowLoginForm := match ch_internal c with Some _ => true | None => ShowLoginForm m end;
     FieldsetLabel := match ch_internal c with Some u => GetDisplayName u | None => FieldsetLabel m end;
     ShowNoProviderMessage :=
       match ch_internal c, ch_buttons c with None, [] => true | _, _ => ShowNoProviderMessage m end;
     ShowSsoCheck := ShowSsoCheck m |}.

Definition getStyle (sv : OIDCServer) (clientId : string) (st : store) : string :=
  if str_empty clientId then DefaultStyle sv
  else match GetKubauthClient clientId st with
       | Ok client => Style (OidcClient.spec client)
       | Err _ => DefaultStyle sv
       end.

(** The model of the login page, with the unavailable providers of the client. *)
Definition login_model (sv : OIDCServer) (clientId : string) (invalidLogin : bool) (st : store)
    : LoginModel * list (string * string) :=
  let model := {| InvalidLogin := invalidLogin; lm_Style := getStyle sv clientId st;
                  UpstreamButtons := []; ShowLoginForm := false; FieldsetLabel := "";
                  ShowNoProviderMessage := false; ShowSsoCheck := str_eqb (SsoMode sv) SsoOnDemand |} in
  if str_empty clientId then (model, [])
  else match GetKubauthClient clientId st with
       | Ok k => let c := choose (DefaultLoginLabel sv) k st in
                 (populate c model, (λ n, (GetK8sId k, n)) <$> ch_missing c)
       | Err _ => (model, [])
       end.

(** The only upstream of a page that offers nothing else. *)
Definition single_upstream (m : LoginModel) : option string :=
  if negb (InvalidLogin m) && negb (ShowLoginForm m) && negb (ShowNoProviderMessage m) then
    match UpstreamButtons m with [b] => Some (ub_Name b) | _ => None end
  else None.

(** handle-index.go: entries sorted by display name, then by URL. *)
Definition entry_le (a b : indexEntry) : Prop :=
  if decide (ie_DisplayName a = ie_DisplayName b) then String.le (ie_EntryURL a) (ie_EntryURL b)
  else String.le (ie_DisplayName a) (ie_DisplayName b).
#[export] Instance entry_le_dec : RelDecision entry_le.
Proof. intros a b. unfold entry_le. case_decide; apply _. Defined.

Definition index_entry (k : kubauthClient) : option indexEntry :=
  let displayName := DisplayName (OidcClient.spec k) in
  let entryURL := EntryURL (OidcClient.spec k) in
  if str_empty displayName || str_empty entryURL then None
  else Some {| ie_DisplayName := displayName; ie_Description := Description (OidcClient.spec k);
               ie_EntryURL := entryURL |}.

Definition index_entries (st : store) : list indexEntry :=
  merge_sort entry_le (omap index_entry (map_to_list (Clients st)).*2).

(** *** What the login page offers *)

Definition button (u : upstream) : UpstreamButtonModel :=
  {| ub_Name := Upstreams.GetName u; ub_DisplayName := GetDisplayName u |}.

Definition buttons (us : list upstream) : list UpstreamButtonModel :=
  button <$> filter (λ u, is_internal u = false) us.

Definition has_internal (us : list upstream) : Prop := Exists (λ u, is_internal u = true) us.

(** The upstreams of a client: those it names that are registered, in its order, or else the
    registered ones that are not reserved to some clients, by name. *)
Definition offered (k : kubauthClient) (st : store) : list upstream :=
  match GetUpstreamProviders k with
  | [] => filter (λ u, IsClientSpecific u = false) (sort_upstreams (GetUpstreams st))
  | names => omap (λ n, GetUpstream n st) names
  end.

(** [c'] is [c] with the upstreams [us] added. *)
Definition adds (c : choice) (us : list upstream) (c' : choice) : Prop :=
  ch_buttons c' = ch_buttons c ++ buttons us ∧
  (is_Some (ch_internal c') ↔ is_Some (ch_internal c) ∨ has_internal us).

Lemma adds_nil c : adds c [] c.
Proof. split; [by rewrite app_nil_r|]. unfold has_internal. rewrite Exists_nil. naive_solver. Qed.

Lemma adds_cons c u us c' : adds (add_upstream c u) us c' → adds c (u :: us) c'.
Proof.
  unfold adds, has_internal, buttons, add_upstream. rewrite Exists_cons, filter_cons.
  destruct (is_internal u) eqn:E; simpl; intros [-> ->].
  - split; [done|]. split; [naive_solver|]. intros _. left. by eexists.
  - rewrite <- app_assoc. split; [done|]. naive_solver.
Qed.

Lemma adds_missing c us c' l : adds c us c' →
  adds {| ch_internal := ch_internal c; ch_buttons := ch_buttons c; ch_missing := l |} us c' .
Proof. done. Qed.

Lemma choose_named st names c :
  let c' := foldl (add_named st) c names in
  adds c (omap (λ n, GetUpstream n st) names) c' ∧
  ch_missing c' = ch_missing c ++ filter (λ n, Storage.Upstreams st !! n = None) names.
Proof.
  revert c. induction names as [|n names IH]; intros c; simpl.
  - split; [apply adds_nil|]. by rewrite filter_nil, app_nil_r.
  - destruct (IH (add_named st c n)) as [H1 H2]. rewrite filter_cons, H2. unfold add_named in *.
    unfold GetUpstream in *. destruct (Storage.Upstreams st !! n) as [u|]; simpl in *.
    + split; [by apply adds_cons|]. unfold add_upstream. by destruct (is_internal u).
    + rewrite <- app_assoc. split; [exact H1|done].
Qed.

Lemma choose_global us c :
  let c' := foldl (λ c u, if IsClientSpecific u then c else add_upstream c u) c us in
  adds c (filter (λ u, IsClientSpecific u = false) us) c' ∧ ch_missing c' = ch_missing c.
Proof.
  revert c. induction us as [|u us IH]; intros c; simpl; [split; [apply adds_nil|done]|].
  rewrite filter_cons. destruct (IsClientSpecific u); simpl; [apply IH|].
  destruct (IH (add_upstream c u)) as [H1 H2].
  split; [by apply adds_cons|]. rewrite H2. unfold add_upstream. by destruct (is_internal u).
Qed.

Lemma choose_spec label k st :
  let c := choose label k st in
  ch_buttons c = buttons (offered k st) ∧
  (is_Some (ch_internal c) ↔
     has_internal (offered k st) ∨ (GetUpstreamProviders k = [] ∧ Storage.Upstreams st = ∅)) ∧
  ch_missing c = filter (λ n, Storage.Upstreams st !! n = None) (GetUpstreamProviders k).
Proof.
  unfold choose, offered. destruct (GetUpstreamProviders k) as [|n names].
  - destruct (GetUpstreams st) as [|u us] eqn:Hg.
    + assert (Storage.Upstreams st = ∅) as He.
      { unfold GetUpstreams in Hg. apply fmap_nil_inv in Hg. by apply map_to_list_empty_iff. }
      simpl. split; [done|]. split; [|done]. split; [eauto|]. by eexists.
    + assert (Storage.Upstreams st ≠ ∅) as He.
      { intros He. unfold GetUpstreams in Hg. by rewrite He, map_to_list_empty in Hg. }
      destruct (choose_global (sort_upstreams (u :: us)) no_choice) as [[H1 H2] H3]. cbn zeta.
      split; [done|]. split; [|done]. rewrite H2. simpl.
      split; [intros [[? ?]|?]; [done|by left]|intros [?|[_ ?]]; [by right|done]].
  - destruct (choose_named st (n :: names) no_choice) as [[H1 H2] H3]. cbn zeta.
    split; [done|]. split; [|done]. rewrite H2. simpl.
    split; [intros [[? ?]|?]; [done|by left]|intros [?|[? _]]; [by right|done]].
Qed.

Lemma offered_reserved k st u :
  u ∈ offered k st → IsClientSpecific u = true →
  ∃ n, n ∈ GetUpstreamProviders k ∧ GetUpstream n st = Some u.
Proof.
  unfold offered. destruct (GetUpstreamProviders k) as [|n names].
  - rewrite list_elem_of_filter. intros [Hc _]. congruence.
  - rewrite list_elem_of_omap. naive_solver.
Qed.

(** The index lists exactly the clients with a name and an entry URL, sorted. *)
Lemma index_entries_spec st :
  Sorted entry_le (index_entries st) ∧
  ∀ e, e ∈ index_entries st ↔ ∃ id k, Clients st !! id = Some k ∧ index_entry k = Some e.
Proof.
  split.
  - apply Sorted_merge_sort. intros a b. unfold entry_le.
    destruct (decide (ie_DisplayName a = ie_DisplayName b)) as [E|E].
    + rewrite decide_True by done. apply (total String.le).
    + rewrite decide_False by done. apply (total String.le).
  - intros e. unfold index_entries. rewrite merge_sort_Permutation, list_elem_of_omap. split.
    + intros (k & ([id k'] & -> & Hk)%list_elem_of_fmap & He). exists id, k'.
      by apply elem_of_map_to_list in Hk.
    + intros (id & k & Hk & He). exists k. split; [|done]. apply list_elem_of_fmap. exists (id, k).
      split; [done|]. by apply elem_of_map_to_list.
Qed.

(** The login page of a registered client: one button for each offered upstream that is not
    internal, in order; the password form exactly when an internal upstream is offered or no
    upstream is registered and the client names none; a message exactly when nothing else is
    offered; an upstream reserved to some clients is offered only to a client that names it; the
    named upstreams that are not registered are reported. *)
Theorem login_page_offers sv clientId invalidLogin st k :
  clientId ≠ "" → GetKubauthClient clientId st = Ok k →
  let '(m, events) := login_model sv clientId invalidLogin st in
  UpstreamButtons m = buttons (offered k st) ∧
  (ShowLoginForm m = true ↔
     has_internal (offered k st) ∨ (GetUpstreamProviders k = [] ∧ Storage.Upstreams st = ∅)) ∧
  (ShowNoProviderMessage m = true ↔ UpstreamButtons m = [] ∧ ShowLoginForm m = false) ∧
  (∀ u, u ∈ offered k st → IsClientSpecific u = true →
     ∃ n, n ∈ GetUpstreamProviders k ∧ GetUpstream n st = Some u) ∧
  events.*2 = filter (λ n, Storage.Upstreams st !! n = None) (GetUpstreamProviders k).
Proof.
  intros Hid Hk. unfold login_model. rewrite (proj2 (str_empty_false _)) by done. rewrite Hk.
  destruct (choose_spec (DefaultLoginLabel sv) k st) as (H1 & H2 & H3).
  set (c := choose _ _ _) in *. unfold populate. simpl.
  split; [case_decide as E; [by rewrite <- H1, E|done]|].
  split; [rewrite <- H2; destruct (ch_internal c); naive_solver|].
  split; [destruct (ch_internal c), (ch_buttons c); simpl; naive_solver|].
  split; [intros u; apply offered_reserved|].
  rewrite <- H3, <- list_fmap_compose. apply list_fmap_id.
Qed.
End choices.

Section handlers.
Context {Rq PAR JWK AR Resp OErr SS LS : Type}.
Context `{Requester AR, SessionData SS, SessionData LS} {A : ClaimAdder}.
Abbreviation store := (@MemoryStore Rq PAR upstream JWK).
Abbreviation M := (@M Rq PAR JWK AR Resp OErr SS LS).
Context (NewAuthorizeRequest : request → store → result (option AR * OErr) AR * store).
Context (NewAuthorizeResponse : AR → view → store → result OErr Resp * store).
Context (executes : page → bool).
Context (sv : OIDCServer).

Definition authorize_request (q : string) : request :=
  {| r_Method := "GET"; r_RawQuery := q; r_PostForm := Some []; r_Header := λ _, "" |}.

(** ** handle-authorize.go *)

Definition handleAuthorize (r : request) : M unit :=
  res ← newAuthorizeRequest NewAuthorizeRequest r;
  match res with
  | Err (ar, e) => upd (with_write (AuthorizeError ar e))
  | Ok ar =>
      if str_eqb (r_Method r) "GET" then redirect ("/oauth2/login?" +:+ r_RawQuery r)
      else http_error 405 "method not allowed"
  end.

(** ** display-login.go *)

Definition displayLoginResponse (clientId : string) (invalidLogin : bool) : M unit :=
  s ← get;
  let '(model, events) := login_model sv clientId invalidLogin (st_store s) in
  upd (λ s, foldl (λ s e, with_event e s) s events);;
  match single_upstream model with
  | Some name => redirect ("/upstream/go?" +:+ encode_pair "upstreamProvider" name)
  | None => render executes (LoginPage model) "Internal server error"
  end.

(** ** handle-login.go *)

(** Granting and answering: [HandleScopes], [HandleAudience], [newSession],
    [NewAuthorizeResponse]. *)
Definition issue (ar : AR) (now : Z) (user : user_ref) (clientId : string)
    : M (AR * result OErr Resp) :=
  let ar := HandleAudience (HandleScopes ar) in
  session ← server_session sv now (Some user) clientId;
  response ← newAuthorizeResponse NewAuthorizeResponse ar session;
  mret (ar, response).

(** The SSO branch of GET; [true] when the request was answered. *)
Definition sso_login (rawQuery clientId : string) (now : Z) (v : option sval) : M bool :=
  match v with
  | Some (SAny (VMap u)) =>
      match u !! "Login" with
      | Some (VString login) =>
          if str_empty login then mret false
          else match u !! "Claims" with
               | Some (VMap claims) =>
                   match (if str_empty rawQuery then None else new_request rawQuery) with
                   | None => mret false
                   | Some q =>
                       res ← newAuthorizeRequest NewAuthorizeRequest (authorize_request q);
                       match res with
                       | Err _ => mret false
                       | Ok ar =>
                           user ← new_user {| ou_Login := login; ou_Claims := claims; ou_FullName := "" |};
                           '(ar, response) ← issue ar now user clientId;
                           match response with
                           | Err _ => mret false
                           | Ok resp => upd (with_write (AuthorizeResponse ar resp));; mret true
                           end
                       end
                   end
               | _ => panic
               end
      | _ => mret false
      end
  | _ => mret false
  end.

Definition handleLogin_get (r : request) (now : Z) : M unit :=
  let rawQuery := r_RawQuery r in
  let clientId := query_get rawQuery "client_id" in
  login_put "authQuery" rawQuery;;
  login_put "clientId" clientId;;
  v ← sso_get "ssoUser";
  answered ← sso_login rawQuery clientId now v;
  if (answered : bool) then mret tt else displayLoginResponse clientId false.

(** The end of the flow, shared with the upstream flow: rebuild the authorize request and
    answer it for the user. *)
Definition complete (rawQuery clientId : string) (now : Z) (user : user_ref) : M unit :=
  match new_request rawQuery with
  | None => http_error 500 "internal error"
  | Some q =>
      res ← newAuthorizeRequest NewAuthorizeRequest (authorize_request q);
      match res with
      | Err (ar, e) => upd (with_write (AuthorizeError ar e))
      | Ok ar =>
          '(ar, response) ← issue ar now user clientId;
          match response with
          | Err e => upd (with_write (AuthorizeError (Some ar) e))
          | Ok resp => upd (with_write (AuthorizeResponse ar resp))
          end
      end
  end.

Definition handleLogin_post (r : request) (now : Z) : M unit :=
  match r_PostForm r with
  | None => http_error 400 "bad request"
  | Some form =>
      let login := values_get form "login" in
      let password := values_get form "password" in
      let remember := str_eqb (values_get form "remember") "on" in
      rawQuery ← login_string "authQuery";
      if str_empty rawQuery
      then http_error 400 "Session expired. Please restart the login flow."
      else
        let clientId := query_get rawQuery "client_id" in
        match HttpProvider.Authenticate (Authenticator sv) login password with
        | Err _ => http_error 500
            "Internal error on ID provider subsystem. Contact your system administrator"
        | Ok None => displayLoginResponse clientId true
        | Ok (Some u) =>
            user ← new_user u;
            sso_renew;;
            (if str_eqb (SsoMode sv) SsoAlways || (str_eqb (SsoMode sv) SsoOnDemand && remember)
             then sso_put "ssoUser" (SUser user) else mret tt);;
            complete rawQuery clientId now user
        end
  end.

Definition handleLogin (r : request) (now : Z) : M unit :=
  if str_eqb (r_Method r) "GET" then handleLogin_get r now
  else if str_eqb (r_Method r) "POST" then handleLogin_post r now
  else http_error 405 "method not allowed".

(** ** handle-logout.go *)

Definition post_logout_url (q : string) (st : store) : string :=
  let clientId := query_get q "client_id" in
  let url :=
    if str_empty clientId then sv_PostLogoutURL sv
    else match GetKubauthClient clientId st with
         | Ok client => if str_empty (PostLogoutURL (OidcClient.spec client)) then sv_PostLogoutURL sv
                        else PostLogoutURL (OidcClient.spec client)
         | Err _ => sv_PostLogoutURL sv
         end in
  let plo := query_get q "post_logout_redirect_uri" in
  if str_empty plo then url else plo.

Definition handleLogout (r : request) : M unit :=
  s ← get;
  let url := post_logout_url (r_RawQuery r) (st_store s) in
  upd (λ s, with_sso (sd_destroy (st_sso s)).2 s);;
  clientId2 ← login_string "clientId";
  upd (λ s, with_login (sd_destroy (st_login s)).2 s);;
  login_put "clientId" clientId2;;
  redirect url.

(** ** handle-index.go *)

Definition handleIndex : M unit :=
  clientId ← login_string "clientId";
  s ← get;
  render executes (IndexPage (index_entries (st_store s)) (getStyle sv clientId (st_store s)))
    "Internal server error".

(** ** What the handlers do *)

Context `{!ClaimAdderOk A}.
Implicit Types s : @state Rq PAR JWK AR Resp OErr SS LS.

Abbreviation issued_ar ar := (HandleAudience (HandleScopes ar)).

(** Issuing for a user whose claims are in memory. *)
Definition after_issue (ar : AR) (v : view) (l : loc) (c : claims) s : state :=
  with_issued (ar, v) (with_store (NewAuthorizeResponse ar v (st_store s)).2
    (with_heap (<[l := c]> (st_heap s)) s)).

Lemma issue_run ar now u clientId l c s :
  ur_Claims u = Some l → st_heap s !! l = Some c →
  let v := user_view (ur_Login u) c clientId (keyID sv) in
  issue ar now u clientId s =
    Some ((issued_ar ar, (NewAuthorizeResponse (issued_ar ar) v (st_store s)).1),
          after_issue (issued_ar ar) v l (issued_claims c clientId) s).
Proof.
  intros Hu Hl v. unfold issue, mbind, M_bind, server_session.
  pose proof (newSession_user (sv_Issuer sv) (keyID sv) (sv_AccessTokenLifespan sv) now u clientId
    (st_heap s) l c Hu Hl) as Hn.
  destruct (newSession _ _ _ _ _ _ _) as [h ses]. destruct Hn as (-> & Hv & _).
  unfold newAuthorizeResponse. cbn [st_heap st_store with_heap]. rewrite Hv. fold v.
  unfold after_issue. by destruct (NewAuthorizeResponse _ _ _) as [res st].
Qed.

(** A user just put in memory has its claims there. *)
Lemma new_user_run u s :
  ∃ r s', new_user u s = Some (r, s') ∧ ur_Login r = ou_Login u ∧ ur_FullName r = ou_FullName u ∧
    ∃ l, ur_Claims r = Some l ∧ st_heap s' !! l = Some (ou_Claims u) ∧
    s' = with_heap (st_heap s ++ [ou_Claims u]) s.
Proof.
  eexists _, _. split; [reflexivity|]. simpl. split; [done|]. split; [done|].
  exists (length (st_heap s)). split; [done|]. split; [|done].
  by rewrite lookup_app_r, Nat.sub_diag.
Qed.

(** The request the flow was started with, as the OAuth library accepts it. *)
Definition accepted (rawQuery : string) (st : store) (ar : AR) : Prop :=
  ∃ q, new_request rawQuery = Some q ∧ (NewAuthorizeRequest (authorize_request q) st).1 = Ok ar.

Lemma complete_run rawQuery clientId now u l c s :
  ur_Claims u = Some l → st_heap s !! l = Some c →
  ∃ s', complete rawQuery clientId now u s = Some (tt, s') ∧
    st_sso s' = st_sso s ∧ st_login s' = st_login s ∧
    (∃ w, st_writes s' = st_writes s ++ [w]) ∧
    ((st_issued s' = st_issued s ∧ st_heap s' = st_heap s ∧ (∀ ar, ~ accepted rawQuery (st_store s) ar)) ∨
     (∃ ar, accepted rawQuery (st_store s) ar ∧
        st_issued s' = st_issued s ++
          [(issued_ar ar, user_view (ur_Login u) c clientId (keyID sv))] ∧
        st_heap s' = <[l := issued_claims c clientId]> (st_heap s))).
Proof.
  intros Hu Hl. unfold complete, accepted. destruct (new_request rawQuery) as [q|] eqn:Hq.
  - unfold mbind, M_bind, newAuthorizeRequest.
    destruct (NewAuthorizeRequest _ _) as [[ar|[ar e]] st] eqn:Ha.
    + erewrite issue_run by (eassumption || done). simpl.
      destruct (NewAuthorizeResponse _ _ _) as [[resp|e] st'] eqn:Hr; simpl;
        (eexists; split; [reflexivity|]); simpl; split_and!; eauto 10;
        right; exists ar; (split; [exists q; by rewrite Ha|]); done.
    + eexists; split; [reflexivity|]. simpl. split_and!; eauto. left. split_and!; [done..|].
      intros ar' (q' & [= <-] & Hx). by rewrite Ha in Hx.
  - eexists; split; [reflexivity|]. simpl. split_and!; eauto. left. split_and!; [done..|].
    by intros ar (q' & ? & _).
Qed.

(** The same for a user whose claims may be nil. *)
Lemma complete_ref rawQuery clientId now u s :
  valid_ref (st_heap s) (ur_Claims u) →
  let v := user_view (ur_Login u) (deref (st_heap s) (ur_Claims u)) clientId (keyID sv) in
  ∃ s', complete rawQuery clientId now u s = Some (tt, s') ∧
    st_sso s' = st_sso s ∧ st_login s' = st_login s ∧
    (∃ w, st_writes s' = st_writes s ++ [w]) ∧
    ((st_issued s' = st_issued s ∧ (∀ ar, ~ accepted rawQuery (st_store s) ar)) ∨
     (∃ ar, accepted rawQuery (st_store s) ar ∧ st_issued s' = st_issued s ++ [(issued_ar ar, v)])).
Proof.
  intros Hv v. unfold complete, accepted. destruct (new_request rawQuery) as [q|] eqn:Hq.
  - unfold mbind, M_bind, newAuthorizeRequest.
    destruct (NewAuthorizeRequest _ _) as [[ar|[ar e]] st] eqn:Ha.
    + unfold issue, mbind, M_bind, server_session.
      pose proof (newSession_ref (sv_Issuer sv) (keyID sv) (sv_AccessTokenLifespan sv) now u clientId
        (st_heap s) Hv) as Hn. cbn [st_heap with_store] in *.
      destruct (newSession _ _ _ _ _ _ _) as [h ses]. unfold newAuthorizeResponse.
      cbn [st_heap st_store with_heap]. rewrite Hn. fold v.
      destruct (NewAuthorizeResponse _ _ _) as [[resp|e] st'] eqn:Hr; simpl;
        (eexists; split; [reflexivity|]); simpl; split_and!; eauto;
        right; exists ar; (split; [exists q; by rewrite Ha|]); done.
    + eexists; split; [reflexivity|]. simpl. split_and!; eauto. left. split; [done|].
      intros ar' (q' & [= <-] & Hx). by rewrite Ha in Hx.
  - eexists; split; [reflexivity|]. simpl. split_and!; eauto. left. split; [done|].
    by intros ar (q' & ? & _).
Qed.

Lemma fold_events es s :
  let s' := foldl (λ s e, with_event e s) s es in
  st_sso s' = st_sso s ∧ st_login s' = st_login s ∧ st_issued s' = st_issued s ∧
  st_heap s' = st_heap s ∧ st_store s' = st_store s ∧ st_writes s' = st_writes s ∧
  st_events s' = st_events s ++ es.
Proof.
  revert s. induction es as [|e es IH]; intros s; simpl.
  - by rewrite app_nil_r.
  - destruct (IH (with_event e s)) as (-> & -> & -> & -> & -> & -> & ->). simpl.
    by rewrite <- app_assoc.
Qed.

(** Showing the login page changes nothing but the answer. *)
Lemma display_run clientId invalidLogin s :
  ∃ s', displayLoginResponse clientId invalidLogin s = Some (tt, s') ∧
    st_sso s' = st_sso s ∧ st_login s' = st_login s ∧ st_issued s' = st_issued s ∧
    st_heap s' = st_heap s ∧ st_store s' = st_store s ∧
    let model := (login_model sv clientId invalidLogin (st_store s)).1 in
    (∃ rest, st_writes s' = st_writes s ++
      match single_upstream model with
      | Some name => HttpRedirect ("/upstream/go?" +:+ encode_pair "upstreamProvider" name)
      | None => HttpPage (LoginPage model)
      end :: rest).
Proof.
  unfold displayLoginResponse, mbind, M_bind, get.
  destruct (login_model sv clientId invalidLogin (st_store s)) as [model events] eqn:Hm. simpl.
  destruct (fold_events events s) as (E1 & E2 & E3 & E4 & E5 & E6 & E7).
  destruct (single_upstream model) as [name|].
  - eexists; split; [reflexivity|]. simpl. rewrite E1, E2, E3, E4, E5, E6. split_and!; eauto.
  - unfold render, mbind, M_bind. simpl. destruct (executes _).
    + eexists; split; [reflexivity|]. simpl. rewrite E1, E2, E3, E4, E5, E6. split_and!; eauto.
    + eexists; split; [reflexivity|]. simpl. rewrite E1, E2, E3, E4, E5, E6.
      rewrite <- app_assoc. split_and!; eauto.
Qed.

(** The principal of an SSO session: a login and the claims, [None] when these are missing. *)
Definition sso_user (v : option sval) : option (string * option claims) :=
  match v with
  | Some (SAny (VMap u)) =>
      match u !! "Login" with
      | Some (VString login) =>
          if str_empty login then None else Some (login, u !! "Claims" ≫= as_map)
      | _ => None
      end
  | _ => None
  end.

Lemma sso_user_json login c fullName :
  login ≠ "" →
  sso_user (Some (SAny (json_user login (Some c) fullName))) = Some (login, Some (json_image <$> c)).
Proof.
  intros Hl. unfold sso_user, json_user. rewrite lookup_insert_eq, (proj2 (str_empty_false _)) by done.
  by rewrite lookup_insert_ne, lookup_insert_eq.
Qed.

Lemma sso_login_cases rawQuery clientId now v b s s' :
  sso_login rawQuery clientId now v s = Some (b, s') →
  st_sso s' = st_sso s ∧ st_login s' = st_login s ∧
  (st_issued s' = st_issued s ∨
   ∃ login cl ar, sso_user v = Some (login, Some cl) ∧ accepted rawQuery (st_store s) ar ∧
     st_issued s' = st_issued s ++ [(issued_ar ar, user_view login cl clientId (keyID sv))]).
Proof.
  unfold sso_login, sso_user. destruct v as [[| |[| | | | | | |u]]|]; try by (intros [= <- <-]; auto).
  destruct (u !! "Login") as [[| | | |login| | |]|]; try by (intros [= <- <-]; auto).
  destruct (str_empty login) eqn:El; [by intros [= <- <-]; auto|].
  destruct (u !! "Claims") as [[| | | | | | |cl]|]; try done.
  unfold accepted. destruct (str_empty rawQuery); [by intros [= <- <-]; auto|].
  destruct (new_request rawQuery) as [q|]; [|by intros [= <- <-]; auto].
  unfold mbind at 1, M_bind at 1, newAuthorizeRequest.
  destruct (NewAuthorizeRequest _ _) as [[ar|e] st] eqn:Ha; [|by intros [= <- <-]; auto].
  unfold mbind, M_bind.
  destruct (new_user_run {| ou_Login := login; ou_Claims := cl; ou_FullName := "" |} (with_store st s))
    as (r & s1 & -> & Hr & _ & l & Hc & Hh & ->).
  rewrite (issue_run ar now r clientId l cl) by done. rewrite Hr. cbn [ou_Login].
  destruct (NewAuthorizeResponse _ _ _) as [[resp|e] st']; simpl; intros [= <- <-]; simpl;
    (split; [done|]); (split; [done|]); right; exists login, cl, ar;
    (split; [done|]); (split; [by exists q; rewrite Ha|]); done.
Qed.

(** Who a login request answered for. *)
Definition login_authority (r : request) s (v : view) (ar : AR) : Prop :=
  (r_Method r = "POST" ∧ ∃ form u,
     r_PostForm r = Some form ∧
     HttpProvider.Authenticate (Authenticator sv) (values_get form "login") (values_get form "password")
       = Ok (Some u) ∧
     accepted (sd_string "authQuery" (st_login s)) (st_store s) ar ∧
     v = user_view (ou_Login u) (ou_Claims u)
           (query_get (sd_string "authQuery" (st_login s)) "client_id") (keyID sv)) ∨
  (r_Method r = "GET" ∧ ∃ login cl,
     sso_user (sd_get "ssoUser" (st_sso s)) = Some (login, Some cl) ∧
     accepted (r_RawQuery r) (st_store s) ar ∧
     v = user_view login cl (query_get (r_RawQuery r) "client_id") (keyID sv)).

Lemma login_cases r now s s' :
  handleLogin r now s = Some (tt, s') →
  st_issued s' = st_issued s ∨
  ∃ ar v, st_issued s' = st_issued s ++ [(issued_ar ar, v)] ∧ login_authority r s v ar.
Proof.
  unfold handleLogin, login_authority, str_eqb. case_bool_decide as Hg.
  { unfold handleLogin_get, mbind, M_bind. simpl.
    destruct (sso_login _ _ _ _ _) as [[b s1]|] eqn:E; [|done].
    apply sso_login_cases in E as (E1 & E2 & E3). simpl in *.
    assert (st_issued s1 = st_issued s ∨ ∃ ar v,
      st_issued s1 = st_issued s ++ [(issued_ar ar, v)] ∧ login_authority r s v ar) as HI.
    { destruct E3 as [E3|(login & cl & ar & Hu & Ha & E3)]; [by left|right].
      eexists _, _. split; [exact E3|]. right. eauto 10. }
    destruct b.
    - by intros [= <-].
    - destruct (display_run (query_get (r_RawQuery r) "client_id") false s1)
        as (s2 & -> & _ & _ & E6 & _). intros [= <-]. by rewrite E6. }
  case_bool_decide as Hp; [|by intros [= <-]; left].
  unfold handleLogin_post. destruct (r_PostForm r) as [form|]; [|by intros [= <-]; left].
  unfold mbind at 1, M_bind at 1. simpl.
  destruct (str_empty _); [by intros [= <-]; left|].
  destruct (HttpProvider.Authenticate _ _ _) as [[u|]|e] eqn:Hauth; [| |by intros [= <-]; left].
  - unfold mbind, M_bind.
    destruct (new_user_run u s) as (ur & s1 & -> & Hl & _ & l & Hc & Hh & ->). simpl.
    destruct (_ || _); simpl.
    all: match goal with |- complete ?q ?c ?n ?w ?st = _ → _ =>
           destruct (complete_run q c n w l (ou_Claims u) st Hc Hh)
             as (s2 & -> & _ & _ & _ & Hcases) end; intros [= <-]; simpl in *.
    all: destruct Hcases as [[-> _]|(ar & Ha & -> & _)]; [by left|right]; rewrite Hl.
    all: eexists _, _; split; [done|]; left; eauto 10.
  - destruct (display_run (query_get (sd_string "authQuery" (st_login s)) "client_id") true s)
      as (s2 & -> & _ & _ & E6 & _). intros [= <-]. by left.
Qed.

(** C5. The login endpoint answers an authorisation request at most once, and only for the user
    the identity module authenticated with the submitted login and password, or for the user of
    the SSO session; with the claims and the granted scopes of that user and client, on the
    request the login was started with. *)
Theorem login_sound r now s s' :
  handleLogin r now s = Some (tt, s') →
  st_issued s' = st_issued s ∨
  ∃ ar v, st_issued s' = st_issued s ++ [(issued_ar ar, v)] ∧ login_authority r s v ar.
Proof. apply login_cases. Qed.

(** ** Single sign-on *)

Context `{!SessionDataOk SS, !SessionDataOk LS}.

Definition remembers (form : list (string * string)) : Prop :=
  SsoMode sv = SsoAlways ∨ (SsoMode sv = SsoOnDemand ∧ values_get form "remember" = "on").

#[export] Instance remembers_dec form : Decision (remembers form).
Proof. unfold remembers. apply _. Defined.

Lemma remembers_test form :
  str_eqb (SsoMode sv) SsoAlways ||
    (str_eqb (SsoMode sv) SsoOnDemand && str_eqb (values_get form "remember") "on") = true ↔
  remembers form.
Proof. unfold remembers. by rewrite orb_true_iff, andb_true_iff, !str_eqb_true. Qed.

(** The state after a login with valid credentials: the SSO session holds the user exactly when it
    is to be remembered. *)
Lemma post_run r now s form u :
  r_PostForm r = Some form → sd_string "authQuery" (st_login s) ≠ "" →
  HttpProvider.Authenticate (Authenticator sv) (values_get form "login") (values_get form "password")
    = Ok (Some u) →
  ∃ s' ur l c, handleLogin_post r now s = Some (tt, s') ∧
    ur_Login ur = ou_Login u ∧ ur_Claims ur = Some l ∧ st_heap s' !! l = Some c ∧
    (∀ k, k ≠ "azp" → c !! k = ou_Claims u !! k) ∧
    (remembers form → sd_get "ssoUser" (st_sso s') = Some (SUser ur)) ∧
    (~ remembers form → sd_get "ssoUser" (st_sso s') = sd_get "ssoUser" (st_sso s)) ∧
    st_login s' = st_login s.
Proof.
  intros Hf Hq Hauth. unfold handleLogin_post. rewrite Hf. unfold mbind at 1, M_bind at 1. simpl.
  rewrite (proj2 (str_empty_false _)) by done. rewrite Hauth. unfold mbind, M_bind.
  destruct (new_user_run u s) as (ur & s1 & -> & Hl & _ & l & Hc & Hh & ->). simpl.
  set (b := _ || _). assert (b = true ↔ remembers form) as Hb by apply remembers_test.
  set (s2 := with_sso (if b then sd_put "ssoUser" (SUser ur) (sd_renew (st_sso s))
                       else sd_renew (st_sso s)) (with_heap (st_heap s ++ [ou_Claims u]) s)).
  assert (st_heap s2 !! l = Some (ou_Claims u)) as Hh2 by done.
  destruct (complete_run (sd_string "authQuery" (st_login s))
    (query_get (sd_string "authQuery" (st_login s)) "client_id") now ur l (ou_Claims u) s2 Hc Hh2)
    as (s3 & Hrun & Hsso & Hlog & _ & Hcases).
  exists s3, ur, l.
  assert (∃ c, st_heap s3 !! l = Some c ∧ ∀ k, k ≠ "azp" → c !! k = ou_Claims u !! k) as (c & Hc3 & Hk).
  { destruct Hcases as [(_ & -> & _)|(ar & _ & _ & ->)]; [by exists (ou_Claims u)|].
    eexists. split; [apply list_lookup_insert_eq; by eapply lookup_lt_Some|].
    intros k Hk. unfold issued_claims. case_decide; [done|]. by rewrite lookup_insert_ne. }
  exists c. split; [by unfold s2 in Hrun; destruct b|].
  split_and!; [done..| | |done].
  - intros Hr. rewrite Hsso. unfold s2. simpl. rewrite (proj2 Hb Hr). apply get_put.
  - intros Hr. rewrite Hsso. unfold s2. simpl. destruct b; [by destruct Hr; apply Hb|]. apply get_renew.
Qed.

Lemma sso_login_run rawQuery clientId now v s login cl ar :
  sso_user v = Some (login, Some cl) → rawQuery ≠ "" → accepted rawQuery (st_store s) ar →
  ∃ b s', sso_login rawQuery clientId now v s = Some (b, s') ∧
    st_issued s' = st_issued s ++ [(issued_ar ar, user_view login cl clientId (keyID sv))].
Proof.
  intros Hu Hq (q & Hreq & Ha). unfold sso_login.
  destruct v as [[| |[| | | | | | |u]]|]; try done. unfold sso_user in Hu.
  destruct (u !! "Login") as [[| | | |lg| | |]|]; try done.
  destruct (str_empty lg); [done|]. injection Hu as -> Hc.
  destruct (u !! "Claims") as [[| | | | | | |m]|]; try done. injection Hc as ->.
  rewrite (proj2 (str_empty_false _)) by done. rewrite Hreq.
  unfold mbind at 1, M_bind at 1, newAuthorizeRequest.
  destruct (NewAuthorizeRequest _ _) as [res st] eqn:HN. simpl in Ha. subst res.
  unfold mbind, M_bind.
  destruct (new_user_run {| ou_Login := login; ou_Claims := cl; ou_FullName := "" |} (with_store st s))
    as (ur & s1 & -> & Hl & _ & l & Hcl & Hh & ->).
  rewrite (issue_run ar now ur _ l cl) by done. rewrite Hl. simpl.
  destruct (NewAuthorizeResponse _ _ _) as [[resp|e] st'];
    (eexists _, _; split; [reflexivity|done]).
Qed.

(** A GET with a remembered principal and a request the OAuth library accepts is answered for that
    principal. *)
Lemma get_run r now s login cl ar :
  sso_user (sd_get "ssoUser" (st_sso s)) = Some (login, Some cl) → r_RawQuery r ≠ "" →
  accepted (r_RawQuery r) (st_store s) ar →
  ∃ s', handleLogin_get r now s = Some (tt, s') ∧
    st_issued s' = st_issued s ++
      [(issued_ar ar, user_view login cl (query_get (r_RawQuery r) "client_id") (keyID sv))].
Proof.
  intros Hu Hq Ha. unfold handleLogin_get, mbind, M_bind. simpl.
  match goal with |- context [sso_login ?q ?c ?n ?v ?s0] =>
    destruct (sso_login_run q c n v s0 login cl ar Hu Hq Ha) as (b & s1 & -> & E) end.
  destruct b; [by eexists|].
  destruct (display_run (query_get (r_RawQuery r) "client_id") false s1) as (s2 & -> & _ & _ & E6 & _).
  eexists. split; [reflexivity|]. by rewrite E6.
Qed.


Lemma sso_written_cases r now s s' :
  handleLogin r now s = Some (tt, s') →
  sd_get "ssoUser" (st_sso s') = sd_get "ssoUser" (st_sso s) ∨
  (r_Method r = "POST" ∧ ∃ form u ur, r_PostForm r = Some form ∧ remembers form ∧
    HttpProvider.Authenticate (Authenticator sv) (values_get form "login") (values_get form "password")
      = Ok (Some u) ∧
    sd_get "ssoUser" (st_sso s') = Some (SUser ur) ∧ ur_Login ur = ou_Login u).
Proof.
  unfold handleLogin, str_eqb. case_bool_decide as Hg.
  { unfold handleLogin_get, mbind, M_bind. simpl.
    destruct (sso_login _ _ _ _ _) as [[b s1]|] eqn:E; [|done].
    apply sso_login_cases in E as (E1 & _ & _). simpl in E1. rewrite <- E1. destruct b.
    - intros [= <-]. by left.
    - destruct (display_run (query_get (r_RawQuery r) "client_id") false s1)
        as (s2 & -> & E4 & _). intros [= <-]. left. by rewrite E4. }
  case_bool_decide as Hp; [|by intros [= <-]; left].
  destruct (r_PostForm r) as [form|] eqn:Hf; [|unfold handleLogin_post; rewrite Hf; by intros [= <-]; left].
  destruct (decide (sd_string "authQuery" (st_login s) = "")) as [Hq|Hq].
  { unfold handleLogin_post, mbind, M_bind. rewrite Hf. simpl. rewrite Hq. simpl. intros [= <-]. by left. }
  destruct (HttpProvider.Authenticate (Authenticator sv) (values_get form "login")
    (values_get form "password")) as [[u|]|e] eqn:Hauth.
  - destruct (post_run r now s form u Hf Hq Hauth) as (s2 & ur & l & c & -> & Hl & _ & _ & _ & Hy & Hn & _).
    intros [= <-]. destruct (decide (remembers form)) as [Hr|Hr]; [right|left; auto].
    split; [done|]. exists form, u, ur. auto 10.
  - unfold handleLogin_post, mbind, M_bind. rewrite Hf. simpl.
    rewrite (proj2 (str_empty_false _)) by done. rewrite Hauth.
    match goal with |- displayLoginResponse ?c true s = _ → _ =>
      destruct (display_run c true s) as (s2 & -> & E4 & _) end. intros [= <-]. left. by rewrite E4.
  - unfold handleLogin_post, mbind, M_bind. rewrite Hf. simpl.
    rewrite (proj2 (str_empty_false _)) by done. rewrite Hauth. intros [= <-]. by left.
Qed.

(** The login endpoint touches two values of the login session. *)
Lemma login_keeps r now s s' k :
  handleLogin r now s = Some (tt, s') → k ≠ "authQuery" → k ≠ "clientId" →
  sd_get k (st_login s') = sd_get k (st_login s).
Proof.
  intros Hrun Hk1 Hk2. revert Hrun. unfold handleLogin, str_eqb. case_bool_decide as Hg.
  { unfold handleLogin_get, mbind, M_bind. simpl.
    destruct (sso_login _ _ _ _ _) as [[b s1]|] eqn:E; [|done].
    apply sso_login_cases in E as (_ & E & _). simpl in E.
    assert (sd_get k (st_login s1) = sd_get k (st_login s)) as Hs1 by (by rewrite E, !get_put_ne).
    destruct b; [by intros [= <-]|].
    destruct (display_run (query_get (r_RawQuery r) "client_id") false s1) as (s2 & -> & _ & E4 & _).
    intros [= <-]. by rewrite E4. }
  case_bool_decide; [|by intros [= <-]].
  destruct (r_PostForm r) as [form|] eqn:Hf; [|unfold handleLogin_post; rewrite Hf; by intros [= <-]].
  destruct (decide (sd_string "authQuery" (st_login s) = "")) as [Hq|Hq].
  { unfold handleLogin_post, mbind, M_bind. rewrite Hf. simpl. rewrite Hq. simpl. by intros [= <-]. }
  destruct (HttpProvider.Authenticate (Authenticator sv) (values_get form "login")
    (values_get form "password")) as [[u|]|e] eqn:Hauth.
  - destruct (post_run r now s form u Hf Hq Hauth) as (s2 & ur & l & c & -> & _ & _ & _ & _ & _ & _ & E).
    intros [= <-]. by rewrite E.
  - unfold handleLogin_post, mbind, M_bind. rewrite Hf. simpl.
    rewrite (proj2 (str_empty_false _)) by done. rewrite Hauth.
    match goal with |- displayLoginResponse ?c true s = _ → _ =>
      destruct (display_run c true s) as (s2 & -> & _ & E4 & _) end. intros [= <-]. by rewrite E4.
  - unfold handleLogin_post, mbind, M_bind. rewrite Hf. simpl.
    rewrite (proj2 (str_empty_false _)) by done. rewrite Hauth. by intros [= <-].
Qed.

(** A login is remembered only when it may be: the login endpoint changes the SSO principal only
    on a POST with valid credentials, to the authenticated user, when the mode is [always], or
    [onDemand] and the user asked for it; with [never] no login is ever remembered. *)
Theorem sso_written_only_on_login r now s s' :
  handleLogin r now s = Some (tt, s') →
  sd_get "ssoUser" (st_sso s') = sd_get "ssoUser" (st_sso s) ∨
  (r_Method r = "POST" ∧ ∃ form u ur, r_PostForm r = Some form ∧ remembers form ∧
    HttpProvider.Authenticate (Authenticator sv) (values_get form "login") (values_get form "password")
      = Ok (Some u) ∧
    sd_get "ssoUser" (st_sso s') = Some (SUser ur) ∧ ur_Login ur = ou_Login u).
Proof. apply sso_written_cases. Qed.

End handlers.

(** ** A concrete server *)

Module Demo.
Definition web : kubauthClient := demo_client "apps" "web" "web".
Abbreviation dstore := (@MemoryStore unit unit upstream unit).
Definition store0 : dstore := set_Clients {["web" := web]} NewMemoryStore.

Definition bob : OidcUser :=
  {| ou_Login := "bob"; ou_Claims := {["groups" := VStrs ["ops"]]}; ou_FullName := "Bob" |}.
Definition auth : OidcAuthenticator := {|
  Identify := λ l p, Ok (bob, if str_eqb p "secret" then PasswordChecked else PasswordFail);
  HttpProvider.Authenticate := λ l p, Ok (if str_eqb p "secret" then Some bob else None) |}.
Definition srv (mode : string) : OIDCServer :=
  {| sv_Issuer := "https://idp"; Authenticator := auth; sv_PostLogoutURL := "/index";
     DefaultStyle := "std"; SsoMode := mode; DefaultLoginLabel := "Login"; keyID := "k1";
     sv_AccessTokenLifespan := 3600; AllowPasswordGrant := false; AllowPKCEPlain := false |}.

Definition new_areq (r : request) (st : dstore) : result (option plain_request * string) plain_request * dstore :=
  (Ok {| pr_scopes := ["openid"]; pr_aud := []; pr_client := KClient web; pr_gscopes := []; pr_gaud := [] |}, st).
Definition new_aresp (ar : plain_request) (v : view) (st : dstore) : result string string * dstore :=
  (Ok "code", st).
Definition dpage (p : page) : bool := true.

Abbreviation dstate := (@state unit unit unit plain_request string string (gmap string sval) (gmap string sval)).
Definition state0 : dstate :=
  {| st_heap := []; st_sso := ∅; st_login := {["authQuery" := SString "client_id=web"]};
     st_store := store0; st_writes := []; st_issued := []; st_events := [] |}.
Definition post (pw remember : string) : request :=
  {| r_Method := "POST"; r_RawQuery := ""; r_Header := λ _, "";
     r_PostForm := Some [("login", "bob"); ("password", pw); ("remember", remember)] |}.
Definition get_login : request :=
  {| r_Method := "GET"; r_RawQuery := "client_id=web"; r_Header := λ _, ""; r_PostForm := Some [] |}.
Definition login mode r s : option (unit * dstate) :=
  @handleLogin _ _ _ _ _ _ _ _ _ _ _ plain_add new_areq new_aresp dpage (srv mode) r 7 s.
Definition posted mode pw remember : dstate :=
  match login mode (post pw remember) state0 with Some (_, s) => s | None => state0 end.
Definition next (s : dstate) : dstate :=
  with_sso (json_sval (st_heap s) <$> st_sso s) (with_login (st_login state0) state0).
End Demo.
Import Demo.

Lemma login_sound_witness : ∃ ar v,
  st_issued (posted SsoNever "secret" "") = [(HandleAudience (HandleScopes ar), v)] ∧
  login_authority new_areq (srv SsoNever) (post "secret" "") state0 v ar.
Proof.
  assert (login SsoNever (post "secret" "") state0 = Some (tt, posted SsoNever "secret" "")) as Hrun
    by (vm_compute; reflexivity).
  destruct (login_sound (A := plain_add) new_areq new_aresp dpage (srv SsoNever) (post "secret" "") 7
    state0 (posted SsoNever "secret" "") Hrun) as [H|H].
  - vm_compute in H. discriminate H.
  - exact H.
Defined.

Lemma sso_written_witness :
  sd_get "ssoUser" (st_sso (posted SsoOnDemand "secret" "on")) ≠ sd_get "ssoUser" (st_sso state0) ∧
  remembers (srv SsoOnDemand) [("login", "bob"); ("password", "secret"); ("remember", "on")].
Proof.
  split; [vm_compute; discriminate|].
  assert (login SsoOnDemand (post "secret" "on") state0 = Some (tt, posted SsoOnDemand "secret" "on"))
    as Hrun by (vm_compute; reflexivity).
  destruct (sso_written_only_on_login (A := plain_add) new_areq new_aresp dpage (srv SsoOnDemand)
    (post "secret" "on") 7 state0 (posted SsoOnDemand "secret" "on") Hrun)
    as [H|(_ & form & u & ur & Hf & Hr & _)].
  - vm_compute in H. discriminate H.
  - injection Hf as <-. exact Hr.
Defined.


Definition logged_out : dstate :=
  match handleLogout (srv SsoAlways) get_login (posted SsoAlways "secret" "") with
  | Some (_, s) => s | None => state0 end.


Lemma login_page_offers_witness :
  GetKubauthClient "web" store0 = Ok web ∧
  ShowLoginForm (login_model (srv SsoAlways) "web" false store0).1 = true.
Proof.
  split; [vm_compute; reflexivity|].
  assert (GetKubauthClient "web" store0 = Ok web) as Hk by (vm_compute; reflexivity).
  pose proof (login_page_offers (srv SsoAlways) "web" false store0 web ltac:(discriminate) Hk) as H.
  destruct (login_model _ _ _ _) as [m ev]. destruct H as (_ & H & _). apply H. right.
  split; vm_compute; reflexivity.
Defined.
