(* ===== verification/UpstreamFlow.v ===== *)
(** * cmd/oidc/oidcserver: login through an upstream provider

    [handle-upstream-go.go] sends the browser to the provider, [handle-upstream-callback.go]
    receives it back, [handle-upstream-welcome.go] asks whether to remember the login, and
    [upstream-complete.go] resumes the authorisation request. The OAuth2 client library, the
    verification of ID tokens, the random source and JSON coding are arguments. *)

From S2P Require Import Prelude Values Base64 Misc Proto HttpProvider OidcClient Storage Upstreams Session.
From S2P Require Import Url Server LoginFlow.

Definition sessUpstreamState : string := "upstreamOAuthState".
Definition sessUpstreamNonce : string := "upstreamOAuthNonce".
Definition sessUpstreamVerifier : string := "upstreamPkceVerifier".
Definition sessUpstreamPKCE : string := "upstreamPkceUsed".
Definition sessUpstreamProvider : string := "upstreamOAuthProvider".
Definition sessPendingUpstreamUser : string := "pendingUpstreamUser".

(** ** Random strings: base64.RawURLEncoding *)

Definition randomURLSafeString (rand : nat → option (list Ascii.ascii)) (byteLen : nat) : option string :=
  b ← rand byteLen; Some (base64url b).

(** ** upstream_claims_map.go *)

Definition mapUpstreamClaimsToUser (c : ClaimSet) : result string (string * claims * string) :=
  match c with
  | None => Err "no claims"
  | Some claims =>
      let sub := claim_string claims "sub" in
      if str_empty sub then Err "missing sub claim"
      else Ok (sub, claims, claim_string claims "name")
  end.

(** ** Welcome names *)

Definition first_nonempty (l : list string) : string :=
  default "" (head (filter (λ s, s ≠ "") l)).

Definition welcomeUserName (login fullName : string) (c : ClaimSet) : string :=
  let s := trim_space fullName in
  if negb (str_empty s) then s
  else
    let fallback := trim_space login in
    match c with
    | None => fallback
    | Some claims =>
        let named := first_nonempty ((λ k, trim_space (claim_string claims k)) <$>
                       ["name"; "preferred_username"; "nickname"; "email"]) in
        if negb (str_empty named) then named
        else
          let given := trim_space (claim_string claims "given_name") in
          let family := trim_space (claim_string claims "family_name") in
          if negb (str_empty given) && negb (str_empty family) then given +:+ " " +:+ family
          else if negb (str_empty given) then given
          else if negb (str_empty family) then family
          else fallback
    end.

Definition clientIDFromRawQuery (rawQuery : string) : string :=
  if str_empty rawQuery then ""
  else if query_error rawQuery then ""
  else query_get rawQuery "client_id".

(** What the code reads of an [*oauth2.Token]: the access token its source yields, and the
    [id_token] extra when it is a string. *)
Record token := { tk_access : string; tk_id_token : option string }.

(** An [*OidcUser] as a value: claims may be nil. *)
Record upstream_user := { uu_Login : string; uu_Claims : ClaimSet; uu_FullName : string }.

Definition flow_keys : list string :=
  [sessUpstreamState; sessUpstreamNonce; sessUpstreamVerifier; sessUpstreamPKCE; sessUpstreamProvider].

Lemma pending_not_flow : sessPendingUpstreamUser ∉ flow_keys.
Proof. by apply (bool_decide_unpack (sessPendingUpstreamUser ∉ flow_keys)). Qed.

Section upstream_flow.
Context {Rq PAR JWK AR Resp OErr SS LS : Type}.
Context `{Requester AR, SessionData SS, SessionData LS} {A : ClaimAdder}.
Abbreviation store := (@MemoryStore Rq PAR upstream JWK).
Abbreviation M := (@M Rq PAR JWK AR Resp OErr SS LS).
Context (NewAuthorizeRequest : request → store → result (option AR * OErr) AR * store).
Context (NewAuthorizeResponse : AR → view → store → result OErr Resp * store).
Context (executes : page → bool).
Context (sv : OIDCServer).

(** golang.org/x/oauth2: the authorisation URL (state, nonce, PKCE verifier) and the exchange of
    a code (with the verifier when PKCE is used). *)
Context (AuthCodeURL : OAuth2AuthCodeSettings_ → string → string → option string → string).
Context (Exchange : OAuth2AuthCodeSettings_ → string → option string → result string token).
(** go-oidc. *)
Context (verify : provider → string → string → result string claims).
Context (user_info : provider → string → result string claims).
(** JSON coding of a user. *)
Context (marshal : upstream_user → result string string).
Context (unmarshal : string → option upstream_user).

(** ** upstream-complete.go *)

Definition completeUpstreamAuthorize (rawQuery : string) (now : Z) (user : user_ref) : M unit :=
  complete NewAuthorizeRequest NewAuthorizeResponse sv rawQuery (clientIDFromRawQuery rawQuery) now user.

(** ** handle-upstream-go.go *)

Definition handleUpstreamGo (rand : nat → option (list Ascii.ascii)) (rand2 : nat → option (list Ascii.ascii))
    (GenerateVerifier : string) (r : request) : M unit :=
  if negb (str_eqb (r_Method r) "GET") then http_error 405 "method not allowed"
  else
    let name := query_get (r_RawQuery r) "upstreamProvider" in
    if str_empty name then http_error 400 "missing upstreamProvider parameter"
    else
      rawQuery ← login_string "authQuery";
      if str_empty rawQuery
      then http_error 400 "session expired: restart login from the client application"
      else
        s ← get;
        match GetUpstream name (st_store s) with
        | None => http_error 404 "unknown upstream provider"
        | Some u =>
            match OAuth2AuthCodeSettings u with
            | None => http_error 400 "upstream does not support external OIDC login"
            | Some settings =>
                match randomURLSafeString rand 32, randomURLSafeString rand2 16 with
                | None, _ => http_error 500 "internal error"
                | _, None => http_error 500 "internal error"
                | Some state, Some nonce =>
                    login_put sessUpstreamState state;;
                    login_put sessUpstreamNonce nonce;;
                    login_put sessUpstreamProvider name;;
                    login_put sessUpstreamPKCE "";;
                    (if st_SupportsPKCES256 settings then
                       login_put sessUpstreamVerifier GenerateVerifier;;
                       login_put sessUpstreamPKCE "1"
                     else mret tt);;
                    redirect (AuthCodeURL settings state nonce
                      (if st_SupportsPKCES256 settings then Some GenerateVerifier else None))
                end
            end
        end.

(** ** handle-upstream-callback.go *)

(** The claims of the ID token: none without a token, refused when it does not verify or has
    another nonce. *)
Definition id_token_claims (u : upstream) (tok : token) (wantNonce : string) : result (Z * string) ClaimSet :=
  match tk_id_token tok with
  | None => Ok None
  | Some rawID =>
      if str_empty rawID then Ok None
      else match ParseAndVerifyIDToken verify u rawID with
           | Err _ => Err (502%Z, "invalid id_token")
           | Ok c =>
               let idClaims := NormalizeStringArray (Some c) in
               let gotNonce := claim_string (map_of idClaims) "nonce" in
               if negb (str_empty wantNonce) && negb (str_eqb gotNonce wantNonce)
               then Err (400%Z, "invalid nonce") else Ok idClaims
           end
  end.

(** With the user info merged on top when the provider asks for it. *)
Definition upstream_claims (u : upstream) (tok : token) (wantNonce : string) : result (Z * string) ClaimSet :=
  try! idClaims <- id_token_claims u tok wantNonce;
  if UseUserInfo u then
    match FetchUserInfoClaims user_info u (tk_access tok) with
    | Err _ => Err (502%Z, "userinfo failed")
    | Ok uiClaims => Ok (Some (MergeMaps (map_of idClaims) (map_of (NormalizeStringArray uiClaims))))
    end
  else Ok idClaims.

Definition idp_claims (u : upstream) (c : ClaimSet) : ClaimSet := CleanupClaims u (PerformRenaming u c).

Definition sub_of (c : ClaimSet) : string := claim_string (map_of c) "sub".

(** The user of the login: the local one with its claims on top of the upstream's, or the
    upstream's. Whether the lookup failed, too. *)
Definition local_user (u : upstream) (c : ClaimSet) : bool * upstream_user :=
  let plain := {| uu_Login := sub_of c; uu_Claims := c; uu_FullName := claim_string (map_of c) "name" |} in
  if LocalEnrichment u then
    match Identify (Authenticator sv) (sub_of c) "" with
    | Err _ => (true, plain)
    | Ok (user, _) =>
        (false, {| uu_Login := ou_Login user;
                   uu_Claims := Some (MergeMaps (map_of c)
                                  (map_of (NormalizeStringArray (Some (ou_Claims user)))));
                   uu_FullName := ou_FullName user |})
    end
  else (false, plain).

Definition new_upstream_user (u : upstream_user) : M user_ref := λ s,
  match uu_Claims u with
  | None => Some ({| ur_Login := uu_Login u; ur_Claims := None; ur_FullName := uu_FullName u |}, s)
  | Some c => let '(h, l) := alloc (st_heap s) c in
              Some ({| ur_Login := uu_Login u; ur_Claims := Some l; ur_FullName := uu_FullName u |},
                    with_heap h s)
  end.

(** From the cleaned claims to the end: neither error returns. *)
Definition callback_end (u : upstream) (rawQuery : string) (now : Z) (idClaims : ClaimSet) : M unit :=
  (if str_empty (sub_of idClaims) then http_error 502 "Missing sub claim" else mret tt);;
  let '(failed, usr) := local_user u idClaims in
  (if (failed : bool) then http_error 500 "Error authenticating user" else mret tt);;
  user ← new_upstream_user usr;
  sso_renew;;
  login_remove sessUpstreamState;;
  login_remove sessUpstreamNonce;;
  login_remove sessUpstreamVerifier;;
  login_remove sessUpstreamPKCE;;
  login_remove sessUpstreamProvider;;
  if str_eqb (SsoMode sv) SsoOnDemand then
    match marshal usr with
    | Err _ => http_error 500 "internal error"
    | Ok userJSON => login_put sessPendingUpstreamUser userJSON;; redirect "/upstream/welcome"
    end
  else
    (if str_eqb (SsoMode sv) SsoAlways then sso_put "ssoUser" (SUser user) else mret tt);;
    completeUpstreamAuthorize rawQuery now user.

Definition handleUpstreamCallback (r : request) (now : Z) : M unit :=
  if negb (str_eqb (r_Method r) "GET") then http_error 405 "method not allowed"
  else
    let q := r_RawQuery r in
    if negb (str_empty (query_get q "error")) then http_error 400 "upstream login failed"
    else
      let code := query_get q "code" in
      let state := query_get q "state" in
      if str_empty code || str_empty state then http_error 400 "missing code or state"
      else
        wantState ← login_string sessUpstreamState;
        if str_empty wantState || negb (str_eqb wantState state) then http_error 400 "invalid state"
        else
          name ← login_string sessUpstreamProvider;
          rawQuery ← login_string "authQuery";
          if str_empty name || str_empty rawQuery then http_error 400 "session expired"
          else
            s ← get;
            match GetUpstream name (st_store s) with
            | None => http_error 400 "unknown upstream"
            | Some u =>
                match OAuth2AuthCodeSettings u with
                | None => http_error 400 "upstream misconfigured"
                | Some settings =>
                    pkce ← login_string sessUpstreamPKCE;
                    verifier ← login_string sessUpstreamVerifier;
                    match Exchange settings code (if str_eqb pkce "1" then Some verifier else None) with
                    | Err _ => http_error 502 "token exchange failed"
                    | Ok tok =>
                        wantNonce ← login_string sessUpstreamNonce;
                        match upstream_claims u tok wantNonce with
                        | Err (status, msg) => http_error status msg
                        | Ok idClaims => callback_end u rawQuery now (idp_claims u idClaims)
                        end
                    end
                end
            end.

(** ** handle-upstream-welcome.go *)

Definition loadPendingUpstreamUser (ls : LS) : option upstream_user :=
  let raw := sd_string sessPendingUpstreamUser ls in
  if str_empty raw then None
  else match unmarshal raw with
       | None => None
       | Some u => if str_empty (uu_Login u) then None else Some u
       end.

Definition handleUpstreamWelcome (r : request) (now : Z) : M unit :=
  if negb (str_eqb (SsoMode sv) SsoOnDemand) then upd (with_write HttpNotFound)
  else
    s ← get;
    match loadPendingUpstreamUser (st_login s) with
    | None => http_error 400 "session expired: restart login from the client application"
    | Some usr =>
        if str_eqb (r_Method r) "GET" then
          let clientID := clientIDFromRawQuery (sd_string "authQuery" (st_login s)) in
          render executes (WelcomePage {|
            wm_UserName := welcomeUserName (uu_Login usr) (uu_FullName usr) (uu_Claims usr);
            wm_Style := getStyle sv clientID (st_store s) |}) "internal server error"
        else if str_eqb (r_Method r) "POST" then
          match r_PostForm r with
          | None => http_error 400 "bad request"
          | Some form =>
              let remember := str_eqb (values_get form "remember") "on" in
              rawQuery ← login_string "authQuery";
              if str_empty rawQuery
              then http_error 400 "session expired: restart login from the client application"
              else
                login_remove sessPendingUpstreamUser;;
                user ← new_upstream_user usr;
                (if remember then sso_put "ssoUser" (SUser user) else mret tt);;
                completeUpstreamAuthorize rawQuery now user
          end
        else http_error 405 "method not allowed"
    end.

(** ** What the flow guarantees *)

Context `{!ClaimAdderOk A, !SessionDataOk SS, !SessionDataOk LS}.
Implicit Types s : @state Rq PAR JWK AR Resp OErr SS LS.

Lemma new_upstream_user_run usr s :
  ∃ ur h, new_upstream_user usr s = Some (ur, with_heap h s) ∧ ur_Login ur = uu_Login usr ∧
    valid_ref h (ur_Claims ur) ∧ deref h (ur_Claims ur) = map_of (uu_Claims usr).
Proof.
  unfold new_upstream_user. destruct (uu_Claims usr) as [c|].
  - eexists _, _. split; [reflexivity|]. simpl. rewrite lookup_app_r, Nat.sub_diag by done. simpl. eauto.
  - exists {| ur_Login := uu_Login usr; ur_Claims := None; ur_FullName := uu_FullName usr |}, (st_heap s).
    destruct s; simpl. done.
Qed.

(** The view a client is issued for the user of an upstream login. *)
Definition upstream_view (usr : upstream_user) (rawQuery : string) : view :=
  user_view (uu_Login usr) (map_of (uu_Claims usr)) (clientIDFromRawQuery rawQuery) (keyID sv).

Abbreviation accepted := (accepted NewAuthorizeRequest).

(** Completing for a user: at most one answer, for that user. *)
Definition answered s (rawQuery : string) (usr : upstream_user) s' : Prop :=
  (st_issued s' = st_issued s ∧ ∀ ar, ~ accepted rawQuery (st_store s) ar) ∨
  (∃ ar, accepted rawQuery (st_store s) ar ∧
     st_issued s' = st_issued s ++ [(HandleAudience (HandleScopes ar), upstream_view usr rawQuery)]).

Lemma complete_upstream_run rawQuery now ur usr s :
  ur_Login ur = uu_Login usr → valid_ref (st_heap s) (ur_Claims ur) →
  deref (st_heap s) (ur_Claims ur) = map_of (uu_Claims usr) →
  ∃ s', completeUpstreamAuthorize rawQuery now ur s = Some (tt, s') ∧
    st_sso s' = st_sso s ∧ st_login s' = st_login s ∧
    (∃ w, st_writes s' = st_writes s ++ [w]) ∧ answered s rawQuery usr s'.
Proof.
  intros Hl Hv Hd. unfold completeUpstreamAuthorize.
  destruct (complete_ref NewAuthorizeRequest NewAuthorizeResponse sv rawQuery
    (clientIDFromRawQuery rawQuery) now ur s Hv) as (s' & -> & H1' & H2' & H3' & H4').
  rewrite Hl, Hd in H4'. by exists s'.
Qed.

Definition consumed (ls : LS) : Prop :=
  sd_get sessUpstreamState ls = None ∧ sd_get sessUpstreamNonce ls = None ∧
  sd_get sessUpstreamVerifier ls = None ∧ sd_get sessUpstreamPKCE ls = None ∧
  sd_get sessUpstreamProvider ls = None.

Definition remove_all (ls : LS) : LS :=
  sd_remove sessUpstreamProvider (sd_remove sessUpstreamPKCE (sd_remove sessUpstreamVerifier
    (sd_remove sessUpstreamNonce (sd_remove sessUpstreamState ls)))).

Lemma remove_all_consumed ls : consumed (remove_all ls).
Proof.
  unfold consumed, remove_all. split_and!;
    repeat (rewrite get_remove || rewrite get_remove_ne by done); done.
Qed.

Lemma remove_all_other ls k :
  k ∉ flow_keys →
  sd_get k (remove_all ls) = sd_get k ls.
Proof.
  unfold flow_keys. rewrite !not_elem_of_cons. intros (H1' & H2' & H3' & H4' & H5' & _).
  unfold remove_all. by rewrite !get_remove_ne.
Qed.

(** The errors written on the way, after which the handler goes on. *)
Definition callback_errors (u : upstream) (c : ClaimSet) : list (@write AR Resp OErr) :=
  (if str_empty (sub_of c) then [HttpError 502 "Missing sub claim"] else []) ++
  (if (local_user u c).1 then [HttpError 500 "Error authenticating user"] else []).

Definition with_writes (ws : list (@write AR Resp OErr)) s : state :=
  {| st_heap := st_heap s; st_sso := st_sso s; st_login := st_login s; st_store := st_store s;
     st_writes := st_writes s ++ ws; st_issued := st_issued s; st_events := st_events s |}.

(** What is kept of a finished callback. *)
Definition finished (u : upstream) (rawQuery : string) (c : ClaimSet) s s' : Prop :=
  let usr := (local_user u c).2 in
  consumed (st_login s') ∧
  (∃ w, st_writes s' = st_writes s ++ callback_errors u c ++ [w]) ∧
  if decide (SsoMode sv = SsoOnDemand) then
    st_issued s' = st_issued s ∧ sd_get "ssoUser" (st_sso s') = sd_get "ssoUser" (st_sso s) ∧
    (∀ j, marshal usr = Ok j → sd_string sessPendingUpstreamUser (st_login s') = j ∧
       st_writes s' = st_writes s ++ callback_errors u c ++ [HttpRedirect "/upstream/welcome"]) ∧
    (∀ e, marshal usr = Err e →
       sd_get sessPendingUpstreamUser (st_login s') = sd_get sessPendingUpstreamUser (st_login s))
  else
    answered s rawQuery usr s' ∧
    sd_get sessPendingUpstreamUser (st_login s') = sd_get sessPendingUpstreamUser (st_login s) ∧
    if decide (SsoMode sv = SsoAlways) then
      ∃ ur, sd_get "ssoUser" (st_sso s') = Some (SUser ur) ∧ ur_Login ur = uu_Login usr
    else sd_get "ssoUser" (st_sso s') = sd_get "ssoUser" (st_sso s).

(** The steps up to the choice of the mode. *)
Lemma callback_end_unfold u rawQuery now c s :
  ∃ ur h, let usr := (local_user u c).2 in
  let s1 := with_login (remove_all (st_login s)) (with_sso (sd_renew (st_sso s))
              (with_heap h (with_writes (callback_errors u c) s))) in
  ur_Login ur = uu_Login usr ∧ valid_ref h (ur_Claims ur) ∧
  deref h (ur_Claims ur) = map_of (uu_Claims usr) ∧
  callback_end u rawQuery now c s =
    (if str_eqb (SsoMode sv) SsoOnDemand then
       match marshal usr with
       | Err _ => http_error 500 "internal error"
       | Ok userJSON => login_put sessPendingUpstreamUser userJSON;; redirect "/upstream/welcome"
       end
     else
       (if str_eqb (SsoMode sv) SsoAlways then sso_put "ssoUser" (SUser ur) else mret tt);;
       completeUpstreamAuthorize rawQuery now ur) s1.
Proof.
  unfold callback_end, callback_errors. destruct (local_user u c) as [failed usr] eqn:El.
  destruct (new_upstream_user_run usr (with_writes (callback_errors u c) s)) as (ur & h & Hn & H1' & H2' & H3').
  exists ur, h. simpl. split; [done|]. split; [done|]. split; [done|].
  unfold callback_errors in Hn. rewrite El in Hn. simpl in Hn.
  unfold mbind, M_bind. destruct s.
  destruct (str_empty (sub_of c)), failed; simpl in *;
    unfold with_writes, with_write in *; simpl in *;
    rewrite <- ?app_assoc in *; rewrite ?app_nil_r in *; simpl in *; rewrite Hn; done.
Qed.

Lemma callback_end_run u rawQuery now c s :
  ∃ s', callback_end u rawQuery now c s = Some (tt, s') ∧ finished u rawQuery c s s'.
Proof.
  destruct (callback_end_unfold u rawQuery now c s) as (ur & h & Hl & Hv & Hd & ->).
  unfold finished, str_eqb. cbn zeta.
  destruct (decide (SsoMode sv = SsoOnDemand)) as [Ho|Ho].
  - rewrite bool_decide_true by done. destruct (marshal _) as [j|e] eqn:Hj; simpl.
    + eexists. split; [reflexivity|]. simpl. split.
      { pose proof (remove_all_consumed (st_login s)) as Hc. unfold consumed in *.
        rewrite !get_put_ne by done. done. }
      split; [rewrite <- app_assoc; eauto|]. split; [done|]. split; [apply get_renew|].
      split; [|done]. intros j' [= <-]. unfold sd_string. by rewrite get_put, <- app_assoc.
    + eexists. split; [reflexivity|]. simpl. split; [apply remove_all_consumed|].
      split; [rewrite <- app_assoc; eauto|]. split; [done|]. split; [apply get_renew|].
      split; [done|]. intros _ _. apply remove_all_other, pending_not_flow.
  - rewrite bool_decide_false by done. unfold mbind, M_bind.
    destruct (decide (SsoMode sv = SsoAlways)) as [Ha|Ha].
    + rewrite bool_decide_true by done. simpl.
      match goal with |- context [completeUpstreamAuthorize ?q ?n ?w ?s0] =>
        destruct (complete_upstream_run q n w (local_user u c).2 s0 Hl Hv Hd)
          as (s' & -> & E1 & E2 & [w' E3] & E4) end. simpl in *.
      exists s'. split; [done|]. rewrite E1, E2, E3, <- app_assoc.
      split; [apply remove_all_consumed|]. split; [eauto|]. split; [exact E4|].
      split; [apply remove_all_other, pending_not_flow|]. exists ur. by rewrite get_put.
    + rewrite bool_decide_false by done. simpl.
      match goal with |- context [completeUpstreamAuthorize ?q ?n ?w ?s0] =>
        destruct (complete_upstream_run q n w (local_user u c).2 s0 Hl Hv Hd)
          as (s' & -> & E1 & E2 & [w' E3] & E4) end. simpl in *.
      exists s'. split; [done|]. rewrite E1, E2, E3, <- app_assoc.
      split; [apply remove_all_consumed|]. split; [eauto|]. split; [exact E4|].
      split; [apply remove_all_other, pending_not_flow|]. apply get_renew.
Qed.

(** *** The callback *)

(** What the provider vouches for: the state of this browser's flow, the provider it chose, a code
    the provider exchanges (with the PKCE verifier of the flow), and, when there is an ID token,
    one that verifies and carries the nonce of the flow. *)
Definition vouched (r : request) s (u : upstream) (ic : ClaimSet) : Prop :=
  r_Method r = "GET" ∧ sd_string sessUpstreamState (st_login s) ≠ "" ∧
  query_get (r_RawQuery r) "state" = sd_string sessUpstreamState (st_login s) ∧
  GetUpstream (sd_string sessUpstreamProvider (st_login s)) (st_store s) = Some u ∧
  ∃ settings tok, OAuth2AuthCodeSettings u = Some settings ∧
    Exchange settings (query_get (r_RawQuery r) "code")
      (if str_eqb (sd_string sessUpstreamPKCE (st_login s)) "1"
       then Some (sd_string sessUpstreamVerifier (st_login s)) else None) = Ok tok ∧
    upstream_claims u tok (sd_string sessUpstreamNonce (st_login s)) = Ok ic ∧
    (∀ rawID, tk_id_token tok = Some rawID → rawID ≠ "" →
       ∃ c, ParseAndVerifyIDToken verify u rawID = Ok c ∧
         (sd_string sessUpstreamNonce (st_login s) ≠ "" →
          claim_string (map_of (NormalizeStringArray (Some c))) "nonce" =
            sd_string sessUpstreamNonce (st_login s))).

Lemma upstream_claims_token u tok nonce ic rawID :
  upstream_claims u tok nonce = Ok ic → tk_id_token tok = Some rawID → rawID ≠ "" →
  ∃ c, ParseAndVerifyIDToken verify u rawID = Ok c ∧
    (nonce ≠ "" → claim_string (map_of (NormalizeStringArray (Some c))) "nonce" = nonce).
Proof.
  unfold upstream_claims, id_token_claims. intros Hu Ht Hr. revert Hu.
  rewrite Ht, (proj2 (str_empty_false _)) by done.
  destruct (ParseAndVerifyIDToken verify u rawID) as [c|e]; [|done]. intros Hu. exists c.
  split; [done|]. intros Hn. revert Hu. rewrite (proj2 (str_empty_false _)) by done. cbn zeta.
  destruct (str_eqb _ nonce) eqn:E; [|done]. by apply str_eqb_true in E.
Qed.

Lemma callback_cases r now s :
  ∃ s', handleUpstreamCallback r now s = Some (tt, s') ∧
  ((∃ code msg, s' = with_write (HttpError code msg) s) ∨
   ∃ u ic, vouched r s u ic ∧ sd_string "authQuery" (st_login s) ≠ "" ∧
     finished u (sd_string "authQuery" (st_login s)) (idp_claims u ic) s s').
Proof.
  unfold handleUpstreamCallback.
  destruct (str_eqb (r_Method r) "GET") eqn:Hm; simpl; [|eexists; eauto].
  destruct (str_empty (query_get (r_RawQuery r) "error")); simpl; [|eexists; eauto].
  destruct (str_empty (query_get (r_RawQuery r) "code") || _); [eexists; eauto|].
  unfold mbind at 1, M_bind at 1. simpl.
  destruct (str_empty (sd_string sessUpstreamState (st_login s))) eqn:Hs1; simpl; [eexists; eauto|].
  destruct (str_eqb (sd_string sessUpstreamState (st_login s)) _) eqn:Hs2; simpl; [|eexists; eauto].
  unfold mbind at 1, M_bind at 1. simpl. unfold mbind at 1, M_bind at 1. simpl.
  destruct (str_empty (sd_string sessUpstreamProvider (st_login s))) eqn:Hn; simpl; [eexists; eauto|].
  destruct (str_empty (sd_string "authQuery" (st_login s))) eqn:Hq; simpl; [eexists; eauto|].
  unfold mbind at 1, M_bind at 1. simpl.
  destruct (GetUpstream _ _) as [u|] eqn:Hu; [|eexists; eauto].
  destruct (OAuth2AuthCodeSettings u) as [settings|] eqn:Hset; [|eexists; eauto].
  unfold mbind at 1, M_bind at 1. simpl. unfold mbind at 1, M_bind at 1. simpl.
  destruct (Exchange _ _ _) as [tok|] eqn:Hx; [|eexists; eauto].
  unfold mbind at 1, M_bind at 1. simpl.
  destruct (upstream_claims u tok _) as [ic|[status msg]] eqn:Hc; [|eexists; eauto].
  destruct (callback_end_run u (sd_string "authQuery" (st_login s)) now (idp_claims u ic) s)
    as (s' & -> & Hfin). exists s'. split; [done|]. right. exists u, ic.
  apply str_empty_false in Hs1, Hq. apply str_eqb_true in Hs2, Hm.
  split; [|done]. split_and!; [done|done|done|done|]. exists settings, tok.
  split_and!; [done..|]. intros rawID Hr1 Hr2. eapply upstream_claims_token; eauto.
Qed.


(** C15. A callback is not replayed: once a callback signed somebody in, no callback request at all
    succeeds in this browser session until a new flow is started. *)
Theorem callback_not_replayed r now s s' r2 now2 s2 :
  handleUpstreamCallback r now s = Some (tt, s') → st_issued s' ≠ st_issued s →
  st_login s2 = st_login s' →
  ∃ code msg, handleUpstreamCallback r2 now2 s2 = Some (tt, with_write (HttpError code msg) s2).
Proof.
  destruct (callback_cases r now s) as (s1 & -> & Hc). intros [= <-] Hi Hl.
  destruct Hc as [(code & msg & ->)|(u & ic & _ & _ & Hfin)]; [done|].
  destruct Hfin as [[Hst _] _].
  destruct (callback_cases r2 now2 s2) as (s3 & -> & [(code & msg & ->)|(u2 & ic2 & Hv & _)]); [eauto|].
  destruct Hv as (_ & Hne & _). destruct Hne. rewrite Hl. unfold sd_string. by rewrite Hst.
Qed.

(** *** Starting a flow *)

Lemma go_run rand rand2 verifier r s n u settings b1 b2 :
  r_Method r = "GET" → query_get (r_RawQuery r) "upstreamProvider" = n → n ≠ "" →
  sd_string "authQuery" (st_login s) ≠ "" → GetUpstream n (st_store s) = Some u →
  OAuth2AuthCodeSettings u = Some settings → rand 32 = Some b1 → rand2 16 = Some b2 →
  ∃ s', handleUpstreamGo rand rand2 verifier r s = Some (tt, s') ∧
    st_writes s' = st_writes s ++ [HttpRedirect (AuthCodeURL settings (base64url b1) (base64url b2)
      (if st_SupportsPKCES256 settings then Some verifier else None))] ∧
    sd_string sessUpstreamState (st_login s') = base64url b1 ∧
    sd_string sessUpstreamNonce (st_login s') = base64url b2 ∧
    sd_string sessUpstreamProvider (st_login s') = n ∧
    sd_string "authQuery" (st_login s') = sd_string "authQuery" (st_login s) ∧
    (if str_eqb (sd_string sessUpstreamPKCE (st_login s')) "1"
     then Some (sd_string sessUpstreamVerifier (st_login s')) else None) =
    (if st_SupportsPKCES256 settings then Some verifier else None).
Proof.
  intros Hm Hn Hne Hq Hu Hset Hr1 Hr2. unfold handleUpstreamGo. rewrite Hm, Hn. simpl.
  rewrite (proj2 (str_empty_false n)) by done. unfold mbind, M_bind. simpl.
  rewrite (proj2 (str_empty_false _)) by done. rewrite Hu, Hset.
  unfold randomURLSafeString. rewrite Hr1, Hr2. simpl.
  destruct (st_SupportsPKCES256 settings); simpl; (eexists; split; [reflexivity|]); simpl;
    (split; [done|]); unfold sd_string;
    repeat (rewrite get_put || rewrite get_put_ne by done); done.
Qed.


(** *** The local directory does not decide *)

(** When the local lookup of the user fails, the callback answers 500 and goes on: in mode
    [always] the SSO session is written all the same, for the upstream's user without the local
    claims, so that the next login is granted without them. *)
Theorem enrichment_failure_signs_in u rawQuery now c s s' e :
  SsoMode sv = SsoAlways → LocalEnrichment u = true → sub_of c ≠ "" →
  Identify (Authenticator sv) (sub_of c) "" = Err e →
  callback_end u rawQuery now c s = Some (tt, s') →
  (∃ w, st_writes s' = st_writes s ++ [HttpError 500 "Error authenticating user"; w]) ∧
  ∃ ur, sd_get "ssoUser" (st_sso s') = Some (SUser ur) ∧ ur_Login ur = sub_of c.
Proof.
  intros Hm Hle Hs Hi. destruct (callback_end_run u rawQuery now c s) as (s1 & -> & Hf).
  intros [= <-]. unfold finished, callback_errors, local_user in Hf. rewrite Hle, Hi, Hm in Hf. simpl in Hf.
  rewrite (proj2 (str_empty_false _)) in Hf by done. destruct Hf as (_ & [w Hw] & _ & _ & Hsso).
  split; [by exists w|exact Hsso].
Qed.

(** The status of the local user is not looked at: a user whom the local directory declares
    disabled is signed in through an upstream provider like any other. *)
Theorem disabled_user_signs_in_upstream u rawQuery now c s s' user ar :
  SsoMode sv ≠ SsoOnDemand → LocalEnrichment u = true →
  Identify (Authenticator sv) (sub_of c) "" = Ok (user, Disabled) →
  accepted rawQuery (st_store s) ar →
  callback_end u rawQuery now c s = Some (tt, s') →
  ∃ ar' v, st_issued s' = st_issued s ++ [(ar', v)] ∧ v_Subject v = ou_Login user.
Proof.
  intros Hm Hle Hi Ha. destruct (callback_end_run u rawQuery now c s) as (s1 & -> & Hf).
  intros [= <-]. unfold finished, local_user in Hf. rewrite Hle, Hi in Hf. simpl in Hf.
  destruct Hf as (_ & _ & Hf). rewrite decide_False in Hf by done.
  destruct Hf as ([[_ Hna]|(ar' & _ & Hiss)] & _); [by destruct (Hna ar)|].
  eexists _, _. split; [exact Hiss|done].
Qed.

(** *** Asking before remembering *)

Lemma welcome_cases r now s s' :
  handleUpstreamWelcome r now s = Some (tt, s') →
  (st_issued s' = st_issued s ∧ st_sso s' = st_sso s ∧ st_login s' = st_login s) ∨
  (SsoMode sv = SsoOnDemand ∧ r_Method r = "POST" ∧ ∃ usr form,
     loadPendingUpstreamUser (st_login s) = Some usr ∧ r_PostForm r = Some form ∧
     answered s (sd_string "authQuery" (st_login s)) usr s' ∧
     loadPendingUpstreamUser (st_login s') = None ∧
     if decide (values_get form "remember" = "on")
     then ∃ ur, sd_get "ssoUser" (st_sso s') = Some (SUser ur) ∧ ur_Login ur = uu_Login usr
     else st_sso s' = st_sso s).
Proof.
  unfold handleUpstreamWelcome.
  destruct (str_eqb (SsoMode sv) SsoOnDemand) eqn:Hm; simpl; [|by intros [= <-]; left].
  unfold mbind at 1, M_bind at 1. simpl.
  destruct (loadPendingUpstreamUser (st_login s)) as [usr|] eqn:Hp; [|by intros [= <-]; left].
  destruct (str_eqb (r_Method r) "GET").
  { unfold render, mbind, M_bind. simpl. destruct (executes _); intros [= <-]; by left. }
  destruct (str_eqb (r_Method r) "POST") eqn:Hpost; [|by intros [= <-]; left].
  destruct (r_PostForm r) as [form|] eqn:Hf; [|by intros [= <-]; left].
  unfold mbind at 1, M_bind at 1. simpl. destruct (str_empty _) eqn:Hq; [by intros [= <-]; left|].
  unfold mbind, M_bind. simpl.
  match goal with |- context [new_upstream_user usr ?s0] =>
    destruct (new_upstream_user_run usr s0) as (ur & h & -> & Hl & Hv & Hd) end.
  apply str_eqb_true in Hm, Hpost. unfold str_eqb at 1.
  assert (∀ ls, loadPendingUpstreamUser (sd_remove sessPendingUpstreamUser ls) = None) as Hrem.
  { intros ls. unfold loadPendingUpstreamUser, sd_string. by rewrite get_remove. }
  case_bool_decide as Hrm; simpl.
  all: match goal with |- completeUpstreamAuthorize ?q ?n ?w ?s0 = _ → _ =>
         destruct (complete_upstream_run q n w usr s0 Hl Hv Hd)
           as (s2 & -> & E1 & E2 & _ & E4) end; intros [= <-]; simpl in *; right.
  all: (split; [done|]); (split; [done|]); exists usr, form; (split; [done|]); (split; [done|]);
    (split; [exact E4|]); rewrite E1, E2; (split; [apply Hrem|]).
  - rewrite decide_True by done. exists ur. by rewrite get_put.
  - by rewrite decide_False.
Qed.
(** Starting a flow issues nothing, and touches neither the SSO session nor the pending user. *)
Lemma go_keeps rand rand2 verifier r s s' :
  handleUpstreamGo rand rand2 verifier r s = Some (tt, s') →
  st_issued s' = st_issued s ∧ st_sso s' = st_sso s ∧
  sd_get sessPendingUpstreamUser (st_login s') = sd_get sessPendingUpstreamUser (st_login s).
Proof.
  unfold handleUpstreamGo. destruct (negb _); [by intros [= <-]|].
  destruct (str_empty _); [by intros [= <-]|]. unfold mbind, M_bind. simpl.
  destruct (str_empty _); [by intros [= <-]|].
  destruct (GetUpstream _ _) as [u|]; [|by intros [= <-]].
  destruct (OAuth2AuthCodeSettings u) as [settings|]; [|by intros [= <-]].
  destruct (randomURLSafeString rand 32) as [state|]; [|by intros [= <-]].
  destruct (randomURLSafeString rand2 16) as [nonce|]; [|by intros [= <-]].
  destruct (st_SupportsPKCES256 settings); simpl; intros [= <-]; simpl;
    (split; [done|]); (split; [done|]); by rewrite !get_put_ne.
Qed.

(** In mode [onDemand] the welcome page is where an upstream login ends: it answers only for the
    pending user of the session, on a POST, once (the pending user is removed), and writes the SSO
    session exactly when the user ticked the box; in any other case nothing is issued and the
    sessions are unchanged. *)
Theorem welcome_sound r now s s' :
  handleUpstreamWelcome r now s = Some (tt, s') →
  (st_issued s' = st_issued s ∧ st_sso s' = st_sso s ∧ st_login s' = st_login s) ∨
  (SsoMode sv = SsoOnDemand ∧ r_Method r = "POST" ∧ ∃ usr form,
     loadPendingUpstreamUser (st_login s) = Some usr ∧ r_PostForm r = Some form ∧
     answered s (sd_string "authQuery" (st_login s)) usr s' ∧
     loadPendingUpstreamUser (st_login s') = None ∧
     if decide (values_get form "remember" = "on")
     then ∃ ur, sd_get "ssoUser" (st_sso s') = Some (SUser ur) ∧ ur_Login ur = uu_Login usr
     else st_sso s' = st_sso s).
Proof. apply welcome_cases. Qed.
End upstream_flow.

(** ** A concrete flow *)

Import Demo.

Module UDemo.
Definition corp : upstream :=
  {| up_name := "corp"; up_spec := demo_oidc_spec; up_clientSecret := "s3";
     up_provider := Some demo_oidc_provider; up_httpClient := None;
     up_extraConfig := {| ec_IntrospectionURL := ""; ec_EndSessionURL := ""; ec_JwksURL := "";
                          ec_Algorithms := []; ec_CodeChallengeMethods := ["S256"] |} |}.
Definition ustore : dstore := set_Upstreams {["corp" := corp]} store0.
Definition url (st : OAuth2AuthCodeSettings_) (state nonce : string) (v : option string) : string :=
  st_AuthURL st +:+ "?state=" +:+ state.
(** The provider exchanges the code ["c1"] of the verifier ["ver"]. *)
Definition exchange (st : OAuth2AuthCodeSettings_) (code : string) (v : option string) : result string token :=
  if str_eqb code "c1" && bool_decide (v = Some "ver")
  then Ok {| tk_access := "at"; tk_id_token := Some "idt" |} else Err "bad code".
Definition rnd (b : Ascii.ascii) (n : nat) : option (list Ascii.ascii) := Some (replicate n b).
Definition nonce1 : string := base64url (replicate 16 "b"%char).
Definition state1 : string := base64url (replicate 32 "a"%char).
Definition verify1 (p : provider) (client raw : string) : result string claims :=
  if str_eqb raw "idt"
  then Ok (<["sub" := VString "alice"]> (<["nonce" := VString nonce1]> {["iss" := VString "corp"]}))
  else Err "bad token".
Definition info1 (p : provider) (t : string) : result string claims := Err "down".
Definition marshal1 (u : upstream_user) : result string string := Ok (uu_Login u).
Definition unmarshal1 (j : string) : option upstream_user :=
  Some {| uu_Login := j; uu_Claims := Some ∅; uu_FullName := "" |}.

Definition usrv (mode : string) (a : OidcAuthenticator) : OIDCServer :=
  {| sv_Issuer := "https://idp"; Authenticator := a; sv_PostLogoutURL := "/index";
     DefaultStyle := "std"; SsoMode := mode; DefaultLoginLabel := "Login"; keyID := "k1";
     sv_AccessTokenLifespan := 3600; AllowPasswordGrant := false; AllowPKCEPlain := false |}.
(** Local directories: one that knows everybody, one that is down, one where all are disabled. *)
Definition identify_as (res : string → result string (OidcUser * Status)) : OidcAuthenticator :=
  {| Identify := λ l _, res l; HttpProvider.Authenticate := λ _ _, Ok None |}.
Definition local (l : string) : OidcUser :=
  {| ou_Login := l; ou_Claims := {["team" := VString "t1"]}; ou_FullName := l |}.
Definition up_dir := identify_as (λ l, Ok (local l, UserNotFound)).
Definition down_dir := identify_as (λ _, Err "down").
Definition disabled_dir := identify_as (λ l, Ok (local l, Disabled)).

Definition s0 : dstate := with_store ustore state0.
Definition go_req : request :=
  {| r_Method := "GET"; r_RawQuery := "upstreamProvider=corp"; r_Header := λ _, ""; r_PostForm := Some [] |}.
Definition cb_req : request :=
  {| r_Method := "GET"; r_RawQuery := "code=c1&state=" +:+ state1; r_Header := λ _, ""; r_PostForm := Some [] |}.
Definition welcome_req : request :=
  {| r_Method := "POST"; r_RawQuery := ""; r_Header := λ _, ""; r_PostForm := Some [("remember", "on")] |}.

Definition go (s : dstate) : option (unit * dstate) :=
  handleUpstreamGo url (rnd "a"%char) (rnd "b"%char) "ver" go_req s.
Definition callback mode a (s : dstate) : option (unit * dstate) :=
  handleUpstreamCallback (A := plain_add) new_areq new_aresp (usrv mode a) exchange verify1 info1 marshal1
    cb_req 9 s.
Definition ending mode a (c : ClaimSet) (s : dstate) : option (unit * dstate) :=
  callback_end (A := plain_add) new_areq new_aresp (usrv mode a) marshal1 corp "client_id=web" 9 c s.
Definition welcome mode a (s : dstate) : option (unit * dstate) :=
  handleUpstreamWelcome (A := plain_add) new_areq new_aresp dpage (usrv mode a) unmarshal1 welcome_req 9 s.
Definition ran (r : option (unit * dstate)) : dstate := match r with Some (_, s) => s | None => s0 end.
End UDemo.
Import UDemo.


Lemma callback_not_replayed_witness : ∃ code msg,
  callback SsoNever up_dir (ran (callback SsoNever up_dir (ran (go s0)))) =
  Some (tt, with_write (HttpError code msg) (ran (callback SsoNever up_dir (ran (go s0))))).
Proof.
  assert (callback SsoNever up_dir (ran (go s0)) = Some (tt, ran (callback SsoNever up_dir (ran (go s0)))))
    as Hrun by (vm_compute; reflexivity).
  assert (st_issued (ran (callback SsoNever up_dir (ran (go s0)))) ≠ st_issued (ran (go s0))) as Hi
    by (vm_compute; discriminate).
  exact (callback_not_replayed (A := plain_add) new_areq new_aresp (usrv SsoNever up_dir) exchange verify1
    info1 marshal1 cb_req 9 (ran (go s0)) _ cb_req 9 _ Hrun Hi eq_refl).
Defined.


Definition alice_claims : ClaimSet := Some {["sub" := VString "alice"]}.

Lemma enrichment_failure_witness :
  ∃ ur, sd_get "ssoUser" (st_sso (ran (ending SsoAlways down_dir alice_claims s0))) = Some (SUser ur) ∧
  ur_Login ur = "alice".
Proof.
  assert (ending SsoAlways down_dir alice_claims s0 =
    Some (tt, ran (ending SsoAlways down_dir alice_claims s0))) as Hrun by (vm_compute; reflexivity).
  apply (enrichment_failure_signs_in (A := plain_add) new_areq new_aresp (usrv SsoAlways down_dir) marshal1
    corp "client_id=web" 9 alice_claims s0 _ "down" eq_refl eq_refl ltac:(discriminate) eq_refl Hrun).
Defined.

Lemma disabled_user_signs_in_witness : ∃ ar v,
  st_issued (ran (ending SsoNever disabled_dir alice_claims s0)) = [(ar, v)] ∧ v_Subject v = "alice".
Proof.
  assert (ending SsoNever disabled_dir alice_claims s0 =
    Some (tt, ran (ending SsoNever disabled_dir alice_claims s0))) as Hrun by (vm_compute; reflexivity).
  apply (disabled_user_signs_in_upstream (A := plain_add) new_areq new_aresp (usrv SsoNever disabled_dir)
    marshal1 corp "client_id=web" 9 alice_claims s0 _ (local "alice")
    {| pr_scopes := ["openid"]; pr_aud := []; pr_client := KClient web; pr_gscopes := []; pr_gaud := [] |}
    ltac:(discriminate) eq_refl eq_refl); [|exact Hrun].
  exists "client_id=web". split; vm_compute; reflexivity.
Defined.

Definition pending : dstate := ran (callback SsoOnDemand up_dir (ran (go s0))).

Lemma welcome_sound_witness :
  st_issued (ran (welcome SsoOnDemand up_dir pending)) ≠ [] ∧
  ∃ usr, loadPendingUpstreamUser unmarshal1 (st_login pending) = Some usr.
Proof.
  assert (welcome SsoOnDemand up_dir pending = Some (tt, ran (welcome SsoOnDemand up_dir pending))) as Hrun
    by (vm_compute; reflexivity).
  split; [vm_compute; discriminate|].
  destruct (welcome_sound (A := plain_add) new_areq new_aresp dpage (usrv SsoOnDemand up_dir) unmarshal1
    welcome_req 9 pending _ Hrun) as [(H & _)|(_ & _ & usr & form & H & _)].
  - vm_compute in H. discriminate H.
  - exists usr. exact H.
Defined.
