(* ===== verification/Ropc.v ===== *)
(** * cmd/oidc/fositepatch: the password grant

    [flow_resource_owner.go]: the token endpoint's handler of the resource owner password
    credentials grant, in its two steps: checking the request, and issuing and storing the
    tokens. The requests and the token strategies of the OAuth library are an interface and
    arguments; the store is the one of [Storage]. *)

From S2P Require Import Prelude Values HttpProvider OidcClient Storage Session.

(** The errors of the OAuth library the handler returns. *)
Inductive oauth_error :=
| ErrUnknownRequest
| ErrRequestForbidden
| ErrUnauthorizedClient
| ErrInvalidScope (scope : string)
| ErrAudience (e : string)
| ErrInvalidRequest
| ErrServerError (e : string)
| ErrInvalidGrant
| ErrStrategy (e : string).

(** [fosite.AccessRequester], beyond the granting part. *)
Class AccessRequester (R : Type) `{Requester R} := {
  GetGrantTypes : R → list string;
  GetRequestForm : R → string → string;
  DeleteForm : string → R → R;
  GetSession : R → option OIDCSession;
  SetSession : OIDCSession → R → R;
}.

(** What is set is read back, and granting or editing the form leaves the session alone. *)
Class AccessRequesterOk (R : Type) `{AccessRequester R} : Prop := {
  session_set s r : GetSession (SetSession s r) = Some s;
  session_scope x r : GetSession (GrantScope x r) = GetSession r;
  session_aud x r : GetSession (GrantAudience x r) = GetSession r;
  session_form k r : GetSession (DeleteForm k r) = GetSession r;
  form_deleted k r : GetRequestForm (DeleteForm k r) k = "";
  form_set s k r : GetRequestForm (SetSession s r) k = GetRequestForm r k;
  form_scope x k r : GetRequestForm (GrantScope x r) k = GetRequestForm r k;
  form_aud x k r : GetRequestForm (GrantAudience x r) k = GetRequestForm r k;
  set_scopes s r : GetGrantedScopes (SetSession s r) = GetGrantedScopes r;
  set_req_scopes s r : GetRequestedScopes (SetSession s r) = GetRequestedScopes r;
  set_client s r : GetClient (SetSession s r) = GetClient r;
  form_scopes k r : GetGrantedScopes (DeleteForm k r) = GetGrantedScopes r;
  form_req_scopes k r : GetRequestedScopes (DeleteForm k r) = GetRequestedScopes r;
  form_client k r : GetClient (DeleteForm k r) = GetClient r;
}.

(** [time.Time.Round(time.Second)], halfway values up. *)
Definition second : Z := (10 ^ 9)%Z.
Definition round_second (t : Z) : Z := ((t + second / 2) / second * second)%Z.

(** [fosite.GetEffectiveLifespan]: the client decides when it can. *)
Definition effective_lifespan (c : fclient) (tt : TokenType) (fallback : Z) : Z :=
  match c with KClient k => GetEffectiveLifespan k tt fallback | OtherClient _ => fallback end.

(** The parameters the handler reads of the configuration. *)
Record ropc_config := {
  ScopeStrategy : list string → string → bool;
  AudienceStrategy : list string → list string → option string;
  RefreshTokenScopes : list string;
  cfg_AccessTokenLifespan : Z;
  cfg_RefreshTokenLifespan : Z;
  cfg_IDTokenLifespan : Z;
}.

(** [fosite.AccessResponder]. *)
Record responder := {
  AccessToken_ : string;
  TokenType_ : string;
  ExpiresIn : Z;
  resp_Scopes : list string;
  resp_Extra : gmap string string;
}.

Section ropc.
Context {R Rq PAR Up JWK : Type} `{AccessRequester R}.
Context {A : ClaimAdder}.
Abbreviation store := (@MemoryStore Rq PAR Up JWK).
(** The store's settings and its authenticator. *)
Context (issuer kid : string) (allowPasswordGrant : bool) (auth : OidcAuthenticator).
Context (c : ropc_config).
(** The token strategies, and [Sanitize([]string{})]. *)
Context (GenerateAccessToken GenerateRefreshToken : R → result string (string * string)).
Context (GenerateIDToken : Z → R → result string string).
Context (Sanitize : R → Rq) (GetID : Rq → string).

(** The client is always authenticated first. *)
Definition CanSkipClientAuth (r : R) : bool := false.

Definition CanHandleTokenEndpointRequest (r : R) : bool :=
  match GetGrantTypes r with [g] => str_eqb g "password" | _ => false end.

(** The first requested scope the client may not ask. *)
Definition refused_scope (r : R) : option string :=
  head (filter (λ sc, ScopeStrategy c (client_Scopes (GetClient r)) sc = false) (GetRequestedScopes r)).

Definition set_expiry (tt : TokenType) (t : Z) (r : R) : R :=
  match GetSession r with Some s => SetSession (SetExpiresAt tt t s) r | None => r end.

(** The lifespans: the refresh token never expires with a lifespan of -1, and the ID token only
    matters with the scope [openid]. *)
Definition set_expiries (now : Z) (r : R) : R :=
  let at_ := effective_lifespan (GetClient r) AccessToken (cfg_AccessTokenLifespan c) in
  let r := set_expiry AccessToken (round_second (now + at_)) r in
  let rt := effective_lifespan (GetClient r) RefreshToken (cfg_RefreshTokenLifespan c) in
  let r := if decide (rt > -1)%Z then set_expiry RefreshToken (round_second (now + rt)) r else r in
  if bool_decide ("openid" ∈ GetGrantedScopes r) then
    let it := effective_lifespan (GetClient r) IDToken (cfg_IDTokenLifespan c) in
    set_expiry IDToken (round_second (now + it)) r
  else r.

Definition HandleTokenEndpointRequest (now : Z) (r : R) (h : heap) : result oauth_error R * heap :=
  if negb (CanHandleTokenEndpointRequest r) then (Err ErrUnknownRequest, h)
  else if negb allowPasswordGrant then (Err ErrRequestForbidden, h)
  else if negb (bool_decide ("password" ∈ client_GrantTypes (GetClient r)))
  then (Err ErrUnauthorizedClient, h)
  else match refused_scope r with
  | Some sc => (Err (ErrInvalidScope sc), h)
  | None =>
      match AudienceStrategy c (client_Audience (GetClient r)) (GetRequestedAudience r) with
      | Some e => (Err (ErrAudience e), h)
      | None =>
          let username := GetRequestForm r "username" in
          let password := GetRequestForm r "password" in
          let clientId := GetRequestForm r "client_id" in
          if str_empty username || str_empty password then (Err ErrInvalidRequest, h)
          else match AuthenticateUserWithClaims auth username password with
          | Err e => (Err (ErrServerError e), h)
          | Ok None => (Err ErrInvalidGrant, h)
          | Ok (Some u) =>
              let '(h, user) := alloc_user h u in
              let '(h, session) := createSessionWithUserClaims issuer kid now (Some user) clientId h in
              let r := SetSession session r in
              let r := DeleteForm "password" r in
              let r := HandleAudience (HandleScopes r) in
              (Ok (set_expiries now r), h)
          end
      end
  end.

(** ** Issuing *)

Definition IssueAccessToken (atLifespan now : Z) (r : R) (st : store) (resp : responder)
    : result oauth_error (string * responder) * store :=
  match GenerateAccessToken r with
  | Err e => (Err (ErrStrategy e), st)
  | Ok (token, signature) =>
      let st := CreateAccessTokenSession GetID signature (Sanitize r) st in
      let exp := from_option (λ s, (GetExpiresAt AccessToken s).1) zero_time (GetSession r) in
      let atLifespan := if decide (exp = zero_time) then atLifespan else wrap64 (exp - now) in
      (Ok (signature, {| AccessToken_ := token; TokenType_ := "bearer"; ExpiresIn := atLifespan;
                         resp_Scopes := GetGrantedScopes r; resp_Extra := resp_Extra resp |}), st)
  end.

Definition set_extra (k v : string) (resp : responder) : responder :=
  {| AccessToken_ := AccessToken_ resp; TokenType_ := TokenType_ resp; ExpiresIn := ExpiresIn resp;
     resp_Scopes := resp_Scopes resp; resp_Extra := <[k := v]> (resp_Extra resp) |}.

Definition wants_refresh (r : R) : bool :=
  bool_decide (RefreshTokenScopes c = []) ||
  existsb (λ s, bool_decide (s ∈ GetGrantedScopes r)) (RefreshTokenScopes c).

Definition PopulateTokenEndpointResponse (now : Z) (r : R) (st : store) (resp : responder)
    : result oauth_error responder * store :=
  if negb (CanHandleTokenEndpointRequest r) then (Err ErrUnknownRequest, st)
  else
    let atLifespan := effective_lifespan (GetClient r) AccessToken (cfg_AccessTokenLifespan c) in
    match IssueAccessToken atLifespan now r st resp with
    | (Err e, st) => (Err e, st)
    | (Ok (accessSig, resp), st) =>
        let refreshed :=
          if wants_refresh r then
            match GenerateRefreshToken r with
            | Err e => Err (ErrServerError e)
            | Ok (refresh, refreshSig) =>
                Ok (refresh, CreateRefreshTokenSession GetID refreshSig accessSig (Sanitize r) st)
            end
          else Ok ("", st) in
        match refreshed with
        | Err e => (Err e, st)
        | Ok (refresh, st) =>
            let resp := if str_empty refresh then resp else set_extra "refresh_token" refresh resp in
            if bool_decide ("openid" ∈ GetGrantedScopes r) then
              let idLifespan := effective_lifespan (GetClient r) IDToken (cfg_IDTokenLifespan c) in
              match GenerateIDToken idLifespan r with
              | Err e => (Err (ErrServerError e), st)
              | Ok idToken =>
                  (Ok (set_extra "id_token" idToken resp),
                   CreateOpenIDConnectSession accessSig (Sanitize r) st)
              end
            else (Ok resp, st)
        end
    end.

(** ** Properties *)

Context `{!RequesterOk R, !AccessRequesterOk R, !ClaimAdderOk A}.

(** When the password grant is given. *)
Definition grantable (r : R) (u : OidcUser) : Prop :=
  GetGrantTypes r = ["password"] ∧ allowPasswordGrant = true ∧
  "password" ∈ client_GrantTypes (GetClient r) ∧
  (∀ sc, sc ∈ GetRequestedScopes r → ScopeStrategy c (client_Scopes (GetClient r)) sc = true) ∧
  AudienceStrategy c (client_Audience (GetClient r)) (GetRequestedAudience r) = None ∧
  GetRequestForm r "username" ≠ "" ∧ GetRequestForm r "password" ≠ "" ∧
  HttpProvider.Authenticate auth (GetRequestForm r "username") (GetRequestForm r "password") = Ok (Some u).

Lemma can_handle r : CanHandleTokenEndpointRequest r = true ↔ GetGrantTypes r = ["password"].
Proof.
  unfold CanHandleTokenEndpointRequest. destruct (GetGrantTypes r) as [|g [|]]; [done| |done].
  rewrite str_eqb_true. split; [by intros ->|by intros [= ->]].
Qed.

Lemma refused_scope_none r :
  refused_scope r = None ↔
  ∀ sc, sc ∈ GetRequestedScopes r → ScopeStrategy c (client_Scopes (GetClient r)) sc = true.
Proof.
  unfold refused_scope. rewrite head_None. split.
  - intros Hf sc Hsc. destruct (ScopeStrategy _ _ sc) eqn:E; [done|].
    assert (sc ∈ filter (λ sc, ScopeStrategy c (client_Scopes (GetClient r)) sc = false)
      (GetRequestedScopes r)) as Hin by (by apply list_elem_of_filter).
    rewrite Hf in Hin. by apply not_elem_of_nil in Hin.
  - intros Hall. apply elem_of_nil_inv. intros sc [Hf Hsc]%list_elem_of_filter. by rewrite Hall in Hf.
Qed.

(** [r'] is [r] but for its session, which is [s]. *)
Definition carries (r r' : R) (s : OIDCSession) : Prop :=
  GetSession r' = Some s ∧ GetClient r' = GetClient r ∧ GetGrantedScopes r' = GetGrantedScopes r ∧
  ∀ k, GetRequestForm r' k = GetRequestForm r k.

Lemma carries_expiry tt t r r' s :
  carries r r' s → carries r (set_expiry tt t r') (SetExpiresAt tt t s).
Proof.
  unfold carries, set_expiry. intros (Hs & H1' & H2' & H3'). rewrite Hs.
  rewrite session_set, set_client, set_scopes, H1', H2'. split_and!; [done..|].
  intros k. by rewrite form_set.
Qed.

(** What the expiries add to a session. *)
Definition expiring (now : Z) (r : R) (s : OIDCSession) : OIDCSession :=
  let at_ := effective_lifespan (GetClient r) AccessToken (cfg_AccessTokenLifespan c) in
  let rt := effective_lifespan (GetClient r) RefreshToken (cfg_RefreshTokenLifespan c) in
  let it := effective_lifespan (GetClient r) IDToken (cfg_IDTokenLifespan c) in
  let s := SetExpiresAt AccessToken (round_second (now + at_)) s in
  let s := if decide (rt > -1)%Z then SetExpiresAt RefreshToken (round_second (now + rt)) s else s in
  if bool_decide ("openid" ∈ GetGrantedScopes r)
  then SetExpiresAt IDToken (round_second (now + it)) s else s.

Lemma set_expiries_session now r s :
  GetSession r = Some s → carries r (set_expiries now r) (expiring now r s).
Proof.
  intros Hs. unfold set_expiries, expiring. cbn zeta.
  assert (carries r r s) as H0' by done.
  apply (carries_expiry AccessToken (round_second
    (now + effective_lifespan (GetClient r) AccessToken (cfg_AccessTokenLifespan c)))) in H0'.
  set (r1 := set_expiry AccessToken _ r) in *. set (s1 := SetExpiresAt AccessToken _ s) in *.
  assert (GetClient r1 = GetClient r) as -> by apply H0'.
  set (rt := effective_lifespan (GetClient r) RefreshToken _).
  assert (carries r (if decide (rt > -1)%Z then set_expiry RefreshToken (round_second (now + rt)) r1 else r1)
    (if decide (rt > -1)%Z then SetExpiresAt RefreshToken (round_second (now + rt)) s1 else s1)) as H2'.
  { case_decide; [by apply carries_expiry|done]. }
  set (r2 := if decide (rt > -1)%Z then _ else r1) in *.
  assert (GetClient r2 = GetClient r) as -> by apply H2'.
  assert (GetGrantedScopes r2 = GetGrantedScopes r) as -> by apply H2'.
  case_bool_decide; [by apply carries_expiry|done].
Qed.

Lemma createSession_view now u clientId h :
  let '(h, user) := alloc_user h u in
  let '(h', s) := createSessionWithUserClaims issuer kid now (Some user) clientId h in
  session_view h' s = user_view (ou_Login u) (ou_Claims u) clientId kid.
Proof.
  unfold alloc_user, alloc. unfold createSessionWithUserClaims. simpl.
  assert ((h ++ [ou_Claims u]) !! length h = Some (ou_Claims u)) as Hl
    by (by rewrite lookup_app_r, Nat.sub_diag).
  rewrite (add_azp_some clientId _ _ _ Hl). unfold session_view, user_view. simpl.
  rewrite list_lookup_insert_eq by (rewrite length_app; simpl; lia). simpl.
  by rewrite lookup_singleton_eq.
Qed.

Lemma session_view_expires h tt t s : session_view h (SetExpiresAt tt t s) = session_view h s.
Proof. done. Qed.

Lemma expiring_view h now r s : session_view h (expiring now r s) = session_view h s.
Proof. unfold expiring. cbn zeta. repeat case_match; done. Qed.

Lemma expiring_access now r s :
  (GetExpiresAt AccessToken (expiring now r s)).1 =
  round_second (now + effective_lifespan (GetClient r) AccessToken (cfg_AccessTokenLifespan c)).
Proof.
  unfold expiring. destruct (bool_decide _), (decide _); by rewrite !GetExpiresAt_Set.
Qed.

Lemma HandleScopes_session r : GetSession (HandleScopes r) = GetSession r ∧
  ∀ k, GetRequestForm (HandleScopes r) k = GetRequestForm r k.
Proof.
  unfold HandleScopes.
  assert (∀ l r, GetSession (foldl (λ r sc, GrantScope sc r) r l) = GetSession r ∧
    ∀ k, GetRequestForm (foldl (λ r sc, GrantScope sc r) r l) k = GetRequestForm r k) as Hf.
  { induction l as [|x l IH]; intros r0; simpl; [done|].
    destruct (IH (GrantScope x r0)) as [-> E]. split; [apply session_scope|].
    intros k. by rewrite E, form_scope. }
  destruct (Hf (GetRequestedScopes r) r) as [E1 E2].
  destruct (GetClient r) as [k|]; [destruct (IsForceOpenIdScope k)|]; rewrite ?session_scope; try done.
  split; [done|]. intros k'. by rewrite form_scope.
Qed.

Lemma HandleAudience_session r : GetSession (HandleAudience r) = GetSession r ∧
  ∀ k, GetRequestForm (HandleAudience r) k = GetRequestForm r k.
Proof.
  unfold HandleAudience.
  assert (∀ l r, GetSession (foldl (λ r a, GrantAudience a r) r l) = GetSession r ∧
    ∀ k, GetRequestForm (foldl (λ r a, GrantAudience a r) r l) k = GetRequestForm r k) as Hf.
  { induction l as [|x l IH]; intros r0; simpl; [done|].
    destruct (IH (GrantAudience x r0)) as [-> E]. split; [apply session_aud|].
    intros k. by rewrite E, form_aud. }
  destruct (GetRequestedAudience r) as [|a l].
  - split; [apply session_aud|]. intros k. apply form_aud.
  - apply (Hf (a :: l) r).
Qed.

Lemma ropc_cases now r h :
  (∃ e, (HandleTokenEndpointRequest now r h).1 = Err e ∧ (∀ u, ~ grantable r u)) ∨
  (∃ u r', grantable r u ∧ (HandleTokenEndpointRequest now r h).1 = Ok r' ∧
     GetRequestForm r' "password" = "" ∧
     ∃ s, GetSession r' = Some s ∧
       session_view (HandleTokenEndpointRequest now r h).2 s =
         user_view (ou_Login u) (ou_Claims u) (GetRequestForm r "client_id") kid ∧
       (GetExpiresAt AccessToken s).1 =
         round_second (now + effective_lifespan (GetClient r) AccessToken (cfg_AccessTokenLifespan c))).
Proof.
  unfold HandleTokenEndpointRequest, grantable.
  destruct (CanHandleTokenEndpointRequest r) eqn:Hcan; cbn [negb];
    [apply can_handle in Hcan|left; eexists; split; [done|]; intros u [Hg%can_handle _]; congruence].
  destruct allowPasswordGrant; cbn [negb]; [|left; eexists; split; [done|]; by intros u (_ & ? & _)].
  case_bool_decide as Hgr; cbn [negb]; [|left; eexists; split; [done|]; by intros u (_ & _ & ? & _)].
  destruct (refused_scope r) as [sc|] eqn:Hsc.
  { left; eexists; split; [done|]. intros u (_ & _ & _ & Hall%refused_scope_none & _). congruence. }
  rewrite refused_scope_none in Hsc.
  destruct (AudienceStrategy _ _ _) as [e|] eqn:Haud; [left; eexists; split; [done|]; by intros u (_ & _ & _ & _ & ? & _)|].
  destruct (str_empty (GetRequestForm r "username")) eqn:Hu; cbn [orb].
  { left; eexists; split; [done|]. apply str_empty_true in Hu. by intros u (_ & _ & _ & _ & _ & ? & _). }
  destruct (str_empty (GetRequestForm r "password")) eqn:Hp; cbn [orb].
  { left; eexists; split; [done|]. apply str_empty_true in Hp. by intros u (_ & _ & _ & _ & _ & _ & ? & _). }
  unfold AuthenticateUserWithClaims. destruct (HttpProvider.Authenticate _ _ _) as [[u|]|e] eqn:Hauth;
    [|left; eexists; split; [done|]; intros u (_ & _ & _ & _ & _ & _ & _ & ?); congruence..].
  apply str_empty_false in Hu, Hp. right.
  pose proof (createSession_view now u (GetRequestForm r "client_id") h) as Hview.
  destruct (alloc_user h u) as [h1 user].
  destruct (createSessionWithUserClaims _ _ _ _ _ _) as [h2 ses]. simpl.
  exists u, (set_expiries now (HandleAudience (HandleScopes (DeleteForm "password" (SetSession ses r))))).
  split; [by split_and!|]. split; [done|].
  set (r3 := HandleAudience _).
  destruct (HandleAudience_session (HandleScopes (DeleteForm "password" (SetSession ses r)))) as [A1 A2].
  destruct (HandleScopes_session (DeleteForm "password" (SetSession ses r))) as [S1 S2].
  assert (GetSession r3 = Some ses) as Hses by (by unfold r3; rewrite A1, S1, session_form, session_set).
  assert (GetClient r3 = GetClient r) as Hcl.
  { unfold r3. rewrite HandleAudience_client.
    destruct (HandleScopes_frame (DeleteForm "password" (SetSession ses r))) as (_ & -> & _).
    by rewrite form_client, set_client. }
  destruct (set_expiries_session now r3 ses Hses) as (E1 & _ & _ & E4).
  split; [by rewrite E4; unfold r3; rewrite A2, S2, form_deleted|].
  exists (expiring now r3 ses). split; [done|]. split; [by rewrite expiring_view|].
  rewrite <- Hcl. apply expiring_access.
Qed.


(** The session of a password grant is the authenticated user's, with the client as the
    authorised party, an access token that expires after the client's (or the server's) lifespan,
    and the password is gone from the request that is stored. *)
Theorem ropc_session now r h r' h' :
  HandleTokenEndpointRequest now r h = (Ok r', h') →
  GetRequestForm r' "password" = "" ∧
  ∃ u s, grantable r u ∧ GetSession r' = Some s ∧
    session_view h' s = user_view (ou_Login u) (ou_Claims u) (GetRequestForm r "client_id") kid ∧
    (GetExpiresAt AccessToken s).1 =
      round_second (now + effective_lifespan (GetClient r) AccessToken (cfg_AccessTokenLifespan c)).
Proof.
  intros Hrun. destruct (ropc_cases now r h) as [(e & He & _)|(u & r2 & Hg & Hok & Hp & s & Hs & Hv & He)].
  - by rewrite Hrun in He.
  - rewrite Hrun in Hok, Hv. simpl in *. injection Hok as <-. split; [done|]. by exists u, s.
Qed.

(** C23. A successful answer of the token endpoint is backed by the store: the access token it carries
    is found under its signature with the request it was issued for, a refresh token is issued and
    stored (active) exactly when the granted scopes ask for one, and with the scope [openid] an ID
    token is issued and its session recorded under the access token. *)
Theorem ropc_tokens_stored now r st resp resp' st' :
  PopulateTokenEndpointResponse now r st resp = (Ok resp', st') →
  GetGrantTypes r = ["password"] ∧
  ∃ tok sig, GenerateAccessToken r = Ok (tok, sig) ∧
    AccessToken_ resp' = tok ∧ TokenType_ resp' = "bearer" ∧ resp_Scopes resp' = GetGrantedScopes r ∧
    GetAccessTokenSession sig st' = Ok (Sanitize r) ∧
    (if wants_refresh r then
       ∃ rt rsig, GenerateRefreshToken r = Ok (rt, rsig) ∧
         GetRefreshTokenSession rsig st' = (Some (Sanitize r), None) ∧
         (rt ≠ "" → resp_Extra resp' !! "refresh_token" = Some rt)
     else RefreshTokens st' = RefreshTokens st) ∧
    ("openid" ∈ GetGrantedScopes r → ∃ idt,
       resp_Extra resp' !! "id_token" = Some idt ∧
       GetOpenIDConnectSession sig st' = Ok (Sanitize r)).
Proof.
  unfold PopulateTokenEndpointResponse.
  destruct (CanHandleTokenEndpointRequest r) eqn:Hcan; cbn [negb]; [|done]. apply can_handle in Hcan.
  unfold IssueAccessToken. destruct (GenerateAccessToken r) as [[tok sig]|] eqn:Hg; [|done].
  cbn zeta. set (st1 := CreateAccessTokenSession _ _ _ _).
  destruct (wants_refresh r).
  - destruct (GenerateRefreshToken r) as [[rt rsig]|] eqn:Hr; [|done].
    case_bool_decide as Ho; [destruct (GenerateIDToken _ r) as [idt|] eqn:Hi; [|done]|];
      intros [= <- <-]; (split; [done|]); exists tok, sig; unfold str_empty;
      case_bool_decide as Hrt; unfold GetAccessTokenSession, GetRefreshTokenSession,
        GetOpenIDConnectSession, find; simpl; rewrite !lookup_insert_eq; simpl;
      split_and!; try done; try (intros _; by eexists);
      exists rt, rsig; rewrite ?(lookup_insert_ne _ "id_token"), ?lookup_insert_eq by done; done.
  - case_bool_decide as Ho; [destruct (GenerateIDToken _ r) as [idt|] eqn:Hi; [|done]|];
      intros [= <- <-]; (split; [done|]); exists tok, sig;
      unfold GetAccessTokenSession, GetOpenIDConnectSession, find; simpl; rewrite !lookup_insert_eq; simpl;
      split_and!; try done; intros _; by eexists.
Qed.
End ropc.

(** ** An instance of the request interface, and a run *)

Record plain_access := {
  pa_req : plain_request; pa_grants : list string; pa_form : gmap string string;
  pa_session : option OIDCSession;
}.

Definition pa_with (q : plain_request) (r : plain_access) : plain_access :=
  {| pa_req := q; pa_grants := pa_grants r; pa_form := pa_form r; pa_session := pa_session r |}.

#[export] Instance plain_access_req : Requester plain_access := {|
  GetRequestedScopes := λ r, pr_scopes (pa_req r); GetRequestedAudience := λ r, pr_aud (pa_req r);
  GetClient := λ r, pr_client (pa_req r); GetGrantedScopes := λ r, pr_gscopes (pa_req r);
  GetGrantedAudience := λ r, pr_gaud (pa_req r);
  GrantScope := λ s r, pa_with (GrantScope s (pa_req r)) r;
  GrantAudience := λ a r, pa_with (GrantAudience a (pa_req r)) r;
|}.
#[export] Instance plain_access_req_ok : RequesterOk plain_access.
Proof. split; done. Qed.

#[export] Instance plain_access_acc : AccessRequester plain_access := {|
  GetGrantTypes := pa_grants;
  GetRequestForm := λ r k, default "" (pa_form r !! k);
  DeleteForm := λ k r, {| pa_req := pa_req r; pa_grants := pa_grants r;
                          pa_form := delete k (pa_form r); pa_session := pa_session r |};
  GetSession := pa_session;
  SetSession := λ s r, {| pa_req := pa_req r; pa_grants := pa_grants r; pa_form := pa_form r;
                          pa_session := Some s |};
|}.
#[export] Instance plain_access_ok : AccessRequesterOk plain_access.
Proof. split; try done. intros k r. simpl. by rewrite lookup_delete_eq. Qed.

Module RDemo.
Definition cli : fclient := OtherClient {| other_id := "cli"; other_GrantTypes := ["password"];
  other_Scopes := ["openid"; "offline"]; other_Audience := [] |}.
Definition req : plain_access :=
  {| pa_req := {| pr_scopes := ["openid"; "offline"]; pr_aud := []; pr_client := cli;
                  pr_gscopes := []; pr_gaud := [] |};
     pa_grants := ["password"];
     pa_form := <["username" := "bob"]> (<["password" := "secret"]> {["client_id" := "cli"]});
     pa_session := None |}.
Definition user : OidcUser := {| ou_Login := "bob"; ou_Claims := ∅; ou_FullName := "Bob" |}.
Definition dir : OidcAuthenticator := {|
  Identify := λ _ _, Ok (user, "passwordChecked");
  HttpProvider.Authenticate := λ _ p, Ok (if str_eqb p "secret" then Some user else None) |}.
Definition cfg : ropc_config :=
  {| ScopeStrategy := λ l s, bool_decide (s ∈ l); AudienceStrategy := λ _ _, None;
     RefreshTokenScopes := ["offline"]; cfg_AccessTokenLifespan := 3600 * second;
     cfg_RefreshTokenLifespan := -1; cfg_IDTokenLifespan := 60 * second |}.
Definition handled : result oauth_error plain_access * heap :=
  HandleTokenEndpointRequest (A := plain_add) "iss" "k1" true dir cfg (5 * second)%Z req [].
Definition granted : plain_access := match handled.1 with Ok r => r | Err _ => req end.
Abbreviation rstore := (@MemoryStore string unit unit unit).
Definition answer : result oauth_error responder * rstore :=
  PopulateTokenEndpointResponse cfg (λ _, Ok ("at", "ats")) (λ _, Ok ("rt", "rts")) (λ _ _, Ok "idt")
    (λ r, "req1") (λ r, r) (6 * second)%Z granted NewMemoryStore
    {| AccessToken_ := ""; TokenType_ := ""; ExpiresIn := 0; resp_Scopes := []; resp_Extra := ∅ |}.
End RDemo.
Import RDemo.


Lemma ropc_session_witness :
  GetRequestForm granted "password" = "" ∧ ∃ s, GetSession granted = Some s ∧ Subject s = "bob".
Proof.
  assert (handled = (Ok granted, handled.2)) as Hrun by (vm_compute; reflexivity).
  destruct (ropc_session (A := plain_add) "iss" "k1" true dir cfg (5 * second)%Z req [] granted handled.2 Hrun)
    as (Hp & u & s & Hg & Hs & _).
  split; [exact Hp|]. exists s. split; [exact Hs|].
  assert (Subject <$> GetSession granted = Some "bob") as Hb by (vm_compute; reflexivity).
  rewrite Hs in Hb. injection Hb as Hb. exact Hb.
Defined.

Lemma ropc_tokens_stored_witness : ∃ resp' st',
  answer = (Ok resp', st') ∧ GetRefreshTokenSession "rts" st' = (Some "req1", None).
Proof.
  destruct answer as [[resp'|e] st'] eqn:Hrun; [|by vm_compute in Hrun].
  exists resp', st'. split; [reflexivity|].
  destruct (ropc_tokens_stored cfg (λ _, Ok ("at", "ats")) (λ _, Ok ("rt", "rts")) (λ _ _, Ok "idt")
    (λ r, "req1") (λ r, r) (6 * second)%Z granted NewMemoryStore _ resp' st' Hrun)
    as (_ & tok & sig & _ & _ & _ & _ & _ & Hr & _).
  assert (wants_refresh cfg granted = true) as Hw by (vm_compute; reflexivity).
  rewrite Hw in Hr. destruct Hr as (rt & rsig & [= <- <-] & H & _). exact H.
Defined.
