(* ===== verification/SigningKey.v ===== *)
(** * cmd/oidc/oidcserver: the signing key and its publication

    [ensureJwtSigningKey] of [oidcserver.go] loads the RSA key and its id from a Kubernetes
    secret or creates them; [handle-jwks.go] publishes the public key. The cryptographic library
    and the PEM format are arguments with their round-trip laws. *)

From S2P Require Import Prelude Values Base64 K8s.

Record pem_block := { pb_Type : string; pb_Bytes : string }.

(** The data of a secret, bytes as a string. *)
Abbreviation secret_data := (gmap string string).

Section signing_key.
Context {W Key : Type} `{ObjectStore W secret_data}.
Context (pem_decode : string → option pem_block) (pem_encode : pem_block → result string string).
Context (ParsePKCS1PrivateKey : string → result string Key) (MarshalPKCS1PrivateKey : Key → string).
(** PKCS8 holds keys of several types: [None] for another one than RSA. *)
Context (ParsePKCS8PrivateKey : string → result string (option Key)).

Definition load_key (name : string) (data : secret_data) : result string (Key * string) :=
  match data !! "key.pem", data !! "kid" with
  | Some pemBytes, Some kidBytes =>
      match pem_decode pemBytes with
      | None => Err ("failed to decode PEM from secret " +:+ name)
      | Some block =>
          if str_eqb (pb_Type block) "RSA PRIVATE KEY" then
            match ParsePKCS1PrivateKey (pb_Bytes block) with
            | Err e => Err ("failed parsing PKCS1 private key from secret: " +:+ e)
            | Ok p => Ok (p, kidBytes)
            end
          else if str_eqb (pb_Type block) "PRIVATE KEY" then
            match ParsePKCS8PrivateKey (pb_Bytes block) with
            | Err e => Err ("failed parsing PKCS8 private key from secret: " +:+ e)
            | Ok None => Err "unsupported private key type in secret"
            | Ok (Some k) => Ok (k, kidBytes)
            end
          else Err ("unsupported PEM block type in secret: " +:+ pb_Type block)
      end
  | _, _ => Err ("secret " +:+ name +:+ " missing required data keys")
  end.

(** [gen] is what [rsa.GenerateKey] returns and [newKID] a fresh UUID. *)
Definition ensureJwtSigningKey (name : string) (gen : result string Key) (newKID : string) (w : W)
    : result string (Key * string) * W :=
  match kget name w with
  | Found data => (load_key name data, w)
  | GetErr e => (Err ("failed to load JWT signing key: " +:+ e), w)
  | NotFound =>
      match gen with
      | Err e => (Err ("failed to generate RSA key: " +:+ e), w)
      | Ok priv =>
          let pemBlock := {| pb_Type := "RSA PRIVATE KEY"; pb_Bytes := MarshalPKCS1PrivateKey priv |} in
          match pem_encode pemBlock with
          | Err e => (Err ("failed to encode PEM: " +:+ e), w)
          | Ok buf =>
              match kcreate name (<["key.pem" := buf]> {["kid" := newKID]}) w with
              | (Some _, w') => (Err "failed creating secret", w')
              | (None, w') => (Ok (priv, newKID), w')
              end
          end
      end
  end.

Context `{!ObjectStoreLaws W secret_data}.
Hypothesis pem_roundtrip : ∀ b s, pem_encode b = Ok s → pem_decode s = Some b.
Hypothesis pkcs1_roundtrip : ∀ k, ParsePKCS1PrivateKey (MarshalPKCS1PrivateKey k) = Ok k.

(** What the secret holds after a successful start determines the key. *)
Lemma ensure_stores name gen newKID w k kid w' :
  ensureJwtSigningKey name gen newKID w = (Ok (k, kid), w') →
  ∃ data, kobjects w' !! name = Some data ∧ load_key name data = Ok (k, kid).
Proof.
  unfold ensureJwtSigningKey. destruct (kget name w) as [data| |e] eqn:Hg; [| |done].
  - intros [= Hl <-]. exists data. split; [by apply kget_Found|done].
  - destruct gen as [priv|]; [|done]. destruct (pem_encode _) as [buf|] eqn:Hp; [|done].
    destruct (kcreate _ _ _) as [[e|] w1] eqn:Hc; [done|]. intros [= <- <- <-].
    apply kcreate_ok in Hc as [_ ->]. eexists. split; [by rewrite lookup_insert_eq|].
    unfold load_key. rewrite lookup_insert_eq, lookup_insert_ne, lookup_singleton_eq by done.
    rewrite (pem_roundtrip _ _ Hp). simpl. by rewrite pkcs1_roundtrip.
Qed.

(** C32. The signing key survives restarts and is the same on every replica: once a server started
    with a key, any later start that can read the secret (unchanged since) gets the same key with
    the same id, whatever key it would have generated, and writes nothing; so tokens signed before
    stay verifiable. *)
Theorem signing_key_stable name gen newKID w k kid w' gen2 newKID2 w2 :
  ensureJwtSigningKey name gen newKID w = (Ok (k, kid), w') →
  kobjects w2 !! name = kobjects w' !! name → (∀ e, kget name w2 ≠ GetErr e) →
  ensureJwtSigningKey name gen2 newKID2 w2 = (Ok (k, kid), w2).
Proof.
  intros Hrun Hsame Hread. apply ensure_stores in Hrun as (data & Hd & Hl).
  unfold ensureJwtSigningKey. destruct (kget name w2) as [data2| |e] eqn:Hg.
  - apply kget_Found in Hg. rewrite Hsame, Hd in Hg. injection Hg as ->. by rewrite Hl.
  - apply kget_NotFound in Hg. rewrite Hsame, Hd in Hg. done.
  - by destruct (Hread e).
Qed.

(** A failed start leaves the cluster as it was. *)
Lemma ensure_error_frame name gen newKID w e w' :
  ensureJwtSigningKey name gen newKID w = (Err e, w') → kobjects w' = kobjects w.
Proof.
  unfold ensureJwtSigningKey. destruct (kget name w) as [data| |e'] eqn:Hg; [by intros [= _ <-]| |by intros [= _ <-]].
  destruct gen as [priv|]; [|by intros [= _ <-]]. destruct (pem_encode _) as [buf|]; [|by intros [= _ <-]].
  destruct (kcreate _ _ _) as [[e2|] w1] eqn:Hc; [|done]. intros [= _ <-]. by eapply kcreate_err.
Qed.
End signing_key.

(** ** handle-jwks.go *)

(** [big.Int.Bytes]: big-endian, without leading zeros. *)
Fixpoint le_bytes (fuel : nat) (n : N) : list Ascii.ascii :=
  match fuel with
  | O => []
  | S f => if (n =? 0)%N then []
           else Ascii.ascii_of_N (n mod 256) :: le_bytes f (n / 256)
  end.
Definition int_bytes (n : N) : list Ascii.ascii := rev (le_bytes (N.to_nat (N.size n)) n).

(** The modulus and the exponent of the public key. *)
Record public_key := { pk_N : N; pk_E : N }.

Definition jwk (pk : public_key) (kid : string) : claims :=
  <["kty" := VString "RSA"]> (<["use" := VString "sig"]> (<["alg" := VString "RS256"]>
  (<["kid" := VString kid]> (<["n" := VString (base64url (int_bytes (pk_N pk)))]>
  {["e" := VString (base64url (int_bytes (pk_E pk)))]})))).

Definition handleJWKS (pk : public_key) (kid : string) : claims :=
  {["keys" := VArr [VMap (jwk pk kid)]]}.


(** *** Reading a published key back *)

Definition be_value (l : list Ascii.ascii) : N :=
  foldl (λ acc b, acc * 256 + Ascii.N_of_ascii b)%N 0%N l.

Fixpoint le_value (l : list Ascii.ascii) : N :=
  match l with [] => 0 | b :: l' => Ascii.N_of_ascii b + 256 * le_value l' end%N.

Lemma be_value_rev l : be_value (rev l) = le_value l.
Proof.
  unfold be_value. induction l as [|b l IH]; [done|]. simpl. rewrite foldl_app. simpl.
  rewrite IH. lia.
Qed.

Lemma le_bytes_value fuel n : (n < 256 ^ N.of_nat fuel)%N → le_value (le_bytes fuel n) = n.
Proof.
  revert n. induction fuel as [|f IH]; intros n Hn; simpl.
  - change (256 ^ N.of_nat 0)%N with 1%N in Hn. lia.
  - destruct (N.eqb_spec n 0) as [->|Hne]; [done|]. simpl.
    rewrite IH, Ascii.N_ascii_embedding.
    + rewrite N.add_comm. symmetry. apply N.div_mod. done.
    + by apply N.mod_lt.
    + apply N.Div0.div_lt_upper_bound. rewrite Nat2N.inj_succ, N.pow_succ_r' in Hn. done.
Qed.

Lemma int_bytes_value n : be_value (int_bytes n) = n.
Proof.
  unfold int_bytes. rewrite be_value_rev. apply le_bytes_value. rewrite N2Nat.id.
  eapply N.lt_le_trans; [apply N.size_gt|]. apply N.pow_le_mono_l. done.
Qed.

Definition jwk_number (j : claims) (k : string) : option N :=
  be_value <$> base64url_decode (claim_string j k).

(** The published key set is the signing key's: its single entry names the key id the session
    headers carry, and decoding its [n] and [e] gives the modulus and the exponent back. *)
Theorem jwks_roundtrip pk kid :
  ∃ j, handleJWKS pk kid !! "keys" = Some (VArr [VMap j]) ∧
    jwk_number j "n" = Some (pk_N pk) ∧ jwk_number j "e" = Some (pk_E pk) ∧
    claim_string j "kid" = kid ∧ claim_string j "alg" = "RS256".
Proof.
  exists (jwk pk kid). split; [apply lookup_singleton_eq|].
  unfold jwk_number, claim_string, jwk.
  split_and!; repeat (rewrite lookup_insert_eq || rewrite lookup_singleton_eq || rewrite lookup_insert_ne by done);
    rewrite ?base64url_roundtrip; simpl; rewrite ?int_bytes_value; done.
Qed.

(** ** A start and a restart *)

Definition demo_encode (b : pem_block) : result string string :=
  if str_eqb (pb_Type b) "RSA PRIVATE KEY" then Ok (pb_Bytes b) else Err "type".
Definition demo_decode (s : string) : option pem_block :=
  Some {| pb_Type := "RSA PRIVATE KEY"; pb_Bytes := s |}.

Lemma demo_pem_roundtrip b s : demo_encode b = Ok s → demo_decode s = Some b.
Proof.
  unfold demo_encode. destruct (str_eqb _ _) eqn:E; [|done]. apply str_eqb_true in E.
  intros [= <-]. unfold demo_decode. destruct b; simpl in *. by rewrite E.
Qed.

Definition start (gen kid : string) (w : cluster secret_data) :=
  ensureJwtSigningKey demo_decode demo_encode Ok (λ k, k) (λ _, Err "no") "jwt-key" (Ok gen) kid w.

Lemma signing_key_stable_witness :
  (start "key1" "kid1" {| objs := ∅; faults := [] |}).1 = Ok ("key1", "kid1") ∧
  start "key2" "kid2" (start "key1" "kid1" {| objs := ∅; faults := [] |}).2 =
    (Ok ("key1", "kid1"), (start "key1" "kid1" {| objs := ∅; faults := [] |}).2).
Proof.
  assert (start "key1" "kid1" {| objs := ∅; faults := [] |} =
    (Ok ("key1", "kid1"), (start "key1" "kid1" {| objs := ∅; faults := [] |}).2)) as Hrun
    by (vm_compute; reflexivity).
  split; [vm_compute; reflexivity|].
  apply (signing_key_stable demo_decode demo_encode Ok (λ k, k) (λ _, Err "no") demo_pem_roundtrip
    (λ k, eq_refl) "jwt-key" (Ok "key1") "kid1" _ "key1" "kid1" _ (Ok "key2") "kid2" _ Hrun eq_refl).
  intros e. vm_compute. discriminate.
Defined.
