(* ===== verification/Endpoints.v ===== *)
(** * cmd/oidc/oidcserver: the token, user-info, introspection and discovery endpoints

    [handle-token.go], [handle-user-info.go], [handle-token-introspection.go] and
    [handle-oidc-configuration.go]. The OAuth library does the protocol work: its calls are
    arguments. These handlers answer once; an answer is a value of [answer]. *)

From S2P Require Import Prelude Values Proto OidcClient Storage Session Url Server.

(** The answers: an error (with the [WWW-Authenticate] header when set), a JSON document, or what
    the library writes. *)
Inductive answer (E X : Type) :=
| Refused (code : Z) (msg : string) (www : option string)
| Json (code : Z) (body : claims)
| LibError (e : E)
| LibResponse (x : X).
Arguments Refused {E X}.
Arguments Json {E X}.
Arguments LibError {E X}.
Arguments LibResponse {E X}.

(** [GetClientIdFromRequest]: [ParseForm] merges the body before the query. *)
Definition GetClientIdFromRequest (r : request) : string :=
  match r_PostForm r with
  | None => ""
  | Some form => values_get (form ++ parse_query (r_RawQuery r)) "client_id"
  end.

(** ** handle-user-info.go *)

Definition bearer : string := "Bearer ".

(** A quoted string of a header. *)
Definition quoted (s : string) : string :=
  let q := String (Ascii.ascii_of_nat 34) "" in q +:+ s +:+ q.
Definition invalid_token (description : string) : string :=
  "Bearer error=" +:+ quoted "invalid_token" +:+ ", error_description=" +:+ quoted description.

(** [strings.HasPrefix] and [strings.TrimPrefix]. *)
Fixpoint strip_prefix (p s : string) : option string :=
  match p, s with
  | EmptyString, _ => Some s
  | String a p', String b s' => if decide (a = b) then strip_prefix p' s' else None
  | String _ _, EmptyString => None
  end.

(** The claims of the session behind the token. *)
Definition user_info_claims (subject : string) (extra : claims) : claims :=
  <["sub" := VString subject]> (filter (λ kv, kv.1 ≠ "azp") extra).

Lemma strip_prefix_spec p s t : strip_prefix p s = Some t ↔ s = p +:+ t.
Proof.
  revert s. induction p as [|a p IH]; intros s; simpl.
  - split; [by intros [= ->]|intros ->; done].
  - change (String a p +:+ t) with (String a (p +:+ t)). destruct s as [|b s]; [done|].
    case_decide as E; [subst|split; [done|by intros [= -> _]]].
    rewrite IH. split; [by intros ->|by intros [= ->]].
Qed.

Lemma user_info_claims_spec subject extra body :
  user_info_claims subject extra = body ↔
  body !! "sub" = Some (VString subject) ∧ body !! "azp" = None ∧
  (∀ k, k ≠ "sub" → k ≠ "azp" → body !! k = extra !! k).
Proof.
  assert (∀ k, k ≠ "azp" → filter (λ kv : string * value, kv.1 ≠ "azp") extra !! k = extra !! k) as Hf.
  { intros k Hk. rewrite map_lookup_filter. destruct (extra !! k); simpl; [|done].
    by rewrite option_guard_True. }
  unfold user_info_claims. split.
  - intros <-. split; [apply lookup_insert_eq|]. split.
    + rewrite lookup_insert_ne by done. rewrite map_lookup_filter.
      by destruct (extra !! "azp").
    + intros k H1 H2. rewrite lookup_insert_ne by done. by apply Hf.
  - intros (H1 & H2 & H3). apply map_eq. intros k. destruct (decide (k = "sub")) as [->|Hk].
    + by rewrite lookup_insert_eq.
    + rewrite lookup_insert_ne by done. destruct (decide (k = "azp")) as [->|Ha].
      * rewrite H2, map_lookup_filter. by destruct (extra !! "azp").
      * rewrite Hf, H3 by done. done.
Qed.

Section endpoints.
Context {Rq PAR Up JWK AR Resp E : Type} `{Requester AR}.
Abbreviation store := (@MemoryStore Rq PAR Up JWK).

(** [IntrospectToken] of a token, its type, the session to fill and the required scopes: an error,
    or the session of the token: its subject and extra claims, or [None] when it is not one with
    ID-token claims. *)
Context (IntrospectToken : string → string → view → list string → result E (option (string * claims))).

(** The session for nobody these endpoints start from: [newSession] without a user. *)
Definition token_session (sv : OIDCServer) (r : request) : view :=
  user_view "" ∅ (GetClientIdFromRequest r) (keyID sv).

Definition handleUserInfo (sv : OIDCServer) (r : request) : answer E AR :=
  match strip_prefix bearer (r_Header r "Authorization") with
  | None => Refused 401 "unauthorized"
              (Some (invalid_token "missing bearer token"))
  | Some accessToken =>
      match IntrospectToken accessToken "access_token" (token_session sv r) ["openid"] with
      | Err _ => Refused 401 "unauthorized"
                   (Some (invalid_token "token invalid or expired"))
      | Ok None => Refused 500 "internal server error" None
      | Ok (Some (subject, extra)) => Json 200 (user_info_claims subject extra)
      end
  end.

(** ** handle-token-introspection.go *)

(** What the library returns of a request it authenticates itself. *)
Context (NewIntrospectionRequest : request → result E Resp).

(** The answer of the library for an active token of a public client. *)
Inductive introspection := Authenticated (resp : Resp) | ActiveToken (token hint : string) (s : option (string * claims)).

Definition inactive : claims := {["active" := VBool false]}.

Definition HandleTokenIntrospection (sv : OIDCServer) (r : request) (st : store) : answer E introspection :=
  match NewIntrospectionRequest r with
  | Ok ir => LibResponse (Authenticated ir)
  | Err err =>
      if negb (str_empty (r_Header r "Authorization")) then LibError err
      else match r_PostForm r with
      | None => LibError err
      | Some form =>
          let clientID := values_get form "client_id" in
          let token := values_get form "token" in
          if str_empty clientID || str_empty token then LibError err
          else match GetKubauthClient clientID st with
          | Err _ => LibError err
          | Ok client =>
              if negb (IsPublic client) then LibError err
              else
                let hint := values_get form "token_type_hint" in
                let tt := if str_eqb hint "refresh_token" then "refresh_token" else "access_token" in
                match IntrospectToken token tt (token_session sv r) [] with
                | Err _ => Json 200 inactive
                | Ok s => LibResponse (ActiveToken token tt s)
                end
          end
      end
  end.

(** ** handle-token.go *)

Context (NewAccessRequest : request → view → result E AR).
Context (NewAccessResponse : AR → result E Resp).
Context (GetGrantTypes : AR → list string).

Definition token_request (ar : AR) : AR :=
  match GetGrantTypes ar with
  | [g] => if str_eqb g "client_credentials" then HandleAudience (HandleScopes ar) else ar
  | _ => ar
  end.

Definition handleToken (sv : OIDCServer) (r : request) : answer E (AR * Resp) :=
  match NewAccessRequest r (token_session sv r) with
  | Err e => LibError e
  | Ok ar =>
      let ar := token_request ar in
      match NewAccessResponse ar with
      | Err e => LibError e
      | Ok resp => LibResponse (ar, resp)
      end
  end.

(** ** Properties *)

(** The user-info endpoint answers 200 exactly for a bearer token the library accepts for the
    scope [openid] and whose session has claims; the document is the subject of the session as
    [sub] and the user's claims, never the authorised party [azp]. *)
Theorem userinfo_spec sv r body :
  handleUserInfo sv r = Json 200 body ↔
  ∃ token subject extra,
    r_Header r "Authorization" = bearer +:+ token ∧
    IntrospectToken token "access_token" (token_session sv r) ["openid"] = Ok (Some (subject, extra)) ∧
    body !! "sub" = Some (VString subject) ∧ body !! "azp" = None ∧
    (∀ k, k ≠ "sub" → k ≠ "azp" → body !! k = extra !! k).
Proof.
  unfold handleUserInfo. split.
  - destruct (strip_prefix bearer _) as [token|] eqn:Hs; [|done]. apply strip_prefix_spec in Hs.
    destruct (IntrospectToken _ _ _ _) as [[[subject extra]|]|e] eqn:Hi; [|done..].
    intros [= <-]. exists token, subject, extra. split; [done|]. split; [done|].
    apply user_info_claims_spec. done.
  - intros (token & subject & extra & Hh & Hi & Hb). rewrite (proj2 (strip_prefix_spec _ _ _) Hh), Hi.
    f_equal. by apply user_info_claims_spec.
Qed.

(** Without the client authentication of the library, a token is introspected only for a
    registered public client that sends no authorisation header, and is reported active only when
    the library accepts it; every other request gets the library's error. *)
Theorem introspection_public_only sv r st err :
  NewIntrospectionRequest r = Err err →
  HandleTokenIntrospection sv r st = LibError err ∨
  ∃ form client, r_Header r "Authorization" = "" ∧ r_PostForm r = Some form ∧
    GetKubauthClient (values_get form "client_id") st = Ok client ∧ IsPublic client = true ∧
    values_get form "token" ≠ "" ∧
    (HandleTokenIntrospection sv r st = Json 200 inactive ∨
     ∃ tt s, IntrospectToken (values_get form "token") tt (token_session sv r) [] = Ok s ∧
       HandleTokenIntrospection sv r st = LibResponse (ActiveToken (values_get form "token") tt s)).
Proof.
  intros Herr. unfold HandleTokenIntrospection. rewrite Herr.
  destruct (str_empty (r_Header r "Authorization")) eqn:Ha; simpl; [|by left].
  destruct (r_PostForm r) as [form|]; [|by left].
  destruct (str_empty (values_get form "client_id")); simpl; [by left|].
  destruct (str_empty (values_get form "token")) eqn:Ht; [by left|].
  destruct (GetKubauthClient _ st) as [client|] eqn:Hc; [|by left].
  destruct (IsPublic client) eqn:Hp; simpl; [|by left].
  apply str_empty_true in Ha. apply str_empty_false in Ht. right. exists form, client.
  split_and!; [done..|]. destruct (IntrospectToken _ _ _ _) as [s|] eqn:Hi; [right; eauto|by left].
Qed.
End endpoints.

(** ** handle-oidc-configuration.go *)

Definition getSupportedPKCEMethods (sv : OIDCServer) : list string :=
  "S256" :: (if AllowPKCEPlain sv then ["plain"] else []).

Definition grantTypesSupported (sv : OIDCServer) : list string :=
  ["authorization_code"; "client_credentials"; "refresh_token"] ++
  (if AllowPasswordGrant sv then ["password"] else []).

Definition oidc_config (sv : OIDCServer) : claims :=
  let baseURL := sv_Issuer sv in
  list_to_map [
    ("issuer", VString baseURL);
    ("authorization_endpoint", VString (baseURL +:+ "/oauth2/auth"));
    ("token_endpoint", VString (baseURL +:+ "/oauth2/token"));
    ("userinfo_endpoint", VString (baseURL +:+ "/userinfo"));
    ("end_session_endpoint", VString (baseURL +:+ "/oauth2/logout"));
    ("jwks_uri", VString (baseURL +:+ "/.well-known/jwks.json"));
    ("introspection_endpoint", VString (baseURL +:+ "/oauth2/introspect"));
    ("response_types_supported", VStrs ["code"; "token"; "id_token"; "code token"; "code id_token"]);
    ("subject_types_supported", VStrs ["public"]);
    ("id_token_signing_alg_values_supported", VStrs ["RS256"]);
    ("scopes_supported", VStrs ["openid"; "profile"; "email"; "offline"; "address"; "phone"; "groups"]);
    ("token_endpoint_auth_methods_supported", VStrs ["client_secret_basic"; "client_secret_post"]);
    ("claims_supported", VStrs ["sub"; "iss"; "name"; "email"; "profile"; "email_verified"; "groups"]);
    ("code_challenge_methods_supported", VStrs (getSupportedPKCEMethods sv));
    ("grant_types_supported", VStrs (grantTypesSupported sv))].

Definition handleOpenIDConfiguration {E X} (sv : OIDCServer) : answer E X := Json 200 (oidc_config sv).

(** The discovery document advertises what the server does: the password grant exactly when it is
    allowed, PKCE with S256 always and with [plain] exactly when allowed, and the endpoints under
    the issuer the tokens name. *)
Theorem configuration_advertises sv :
  oidc_config sv !! "issuer" = Some (VString (sv_Issuer sv)) ∧
  oidc_config sv !! "jwks_uri" = Some (VString (sv_Issuer sv +:+ "/.well-known/jwks.json")) ∧
  (∃ gs, oidc_config sv !! "grant_types_supported" = Some (VStrs gs) ∧
     ("password" ∈ gs ↔ AllowPasswordGrant sv = true)) ∧
  (∃ ms, oidc_config sv !! "code_challenge_methods_supported" = Some (VStrs ms) ∧
     "S256" ∈ ms ∧ ("plain" ∈ ms ↔ AllowPKCEPlain sv = true)).
Proof.
  unfold oidc_config, grantTypesSupported, getSupportedPKCEMethods. cbn zeta.
  split_and!; [reflexivity|reflexivity| |].
  - eexists. split; [reflexivity|]. destruct (AllowPasswordGrant sv); simpl; set_solver.
  - eexists. split; [reflexivity|]. destruct (AllowPKCEPlain sv); simpl; set_solver.
Qed.

Definition demo_req : request :=
  {| r_Method := "POST"; r_RawQuery := ""; r_Header := λ _, "";
     r_PostForm := Some [("client_id", "web"); ("token", "t")] |}.

Lemma introspection_public_only_witness :
  HandleTokenIntrospection (Rq := unit) (PAR := unit) (Up := unit) (JWK := unit) (Resp := unit)
    (λ _ _ _ _, Err "expired") (λ _, Err "no auth")
    {| sv_Issuer := ""; Authenticator := HttpProvider.Build_OidcAuthenticator (λ _ _, Err "") (λ _ _, Err "");
       sv_PostLogoutURL := ""; DefaultStyle := ""; SsoMode := SsoNever; DefaultLoginLabel := "";
       keyID := "k"; sv_AccessTokenLifespan := 1; AllowPasswordGrant := false; AllowPKCEPlain := false |}
    demo_req NewMemoryStore = LibError "no auth".
Proof.
  destruct (introspection_public_only (Rq := unit) (PAR := unit) (Up := unit) (JWK := unit) (Resp := unit)
    (λ _ _ _ _, Err "expired") (λ _, Err "no auth")
    {| sv_Issuer := ""; Authenticator := HttpProvider.Build_OidcAuthenticator (λ _ _, Err "") (λ _ _, Err "");
       sv_PostLogoutURL := ""; DefaultStyle := ""; SsoMode := SsoNever; DefaultLoginLabel := "";
       keyID := "k"; sv_AccessTokenLifespan := 1; AllowPasswordGrant := false; AllowPKCEPlain := false |}
    demo_req NewMemoryStore "no auth" eq_refl) as [H|(form & client & _ & Hf & Hc & _)].
  - exact H.
  - injection Hf as <-. vm_compute in Hc. discriminate Hc.
Defined.
