(* ===== verification/EndToEnd.v ===== *)
(** * The whole chain: from the login form to the directories

    The OIDC server asks the audit module, which asks the merger, which asks the identity
    services (users held in Kubernetes resources, an LDAP directory); each hop is an identity
    endpoint ([Identity.ServeHTTP]) with its own brute-force protection, reached through
    [proto.Exchange]. This file composes the models along the deployment and states what a
    successful login means at its far end. *)

From S2P Require Import Ldap.
From S2P Require Import Prelude Values Proto K8s Protector Identity Provider Merger Ucrd AuditTrail HttpProvider.
From S2P Require Import OidcClient Storage Upstreams Session Url Server LoginFlow.

(** ** The modules as authenticators *)

(** The audit module: the time it records, and the service it forwards to. *)
Record audit_service := {
  as_now : time;
  as_exchange : IdentityRequest → result string IdentityResponse;
}.

Definition audit_authenticator {W : Type} `{ObjectStore W LoginAttempt}
    (marshal : claims → result string string) : Proto.Authenticator W audit_service := {|
  Proto.Authenticate := λ a req w, AuditTrail.Authenticate marshal (as_exchange a) (as_now a) req w
|}.

Definition ucrd_authenticator (unmarshal : string → result string claims)
    (bcrypt_ok : string → string → bool) : Proto.Authenticator unit crd_client := {|
  Proto.Authenticate := λ c req w, (Ucrd.Authenticate unmarshal bcrypt_ok c req, w)
|}.

(** The LDAP module opens a connection for each request; [text] is the message of an error. *)
Definition ldap_authenticator (dir : directory) (EscapeFilter : string → string)
    (text : auth_error → string) : Proto.Authenticator unit ldapAuthenticator := {|
  Proto.Authenticate := λ l req w,
    (match (Ldap.Authenticate dir EscapeFilter l req []).1 with Ok r => Ok r | Err e => Err (text e) end, w)
|}.

(** ** One hop *)

(** A response that went through JSON: the fields are unchanged, the claim values come back as
    JSON values. *)
Definition wire_claims (c : option claims) : option claims := (λ m : claims, json_image <$> m) <$> c.
Definition wire_user (u : User) : User := set_Claims (wire_claims (Claims u)) u.
Definition wire_detail (d : UserDetail) : UserDetail :=
  {| ud_User := wire_user (ud_User d); ud_Status := ud_Status d; ud_Provider := ud_Provider d;
     ud_Translated := {| tr_Groups := tr_Groups (ud_Translated d);
                         tr_Claims := wire_claims (tr_Claims (ud_Translated d));
                         tr_Uid := tr_Uid (ud_Translated d) |} |}.
Definition wire (r : IdentityResponse) : IdentityResponse :=
  {| resp_User := wire_user (resp_User r); resp_Status := resp_Status r;
     resp_Details := (λ l : list UserDetail, wire_detail <$> l) <$> resp_Details r; resp_Authority := resp_Authority r |}.

(** What an identity endpoint answers to a GET with this request. *)
Definition served {T W : Type} (a : Proto.Authenticator W T) (t : T) (p : protector) (now : Z) (w : W)
    (req : IdentityRequest) : http_out :=
  let handler := {| Validators := [OnlyGetValidator]; Authenticator_ := t |} in
  (@ServeHTTP IdentityRequest T W a Ok handler p now {| in_Method := "GET"; in_Body := req |} w).1.1.1.

(** The exchange with it: [fault] is the error of a call that did not get through; an answer
    other than 200 is an error of [httpclient.Do]. *)
Definition over (fault : IdentityRequest → option string) (endpoint : IdentityRequest → http_out)
    (req : IdentityRequest) : result string IdentityResponse :=
  match fault req with
  | Some e => Err e
  | None => match endpoint req with
            | HttpJson r => Ok (wire r)
            | Identity.HttpError _ msg => Err msg
            end
  end.

Lemma over_ok {T W : Type} fault (a : Proto.Authenticator W T) t p now w req r :
  over fault (served a t p now w) req = Ok r →
  EntryForLogin p (req_Login req) = false ∧ fault req = None ∧
  ∃ r0, (Proto.Authenticate t req w).1 = Ok r0 ∧ r = wire r0.
Proof.
  unfold over, served, ServeHTTP. simpl. destruct (fault req); [done|].
  destruct (EntryForLogin p (req_Login req)); [done|].
  destruct (Proto.Authenticate t req w) as [[r'|e] w']; simpl; [|done].
  destruct (ProtectLoginResult _ _ _ _). simpl. intros [= <-]. eauto.
Qed.

(** ** The providers of a merger *)

(** A configured identity service and the exchange with it. *)
Abbreviation service := (IdProviderConfig * (IdentityRequest → result string IdentityResponse))%type.

Section chain.
Context (Sprintf : string → string → string).

Definition provider_of (s : service) : result string Provider := Provider.New Sprintf s.1 (Ok s.2).

Definition is_authority (s : service) : bool := default true (cfg_CredentialAuthority s.1).

Lemma spec_authority c spec :
  getSpec (with_defaults c) = Some spec → ps_CredentialAuthority spec = default true (cfg_CredentialAuthority c).
Proof.
  destruct c as [? cr gr ? cl ? na em ? ?]. unfold getSpec; simpl.
  destruct cr, gr, cl, na, em; simpl; intros; by simplify_eq.
Qed.

(** The detail of a provider has the authority of its configuration, and a status other than
    undefined is the one its service answered. *)
Lemma provider_status s p login password d :
  provider_of s = Ok p → GetUserDetail p login password = Ok d →
  ps_CredentialAuthority (ud_Provider d) = is_authority s ∧
  match s.2 {| req_Login := login; req_Password := password |} with
  | Ok r => ud_Status d = resp_Status r
  | Err _ => ud_Status d = Undefined
  end.
Proof.
  unfold provider_of, Provider.New. intros [= <-]. simpl. unfold getUserDetail, is_authority.
  destruct (getSpec_defaults s.1) as [spec Hs]. rewrite Hs. apply spec_authority in Hs.
  destruct (s.2 _) as [r|e]; simpl.
  - intros [= <-]. simpl. by rewrite Hs.
  - destruct (cfg_Critical s.1) as [[]|]; simpl; intros; simplify_eq; simpl; by rewrite Hs.
Qed.

(** What a [passwordChecked] answer of the merger means for the services behind it. *)
Lemma merger_checked services ps req r :
  Forall2 (λ s p, provider_of s = Ok p) services ps →
  Merger.Authenticate {| providers := ps |} req = Ok r → resp_Status r = PasswordChecked →
  (∃ s r', s ∈ services ∧ is_authority s = true ∧ s.2 req = Ok r' ∧ resp_Status r' = PasswordChecked) ∧
  (∀ s r', s ∈ services → is_authority s = true → s.2 req = Ok r' → resp_Status r' ≠ Disabled).
Proof.
  intros Hps Hr Hst. destruct req as [login password].
  assert (Forall ProviderOk ps) as Hok.
  { apply Forall_forall. intros p Hp. apply list_elem_of_lookup in Hp as [i Hi].
    destruct (Forall2_lookup_r _ _ _ _ _ Hps Hi) as (s & _ & Hs).
    exact (New_ok Sprintf s.1 (Ok s.2) p Hs). }
  destruct (checked_authority {| providers := ps |} Hok _ _ Hr Hst)
    as (ds & l1 & d & l2 & Hds & -> & Hca & Hd & _ & _ & Hdis & _).
  apply rmap_Forall2 in Hds. simpl in Hds. split.
  - destruct (Forall2_lookup_r _ _ _ (length l1) d Hds) as (p & Hp & Hpd);
      [by rewrite lookup_app_r, Nat.sub_diag|].
    destruct (Forall2_lookup_r _ _ _ _ _ Hps Hp) as (s & Hs & Hsp).
    destruct (provider_status s p login password d Hsp Hpd) as [E1 E2].
    destruct (s.2 _) as [r'|e] eqn:Hex; [|by rewrite Hd in E2].
    exists s, r'. split_and!; [by eapply list_elem_of_lookup_2|congruence|done|congruence].
  - intros s r' Hs Ha Hex. apply list_elem_of_lookup in Hs as [i Hi].
    destruct (Forall2_lookup_l _ _ _ _ _ Hps Hi) as (p & Hp & Hsp).
    destruct (Forall2_lookup_l _ _ _ _ _ Hds Hp) as (d' & Hd' & Hpd').
    destruct (provider_status s p login password d' Hsp Hpd') as [E1 E2].
    rewrite Hex in E2. rewrite <- E2. apply Hdis; [by eapply list_elem_of_lookup_2|congruence].
Qed.
End chain.

(** ** The deployment *)

(** The state of one hop: the calls that do not get through, the protector of the endpoint and the
    time it reads. *)
Record hop := { hp_fault : IdentityRequest → option string; hp_protector : protector; hp_now : Z }.

Definition through {T W : Type} (h : hop) (a : Proto.Authenticator W T) (t : T) (w : W) :
    IdentityRequest → result string IdentityResponse :=
  over (hp_fault h) (served a t (hp_protector h) (hp_now h) w).

Section deployment.
Context (Sprintf : string → string → string) (marshal : claims → result string string).
Context {W : Type} `{ObjectStore W LoginAttempt}.

(** The authenticator of the OIDC server, with the audit module and the merger behind it. *)
Definition identity_chain (h1 h2 : hop) (now : time) (w : W) (m : mergerAuthenticator) : OidcAuthenticator :=
  httpProvider (through h1 (audit_authenticator marshal)
    {| as_now := now; as_exchange := through h2 merger_Authenticator m tt |} w).

(** A user the OIDC server authenticates was authenticated by a credential authority among the
    services, and no credential authority that answered has it disabled. *)
Lemma chain_checked h1 h2 now w services ps login password u :
  Forall2 (λ s p, provider_of Sprintf s = Ok p) services ps →
  HttpProvider.Authenticate (identity_chain h1 h2 now w {| providers := ps |}) login password = Ok (Some u) →
  let req := {| req_Login := login; req_Password := password |} in
  ou_Login u = login ∧
  EntryForLogin (hp_protector h1) login = false ∧ EntryForLogin (hp_protector h2) login = false ∧
  (∃ s r, s ∈ services ∧ is_authority s = true ∧ s.2 req = Ok r ∧ resp_Status r = PasswordChecked) ∧
  (∀ s r, s ∈ services → is_authority s = true → s.2 req = Ok r → resp_Status r ≠ Disabled).
Proof.
  intros Hps HA req. apply authenticate_exchange in HA as (r & Hr & Hst & _ & Hl & _).
  apply over_ok in Hr as (E1 & _ & r1 & HA & ->). unfold audit_authenticator in HA. simpl in HA.
  unfold AuditTrail.Authenticate in HA. simpl in HA.
  destruct (through h2 _ _ _ _) as [r2|e] eqn:H2; [|done].
  destruct (createLoginAttemptRecord _ _ _ _). injection HA as <-.
  apply over_ok in H2 as (E2 & _ & r3 & HM & ->). simpl in Hst.
  destruct (merger_checked Sprintf services ps req r3 Hps HM Hst) as [H1 H2]. auto.
Qed.

Context (unmarshal : string → result string claims) (bcrypt_ok : string → string → bool).
Context (dir : directory) (EscapeFilter : string → string) (text : auth_error → string).

Definition ucrd_service (cfg : IdProviderConfig) (h : hop) (c : crd_client) : service :=
  (cfg, through h (ucrd_authenticator unmarshal bcrypt_ok) c tt).

Definition ldap_service (cfg : IdProviderConfig) (h : hop) (l : ldapAuthenticator) : service :=
  (cfg, through h (ldap_authenticator dir EscapeFilter text) l tt).

(** The credentials of the request are those of a user of the cluster. *)
Definition cluster_user (c : crd_client) (req : IdentityRequest) : Prop :=
  ∃ usr, get_user c (req_Login req) = Found usr ∧ us_Disabled usr ≠ Some true ∧
    us_PasswordHash usr ≠ "" ∧ bcrypt_ok (us_PasswordHash usr) (req_Password req) = true.

(** The directory has one entry for the login, and accepted a bind as this entry with the
    password. *)
Definition directory_user (l : ldapAuthenticator) (req : IdentityRequest) : Prop :=
  let tr := (Ldap.Authenticate dir EscapeFilter l req []).2 in
  ∃ e, happened (Search (user_request EscapeFilter l (req_Login req)))
         (λ tr0, on_search dir tr0 (user_request EscapeFilter l (req_Login req)) = Ok [e]) tr ∧
       happened (Bind (DN e) (req_Password req))
         (λ tr0, on_bind dir tr0 (Bind (DN e) (req_Password req)) = None) tr.

Lemma ucrd_service_checked cfg h c req r :
  (ucrd_service cfg h c).2 req = Ok r → resp_Status r = PasswordChecked →
  req_Password req ≠ "" ∧ cluster_user c req.
Proof.
  intros Hr Hst. apply over_ok in Hr as (_ & _ & r0 & HA & ->). simpl in HA.
  destruct (proj1 (checked_iff unmarshal bcrypt_ok c req)) as (items & usr & _ & _ & Hu & Hd & Hh & Hp & Hb).
  { by exists r0. }
  split; [done|]. by exists usr.
Qed.

Lemma ucrd_service_enabled cfg h c req r usr :
  (ucrd_service cfg h c).2 req = Ok r → resp_Status r ≠ Disabled →
  get_user c (req_Login req) = Found usr → us_Disabled usr ≠ Some true.
Proof.
  intros Hr Hst Hu Hd. apply over_ok in Hr as (_ & _ & r0 & HA & ->). simpl in *.
  by eapply Hst, disabled_reported.
Qed.

Lemma ldap_service_checked cfg h l req r :
  (ldap_service cfg h l).2 req = Ok r → resp_Status r = PasswordChecked →
  req_Password req ≠ "" ∧ directory_user l req.
Proof.
  intros Hr Hst. apply over_ok in Hr as (_ & _ & r0 & HA & ->). simpl in HA.
  unfold directory_user. destruct (Ldap.Authenticate dir EscapeFilter l req []) as [[r1|e] tr] eqn:E; [|done].
  injection HA as <-. destruct (checked_bound dir EscapeFilter l req _ _ E Hst) as (Hp & e & gs & Hs & Hb & _).
  split; [done|]. by exists e.
Qed.

(** ** The login form *)

Context {Rq PAR JWK AR Resp OErr SS LS : Type}.
Context `{Requester AR, SessionData SS, SessionData LS} {A : ClaimAdder} `{!ClaimAdderOk A}.
Context (NewAuthorizeRequest : request → @MemoryStore Rq PAR upstream JWK →
           result (option AR * OErr) AR * @MemoryStore Rq PAR upstream JWK).
Context (NewAuthorizeResponse : AR → view → @MemoryStore Rq PAR upstream JWK →
           result OErr Resp * @MemoryStore Rq PAR upstream JWK).
Context (executes : page → bool).

End deployment.

(** ** A concrete deployment: one user in the cluster, one in the directory *)

Module Deployed.
Definition quiet : hop := {| hp_fault := λ _, None; hp_protector := Protector.New true []; hp_now := 0 |}.
Definition when : time :=
  {| Year := 2025; Month := 1; Day := 1; Hour := 0; Minute := 0; Second := 0; Nanosecond := 0; instant := 0 |}.
Definition empty_cluster : crd_client :=
  {| list_bindings := λ _, Ok []; get_group := λ _, NotFound; get_user := λ _, NotFound |}.
Definition cfg (name : string) : IdProviderConfig :=
  {| cfg_Name := name; cfg_CredentialAuthority := None; cfg_GroupAuthority := None; cfg_GroupPattern := "%s";
     cfg_ClaimAuthority := None; cfg_ClaimPattern := "%s"; cfg_NameAuthority := None;
     cfg_EmailAuthority := None; cfg_Critical := None; cfg_UidOffset := 0 |}.
Definition users : service := ucrd_service (λ _, Ok ∅) (λ h p, str_eqb h p) (cfg "users") quiet empty_cluster.
Definition people : service := ldap_service demo_directory (λ s, s) (λ _, "ldap") (cfg "people") quiet demo_ldap.
Definition sprintf (pattern s : string) : string := s.
Definition merged : list Provider :=
  omap (λ s, match provider_of sprintf s with Ok p => Some p | Err _ => None end) [users; people].
Definition chain : OidcAuthenticator :=
  identity_chain (W := cluster LoginAttempt) (λ _, Ok "{}") quiet quiet when {| objs := ∅; faults := [] |}
    {| providers := merged |}.
Definition server : OIDCServer :=
  {| sv_Issuer := "https://idp"; Authenticator := chain; sv_PostLogoutURL := "/index";
     DefaultStyle := "std"; SsoMode := SsoNever; DefaultLoginLabel := "Login"; keyID := "k1";
     sv_AccessTokenLifespan := 3600; AllowPasswordGrant := false; AllowPKCEPlain := false |}.
Definition submit (pw : string) : LoginFlow.Demo.dstate :=
  match @handleLogin _ _ _ _ _ _ _ _ _ _ _ plain_add Demo.new_areq Demo.new_aresp Demo.dpage server
          (Demo.post pw "") 7 Demo.state0 with
  | Some (_, s) => s | None => Demo.state0 end.
End Deployed.

