(* ===== verification/Wire.v ===== *)
(** * The messages of the program as JSON

    The structs the program sends and keeps, with their JSON names (the tags of the Go structs, or
    the field names), and what their decoding gives: the request and the response of the identity
    protocol, the user kept while an upstream login waits for the user's choice, the user and the
    values of an SSO session. The identity exchange is then composed down to the bytes: the client
    of [HttpClient], the endpoint of [Identity] and the texts between them give what
    [EndToEnd.over] states. *)

From stdpp Require Import pretty.
From S2P Require Import Prelude Values Proto Json K8s HttpClient Protector Identity SsoStore Session Server GoJson.
From S2P Require Import Upstreams UpstreamFlow EndToEnd.

(** ** The types *)

Definition strings_t : gtype := TSlice TString.

Definition User_t : gtype :=
  TStruct [("login", TString); ("uid", TPtr TInt); ("name", TString); ("emails", strings_t);
           ("groups", strings_t); ("claims", TClaims)].

Definition IdentityRequest_t : gtype := TStruct [("login", TString); ("password", TString)].

(** Only YAML tags: the JSON names are the field names. *)
Definition Translated_t : gtype := TStruct [("Groups", strings_t); ("Claims", TClaims); ("Uid", TPtr TInt)].

Definition ProviderSpec_t : gtype :=
  TStruct [("name", TString); ("credentialAuthority", TBool); ("groupAuthority", TBool); ("claimAuthority", TBool);
           ("nameAuthority", TBool); ("emailAuthority", TBool)].

Definition UserDetail_t : gtype :=
  TStruct [("user", User_t); ("status", TString); ("provider", ProviderSpec_t); ("translated", Translated_t)].

Definition IdentityResponse_t : gtype :=
  TStruct [("user", User_t); ("status", TString); ("details", TSlice (TPtr UserDetail_t)); ("authority", TString)].

Definition OidcUser_t : gtype := TStruct [("Login", TString); ("Claims", TClaims); ("FullName", TString)].

Definition jsonPayload_t : gtype := TStruct [("deadline", TTime); ("values", TClaims)].

(** ** The values *)

Definition go_claims (c : option claims) : gval := from_option GClaims GNil c.
Definition go_int (z : option Z) : gval := from_option (λ z, GPtr (GInt z)) GNil z.

Definition claims_of (v : gval) : option (option claims) :=
  match v with GNil => Some None | GClaims m => Some (Some m) | _ => None end.
Definition int_of (v : gval) : option (option Z) :=
  match v with GNil => Some None | GPtr (GInt z) => Some (Some z) | _ => None end.
Definition string_of (v : gval) : option string := match v with GString s => Some s | _ => None end.
Definition strs_of (v : gval) : option (list string) :=
  match v with GNil => Some [] | GSlice l _ => mapM string_of l | _ => None end.

Section values.
(** Whether a list without elements is a nil slice (written [null]) or an empty one. *)
Context (nils : bool).

Definition go_strings (l : list string) : gval :=
  if nils && bool_decide (l = []) then GNil else GSlice (GString <$> l) [].

Definition go_user (u : User) : gval :=
  GStruct [GString (Login u); go_int (Uid u); GString (Name u); go_strings (Emails u); go_strings (Groups u);
           go_claims (Claims u)].
Definition go_spec (p : ProviderSpec) : gval :=
  GStruct [GString (ps_Name p); GBool (ps_CredentialAuthority p); GBool (ps_GroupAuthority p);
           GBool (ps_ClaimAuthority p); GBool (ps_NameAuthority p); GBool (ps_EmailAuthority p)].
Definition go_translated (t : Translated) : gval :=
  GStruct [go_strings (tr_Groups t); go_claims (tr_Claims t); go_int (tr_Uid t)].
Definition go_detail (d : UserDetail) : gval :=
  GStruct [go_user (ud_User d); GString (ud_Status d); go_spec (ud_Provider d); go_translated (ud_Translated d)].
Definition go_response (r : IdentityResponse) : gval :=
  GStruct [go_user (resp_User r); GString (resp_Status r);
           from_option (λ l, GSlice ((λ d, GPtr (go_detail d)) <$> l) []) GNil (resp_Details r);
           GString (resp_Authority r)].
End values.

Definition go_request (r : IdentityRequest) : gval := GStruct [GString (req_Login r); GString (req_Password r)].
Definition go_oidc_user (login : string) (c : option claims) (fullName : string) : gval :=
  GStruct [GString login; go_claims c; GString fullName].
Definition go_payload (e : sessionEnvelope) : gval := GStruct [GTime (env_Deadline e); go_claims (env_Values e)].

(** ** The records of the values *)

Definition user_of (v : gval) : option User :=
  match v with
  | GStruct [GString login; uid; GString name; emails; groups; c] =>
      uid ← int_of uid; emails ← strs_of emails; groups ← strs_of groups; c ← claims_of c;
      Some {| Login := login; Uid := uid; Name := name; Emails := emails; Groups := groups; Claims := c |}
  | _ => None
  end.
Definition spec_of (v : gval) : option ProviderSpec :=
  match v with
  | GStruct [GString n; GBool a; GBool b; GBool c; GBool d; GBool e] =>
      Some {| ps_Name := n; ps_CredentialAuthority := a; ps_GroupAuthority := b; ps_ClaimAuthority := c;
              ps_NameAuthority := d; ps_EmailAuthority := e |}
  | _ => None
  end.
Definition translated_of (v : gval) : option Translated :=
  match v with
  | GStruct [groups; c; uid] =>
      groups ← strs_of groups; c ← claims_of c; uid ← int_of uid;
      Some {| tr_Groups := groups; tr_Claims := c; tr_Uid := uid |}
  | _ => None
  end.
(** A nil detail, which no endpoint sends, has no record. *)
Definition detail_of (v : gval) : option UserDetail :=
  match v with
  | GPtr (GStruct [u; GString st; p; t]) =>
      u ← user_of u; p ← spec_of p; t ← translated_of t;
      Some {| ud_User := u; ud_Status := st; ud_Provider := p; ud_Translated := t |}
  | _ => None
  end.
Definition details_of (v : gval) : option (option (list UserDetail)) :=
  match v with GNil => Some None | GSlice l _ => Some <$> mapM detail_of l | _ => None end.
Definition response_of (v : gval) : option IdentityResponse :=
  match v with
  | GStruct [u; GString st; ds; GString a] =>
      u ← user_of u; ds ← details_of ds;
      Some {| resp_User := u; resp_Status := st; resp_Details := ds; resp_Authority := a |}
  | _ => None
  end.
Definition request_of (v : gval) : option IdentityRequest :=
  match v with
  | GStruct [GString l; GString p] => Some {| req_Login := l; req_Password := p |}
  | _ => None
  end.
Definition oidc_user_of (v : gval) : option upstream_user :=
  match v with
  | GStruct [GString l; c; GString f] =>
      c ← claims_of c; Some {| uu_Login := l; uu_Claims := c; uu_FullName := f |}
  | _ => None
  end.
Definition payload_of (v : gval) : option sessionEnvelope :=
  match v with
  | GStruct [GTime d; c] => c ← claims_of c; Some {| env_Deadline := d; env_Values := c |}
  | _ => None
  end.

(** ** What arrives is what [EndToEnd.wire] states *)

Lemma claims_arrive c : claims_of (arrive (go_claims c)) = Some (wire_claims c).
Proof. by destruct c. Qed.
Lemma int_arrive z : int_of (arrive (go_int z)) = Some z.
Proof. by destruct z. Qed.
Lemma strs_arrive nils l : strs_of (arrive (go_strings nils l)) = Some l.
Proof.
  unfold go_strings. destruct (nils && bool_decide (l = [])) eqn:E.
  - apply andb_prop in E as [_ ->%bool_decide_eq_true]. done.
  - cbn [arrive strs_of]. rewrite <- list_fmap_compose.
    rewrite (mapM_fmap_fmap _ _ id); [by rewrite list_fmap_id|done].
Qed.
Lemma user_arrive nils u : user_of (arrive (go_user nils u)) = Some (wire_user u).
Proof. cbn. rewrite int_arrive, !strs_arrive, claims_arrive. by destruct u. Qed.
Lemma spec_arrive p : spec_of (arrive (go_spec p)) = Some p.
Proof. by destruct p. Qed.
Lemma detail_arrive nils d : detail_of (arrive (GPtr (go_detail nils d))) = Some (wire_detail d).
Proof.
  destruct d as [u st p t]. change (arrive (GPtr (go_detail nils (Build_UserDetail u st p t)))) with
    (GPtr (GStruct [arrive (go_user nils u); GString st; arrive (go_spec p); arrive (go_translated nils t)])).
  cbn [detail_of]. rewrite user_arrive, spec_arrive. cbn.
  by rewrite strs_arrive, claims_arrive, int_arrive.
Qed.
Lemma response_arrive nils r : response_of (arrive (go_response nils r)) = Some (wire r).
Proof.
  destruct r as [u st ds a]. change (arrive (go_response nils (Build_IdentityResponse u st ds a))) with
    (GStruct [arrive (go_user nils u); GString st;
      arrive (from_option (λ l, GSlice ((λ d, GPtr (go_detail nils d)) <$> l) []) GNil ds); GString a]).
  cbn [response_of]. rewrite user_arrive. cbn [mbind option_bind].
  destruct ds as [l|]; [|done]. cbn [from_option arrive details_of]. rewrite <- list_fmap_compose.
  rewrite (mapM_fmap_fmap _ _ wire_detail); [done|]. intros d _. apply detail_arrive.
Qed.

(** ** The texts *)

Section texts.
(** The messages of the decoder, and how the program holds lists without elements. *)
Context (why : string → string) (nils : bool).

Definition to_result {A} (e : string) (o : option A) : result string A :=
  match o with Some x => Ok x | None => Err e end.

(** [toJson] and [fromJson]. *)
Definition toJson (t : gtype) (v : gval) : result string string := to_result (why "") (Marshal t v).
Definition fromJson {A} (t : gtype) (conv : gval → option A) (body : string) : result string A :=
  to_result (why body) (v ← Decode_strict t body; conv v).

Definition request_ToJson (r : IdentityRequest) : result string string := toJson IdentityRequest_t (go_request r).
Definition response_FromJson : string → result string IdentityResponse := fromJson IdentityResponse_t response_of.

(** The endpoint: decoding the body, and the text of the answer. A value that cannot be encoded
    panics, and the connection is closed. *)
Definition Decode_request : string → result string IdentityRequest := fromJson IdentityRequest_t request_of.

Definition answer_text (o : http_out) : result string (http_response string) :=
  match o with
  | HttpJson r =>
      match Encode IdentityResponse_t (go_response nils r) with
      | Some s => Ok {| StatusCode := 200; rsp_body := s |}
      | None => Err "EOF"
      end
  | Identity.HttpError code msg => Ok {| StatusCode := code; rsp_body := msg |}
  end.

Definition endpoint {T W : Type} (a : Proto.Authenticator W T) (t : T) (p : protector) (now : Z) (w : W)
    (hr : http_request string) : result string (http_response string) :=
  let handler := {| Validators := [OnlyGetValidator]; Authenticator_ := t |} in
  answer_text (@ServeHTTP string T W a Decode_request handler p now
                 {| in_Method := hr_method hr; in_Body := hr_body hr |} w).1.1.1.

(** The user that waits for the choice of the user ([handleUpstreamCallback],
    [loadPendingUpstreamUser]). *)
Definition marshal_user (u : upstream_user) : result string string :=
  toJson OidcUser_t (go_oidc_user (uu_Login u) (uu_Claims u) (uu_FullName u)).
Definition unmarshal_user (raw : string) : option upstream_user :=
  v ← Unmarshal OidcUser_t raw; oidc_user_of v.

(** The values of a session ([JSONCodec]). *)
Definition marshal_payload (e : sessionEnvelope) : result string string := toJson jsonPayload_t (go_payload e).
Definition unmarshal_payload (b : string) : result string sessionEnvelope :=
  to_result (why b) (v ← Unmarshal jsonPayload_t b; payload_of v).

(** The claims of users and groups, as resources and audit records hold them. *)
Definition marshal_claims (m : claims) : result string string := toJson TClaims (GClaims m).
Definition unmarshal_claims (raw : string) : result string claims :=
  to_result (why raw) (v ← Unmarshal TClaims raw; c ← claims_of v; Some (default ∅ c)).

(** The members of a user, one after the other. *)
Lemma user_members (d : gval → json → option gval) jc a b l :
  let text := decode false TString in
  set_members false [("Login", text); ("Claims", d); ("FullName", text)] [GString ""; GNil; GString ""]
    [("Login", JStr a); ("Claims", jc); ("FullName", JStr b)] = Some l →
  ∃ vc, l = [GString a; vc; GString b].
Proof. intros text H. vm_compute in H. destruct (d GNil jc) as [vc|]; [|done]. exists vc. congruence. Qed.

(** The login of the user that waits comes back, whatever the claims: bytes that are not valid UTF-8
    are replaced. *)
Lemma pending_login u raw u' :
  marshal_user u = Ok raw → unmarshal_user raw = Some u' → uu_Login u' = clean_string (uu_Login u).
Proof.
  unfold marshal_user, toJson, unmarshal_user. destruct (Marshal _ _) as [s|] eqn:Hm; [|done]. intros [= <-].
  intros (w & Hw & Hu)%bind_Some. destruct (Unmarshal_cleaned _ _ _ _ Hm Hw) as (j & Hj & Hd).
  assert (∃ jc, j = JObj [("Login", JStr (uu_Login u)); ("Claims", jc); ("FullName", JStr (uu_FullName u))]) as (jc & ->).
  { revert Hj. unfold OidcUser_t, go_oidc_user. cbn [encode fmap list_fmap fst snd encode_fields mbind option_bind].
    intros (ms & (r & (jc & _ & [= <-])%bind_Some & [= <-])%bind_Some & ->)%fmap_Some. by exists jc. }
  change (Json.clean _) with (JObj [("Login", JStr (clean_string (uu_Login u))); ("Claims", Json.clean jc);
    ("FullName", JStr (clean_string (uu_FullName u)))]) in Hd.
  apply fmap_Some in Hd as (l & Hl & ->).
  assert (∃ vc, l = [GString (clean_string (uu_Login u)); vc; GString (clean_string (uu_FullName u))]) as (vc & ->).
  { exact (user_members (decode false TClaims) (Json.clean jc) _ _ l Hl). }
  apply bind_Some in Hu as (c & _ & [= <-]). done.
Qed.

Abbreviation goes_through t v :=
  (sendable_as t v = true ∧ nesting t v ≤ maxNestingDepth).

(** A request arrives as it was sent. *)
Lemma request_arrives r :
  valid_utf8 (req_Login r) = true → valid_utf8 (req_Password r) = true →
  ∃ s, request_ToJson r = Ok s ∧ Decode_request s = Ok r.
Proof.
  intros Hl Hp. destruct (Decode_Marshal_strict IdentityRequest_t (go_request r))
    as (s & Hs & Hd); [done|cbn; by rewrite Hl, Hp|cbn; unfold maxNestingDepth; lia|].
  exists s. unfold request_ToJson, toJson, Decode_request, fromJson. rewrite Hs, Hd. by destruct r.
Qed.

#[local] Arguments answer_text : simpl never.
#[local] Arguments response_FromJson : simpl never.

(** A response arrives with its claims as JSON values. *)
Lemma answer_arrives r :
  goes_through IdentityResponse_t (go_response nils r) →
  ∃ b, answer_text (HttpJson r) = Ok {| StatusCode := 200; rsp_body := b |} ∧ response_FromJson b = Ok (wire r).
Proof.
  intros [Hs Hn].
  destruct (Decode_Encode_strict IdentityResponse_t (go_response nils r))
    as (b & Hb & Hd); [done|done|done|].
  exists b. unfold answer_text, response_FromJson, fromJson. rewrite Hb, Hd. split; [done|].
  cbn [mbind option_bind]. by rewrite response_arrive.
Qed.

(** C11. The identity exchange down to the bytes: the client writes the request as JSON and calls the
    endpoint; the endpoint decodes it, answers, and writes the response as JSON; the client decodes
    it. When the credentials are valid UTF-8 and the response of the authenticator can be sent, the
    exchange succeeds exactly when the endpoint answers a response to this request, and it yields
    this response with its claims as JSON values, whichever way empty lists are held. *)
Theorem exchange_over_json {T W : Type} (a : Proto.Authenticator W T) t p now w JoinPath NewRequest cfg path u req r :
  JoinPath (BaseURL cfg) path = Ok u → NewRequest "GET" u = Ok () →
  valid_utf8 (req_Login req) = true → valid_utf8 (req_Password req) = true →
  (∀ r0, (Proto.Authenticate t req w).1 = Ok r0 → goes_through IdentityResponse_t (go_response nils r0)) →
  Exchange JoinPath NewRequest (endpoint a t p now w) request_ToJson response_FromJson cfg "GET" path req = Ok r
  ↔ over (λ _, None) (served a t p now w) req = Ok r.
Proof.
  intros Hj Hn Hl Hp Hr. destruct (request_arrives req Hl Hp) as (s & Hs & Hd).
  unfold Exchange, Do, endpoint, over, served. rewrite Hs, Hj, Hn. cbn [hr_method hr_body].
  unfold ServeHTTP. cbn [in_Body]. rewrite Hd. destruct (EntryForLogin p (req_Login req)); [done|].
  cbn [validate Validators Authenticator_]. unfold OnlyGetValidator. cbn [in_Method].
  rewrite !decide_False by (by intros H). destruct (Proto.Authenticate t req w) as [[r0|e] w']; [|done].
  destruct (ProtectLoginResult _ _ _ _) as [p' d]. cbn [fst].
  destruct (answer_arrives r0 (Hr r0 eq_refl)) as (b & -> & Hb). cbn [StatusCode].
  repeat case_decide; try done. cbn [rsp_body]. rewrite Hb. split; congruence.
Qed.

(** C34. The endpoint is strict: when the first JSON value of the body is an object with a member
    that is neither a login nor a password (whatever the case of its letters), the request is
    refused with status 400, the authenticator is not asked, and nothing changes. *)
Theorem unknown_field_refused {T W : Type} (a : Proto.Authenticator W T) h p now m body w ms rest k j :
  decode_first body = Some (JObj ms, rest) → (k, j) ∈ ms → find_field ["login"; "password"] k = None →
  @ServeHTTP string T W a Decode_request h p now {| in_Method := m; in_Body := body |} w
  = (Identity.HttpError StatusBadRequest ("Payload decoding: " +:+ why body), 0%Z, p, w).
Proof.
  intros Hb Hin Hk. unfold ServeHTTP, Decode_request, fromJson, Decode_strict. cbn [in_Body]. rewrite Hb.
  cbn [mbind option_bind]. unfold IdentityRequest_t. by rewrite (unknown_member _ _ ms k j).
Qed.

(** Claims recorded in a resource are read back, as JSON values. *)
Lemma claims_kept m :
  goes_through TClaims (GClaims m) →
  ∃ raw, marshal_claims m = Ok raw ∧ unmarshal_claims raw = Ok (json_image <$> m).
Proof.
  intros [Hs Hn]. destruct (Unmarshal_Marshal TClaims (GClaims m)) as (raw & Hm & _ & Hu); [done|done|done|].
  exists raw. unfold marshal_claims, toJson, unmarshal_claims. by rewrite Hm, Hu.
Qed.

(** The user that waits is found again, its claims as JSON values. *)
Lemma pending_user_kept u :
  goes_through OidcUser_t (go_oidc_user (uu_Login u) (uu_Claims u) (uu_FullName u)) →
  ∃ raw, marshal_user u = Ok raw ∧ raw ≠ "" ∧
    unmarshal_user raw = Some {| uu_Login := uu_Login u; uu_Claims := wire_claims (uu_Claims u);
                                 uu_FullName := uu_FullName u |}.
Proof.
  intros [Hs Hn]. destruct (Unmarshal_Marshal OidcUser_t
    (go_oidc_user (uu_Login u) (uu_Claims u) (uu_FullName u))) as (raw & Hm & Hne & Hu); [done|done|done|].
  exists raw. unfold marshal_user, toJson, unmarshal_user. rewrite Hm, Hu. split; [done|]. split; [done|].
  cbn. by rewrite claims_arrive.
Qed.

(** The text of a session is read back, the values as JSON values. *)
Lemma payload_kept deadline vs :
  goes_through jsonPayload_t (go_payload {| env_Deadline := deadline; env_Values := Some vs |}) →
  ∃ b, marshal_payload {| env_Deadline := deadline; env_Values := Some vs |} = Ok b ∧ b ≠ "" ∧
    unmarshal_payload b = Ok {| env_Deadline := deadline; env_Values := Some (json_image <$> vs) |}.
Proof.
  intros [Hs Hn]. destruct (Unmarshal_Marshal jsonPayload_t
    (go_payload {| env_Deadline := deadline; env_Values := Some vs |})) as (b & Hm & Hne & Hu); [done|done|done|].
  exists b. unfold marshal_payload, toJson, unmarshal_payload. by rewrite Hm, Hu.
Qed.

(** The user of the values that are read back. *)
Lemma user_read_back order login c fullName vs :
  vs !! "ssoUser" = Some (json_user login c fullName) →
  (extractUser order (Some (json_image <$> vs))).1.1 = login.
Proof.
  intros Hv. erewrite extractUser_ssoUser; [|by rewrite lookup_fmap, Hv|reflexivity]. reflexivity.
Qed.


(** A user put in an SSO session is read back as the map [json_user]. *)
Lemma user_in_session login c fullName :
  sendable_as OidcUser_t (go_oidc_user login c fullName) = true →
  (encode OidcUser_t (go_oidc_user login c fullName) ≫= to_value)
  = Some (json_user login c fullName).
Proof.
  intros Hs. cbn in Hs. rewrite !andb_true_iff in Hs. destruct Hs as (Hl & Hc & Hf & _).
  assert (∃ jc, encode TClaims (go_claims c) = Some jc ∧
    to_value jc = Some (from_option (λ c, VMap (json_image <$> c)) VNil c)) as (jc & Hj & Ht).
  { destruct c as [m|]; [|by exists JNull]. exists (of_value (VMap m)).
    destruct (of_value_ok (VMap m) Hc) as (Hg & _ & ->). split; [|done].
    cbn [encode go_claims from_option]. unfold guard_number. by rewrite Hg. }
  transitivity (to_value (JObj [("Login", JStr login); ("Claims", jc); ("FullName", JStr fullName)])).
  { change (encode OidcUser_t (go_oidc_user login c fullName)) with
      (JObj <$> (r ← (jc ← encode TClaims (go_claims c); Some [("Claims", jc); ("FullName", JStr fullName)]);
                 Some (("Login", JStr login) :: r))).
    by rewrite Hj. }
  cbn [to_value mapM fst snd mbind option_bind]. rewrite Ht. done.
Qed.
End texts.

(** ** Concrete messages *)

Module WireDemo.
Definition alice : User :=
  {| Login := "alice"; Uid := Some 1000%Z; Name := "Alice"; Emails := []; Groups := ["dev"; "ops"];
     Claims := Some {["level" := VInt 3; "teams" := VStrs ["a"; "b"]]} |}.
Definition spec : ProviderSpec :=
  {| ps_Name := "ldap"; ps_CredentialAuthority := true; ps_GroupAuthority := true; ps_ClaimAuthority := false;
     ps_NameAuthority := false; ps_EmailAuthority := true |}.
Definition detail : UserDetail :=
  {| ud_User := alice; ud_Status := PasswordChecked; ud_Provider := spec;
     ud_Translated := {| tr_Groups := []; tr_Claims := None; tr_Uid := Some (-1)%Z |} |}.
Definition response : IdentityResponse :=
  {| resp_User := alice; resp_Status := PasswordChecked; resp_Details := Some [detail]; resp_Authority := "ldap" |}.

(** An authenticator that always answers this response. *)
Definition always : Proto.Authenticator unit unit := {| Proto.Authenticate := λ _ _ w, (Ok response, w) |}.
Definition cfg : Config := 
  {| BaseURL := "http://ldap"; RootCaPaths := []; RootCaDatas := []; RootCaBytes := []; InsecureSkipVerify := false;
     DumpExchanges := false; HttpAuth_ := None; Label := "ldap" |}.
Definition join (base path : string) : result string string := Ok (base +:+ "/" +:+ path).
Definition req : IdentityRequest := {| req_Login := "alice"; req_Password := "pw" |}.
End WireDemo.

Lemma exchange_over_json_witness :
  Exchange WireDemo.join (λ _ _, Ok ())
    (endpoint (λ _, "bad") true WireDemo.always () (Protector.New true []) 0 ())
    (request_ToJson (λ _, "bad"))
    (response_FromJson (λ _, "bad")) WireDemo.cfg "GET" "v1/identity" WireDemo.req
  = Ok (wire WireDemo.response).
Proof.
  apply (exchange_over_json (λ _, "bad") true
    WireDemo.always () (Protector.New true []) 0 () WireDemo.join (λ _ _, Ok ()) WireDemo.cfg "v1/identity"
    "http://ldap/v1/identity" WireDemo.req (wire WireDemo.response)).
  - reflexivity.
  - reflexivity.
  - vm_compute. reflexivity.
  - vm_compute. reflexivity.
  - intros r0 [= <-]. split; [vm_compute; reflexivity|]. apply Nat.leb_le. vm_compute. reflexivity.
  - reflexivity.
Defined.

Definition session_values : claims :=
  {["csrf" := VString "x"; "count" := VInt 2;
    "ssoUser" := json_user "bob" (Some {["groups" := VStrs ["dev"]]}) "Bob"]}.
Definition session_bytes : string :=
  match SsoStore.Encode (marshal_payload (λ _, "bad")) (Some 9%Z) (Some session_values) with Ok b => b | Err _ => "" end.
Definition session_cluster : cluster SsoSession :=
  (Commit demo_hash (unmarshal_payload (λ _, "bad")) (λ _, Err "") demo_order "tok" session_bytes (Some 12%Z) empty_sessions).2.


Definition extra_body : string :=
  print (JObj [("login", JStr "alice"); ("password", JStr "pw"); ("detail", JBool true)]).

Lemma unknown_field_refused_witness :
  @ServeHTTP string unit unit WireDemo.always (Decode_request (λ _, "bad"))
    {| Validators := []; Authenticator_ := () |} (Protector.New true []) 0
    {| in_Method := "GET"; in_Body := extra_body |} ()
  = (Identity.HttpError StatusBadRequest "Payload decoding: bad", 0%Z, Protector.New true [], ()).
Proof.
  apply (unknown_field_refused (λ _, "bad") WireDemo.always
    {| Validators := []; Authenticator_ := () |} (Protector.New true []) 0 "GET" extra_body ()
    [("login", JStr "alice"); ("password", JStr "pw"); ("detail", JBool true)] "" "detail" (JBool true)).
  - vm_compute. reflexivity.
  - apply elem_of_cons. right. apply elem_of_cons. right. apply elem_of_cons. left. reflexivity.
  - vm_compute. reflexivity.
Defined.
