(* ===== verification/Watches.v ===== *)
(** * cmd/oidc: what wakes the controllers

    [oidc.go] indexes the OidcClient and UpstreamProvider resources by the secrets they name, and
    turns the change of a secret into reconciliation requests. The properties relate these
    requests to what the reconcilers of [ClientController] and [UpstreamController] read. *)

From S2P Require Import Prelude Misc K8s OidcClient Storage Upstreams UpstreamController ClientController.

(** ** The indexes *)

(** [fmt.Sprintf("%s:%s", namespace, name)]. *)
Definition index_key (ns name : string) : string := ns +:+ ":" +:+ name.

Definition secretIndexOnOidcClient (o : OidcClient) : list string :=
  match Secrets (oc_Spec o) with
  | None => []
  | Some secrets => (λ s, index_key (oc_Namespace o) (ocs_Name s)) <$> secrets
  end.

(** An upstream resource with its namespace. *)
Definition secretIndexOnUpstreamProvider (u : string * UpstreamProvider) : list string :=
  let name := ls_Name (us_ClientSecret (upp_Spec u.2)) in
  if str_empty name then [] else [index_key u.1 name].

(** [List] of the cached client with a field selector on an index; [fault] is its error. *)
Definition list_indexed {A} (index : A → list string) (cache : list A) (fault : option string) (key : string)
    : result string (list A) :=
  match fault with
  | Some e => Err e
  | None => Ok (filter (λ o, key ∈ index o) cache)
  end.

(** ** The requests: namespace and name *)

Definition findOidcClientFromSecret (cache : list OidcClient) (fault : option string) (ns name : string)
    : list (string * string) :=
  match list_indexed secretIndexOnOidcClient cache fault (index_key ns name) with
  | Err _ => []
  | Ok items => (λ o, (oc_Namespace o, oc_Name o)) <$> items
  end.

(** With the predicate of the watch: secrets of another namespace are not looked at. *)
Definition findUpstreamProviderFromSecret (upstreamNamespace : string) (cache : list (string * UpstreamProvider))
    (fault : option string) (ns name : string) : list (string * string) :=
  if negb (str_eqb ns upstreamNamespace) then []
  else match list_indexed secretIndexOnUpstreamProvider cache fault (index_key ns name) with
       | Err _ => []
       | Ok items => (λ u, (u.1, upp_Name u.2)) <$> items
       end.

(** ** Keys *)

(** Names of Kubernetes objects and namespaces have no colon. *)
Fixpoint no_colon (s : string) : bool :=
  match s with
  | EmptyString => true
  | String c s' => negb (bool_decide (c = ":"%char)) && no_colon s'
  end.

Lemma index_key_inj ns name ns' name' :
  no_colon ns = true → no_colon ns' = true → index_key ns name = index_key ns' name' → ns = ns' ∧ name = name'.
Proof.
  revert ns'. induction ns as [|c ns IH]; intros [|d ns'] H1 H2 E.
  - change (String ":" name = String ":" name') in E. by injection E as ->.
  - change (String ":" name = String d (index_key ns' name')) in E. injection E as <- _. done.
  - change (String c (index_key ns name) = String ":" name') in E. injection E as -> _. done.
  - change (String c (index_key ns name) = String d (index_key ns' name')) in E. injection E as -> E.
    simpl in H1, H2. apply andb_true_iff in H1 as [_ H1], H2 as [_ H2].
    destruct (IH ns' H1 H2 E) as [-> ->]. done.
Qed.

Lemma indexed_client o ns name :
  no_colon ns = true → no_colon (oc_Namespace o) = true →
  index_key ns name ∈ secretIndexOnOidcClient o ↔
  oc_Namespace o = ns ∧ ∃ refs s, Secrets (oc_Spec o) = Some refs ∧ s ∈ refs ∧ ocs_Name s = name.
Proof.
  intros H1 H2. unfold secretIndexOnOidcClient. destruct (Secrets (oc_Spec o)) as [refs|].
  - rewrite list_elem_of_fmap. split.
    + intros (s & E & Hs). apply index_key_inj in E as [-> ->]; [|done..]. naive_solver.
    + intros (<- & refs' & s & [= <-] & Hs & <-). by exists s.
  - split; [by intros ?%elem_of_nil|naive_solver].
Qed.

Lemma indexed_upstream ns u name :
  no_colon ns = true → no_colon u.1 = true →
  index_key ns name ∈ secretIndexOnUpstreamProvider u ↔
  u.1 = ns ∧ name ≠ "" ∧ ls_Name (us_ClientSecret (upp_Spec u.2)) = name.
Proof.
  intros H1 H2. unfold secretIndexOnUpstreamProvider. cbn zeta. destruct (str_empty _) eqn:E.
  - apply str_empty_true in E. split; [by intros ?%elem_of_nil|naive_solver].
  - apply str_empty_false in E. rewrite list_elem_of_singleton. split.
    + intros Hk. apply index_key_inj in Hk as [-> ->]; [|done..]. naive_solver.
    + intros (-> & _ & ->). done.
Qed.

(** The clients a secret wakes: those of its namespace that name it. *)
Lemma woken_clients cache ns name rq :
  no_colon ns = true → Forall (λ o, no_colon (oc_Namespace o) = true) cache →
  rq ∈ findOidcClientFromSecret cache None ns name ↔
  ∃ o refs s, o ∈ cache ∧ rq = (ns, oc_Name o) ∧ oc_Namespace o = ns ∧
    Secrets (oc_Spec o) = Some refs ∧ s ∈ refs ∧ ocs_Name s = name.
Proof.
  intros H1 HF. unfold findOidcClientFromSecret. simpl. rewrite list_elem_of_fmap. rewrite Forall_forall in HF. split.
  - intros (o & -> & [Hk Ho]%list_elem_of_filter). apply indexed_client in Hk; [|done|by apply HF].
    destruct Hk as (<- & refs & s & ? & ? & ?). by exists o, refs, s.
  - intros (o & refs & s & Ho & -> & Hn & Hr & Hs & <-). exists o. rewrite Hn. split; [done|].
    apply list_elem_of_filter. split; [|done]. apply indexed_client; [done|by rewrite Hn|]. eauto 10.
Qed.

(** ** No stale client *)

(** Two answers of the API that differ at most in one secret. *)
Definition same_but (n : string) (a a' : api) : Prop :=
  api_get a = api_get a' ∧ api_patch a = api_patch a' ∧ api_status_update a = api_status_update a' ∧
  ∀ m, m ≠ n → api_secret a m = api_secret a' m.

Lemma hash_secrets_same a a' n bh ns refs acc :
  (∀ m, m ≠ n → api_secret a m = api_secret a' m) → Forall (λ s, ocs_Name s ≠ n) refs →
  hash_secrets a bh ns refs acc = hash_secrets a' bh ns refs acc.
Proof.
  intros Hs HF. revert acc. induction HF as [|s refs Hn _ IH]; intros acc; [done|]. simpl. rewrite (Hs _ Hn).
  destruct (api_secret a' (ocs_Name s)) as [data| |e]; [|done..]. destruct (data !! _); [|done].
  destruct (ocs_Hashed s); [apply IH|]. by destruct (bh _).
Qed.

Lemma spec_secrets r o name ns :
  Secrets (oc_Spec (with_client_id r o name ns)) = Secrets (oc_Spec o) ∧
  Secrets (oc_Spec (with_default_style r (with_client_id r o name ns))) = Secrets (oc_Spec o).
Proof. unfold with_default_style, with_client_id. by repeat case_match. Qed.

Section stale.
Context {Req AReq Up Key : Type}.
Implicit Types st : @MemoryStore Req AReq Up Key.

Lemma reconcile_same r a a' bh o name ns n st :
  api_get a = Found o → same_but n a a' →
  (∀ refs, Secrets (oc_Spec o) = Some refs → Forall (λ s, ocs_Name s ≠ n) refs) →
  ClientController.Reconcile r a bh name ns st = ClientController.Reconcile r a' bh name ns st.
Proof.
  intros Hg (E1 & E2 & E3 & E4) Href. destruct (spec_secrets r o name ns) as [Hs1 Hs2].
  unfold ClientController.Reconcile. rewrite <- E1, Hg. cbn zeta.
  set (o1 := with_client_id r o name ns) in *.
  unfold UpdateStorageAndStatus, ClientController.updateStatus, patch. rewrite <- E2, <- E3, Hs2.
  destruct (oc_Deleting o1); [done|]. destruct (bool_decide _); [done|].
  destruct (negb _); [done|]. destruct (Public _); [done|].
  destruct (Secrets (oc_Spec o)) as [refs|]; [|done].
  by rewrite (hash_secrets_same a a' n bh ns refs []) by auto.
Qed.

(** No client is left stale by a change of a secret: whenever the content of a secret of the
    namespace can make a difference to the reconciliation of an OidcClient (to the store, the
    status, the result), the change of this secret enqueues exactly this reconciliation; and a
    secret enqueues nothing but the clients of its namespace that name it. *)
Theorem secret_change_reconciled cache r a a' bh o ns n st :
  no_colon ns = true → Forall (λ o, no_colon (oc_Namespace o) = true) cache →
  o ∈ cache → oc_Namespace o = ns → api_get a = Found o → same_but n a a' →
  ClientController.Reconcile r a bh (oc_Name o) ns st ≠ ClientController.Reconcile r a' bh (oc_Name o) ns st →
  (ns, oc_Name o) ∈ findOidcClientFromSecret cache None ns n ∧
  ∀ rq, rq ∈ findOidcClientFromSecret cache None ns n → rq.1 = ns ∧
    ∃ o' refs s, o' ∈ cache ∧ rq.2 = oc_Name o' ∧ Secrets (oc_Spec o') = Some refs ∧ s ∈ refs ∧ ocs_Name s = n.
Proof.
  intros H1 HF Ho Hn Hg Hsame Hdiff. split.
  - apply woken_clients; [done..|]. destruct (Secrets (oc_Spec o)) as [refs|] eqn:Hr.
    + destruct (decide (Exists (λ s, ocs_Name s = n) refs)) as [Hex|Hex].
      { apply Exists_exists in Hex as (s & Hs & Hname). by exists o, refs, s. }
      destruct Hdiff. eapply reconcile_same; [done..|]. intros refs' [= <-]%(eq_trans (eq_sym Hr)).
      by apply Forall_Exists_neg.
    + destruct Hdiff. eapply reconcile_same; [done..|]. congruence.
  - intros rq Hrq. apply woken_clients in Hrq as (o' & refs & s & H1' & -> & H2' & H3' & H4' & H5'); [|done..].
    simpl. eauto 10.
Qed.
End stale.

(** ** Upstream providers *)

Definition usame_but (n : string) (a a' : uapi) : Prop :=
  uapi_get a = uapi_get a' ∧ uapi_patch a = uapi_patch a' ∧ uapi_status_update a = uapi_status_update a' ∧
  uapi_configmap a = uapi_configmap a' ∧ ∀ m, m ≠ n → uapi_secret a m = uapi_secret a' m.

(** The certificate authority of the upstream is in this secret. *)
Definition ca_in_secret (n : string) (o : UpstreamProvider) : Prop :=
  ∃ src s, us_CertificateAuthority (upp_Spec o) = Some src ∧ ca_Secret src = Some s ∧ ls_Name s = n.

Section ustale.
Context {Req AReq Key : Type}.
Implicit Types st : @MemoryStore Req AReq upstream Key.

Lemma ca_same a a' n ns o src :
  uapi_configmap a = uapi_configmap a' → (∀ m, m ≠ n → uapi_secret a m = uapi_secret a' m) →
  ~ ca_in_secret n o → us_CertificateAuthority (upp_Spec o) = Some src →
  fetchCertificateAuthority a ns src = fetchCertificateAuthority a' ns src.
Proof.
  intros E1 E2 Hn Hs. unfold fetchCertificateAuthority. rewrite <- E1.
  destruct (ca_Secret src) as [s|] eqn:Hsec; [|done].
  assert (ls_Name s ≠ n) as Hne by (intros E; apply Hn; by exists src, s).
  destruct (ca_ConfigMap src) as [c|]; [destruct (str_empty (cms_Name c))|];
    destruct (str_empty (ls_Name s)); rewrite ?(E2 _ Hne); done.
Qed.

(** A secret of the namespace that matters to an upstream wakes it, the secret of a certificate
    authority excepted. *)
Lemma upstream_change_reconciled cache r a a' nu o ns n st :
  no_colon ns = true → Forall (λ u : string * UpstreamProvider, no_colon u.1 = true) cache →
  (ns, o) ∈ cache → uapi_get a = Found o → usame_but n a a' → ~ ca_in_secret n o →
  UpstreamController.Reconcile r a nu (upp_Name o) ns st ≠
    UpstreamController.Reconcile r a' nu (upp_Name o) ns st →
  (ns, upp_Name o) ∈ findUpstreamProviderFromSecret (UpstreamNamespace r) cache None ns n.
Proof.
  intros H1 HF Ho Hg (E1 & E2 & E3 & E4 & E5) Hca Hdiff. unfold findUpstreamProviderFromSecret.
  destruct (str_eqb ns (UpstreamNamespace r)) eqn:Hns; simpl;
    [|unfold UpstreamController.Reconcile in Hdiff; by rewrite Hns in Hdiff].
  destruct (decide (n ≠ "" ∧ ls_Name (us_ClientSecret (upp_Spec o)) = n)) as [[Hn Hls]|Hls].
  { apply list_elem_of_fmap. exists (ns, o). split; [done|]. apply list_elem_of_filter. split; [|done].
    by apply indexed_upstream. }
  destruct Hdiff. unfold UpstreamController.Reconcile, build, configuration_error, UpstreamController.updateStatus, upatch, unothing.
  rewrite <- E1, <- E2, <- E3, Hg, Hns. simpl. destruct (upp_Deleting o); [done|]. destruct (bool_decide _); [done|].
  destruct (negb _); [done|]. destruct (str_eqb (us_Type _) _); [done|]. destruct (check_spec _); [done|].
  assert ((if str_empty (ls_Name (us_ClientSecret (upp_Spec o))) then Ok ""
           else fetchClientSecret a ns (ls_Name (us_ClientSecret (upp_Spec o))) (ls_Key (us_ClientSecret (upp_Spec o)))) =
          (if str_empty (ls_Name (us_ClientSecret (upp_Spec o))) then Ok ""
           else fetchClientSecret a' ns (ls_Name (us_ClientSecret (upp_Spec o))) (ls_Key (us_ClientSecret (upp_Spec o)))))
    as ->.
  { destruct (str_empty _) eqn:E; [done|]. apply str_empty_false in E. unfold fetchClientSecret.
    rewrite E5; [done|]. intros <-. by apply Hls. }
  destruct (us_CertificateAuthority (upp_Spec o)) as [src|] eqn:Hsrc; [|done].
  by rewrite (ca_same a a' n ns o src).
Qed.
End ustale.

(** The watch does not see the certificate authority: an upstream whose authority is in a secret
    other than its client secret is not woken by this secret, although its content decides what
    the reconciliation builds. *)
Definition ca_upstream (ca : string) : UpstreamProvider :=
  {| upp_Name := "corp"; upp_Deleting := false; upp_Finalizers := [finalizerName];
     upp_Spec := {| us_Enabled := None; us_Type := UpstreamProviderTypeOidc; us_DisplayName := "Corp";
       us_ClientSpecific := false; us_IssuerURL := "https://idp.corp";
       us_CertificateAuthority := Some {| ca_ConfigMap := None;
                                          ca_Secret := Some {| ls_Name := ca; ls_Key := "" |} |};
       us_InsecureSkipVerify := false; us_RedirectURL := "https://kubauth/upstream/callback";
       us_ClientId := "kubauth"; us_ClientSecret := {| ls_Name := ""; ls_Key := "" |};
       us_Scopes := ["openid"]; us_UseUserInfo := false; us_ClaimRenamings := [];
       us_ClaimRemovals := []; us_LocalEnrichment := None; us_ExplicitConfig := None;
       us_DumpExchanges := false |};
     upp_Status := {| ups_Phase := ""; ups_Message := ""; ups_EffectiveConfig := None |} |}.

Definition ca_api (ca pem : string) : uapi :=
  {| uapi_get := Found (ca_upstream ca);
     uapi_secret := λ n, if str_eqb n ca then Found {["ca.crt" := pem]} else NotFound;
     uapi_configmap := λ _, NotFound; uapi_patch := λ _, None; uapi_status_update := λ _, None |}.

(** An upstream that can be built with one authority only. *)
Definition picky (good : string) (o : UpstreamProvider) (secret : string) (ca : list Ascii.ascii)
    : result string upstream :=
  if bool_decide (ca = String.list_ascii_of_string good)
  then demo_new o secret ca else Err "x509: certificate signed by unknown authority".

Theorem ca_change_unnoticed ns ca old new :
  ca ≠ "" → old ≠ new →
  usame_but ca (ca_api ca old) (ca_api ca new) ∧
  findUpstreamProviderFromSecret ns [(ns, ca_upstream ca)] None ns ca = [] ∧
  UpstreamController.Reconcile {| UpstreamNamespace := ns; ustatusErrorCount := 0 |} (ca_api ca old) (picky new)
    "corp" ns (NewMemoryStore (Requester := unit) (AuthorizeRequester := unit) (JSONWebKey := unit)) ≠
  UpstreamController.Reconcile {| UpstreamNamespace := ns; ustatusErrorCount := 0 |} (ca_api ca new) (picky new)
    "corp" ns NewMemoryStore.
Proof.
  intros Hca Hne. split; [|split].
  - repeat split. intros m Hm. simpl. unfold str_eqb. by rewrite bool_decide_false.
  - unfold findUpstreamProviderFromSecret, list_indexed. by rewrite str_eqb_refl.
  - unfold UpstreamController.Reconcile. simpl. rewrite str_eqb_refl. simpl.
    unfold build. simpl. unfold fetchCertificateAuthority. simpl.
    rewrite (proj2 (str_empty_false ca) Hca). simpl. rewrite str_eqb_refl. simpl.
    rewrite !lookup_singleton_eq. simpl. unfold picky.
    assert (String.list_ascii_of_string old ≠ String.list_ascii_of_string new) as Hl.
    { intros E. apply Hne. rewrite <- (String.string_of_list_ascii_of_string old), E.
      apply String.string_of_list_ascii_of_string. }
    rewrite (bool_decide_false _ Hl), (bool_decide_true _ eq_refl). done.
Qed.

(** ** A secret that is rotated *)

Definition secured_web : OidcClient :=
  let o := with_finalizer (demo_object "apps" "web" "web") in
  set_spec {| Enabled := None; Secrets := Some [{| ocs_Name := "creds"; ocs_Key := "k"; ocs_Hashed := true |}];
    RedirectURIs := []; GrantTypes := []; ResponseTypes := []; Scopes := []; Public := false; Audiences := [];
    ForceOpenIdScope := None; Style := ""; PostLogoutURL := ""; DisplayName := ""; Description := "";
    EntryURL := ""; AccessTokenLifespan := 0; RefreshTokenLifespan := 0; IDTokenLifespan := 0;
    ClientId := "web"; UpstreamProviders := [] |} o.

Definition rotating_api (v : string) : api :=
  {| api_get := Found secured_web;
     api_secret := λ n, if str_eqb n "creds" then Found {["k" := v]} else NotFound;
     api_patch := λ _, None; api_status_update := λ _, None |}.

Lemma secret_change_reconciled_witness :
  ("apps", "web") ∈ findOidcClientFromSecret [secured_web; ClientController.web] None "apps" "creds" ∧
  ∀ rq, rq ∈ findOidcClientFromSecret [secured_web; ClientController.web] None "apps" "creds" → rq.1 = "apps".
Proof.
  destruct (secret_change_reconciled [secured_web; ClientController.web] demo_reconciler (rotating_api "h1")
    (rotating_api "h2") (λ _, None) secured_web "apps" "creds"
    (NewMemoryStore (Requester := unit) (AuthorizeRequester := unit) (Upstream := unit) (JSONWebKey := unit)))
    as [H1 H2].
  - reflexivity.
  - repeat constructor.
  - apply list_elem_of_In. simpl. tauto.
  - reflexivity.
  - reflexivity.
  - repeat split. intros m Hm. simpl. unfold str_eqb. rewrite bool_decide_false by exact Hm. reflexivity.
  - vm_compute. discriminate.
  - split; [exact H1|]. intros rq Hrq. apply (H2 rq Hrq).
Defined.
