(* ===== verification/HttpServer.v ===== *)
(** * internal/httpsrv: the HTTP server

    The logging middleware ([logging.go]), the 404 handler ([notfound.go]), and the construction,
    start and shutdown of a server ([httpsrv.go]). A handler is a program of calls on its
    [http.ResponseWriter]; the writer is a class, of which the wrapper of the middleware is an
    instance. *)

From S2P Require Import Prelude Values Paths Endpoints.

(** ** Response writers and handlers *)

Abbreviation Header := (gmap string string).

(** [Write] answers the number of bytes taken and an error. *)
Class ResponseWriter (W : Type) := {
  Write : string → W → (nat * option string) * W;
  WriteHeader : Z → W → W;
  header : W → Header;
  set_header : string → string → W → W;
}.

(** The contract of [io.Writer]: no more bytes than given. *)
Class WriterOk (W : Type) `{ResponseWriter W} : Prop := {
  write_bound b w n e w' : Write b w = ((n, e), w') → n ≤ String.length b;
}.

(** What a handler does to its writer, and what it makes of the answers. *)
Inductive prog :=
| Return
| DoWrite (b : string) (k : nat * option string → prog)
| DoWriteHeader (code : Z) (k : prog)
| DoSetHeader (key v : string) (k : prog).

Section run.
Context {W : Type} `{ResponseWriter W}.

Fixpoint run (p : prog) (w : W) : W :=
  match p with
  | Return => w
  | DoWrite b k => let '(r, w') := Write b w in run (k r) w'
  | DoWriteHeader code k => run k (WriteHeader code w)
  | DoSetHeader key v k => run k (set_header key v w)
  end.
End run.

(** What the code reads of a request. A body is what can be read of it, and the error that ends
    the reading, if any. *)
Record http_request := {
  rq_Method : string;
  rq_Path : string;
  rq_RawQuery : string;
  rq_Body : option (string * option string);
  rq_RemoteAddr : string;
  rq_UserAgent : string;
  rq_Referer : string;
  rq_Host : string;
  rq_ContentLength : Z;
  rq_Header : Header;
  rq_Cookies : list (string * string);
  rq_TLS : bool;
}.

Definition get_header (k : string) (h : Header) : string := default "" (h !! k).

Definition handler := http_request → prog.

(** ** logging.go: the wrapper *)

Record responseWriter (W : Type) := {
  rw_inner : W;
  rw_statusCode : Z;
  rw_body : string;
  rw_size : Z;
}.
Arguments rw_inner {W}. Arguments rw_statusCode {W}. Arguments rw_body {W}. Arguments rw_size {W}.

Definition newResponseWriter {W} (w : W) : responseWriter W :=
  {| rw_inner := w; rw_statusCode := 200; rw_body := ""; rw_size := 0 |}.

Definition captureLimit : nat := 4096.

(** [b[:n]]. *)
Definition take_bytes (n : nat) (b : string) : string := String.substring 0 n b.

Definition rw_Write {W} `{ResponseWriter W} (b : string) (rw : responseWriter W)
    : (nat * option string) * responseWriter W :=
  let '((n, err), w) := Write b (rw_inner rw) in
  let body := if decide (String.length (rw_body rw) < captureLimit)
              then rw_body rw +:+ take_bytes n b else rw_body rw in
  ((n, err), {| rw_inner := w; rw_statusCode := rw_statusCode rw; rw_body := body;
                rw_size := wrap64 (rw_size rw + Z.of_nat n) |}).

Definition rw_WriteHeader {W} `{ResponseWriter W} (code : Z) (rw : responseWriter W) : responseWriter W :=
  {| rw_inner := WriteHeader code (rw_inner rw); rw_statusCode := code; rw_body := rw_body rw;
     rw_size := rw_size rw |}.

#[export] Instance logging_writer {W} `{ResponseWriter W} : ResponseWriter (responseWriter W) := {|
  Write := rw_Write;
  WriteHeader := rw_WriteHeader;
  header := λ rw, header (rw_inner rw);
  set_header := λ k v rw, {| rw_inner := set_header k v (rw_inner rw); rw_statusCode := rw_statusCode rw;
                             rw_body := rw_body rw; rw_size := rw_size rw |};
|}.

(** ** logging.go: bodies as text *)

Definition printable (c : Ascii.ascii) : bool :=
  let b := Ascii.N_of_ascii c in
  ((32 <=? b) && (b <=? 126) || (b =? 10) || (b =? 13) || (b =? 9))%N.

Fixpoint printableCount (data : string) : nat :=
  match data with
  | EmptyString => 0
  | String c s => (if printable c then 1 else 0) + printableCount s
  end.

(** [float64(printableCount)/float64(len(data)) >= 0.8]; the rounding of the quotient does not
    change the comparison for bodies of less than 2^50 bytes. *)
Definition isPrintable (data : string) : bool :=
  if str_empty data then true
  else bool_decide (4 * String.length data ≤ 5 * printableCount data).

Definition maxBodyLogSize : nat := 192.

Definition getSafeBodyString (body : string) : string :=
  if str_empty body then ""
  else if negb (isPrintable body) then "[binary content]"
  else if decide (maxBodyLogSize < String.length body)
       then take_bytes maxBodyLogSize body +:+ "... [truncated]"
  else body.

(** [formatDuration], as the duration that is printed: nanoseconds, truncated. *)
Definition microsecond : Z := 1000.
Definition millisecond : Z := 1000000.
Definition truncate (d m : Z) : Z := d - Z.rem d m.
Definition formatDuration (d : Z) : Z :=
  if decide (d < microsecond)%Z then d
  else if decide (d < millisecond)%Z then truncate d microsecond
  else truncate d millisecond.

(** ** logging.go: the middleware *)

Record requestLog := {
  ql_Id : Z;
  ql_Method : string;
  ql_Path : string;
  ql_RawQuery : string;
  ql_BodySize : Z;
  ql_BodyAsString : string;
  ql_BodyAsJson : option claims;
  ql_RemoteAddr : string;
  ql_UserAgent : string;
  ql_Referer : string;
  ql_Host : string;
  ql_ContentType : string;
  ql_ContentLength : Z;
  ql_Header : Header;
  ql_Cookies : list (string * string);
}.

Record responseLog := {
  pl_Id : Z;
  pl_StatusCode : Z;
  pl_ResponseSize : Z;
  pl_Duration : Z;
  pl_Headers : Header;
  pl_ContentType : string;
  pl_BodyAsString : string;
  pl_BodyAsJson : option claims;
}.

(** The lines of the log: an info message of the short or long form, or the dump. *)
Inductive log_line :=
| ShortRequest (method path query : string)
| LongRequest (method path query remote agent host referer : string) (contentLength bodySize : Z)
    (contentType : string) (headers : Header) (body : string)
| DumpRequest (l : requestLog)
| ShortResponse (status size : Z)
| LongResponse (status size duration : Z) (headers : Header) (body : string)
| DumpResponse (l : responseLog).

Section logging.
Context {W : Type} `{ResponseWriter W}.
(** [json.Unmarshal] into a map. *)
Context (unmarshal : string → result string claims).

Definition json_content (contentType : string) : bool :=
  bool_decide (is_Some (strip_prefix "application/json" contentType)).

(** The two forms of a dumped body: as JSON when it is announced and decodes, as text otherwise. *)
Definition dump_body (contentType body : string) : option claims * string :=
  if json_content contentType then
    match unmarshal body with
    | Ok m => (Some m, "")
    | Err _ => (None, getSafeBodyString body)
    end
  else (None, getSafeBodyString body).

Definition log_request (level : Z) (logger : bool) (count : Z) (r : http_request) (requestBody : string)
    : list log_line * Z :=
  if logger && bool_decide (level = 1%Z) then
    ([ShortRequest (rq_Method r) (rq_Path r) (rq_RawQuery r)], count)
  else if logger && bool_decide (level = 2%Z) then
    ([LongRequest (rq_Method r) (rq_Path r) (rq_RawQuery r) (rq_RemoteAddr r) (rq_UserAgent r) (rq_Host r)
        (rq_Referer r) (rq_ContentLength r) (Z.of_nat (String.length requestBody))
        (get_header "Content-Type" (rq_Header r)) (rq_Header r) (getSafeBodyString requestBody)], count)
  else if bool_decide (3 ≤ level)%Z then
    let count' := wrap64 (count + 1) in
    let contentType := get_header "Content-Type" (rq_Header r) in
    let '(json, text) := dump_body contentType requestBody in
    ([DumpRequest {| ql_Id := count'; ql_Method := rq_Method r; ql_Path := rq_Path r; ql_RawQuery := rq_RawQuery r;
        ql_BodySize := Z.of_nat (String.length requestBody); ql_BodyAsString := text; ql_BodyAsJson := json;
        ql_RemoteAddr := rq_RemoteAddr r; ql_UserAgent := rq_UserAgent r; ql_Referer := rq_Referer r;
        ql_Host := rq_Host r; ql_ContentType := contentType; ql_ContentLength := rq_ContentLength r;
        ql_Header := rq_Header r; ql_Cookies := rq_Cookies r |}], count')
  else ([], count).

Definition log_response (level : Z) (logger : bool) (count duration : Z) (rw : responseWriter W)
    : list log_line * Z :=
  if logger && bool_decide (level = 1%Z) then ([ShortResponse (rw_statusCode rw) (rw_size rw)], count)
  else if logger && bool_decide (level = 2%Z) then
    ([LongResponse (rw_statusCode rw) (rw_size rw) duration (header (rw_inner rw))
        (getSafeBodyString (rw_body rw))], count)
  else if bool_decide (3 ≤ level)%Z then
    let count' := wrap64 (count + 1) in
    let contentType := get_header "Content-Type" (header rw) in
    let '(json, text) := dump_body contentType (rw_body rw) in
    ([DumpResponse {| pl_Id := count'; pl_StatusCode := rw_statusCode rw; pl_ResponseSize := rw_size rw;
        pl_Duration := duration; pl_Headers := header rw; pl_ContentType := contentType;
        pl_BodyAsString := text; pl_BodyAsJson := json |}], count')
  else ([], count).

Definition set_body (b : option (string * option string)) (r : http_request) : http_request :=
  {| rq_Method := rq_Method r; rq_Path := rq_Path r; rq_RawQuery := rq_RawQuery r; rq_Body := b;
     rq_RemoteAddr := rq_RemoteAddr r; rq_UserAgent := rq_UserAgent r; rq_Referer := rq_Referer r;
     rq_Host := rq_Host r; rq_ContentLength := rq_ContentLength r; rq_Header := rq_Header r;
     rq_Cookies := rq_Cookies r; rq_TLS := rq_TLS r |}.

(** The body is read whole, the error of the reading is dropped, and what was read is put back. *)
Definition restore_body (r : http_request) : string * http_request :=
  match rq_Body r with
  | None => ("", r)
  | Some (content, _) => (content, set_body (Some (content, None)) r)
  end.

(** [LoggingMiddleware]: the lines, the writer after the answer, the exchange counter. *)
Definition LoggingMiddleware (next : handler) (level : Z) (logger : bool) (duration : Z) (r : http_request)
    (w : W) (count : Z) : list log_line * W * Z :=
  let '(requestBody, r) := restore_body r in
  let '(lines, count) := log_request level logger count r requestBody in
  let rw := run (next r) (newResponseWriter w) in
  let '(lines', count) := log_response level logger count duration rw in
  (lines ++ lines', rw_inner rw, count).
End logging.

(** ** notfound.go *)

Definition getScheme (r : http_request) : string :=
  if rq_TLS r then "https"
  else
    let proto := get_header "X-Forwarded-Proto" (rq_Header r) in
    if negb (str_empty proto) then proto
    else
      let protocol := get_header "X-Forwarded-Protocol" (rq_Header r) in
      if negb (str_empty protocol) then protocol
      else if str_eqb (get_header "X-Forwarded-Ssl" (rq_Header r)) "on" then "https"
      else "http".

(** [http.Error]: the text is followed by a newline. *)
Definition newline : string := String (Ascii.ascii_of_nat 10) "".
Definition http_error_prog (msg : string) (code : Z) : prog :=
  DoSetHeader "Content-Type" "text/plain; charset=utf-8"
    (DoSetHeader "X-Content-Type-Options" "nosniff"
      (DoWriteHeader code (DoWrite (msg +:+ newline) (λ _, Return)))).

(** [url_string] is [url.URL.String] of the scheme, host, path and query. *)
Definition NotFoundHandler (url_string : string → string → string → string → string) : handler := λ r,
  http_error_prog ("The requested URL " +:+ rq_Method r +:+ " " +:+
    url_string (getScheme r) (rq_Host r) (rq_Path r) (rq_RawQuery r) +:+ " was not found on this server.") 404.

(** ** handlers/favicon.go *)

Definition FaviconHandler (ReadFile : string → result string string) (iconPath : string) : handler := λ _,
  match ReadFile iconPath with
  | Err _ => http_error_prog "Favicon not found" 500
  | Ok data => DoSetHeader "Content-Type" "image/x-icon" (DoWriteHeader 200 (DoWrite data (λ _, Return)))
  end.

(** ** httpsrv.go *)

Record Config := {
  BindAddr : string;
  BindPort : Z;
  Tls : bool;
  CertDir : string;
  CertName : string;
  KeyName : string;
  DumpExchanges : Z;
  AllowedOrigins : list string;
}.

(** The layers around the router of a server, from the outside. *)
Inductive layer := LoggingLayer (level : Z) | CorsLayer (origins : list string).

Definition New (config : Config) : list layer :=
  (if bool_decide (0 < DumpExchanges config)%Z then [LoggingLayer (DumpExchanges config)] else []) ++
  (match AllowedOrigins config with [] => [] | origins => [CorsLayer origins] end).

(** The outside world of [Start]: the listeners, the certificate watcher, and the end of
    [srv.Serve] ([None] is [ErrServerClosed]). *)
Record start_env := {
  se_listen : string → Z → result string unit;
  se_tls_listen : string → Z → result string unit;
  se_certwatcher : string → string → result string unit;
  se_serve : option string;
}.

Definition open_listener (env : start_env) (name : string) (config : Config) : result string unit :=
  if negb (Tls config) then
    match se_listen env (BindAddr config) (BindPort config) with
    | Err e => Err ("httpServer " +:+ name +:+ ": Error on net.Listen(): " +:+ e)
    | Ok l => Ok l
    end
  else if str_empty (CertDir config)
       then Err ("httpServer " +:+ name +:+ ": CertDir is not defined while 'tls'' is true")
  else
    match se_certwatcher env (Join (CertDir config) (CertName config)) (Join (CertDir config) (KeyName config)) with
    | Err e => Err ("httpServer " +:+ name +:+ ": Error on certwatcher.New(): " +:+ e)
    | Ok _ =>
        match se_tls_listen env (BindAddr config) (BindPort config) with
        | Err e => Err ("httpServer " +:+ name +:+ ": Error on tls.Listen(): " +:+ e)
        | Ok l => Ok l
        end
    end.

(** *** Shutdown

    Time is counted in polls of [Shutdown]. A context is the first poll at which it is done. *)

Definition ctx := option nat.
Definition ctx_done (c : ctx) (t : nat) : bool := match c with Some d => bool_decide (d ≤ t) | None => false end.

(** [context.WithTimeout(parent, d)] at time [t]. *)
Definition WithTimeout (parent : ctx) (t d : nat) : ctx :=
  match parent with Some p => Some (p `min` (t + d)) | None => Some (t + d) end.

(** [http.Server.Shutdown] from time [t], [busy] counting the active connections: it returns when
    none is left, or with the error of the context; at most [fuel] polls. *)
Fixpoint Shutdown (fuel t : nat) (c : ctx) (busy : nat → nat) : option (nat * bool) :=
  if bool_decide (busy t = 0) then Some (t, true)
  else if ctx_done c t then Some (t, false)
  else match fuel with O => None | S fuel' => Shutdown fuel' (S t) c busy end.

(** The goroutine of [Start]: once the context is done, at time [t], shut down with a context
    derived from it, [grace] polls long. Whether the shutdown was clean, and when it ended. *)
Definition stop_server (t grace : nat) (busy : nat → nat) : option (nat * bool) :=
  let c : ctx := Some t in
  Shutdown (S grace) t (WithTimeout c t grace) busy.

(** [Start]: an error, or how the shutdown went. *)
Definition Start (env : start_env) (name : string) (config : Config) (t grace : nat) (busy : nat → nat)
    : result string (option (nat * bool)) :=
  match open_listener env name config with
  | Err e => Err e
  | Ok _ =>
      match se_serve env with
      | Some e => Err ("httpServer " +:+ name +:+ ": Error on srv.Serve(): " +:+ e)
      | None => Ok (stop_server t grace busy)
      end
  end.

(** ** The middleware is transparent *)

Section transparent.
Context {W : Type} `{ResponseWriter W}.
Context (unmarshal : string → result string claims).

(** The wrapper passes every call on. *)
Lemma run_inner p (rw : responseWriter W) : rw_inner (run p rw) = run p (rw_inner rw).
Proof.
  revert rw. induction p as [|b k IH|code p IH|key v p IH]; intros rw; [done| |exact (IH _)|exact (IH _)].
  simpl. unfold rw_Write. destruct (Write b (rw_inner rw)) as [[n err] w]. apply IH.
Qed.

Lemma restore_body_id r c : rq_Body r = Some (c, None) → restore_body r = (c, r).
Proof. unfold restore_body. intros Hb. rewrite Hb. by destruct r; simpl in *; rewrite Hb. Qed.


(** *** What is captured *)

(** The bytes the connection took of a handler. *)
Fixpoint taken (p : prog) (w : W) : string :=
  match p with
  | Return => ""
  | DoWrite b k => let '(r, w') := Write b w in take_bytes r.1 b +:+ taken (k r) w'
  | DoWriteHeader code k => taken k (WriteHeader code w)
  | DoSetHeader key v k => taken k (set_header key v w)
  end.
End transparent.

(** Lengths of byte strings. *)
Lemma take_bytes_length n b : n ≤ String.length b → String.length (take_bytes n b) = n.
Proof.
  unfold take_bytes. revert n. induction b as [|c b IH]; intros [|n] Hn; simpl in *; try lia.
  rewrite IH; lia.
Qed.

Lemma take_bytes_prefix n b : ∃ rest, b = take_bytes n b +:+ rest.
Proof.
  unfold take_bytes. revert n. induction b as [|c b IH]; intros [|n]; simpl; try by eexists.
  destruct (IH n) as [rest Hr]. exists rest.
  change (String c b = String c (String.substring 0 n b +:+ rest)). by f_equal.
Qed.

Section capture.
Context {W : Type} `{WriterOk W}.

(** Nothing more is kept once the limit is reached. *)
Lemma capture_full p (rw : responseWriter W) :
  captureLimit ≤ String.length (rw_body rw) → rw_body (run p rw) = rw_body rw.
Proof.
  revert rw. induction p as [|b k IH|code p IH|key v p IH]; intros rw Hl; simpl; [done| | |].
  - unfold rw_Write. destruct (Write b (rw_inner rw)) as [[n err] w]. rewrite decide_False by lia.
    by rewrite IH.
  - exact (IH (rw_WriteHeader code rw) Hl).
  - exact (IH (set_header key v rw) Hl).
Qed.

(** From any state of the wrapper: what is kept is a prefix of what was taken, and nothing is left
    out before the limit is reached. *)
Lemma capture_run p (rw : responseWriter W) s :
  rw_size rw = wrap64 s →
  let rw' := run p rw in
  let total := taken p (rw_inner rw) in
  rw_size rw' = wrap64 (s + Z.of_nat (String.length total)) ∧
  ∃ kept rest, total = kept +:+ rest ∧ rw_body rw' = rw_body rw +:+ kept ∧
    (rest = "" ∨ captureLimit ≤ String.length (rw_body rw')).
Proof.
  revert rw s. induction p as [|b k IH|code p IH|key v p IH]; intros rw s Hs; simpl.
  - split; [by rewrite Z.add_0_r|]. exists "", "". split; [done|]. split; [by rewrite str_app_nil_r|by left].
  - unfold rw_Write. destruct (Write b (rw_inner rw)) as [[n err] w] eqn:Hw.
    pose proof (write_bound _ _ _ _ _ Hw) as Hn.
    match goal with |- context [run (k (n, err)) ?x] => set (rw1 := x) end.
    destruct (IH (n, err) rw1 (s + Z.of_nat n)%Z) as [E1 (kept & rest & E2 & E3 & E4)].
    { unfold rw1. simpl. by rewrite Hs, wrap64_add. }
    change (rw_inner rw1) with w in E1, E2. cbn [fst].
    split; [rewrite E1, str_app_length, take_bytes_length by done; f_equal; lia|].
    destruct (decide (String.length (rw_body rw) < captureLimit)) as [Hl|Hl].
    + exists (take_bytes n b +:+ kept), rest. rewrite E2, !str_app_assoc. split; [done|].
      change (rw_body rw1) with (rw_body rw +:+ take_bytes n b) in E3. rewrite str_app_assoc in E3. auto.
    + assert (rw_body (run (k (n, err)) rw1) = rw_body rw) as Hf.
      { rewrite capture_full; [done|]. change (rw_body rw1) with (rw_body rw). lia. }
      exists "", (take_bytes n b +:+ taken (k (n, err)) w). rewrite Hf, str_app_nil_r.
      split; [done|]. split; [done|]. right. lia.
  - exact (IH (rw_WriteHeader code rw) s Hs).
  - exact (IH (set_header key v rw) s Hs).
Qed.

(** What the logs of an exchange show of the answer: the size is the number of bytes the
    connection took, and the captured body is the whole answer, or a prefix of it of at least
    4096 bytes (the limit cuts at the end of the write that crosses it). *)
Theorem captured_body p (w : W) :
  let rw := run p (newResponseWriter w) in
  let total := taken p w in
  rw_size rw = wrap64 (Z.of_nat (String.length total)) ∧
  ∃ rest, total = rw_body rw +:+ rest ∧ (rest = "" ∨ captureLimit ≤ String.length (rw_body rw)).
Proof.
  destruct (capture_run p (newResponseWriter w) 0 eq_refl) as [E1 (kept & rest & E2 & E3 & E4)].
  split; [exact E1|]. exists rest. rewrite E3. split; [exact E2|]. by rewrite <- E3.
Qed.
End capture.

(** A logged body is at most 207 bytes, whatever the exchange: the text itself when it has at
    most 192 bytes, its first 192 bytes and a mark when it is longer, a constant when less than
    four fifths of it are printable. *)
Theorem safe_body_bound body :
  String.length (getSafeBodyString body) ≤ 207 ∧
  (isPrintable body = true → String.length body ≤ 192 → getSafeBodyString body = body) ∧
  (isPrintable body = true → 192 < String.length body →
     ∃ rest, body = take_bytes 192 body +:+ rest ∧
       getSafeBodyString body = take_bytes 192 body +:+ "... [truncated]").
Proof.
  unfold getSafeBodyString, maxBodyLogSize. destruct (str_empty body) eqn:E.
  { apply str_empty_true in E as ->. simpl. split; [lia|]. split; [done|lia]. }
  destruct (isPrintable body); simpl negb; cbv iota.
  - destruct (decide (192 < String.length body)) as [Hl|Hl].
    + split; [rewrite str_app_length, take_bytes_length by lia; simpl; lia|].
      split; [lia|]. intros _ _. destruct (take_bytes_prefix 192 body) as [rest Hr]. by exists rest.
    + split; [lia|]. split; [done|lia].
  - split; [simpl; lia|]. split; done.
Qed.

(** ** The writer of net/http

    The status is the one of the first [WriteHeader] or [Write]; later ones are ignored. *)

Record response := { rs_header : Header; rs_status : option Z; rs_body : string }.

Definition no_response : response := {| rs_header := ∅; rs_status := None; rs_body := "" |}.

#[export] Instance net_http_writer : ResponseWriter response := {|
  Write := λ b w, ((String.length b, None),
                   {| rs_header := rs_header w; rs_status := Some (default 200%Z (rs_status w));
                      rs_body := rs_body w +:+ b |});
  WriteHeader := λ code w, {| rs_header := rs_header w; rs_status := Some (default code (rs_status w));
                              rs_body := rs_body w |};
  header := rs_header;
  set_header := λ k v w, {| rs_header := <[k := v]> (rs_header w); rs_status := rs_status w;
                            rs_body := rs_body w |};
|}.

#[export] Instance net_http_writer_ok : WriterOk response.
Proof. split. simpl. intros b w n e w' [= <- _ _]. lia. Qed.

(** The logged status is the last one set, the client's is the first: when a handler has begun to
    write and then reports an error, the log shows a status the client never got. *)
Lemma logged_status_diverges b code :
  let rw := run (DoWrite b (λ _, DoWriteHeader code Return)) (newResponseWriter no_response) in
  rs_status (rw_inner rw) = Some 200%Z ∧ rw_statusCode rw = code.
Proof. done. Qed.

Lemma not_found_answers url_string r :
  rs_status (run (NotFoundHandler url_string r) no_response) = Some 404%Z.
Proof. done. Qed.

(** ** Stopping a server *)

(** With a context of its own, the server is given the whole time it needs. *)
Lemma Shutdown_clean fuel t d busy n :
  busy (t + n) = 0 → (∀ i, i < n → busy (t + i) ≠ 0) → n ≤ fuel → n < d →
  Shutdown fuel t (Some (t + d)) busy = Some (t + n, true).
Proof.
  revert t d n. induction fuel as [|fuel IH]; intros t d n Hz Hb Hf Hd.
  - assert (n = 0) as -> by lia. rewrite Nat.add_0_r in *. simpl. by rewrite bool_decide_true.
  - destruct n as [|n].
    + rewrite Nat.add_0_r in *. simpl. by rewrite bool_decide_true.
    + simpl. rewrite bool_decide_false.
      2:{ specialize (Hb 0 ltac:(lia)). by rewrite Nat.add_0_r in Hb. }
      rewrite bool_decide_false by lia.
      replace (t + d) with (S t + (d - 1)) by lia. replace (t + S n) with (S t + n) by lia.
      apply IH; [by replace (S t + n) with (t + S n) by lia| |lia|lia].
      intros i Hi. replace (S t + i) with (t + S i) by lia. apply Hb. lia.
Qed.

(** The graceful shutdown has no grace: the context of [Shutdown] is derived from the one whose
    end starts the shutdown, so it is over before it begins. A server that is stopped ends at
    once, with an error when a request is being served, however long the grace period is; with a
    context of its own it would have waited for the requests that end within the period. *)
Theorem shutdown_without_grace t grace busy :
  stop_server t grace busy = Some (t, bool_decide (busy t = 0)) ∧
  ∀ n, busy (t + n) = 0 → (∀ i, i < n → busy (t + i) ≠ 0) → n < grace →
    Shutdown (S grace) t (WithTimeout None t grace) busy = Some (t + n, true).
Proof.
  split.
  - unfold stop_server, WithTimeout. simpl. case_bool_decide; [done|].
    by rewrite bool_decide_true by lia.
  - intros n Hz Hb Hn. apply Shutdown_clean; [done|done|lia|lia].
Qed.

(** A TLS server does not start without a certificate directory, nor without a certificate that
    can be loaded; nothing listens then. *)
Lemma Start_tls env name config t grace busy r :
  Tls config = true → Start env name config t grace busy = Ok r →
  CertDir config ≠ "" ∧
  se_certwatcher env (Join (CertDir config) (CertName config)) (Join (CertDir config) (KeyName config)) = Ok tt ∧
  se_tls_listen env (BindAddr config) (BindPort config) = Ok tt.
Proof.
  intros Ht. unfold Start, open_listener. rewrite Ht. simpl.
  destruct (str_empty (CertDir config)) eqn:E; [done|]. apply str_empty_false in E.
  destruct (se_certwatcher _ _ _) as [[]|]; [|done]. destruct (se_tls_listen _ _ _) as [[]|]; [|done]. done.
Qed.

(** A request of five polls, a period of thirty. *)
Definition one_request (t : nat) : nat := if decide (t < 105) then 1 else 0.

Lemma shutdown_without_grace_witness :
  stop_server 100 30 one_request = Some (100, false) ∧
  Shutdown 31 100 (WithTimeout None 100 30) one_request = Some (105, true).
Proof.
  destruct (shutdown_without_grace 100 30 one_request) as [H1 H2]. split; [exact H1|].
  apply (H2 5).
  - reflexivity.
  - intros i Hi. unfold one_request. rewrite decide_True by lia. discriminate.
  - lia.
Defined.


Lemma safe_body_bound_witness :
  isPrintable "hello" = true ∧ getSafeBodyString "hello" = "hello" ∧
  isPrintable (String "000"%char "000") = false.
Proof.
  destruct (safe_body_bound "hello") as (_ & H & _). split; [vm_compute; reflexivity|].
  split; [|vm_compute; reflexivity]. apply H; [vm_compute; reflexivity|]. simpl. lia.
Defined.
