(* ===== verification/CertWatcher.v ===== *)
(** * internal/httpsrv/certwatcher: the certificate of a TLS server

    The watcher loads a certificate and its key, and loads them again when the file system
    reports a change of one of the two files. The files ([tls.LoadX509KeyPair]) and the
    file-system watcher (fsnotify) are arguments. *)

From S2P Require Import Prelude.

(** The operations of an event are bits (fsnotify). *)
Definition op_Create : Z := 1.
Definition op_Write : Z := 2.
Definition op_Remove : Z := 4.
Definition op_Rename : Z := 8.
Definition op_Chmod : Z := 16.

Record Event := { ev_Name : string; ev_Op : Z }.

Definition isWrite (e : Event) : bool := bool_decide (Z.land (ev_Op e) op_Write = op_Write).
Definition isCreate (e : Event) : bool := bool_decide (Z.land (ev_Op e) op_Create = op_Create).
Definition isRemove (e : Event) : bool := bool_decide (Z.land (ev_Op e) op_Remove = op_Remove).

Section watcher.
Context {Cert : Type}.

(** The certificate, and the files that are watched. *)
Record CertWatcher := {
  cw_certPath : string;
  cw_keyPath : string;
  cw_currentCert : option Cert;
  cw_watched : gset string;
}.

Definition set_cert (c : Cert) (cw : CertWatcher) : CertWatcher :=
  {| cw_certPath := cw_certPath cw; cw_keyPath := cw_keyPath cw; cw_currentCert := Some c;
     cw_watched := cw_watched cw |}.
Definition set_watched (w : gset string) (cw : CertWatcher) : CertWatcher :=
  {| cw_certPath := cw_certPath cw; cw_keyPath := cw_keyPath cw; cw_currentCert := cw_currentCert cw;
     cw_watched := w |}.

(** [ReadCertificate]: [load] is what the two files hold now. *)
Definition ReadCertificate (load : result string Cert) (cw : CertWatcher) : option string * CertWatcher :=
  match load with
  | Err e => (Some e, cw)
  | Ok cert => (None, set_cert cert cw)
  end.

(** [New]; [watcher] is the error of [fsnotify.NewWatcher]. *)
Definition New (certPath keyPath : string) (load : result string Cert) (watcher : option string)
    : result string CertWatcher :=
  let cw := {| cw_certPath := certPath; cw_keyPath := keyPath; cw_currentCert := None; cw_watched := ∅ |} in
  match ReadCertificate load cw with
  | (Some e, _) => Err e
  | (None, cw) => match watcher with Some e => Err e | None => Ok cw end
  end.

Definition GetCertificate (cw : CertWatcher) : option Cert := cw_currentCert cw.

(** [watcher.Add]: [fails] tells whether a file can be watched now. *)
Definition Add (fails : string → bool) (f : string) (cw : CertWatcher) : bool * CertWatcher :=
  if fails f then (false, cw) else (true, set_watched ({[f]} ∪ cw_watched cw) cw).

(** [Start]: the error when a file cannot be watched. *)
Definition Start (fails : string → bool) (cw : CertWatcher) : bool * CertWatcher :=
  let '(ok, cw) := Add fails (cw_certPath cw) cw in
  if (ok : bool) then Add fails (cw_keyPath cw) cw else (false, cw).

(** The file system when an event is handled: what the files hold, and what can be watched. *)
Record moment := { mo_load : result string Cert; mo_fails : string → bool }.

Definition handleEvent (e : Event) (m : moment) (cw : CertWatcher) : CertWatcher :=
  if negb (isWrite e || isRemove e || isCreate e) then cw
  else
    let cw := if isRemove e then (Add (mo_fails m) (ev_Name e) cw).2 else cw in
    (ReadCertificate (mo_load m) cw).2.

(** fsnotify delivers the events of the watched files, and stops watching a file that is removed or
    renamed. *)
Definition gone (e : Event) : bool :=
  isRemove e || bool_decide (Z.land (ev_Op e) op_Rename = op_Rename).

Definition deliver (x : Event * moment) (cw : CertWatcher) : CertWatcher :=
  let '(e, m) := x in
  if bool_decide (ev_Name e ∈ cw_watched cw) then
    let cw := if gone e then set_watched (cw_watched cw ∖ {[ev_Name e]}) cw else cw in
    handleEvent e m cw
  else cw.

(** [Watch]: the loop on the events; errors of the watcher are only logged. *)
Definition Watch (events : list (Event * moment)) (cw : CertWatcher) : CertWatcher :=
  foldl (λ cw x, deliver x cw) cw events.

(** ** Properties *)

(** The event makes the watcher load the files. *)
Definition relevant (e : Event) : bool := isWrite e || isRemove e || isCreate e.

Lemma deliver_cert e m cw :
  cw_currentCert (deliver (e, m) cw) =
  match mo_load m with
  | Ok c => if bool_decide (ev_Name e ∈ cw_watched cw) && relevant e then Some c else cw_currentCert cw
  | Err _ => cw_currentCert cw
  end.
Proof.
  unfold deliver, handleEvent, relevant. destruct (bool_decide (ev_Name e ∈ cw_watched cw)); simpl; [|by destruct (mo_load m)].
  destruct (gone e), (isWrite e), (isRemove e), (isCreate e), (mo_load m); simpl; unfold Add;
    try done; by destruct (mo_fails m _).
Qed.

(** Both files are watched. *)
Definition watching (cw : CertWatcher) : Prop :=
  cw_certPath cw ∈ cw_watched cw ∧ cw_keyPath cw ∈ cw_watched cw.

Lemma deliver_paths x cw :
  cw_certPath (deliver x cw) = cw_certPath cw ∧ cw_keyPath (deliver x cw) = cw_keyPath cw.
Proof.
  destruct x as [e m]. unfold deliver, handleEvent, Add.
  destruct (bool_decide _); [|done]. destruct (gone e), (negb _), (isRemove e), (mo_load m); simpl;
    try done; by destruct (mo_fails m _).
Qed.

(** A file stays watched unless it is renamed, or removed and cannot be watched again. *)
Lemma deliver_watched e m cw f :
  f ∈ cw_watched cw → (gone e = true → isRemove e = true ∧ mo_fails m (ev_Name e) = false) →
  f ∈ cw_watched (deliver (e, m) cw).
Proof.
  intros Hf Hg. unfold deliver, handleEvent, Add. destruct (bool_decide _); [|done].
  destruct (gone e) eqn:E.
  - destruct (Hg eq_refl) as [-> Hok]. rewrite orb_true_r. simpl. rewrite Hok.
    assert (f ∈ {[ev_Name e]} ∪ cw_watched cw ∖ {[ev_Name e]}) as Hin.
    { destruct (decide (f = ev_Name e)); set_solver. }
    by destruct (mo_load m).
  - assert (isRemove e = false) as -> by (unfold gone in E; by destruct (isRemove e)).
    destruct (negb _); [done|]. by destruct (mo_load m).
Qed.

Lemma deliver_keeps x cw : is_Some (cw_currentCert cw) → is_Some (cw_currentCert (deliver x cw)).
Proof. destruct x as [e m]. intros H. rewrite deliver_cert. repeat case_match; [by eexists|done..]. Qed.

Lemma Watch_keeps events cw : is_Some (cw_currentCert cw) → is_Some (cw_currentCert (Watch events cw)).
Proof.
  unfold Watch. revert cw. induction events as [|x l IH]; intros cw Hc; [done|]. simpl. by apply IH, deliver_keeps.
Qed.

Lemma Watch_origin events cw c :
  GetCertificate (Watch events cw) = Some c →
  GetCertificate cw = Some c ∨ ∃ e m, (e, m) ∈ events ∧ relevant e = true ∧ mo_load m = Ok c.
Proof.
  unfold Watch, GetCertificate. revert cw. induction events as [|[e m] l IH]; intros cw Hc; [by left|].
  cbn [foldl] in Hc. destruct (IH _ Hc) as [H|(e' & m' & Hin & H)]; [|right; exists e', m'; set_solver].
  rewrite deliver_cert in H. destruct (mo_load m) as [c'|] eqn:Hm; [|by left].
  destruct (bool_decide _ && relevant e) eqn:Hb; [|by left]. right. exists e, m.
  apply andb_true_iff in Hb as [_ Hb]. split_and!; [set_solver|done|congruence].
Qed.

(** The event does not end the watch of its file. *)
Definition kept (x : Event * moment) : Prop :=
  gone x.1 = true → isRemove x.1 = true ∧ mo_fails x.2 (ev_Name x.1) = false.

Lemma Watch_watched events cw f : Forall kept events → f ∈ cw_watched cw → f ∈ cw_watched (Watch events cw).
Proof.
  intros HF. unfold Watch. revert cw. induction HF as [|[e m] l Hk _ IH]; intros cw Hf; [done|]. simpl.
  apply IH, deliver_watched; [done|exact Hk].
Qed.

(** C36. A TLS server always has a certificate to serve: once the watcher was created, whatever
    happens to the files, the certificate is one that was loaded as a valid pair, at the start or
    on an event; a change that leaves the files unusable keeps the certificate in use; and as long
    as the files stay watched (they are not renamed, and a removed file can be watched again), the
    last change of a file that leaves a valid pair is the one that is served. *)
Theorem certificate_always_served certPath keyPath load watcher fails cw cw1 events :
  New certPath keyPath load watcher = Ok cw → Start fails cw = (true, cw1) →
  (∃ c, GetCertificate (Watch events cw1) = Some c ∧
     (load = Ok c ∨ ∃ e m, (e, m) ∈ events ∧ relevant e = true ∧ mo_load m = Ok c)) ∧
  ∀ e m c rest,
    Forall kept events → ev_Name e = certPath ∨ ev_Name e = keyPath →
    relevant e = true → mo_load m = Ok c →
    Forall (λ x : Event * moment, relevant x.1 = true → ∃ err, mo_load x.2 = Err err) rest →
    GetCertificate (Watch (events ++ (e, m) :: rest) cw1) = Some c.
Proof.
  unfold New, ReadCertificate. destruct load as [c0|e0]; [|done]. destruct watcher; [done|]. intros [= <-].
  unfold Start, Add. simpl. destruct (fails certPath) eqn:F1; [done|]. simpl.
  destruct (fails keyPath) eqn:F2; [done|]. intros [= <-].
  match goal with |- context [Watch events ?x] => set (cw := x) end.
  assert (GetCertificate cw = Some c0) as H0 by done. split.
  - destruct (Watch_keeps events cw) as [c Hc]; [by eexists|]. exists c. split; [exact Hc|].
    apply Watch_origin in Hc as [Hc|Hc]; [|by right]. left. congruence.
  - intros e m c rest HF Hn Hr Hm HR. unfold Watch. rewrite foldl_app. cbn [foldl].
    fold (Watch events cw). set (cw2 := deliver (e, m) (Watch events cw)).
    assert (GetCertificate cw2 = Some c) as H2.
    { unfold cw2, GetCertificate. rewrite deliver_cert, Hm, Hr.
      assert (ev_Name e ∈ cw_watched (Watch events cw)) as Hw.
      { apply Watch_watched; [done|]. unfold cw. simpl. destruct Hn as [->| ->]; set_solver. }
      by rewrite bool_decide_true. }
    clearbody cw2. revert cw2 H2. induction HR as [|[e' m'] rest Hx _ IH]; intros cw2 H2; [done|]. cbn [foldl].
    apply IH. unfold GetCertificate in *. rewrite deliver_cert. destruct (mo_load m') as [c'|] eqn:Hm'; [|done].
    destruct (relevant e') eqn:Hr'; [|by rewrite andb_false_r].
    destruct (Hx Hr') as [err He]. simpl in He. congruence.
Qed.

(** A renamed file is no longer watched: its later changes are not seen. *)
Lemma rename_ends_watch e m cw :
  ev_Op e = op_Rename → ev_Name e ∈ cw_watched cw → ev_Name e ∉ cw_watched (deliver (e, m) cw).
Proof.
  intros Ho Hin. unfold deliver, handleEvent, gone, isWrite, isRemove, isCreate. rewrite Ho. simpl.
  rewrite bool_decide_true by done. simpl. set_solver.
Qed.
End watcher.

(** ** A renewed certificate *)

Definition moment_of (load : result string string) : moment := {| mo_load := load; mo_fails := λ _, false |}.
(** The certificate file is replaced while the key is still the old one, then the key is written. *)
Definition half_renewed : Event * moment := ({| ev_Name := "crt"; ev_Op := op_Remove |}, moment_of (Err "key mismatch")).
Definition renewed : Event * moment := ({| ev_Name := "key"; ev_Op := Z.lor op_Write op_Chmod |}, moment_of (Ok "new")).

Lemma certificate_always_served_witness : ∃ cw cw1 : @CertWatcher string,
  New "crt" "key" (Ok "old") None = Ok cw ∧ Start (λ _, false) cw = (true, cw1) ∧
  GetCertificate (Watch [half_renewed] cw1) = Some "old" ∧
  GetCertificate (Watch ([half_renewed] ++ [renewed]) cw1) = Some "new".
Proof.
  eexists _, _. split; [reflexivity|]. split; [reflexivity|].
  destruct (certificate_always_served "crt" "key" (Ok "old") None (λ _, false) _ _ [half_renewed] eq_refl eq_refl)
    as [_ H].
  split; [vm_compute; reflexivity|].
  apply (H {| ev_Name := "key"; ev_Op := Z.lor op_Write op_Chmod |} (moment_of (Ok "new")) "new" []).
  - constructor; [|constructor]. intros _. split; reflexivity.
  - right. reflexivity.
  - reflexivity.
  - reflexivity.
  - constructor.
Defined.
