(* ===== verification/Webhooks.v ===== *)
(** * cmd/oidc/webhooks and cmd/ucrd/webhooks: the admission webhooks

    The defaulter of OidcClient sets the token lifespans; the other defaulters and all the
    validators accept every object as it is. *)

From S2P Require Import Prelude OidcClient.

Definition skipWebhookAnnotation : string := "kubauth.kubotal.io/skipWebhooks".

Definition hour : Z := 3600000000000.

(** The annotation is present with another value than [no], in any case of letters. *)
Definition skipped (annotations : gmap string string) : bool :=
  match annotations !! skipWebhookAnnotation with
  | Some a => negb (str_eqb (to_lower a) "no")
  | None => false
  end.

Definition set_lifespans (access refresh id : Z) (sp : OidcClientSpec) : OidcClientSpec :=
  {| Enabled := Enabled sp; Secrets := Secrets sp; RedirectURIs := RedirectURIs sp;
     GrantTypes := GrantTypes sp; ResponseTypes := ResponseTypes sp; Scopes := Scopes sp;
     Public := Public sp; Audiences := Audiences sp; ForceOpenIdScope := ForceOpenIdScope sp;
     Style := Style sp; PostLogoutURL := PostLogoutURL sp; DisplayName := DisplayName sp;
     Description := Description sp; EntryURL := EntryURL sp;
     AccessTokenLifespan := access; RefreshTokenLifespan := refresh; IDTokenLifespan := id;
     ClientId := ClientId sp; UpstreamProviders := UpstreamProviders sp |}.

Definition or_hour (d : Z) : Z := if decide (d = 0%Z) then hour else d.

(** [OidcClientCustomDefaulter.Default] on the annotations and the spec. *)
Definition OidcClient_Default (annotations : gmap string string) (sp : OidcClientSpec) : OidcClientSpec :=
  if skipped annotations then sp
  else set_lifespans (or_hour (AccessTokenLifespan sp)) (or_hour (RefreshTokenLifespan sp))
         (or_hour (IDTokenLifespan sp)) sp.

(** The other kinds: nothing is set, whether or not the annotation is there. *)
Definition UpstreamProvider_Default {A} (annotations : gmap string string) (u : A) : A :=
  if skipped annotations then u else u.
Definition Group_Default {A} (group : A) : A := group.
Definition GroupBinding_Default {A} (groupBinding : A) : A := groupBinding.
Definition User_Default {A} (user : A) : A := user.

(** The verdict of a validator: the warnings and the error. *)
Definition verdict : Type := list string * option string.
Definition accept : verdict := ([], None).

Inductive admission (A : Type) := OnCreate (o : A) | OnUpdate (old o : A) | OnDelete (o : A).
Arguments OnCreate {A} o. Arguments OnUpdate {A} old o. Arguments OnDelete {A} o.

Definition OidcClient_Validate (r : admission OidcClient) : verdict :=
  match r with OnCreate _ => accept | OnUpdate _ _ => accept | OnDelete _ => accept end.
Definition UpstreamProvider_Validate {A} (r : admission A) : verdict :=
  match r with OnCreate _ => accept | OnUpdate _ _ => accept | OnDelete _ => accept end.
Definition Group_Validate {A} (r : admission A) : verdict :=
  match r with OnCreate _ => accept | OnUpdate _ _ => accept | OnDelete _ => accept end.
Definition GroupBinding_Validate {A} (r : admission A) : verdict :=
  match r with OnCreate _ => accept | OnUpdate _ _ => accept | OnDelete _ => accept end.
Definition User_Validate {A} (r : admission A) : verdict :=
  match r with OnCreate _ => accept | OnUpdate _ _ => accept | OnDelete _ => accept end.

(** ** Properties *)

Lemma or_hour_idem d : or_hour (or_hour d) = or_hour d.
Proof. unfold or_hour. by repeat case_decide. Qed.

Lemma or_hour_nonzero d : or_hour d ≠ 0%Z.
Proof. unfold or_hour. by case_decide. Qed.

(** Defaulting is idempotent (the webhook runs again on every update), keeps the lifespans that are
    set and every other field, and leaves no lifespan at zero; the skip annotation turns it off. *)
Lemma default_lifespans annotations sp :
  let sp' := OidcClient_Default annotations sp in
  OidcClient_Default annotations sp' = sp' ∧
  sp' = set_lifespans (AccessTokenLifespan sp') (RefreshTokenLifespan sp') (IDTokenLifespan sp') sp ∧
  (skipped annotations = true → sp' = sp) ∧
  (skipped annotations = false →
     AccessTokenLifespan sp' ≠ 0%Z ∧ RefreshTokenLifespan sp' ≠ 0%Z ∧ IDTokenLifespan sp' ≠ 0%Z ∧
     (AccessTokenLifespan sp ≠ 0%Z → AccessTokenLifespan sp' = AccessTokenLifespan sp)).
Proof.
  unfold OidcClient_Default. destruct (skipped annotations); cbn zeta.
  - split; [done|]. split; [by destruct sp|]. done.
  - split; [unfold set_lifespans; simpl; by rewrite !or_hour_idem|]. split; [done|]. split; [done|].
    intros _. simpl. split_and!; try apply or_hour_nonzero. intros Hne. unfold or_hour. by case_decide.
Qed.

Definition with_spec (sp : OidcClientSpec) (o : OidcClient) : OidcClient :=
  {| oc_Name := oc_Name o; oc_Namespace := oc_Namespace o; oc_Deleting := oc_Deleting o;
     oc_Finalizers := oc_Finalizers o; oc_Spec := sp; oc_Status := oc_Status o |}.

(** Whether or not the webhook saw a client changes nothing to its tokens: with the lifespans of
    the server (one hour), the effective lifespan of each kind of token is the same for the
    resource as written and for the resource as defaulted; and defaulting, which runs again on
    every update, is idempotent, keeps what is set and touches nothing else. *)
Theorem default_neutral annotations o id secrets tt :
  let sp := OidcClient_Default annotations (oc_Spec o) in
  GetEffectiveLifespan (NewKubauthClient (with_spec sp o) id secrets) tt hour =
    GetEffectiveLifespan (NewKubauthClient o id secrets) tt hour ∧
  OidcClient_Default annotations sp = sp ∧
  sp = set_lifespans (AccessTokenLifespan sp) (RefreshTokenLifespan sp) (IDTokenLifespan sp) (oc_Spec o).
Proof.
  destruct (default_lifespans annotations (oc_Spec o)) as (H1 & H2 & _). cbn zeta in *.
  split; [|split; [exact H1|exact H2]].
  unfold OidcClient_Default, GetEffectiveLifespan, OidcClient.spec. simpl.
  destruct (skipped annotations); [done|]. unfold set_lifespans, lifespan_or, or_hour. simpl.
  destruct tt; repeat case_decide; congruence.
Qed.
