(* ===== verification/Routes.v ===== *)
(** * cmd/oidc: the router, and the set-up of the OIDC server

    [http.ServeMux] as the program uses it (patterns with an optional method and a literal path,
    exact or, with a trailing slash, a subtree), [OIDCServer.Setup] of [oidcserver.go] with
    [ComposeAllEnabled] of [compose2.go], and the favicon of [handlers/favicon.go]. *)

From S2P Require Import Prelude Values K8s Paths SigningKey HttpProvider Session Url Server Endpoints.

(** ** http.ServeMux *)

(** A pattern; the empty method is any method. *)
Record pattern := { pt_method : string; pt_path : string }.

#[export] Instance pattern_eq : EqDecision pattern.
Proof. solve_decision. Defined.

(** [METHOD PATH], the method being optional. *)
Fixpoint cut_space (s : string) : option (string * string) :=
  match s with
  | EmptyString => None
  | String c s' => if decide (c = " "%char) then Some ("", s')
                   else '(a, b) ← cut_space s'; Some (String c a, b)
  end.

Definition parse_pattern (s : string) : pattern :=
  match cut_space s with
  | Some (m, p) => {| pt_method := m; pt_path := p |}
  | None => {| pt_method := ""; pt_path := s |}
  end.

Fixpoint ends_with_slash (s : string) : bool :=
  match s with
  | EmptyString => false
  | String c EmptyString => bool_decide (c = "/"%char)
  | String _ s' => ends_with_slash s'
  end.

Definition subtree (p : pattern) : bool := ends_with_slash (pt_path p).

Definition has_prefix (p s : string) : bool := bool_decide (is_Some (strip_prefix p s)).

Definition path_match (p : pattern) (path : string) : bool :=
  if subtree p then has_prefix (pt_path p) path else str_eqb (pt_path p) path.

(** How two patterns relate. *)
Inductive relationship := Equivalent | MoreGeneral | MoreSpecific | Disjoint | Overlaps.

#[export] Instance relationship_eq : EqDecision relationship.
Proof. solve_decision. Defined.

Definition compare_methods (p q : pattern) : relationship :=
  if str_eqb (pt_method p) (pt_method q) then Equivalent
  else if str_empty (pt_method p) then MoreGeneral
  else if str_empty (pt_method q) then MoreSpecific
  else if str_eqb (pt_method p) "GET" && str_eqb (pt_method q) "HEAD" then MoreGeneral
  else if str_eqb (pt_method q) "GET" && str_eqb (pt_method p) "HEAD" then MoreSpecific
  else Disjoint.

Definition compare_paths (p q : pattern) : relationship :=
  if str_eqb (pt_path p) (pt_path q) then Equivalent
  else if subtree p && has_prefix (pt_path p) (pt_path q) then MoreGeneral
  else if subtree q && has_prefix (pt_path q) (pt_path p) then MoreSpecific
  else Disjoint.

Definition inverse (r : relationship) : relationship :=
  match r with MoreGeneral => MoreSpecific | MoreSpecific => MoreGeneral | _ => r end.

Definition combine (r1 r2 : relationship) : relationship :=
  match r1 with
  | Equivalent => r2
  | Disjoint => Disjoint
  | Overlaps => if decide (r2 = Disjoint) then Disjoint else Overlaps
  | MoreGeneral | MoreSpecific =>
      match r2 with
      | Equivalent => r1
      | _ => if decide (r2 = inverse r1) then Overlaps else r2
      end
  end.

Definition conflicts (p q : pattern) : bool :=
  match combine (compare_methods p q) (compare_paths p q) with
  | Equivalent | Overlaps => true
  | _ => false
  end.

Section mux.
Context {H : Type}.

Abbreviation mux := (list (pattern * H)).

(** [Handle]: a pattern that conflicts with a registered one is a panic. *)
Definition handle (m : mux) (pat : string) (h : H) : option mux :=
  let p := parse_pattern pat in
  if existsb (λ e, conflicts p e.1) m then None else Some (m ++ [(p, h)]).

(** The best match among the patterns of one method: the exact path, or else the longest
    subtree. *)
Definition better (a b : option (pattern * H)) : option (pattern * H) :=
  match a, b with
  | None, _ => b
  | _, None => a
  | Some e, Some f => if decide (String.length (pt_path e.1) < String.length (pt_path f.1)) then b else a
  end.

Definition match_method (m : mux) (method path : string) : option (pattern * H) :=
  foldr (λ e, better (if str_eqb (pt_method e.1) method && path_match e.1 path then Some e else None))
    None m.

(** [routingNode.match]: the patterns of the method, those of GET for a HEAD, those of any
    method. *)
Definition find_route (m : mux) (method path : string) : option (pattern * H) :=
  match match_method m method path with
  | Some e => Some e
  | None =>
      match (if str_eqb method "HEAD" then match_method m "GET" path else None) with
      | Some e => Some e
      | None => match_method m "" path
      end
  end.

Definition exact_match (e : option (pattern * H)) (path : string) : bool :=
  match e with Some (p, _) => str_eqb (pt_path p) path | None => false end.

Inductive outcome := Serve (h : H) | RedirectSlash | MethodNotAllowed | NoRoute.

(** [findHandler], for a path in clean form (another one is redirected to its clean form). *)
Definition route (m : mux) (method path : string) : outcome :=
  let n := find_route m method path in
  if negb (exact_match n path) && negb (ends_with_slash path) &&
     exact_match (find_route m method (path +:+ "/")) (path +:+ "/")
  then RedirectSlash
  else match n with
       | Some (_, h) => Serve h
       | None => if existsb (λ e, path_match e.1 path) m then MethodNotAllowed else NoRoute
       end.
End mux.
Arguments outcome : clear implicits.
Abbreviation mux H := (list (pattern * H)).

(** ** The endpoints *)

Inductive endpoint :=
| Authorize | Login | Logout | Token | Discovery | UserInfo | Jwks | Introspect
| Index | UpstreamGo | UpstreamCallback | UpstreamWelcome
| Static (dir : string) | Favicon (file : string).

#[export] Instance endpoint_eq : EqDecision endpoint.
Proof. solve_decision. Defined.

(** The handlers wrapped by [LoadAndSave] of the two session managers. *)
Definition in_session (e : endpoint) : bool :=
  match e with
  | Login | Logout | Index | UpstreamGo | UpstreamCallback | UpstreamWelcome => true
  | _ => false
  end.

(** The routes of [Setup], in order. *)
Definition setup_routes (staticDir : string) : list (string * endpoint) :=
  [("/oauth2/auth", Authorize);
   ("/oauth2/login", Login);
   ("/oauth2/logout", Logout);
   ("/oauth2/token", Token);
   ("/.well-known/openid-configuration", Discovery);
   ("/userinfo", UserInfo);
   ("/.well-known/jwks.json", Jwks);
   ("/oauth2/introspect", Introspect);
   ("/index", Index);
   ("/upstream/go", UpstreamGo);
   ("/upstream/callback", UpstreamCallback);
   ("/upstream/welcome", UpstreamWelcome);
   ("/static/", Static staticDir)].

Definition register_all (m : mux endpoint) (l : list (string * endpoint)) : option (mux endpoint) :=
  foldl (λ om e, m ← om; handle m e.1 e.2) (Some m) l.

(** ** compose2.go *)

(** The handlers of the OAuth library that are enabled; the password flow is the one of
    [fositepatch]. *)
Inductive factory :=
| OAuth2AuthorizeExplicitFactory | OAuth2AuthorizeImplicitFactory | OAuth2ClientCredentialsGrantFactory
| OAuth2RefreshTokenGrantFactory | OAuth2ResourceOwnerPasswordCredentialsFactory
| RFC7523AssertionGrantFactory | OpenIDConnectExplicitFactory | OpenIDConnectImplicitFactory
| OpenIDConnectHybridFactory | OpenIDConnectRefreshFactory | OAuth2TokenIntrospectionFactory
| OAuth2TokenRevocationFactory | OAuth2PKCEFactory | PushedAuthorizeHandlerFactory.

#[export] Instance factory_eq : EqDecision factory.
Proof. solve_decision. Defined.

(** [fosite.Config], the fields that are set; durations in nanoseconds. *)
Record fosite_config := {
  fc_AccessTokenLifespan : Z;
  fc_RefreshTokenLifespan : Z;
  fc_TokenEntropy : Z;
  fc_GlobalSecret : string;
  fc_RefreshTokenScopes : list string;
  fc_AuthorizeCodeLifespan : Z;
  fc_AccessTokenIssuer : string;
  fc_IDTokenIssuer : string;
  fc_EnforcePKCE : bool;
  fc_EnablePKCEPlainChallengeMethod : bool;
  fc_EnforcePKCEForPublicClients : bool;
}.

(** The strategy of the core tokens: opaque values with an HMAC, or JWTs signed with the key. *)
Inductive core_strategy (Key : Type) :=
| HMACStrategy (c : fosite_config)
| JWTStrategy (key : Key) (opaque : fosite_config).
Arguments HMACStrategy {Key} c.
Arguments JWTStrategy {Key} key opaque.

Record oauth2_provider (Key : Type) := {
  op_config : fosite_config;
  op_core : core_strategy Key;
  op_oidc_key : Key;
  op_signer_key : Key;
  op_handlers : list factory;
}.
Arguments op_config {Key}. Arguments op_core {Key}. Arguments op_oidc_key {Key}.
Arguments op_signer_key {Key}. Arguments op_handlers {Key}.

Definition ComposeAllEnabled {Key} (config : fosite_config) (key : Key) (jwtAccessToken : bool)
    : oauth2_provider Key :=
  {| op_config := config;
     op_core := if jwtAccessToken then JWTStrategy key config else HMACStrategy config;
     op_oidc_key := key;
     op_signer_key := key;
     op_handlers :=
       [OAuth2AuthorizeExplicitFactory; OAuth2AuthorizeImplicitFactory; OAuth2ClientCredentialsGrantFactory;
        OAuth2RefreshTokenGrantFactory; OAuth2ResourceOwnerPasswordCredentialsFactory;
        RFC7523AssertionGrantFactory; OpenIDConnectExplicitFactory; OpenIDConnectImplicitFactory;
        OpenIDConnectHybridFactory; OpenIDConnectRefreshFactory; OAuth2TokenIntrospectionFactory;
        OAuth2TokenRevocationFactory; OAuth2PKCEFactory; PushedAuthorizeHandlerFactory] |}.

(** The grant type a handler answers at the token endpoint. *)
Definition grant_of (f : factory) : option string :=
  match f with
  | OAuth2AuthorizeExplicitFactory => Some "authorization_code"
  | OAuth2ClientCredentialsGrantFactory => Some "client_credentials"
  | OAuth2RefreshTokenGrantFactory => Some "refresh_token"
  | OAuth2ResourceOwnerPasswordCredentialsFactory => Some "password"
  | RFC7523AssertionGrantFactory => Some "urn:ietf:params:oauth:grant-type:jwt-bearer"
  | _ => None
  end.

(** ** Setup *)

Definition minute : Z := 60000000000.

(** The fields of [OIDCServer] only [Setup] reads. *)
Record setup_params := {
  sp_server : OIDCServer;
  sp_Resources : string;
  sp_JWTSigningKeySecretName : string;
  sp_RefreshTokenLifespan : Z;
  sp_EnforcePKCE : bool;
  sp_JwtAccessToken : bool;
}.

Definition with_keyID (kid : string) (sv : OIDCServer) : OIDCServer :=
  {| sv_Issuer := sv_Issuer sv; Authenticator := Authenticator sv; sv_PostLogoutURL := sv_PostLogoutURL sv;
     DefaultStyle := DefaultStyle sv; SsoMode := SsoMode sv; DefaultLoginLabel := DefaultLoginLabel sv;
     keyID := kid; sv_AccessTokenLifespan := sv_AccessTokenLifespan sv;
     AllowPasswordGrant := AllowPasswordGrant sv; AllowPKCEPlain := AllowPKCEPlain sv |}.

(** What [Setup] stores in the [MemoryStore]. *)
Record storage_config := {
  sc_Authenticator : OidcAuthenticator;
  sc_Issuer : string;
  sc_KeyID : string;
  sc_AllowPasswordGrant : bool;
}.

Definition global_secret : string := "some-secret-that-is-32-bytes-long".

Definition setup_config (p : setup_params) : fosite_config :=
  let s := sp_server p in
  {| fc_AccessTokenLifespan := sv_AccessTokenLifespan s;
     fc_RefreshTokenLifespan := sp_RefreshTokenLifespan p;
     fc_TokenEntropy := 32;
     fc_GlobalSecret := global_secret;
     fc_RefreshTokenScopes := ["offline"; "offline_access"];
     fc_AuthorizeCodeLifespan := 10 * minute;
     fc_AccessTokenIssuer := sv_Issuer s;
     fc_IDTokenIssuer := sv_Issuer s;
     fc_EnforcePKCE := sp_EnforcePKCE p;
     fc_EnablePKCEPlainChallengeMethod := AllowPKCEPlain s;
     fc_EnforcePKCEForPublicClients := sp_EnforcePKCE p |}.

(** The server once it is set up. *)
Record running (Key : Type) := {
  rn_server : OIDCServer;
  rn_key : Key;
  rn_storage : storage_config;
  rn_oauth2 : oauth2_provider Key;
  rn_router : mux endpoint;
}.
Arguments rn_server {Key}. Arguments rn_key {Key}. Arguments rn_storage {Key}.
Arguments rn_oauth2 {Key}. Arguments rn_router {Key}.

Section setup.
Context {W Key : Type} `{ObjectStore W secret_data}.
Context (pem_decode : string → option pem_block) (pem_encode : pem_block → result string string).
Context (ParsePKCS1PrivateKey : string → result string Key) (MarshalPKCS1PrivateKey : Key → string).
Context (ParsePKCS8PrivateKey : string → result string (option Key)).

(** [None] is a panic of the router. *)
Definition Setup (p : setup_params) (gen : result string Key) (newKID : string) (router : mux endpoint) (w : W)
    : option (result string (running Key) * W) :=
  match ensureJwtSigningKey pem_decode pem_encode ParsePKCS1PrivateKey MarshalPKCS1PrivateKey
          ParsePKCS8PrivateKey (sp_JWTSigningKeySecretName p) gen newKID w with
  | (Err e, w') => Some (Err ("failed to load/generate JWT signing key: " +:+ e), w')
  | (Ok (privateKey, kid), w') =>
      let s := with_keyID kid (sp_server p) in
      let storage := {| sc_Authenticator := Authenticator s; sc_Issuer := sv_Issuer s; sc_KeyID := keyID s;
                        sc_AllowPasswordGrant := AllowPasswordGrant s |} in
      let oauth2 := ComposeAllEnabled (setup_config p) privateKey (sp_JwtAccessToken p) in
      router ← register_all router (setup_routes (Join (sp_Resources p) "static"));
      Some (Ok {| rn_server := s; rn_key := privateKey; rn_storage := storage; rn_oauth2 := oauth2;
                  rn_router := router |}, w')
  end.
End setup.

(** The router [Setup] is given: the favicon ([oidc.go]). *)
Definition favicon_router (resources : string) : option (mux endpoint) :=
  handle [] "GET /favicon.ico" (Favicon (Join (Join resources "static") "favicon.ico")).

(** The table of the running server. *)
Definition oidc_router (icon staticDir : string) : mux endpoint :=
  (parse_pattern "GET /favicon.ico", Favicon icon) ::
  ((λ e, (parse_pattern e.1, e.2)) <$> setup_routes staticDir).

Lemma registered icon staticDir :
  register_all [(parse_pattern "GET /favicon.ico", Favicon icon)] (setup_routes staticDir) =
  Some (oidc_router icon staticDir).
Proof. vm_compute. reflexivity. Qed.

(** ** Where a request goes *)

Lemma match_method_filter {H} (m : mux H) method path :
  match_method m method path =
  match_method (filter (λ e, pt_method e.1 = method) m) method path.
Proof.
  unfold match_method. induction m as [|e m IH]; [done|]. rewrite filter_cons. simpl. rewrite IH.
  case_decide as E; [done|]. unfold str_eqb at 1. by rewrite bool_decide_false.
Qed.

Lemma match_any icon dir path :
  match_method (oidc_router icon dir) "" path =
  match_method ((λ e, (parse_pattern e.1, e.2)) <$> setup_routes dir) "" path.
Proof. by rewrite match_method_filter. Qed.

Lemma match_get icon dir path :
  match_method (oidc_router icon dir) "GET" path =
  if str_eqb "/favicon.ico" path then Some (parse_pattern "GET /favicon.ico", Favicon icon) else None.
Proof.
  rewrite match_method_filter. unfold match_method, path_match, subtree. simpl.
  destruct (str_eqb "/favicon.ico" path) eqn:E; simpl; rewrite ?E; done.
Qed.

Lemma match_other icon dir method path :
  method ≠ "" → method ≠ "GET" → match_method (oidc_router icon dir) method path = None.
Proof.
  intros H1 H2. rewrite match_method_filter.
  assert (filter (λ e : pattern * endpoint, pt_method e.1 = method) (oidc_router icon dir) = []) as ->; [|done].
  unfold oidc_router. simpl. by repeat rewrite filter_cons_False by (simpl; congruence).
Qed.

(** The endpoint of an exact path. *)
Fixpoint assoc_path (l : list (string * endpoint)) (path : string) : option endpoint :=
  match l with
  | [] => None
  | (p, e) :: l' => if decide (p = path) then Some e else assoc_path l' path
  end.

Definition exact_endpoint (path : string) : option endpoint :=
  assoc_path (filter (λ e, ends_with_slash e.1 = false) (setup_routes "")) path.

(** What the documentation of the routes says: the favicon for GET and HEAD, the files under
    [/static/], and one endpoint for each other path, for every method. *)
Definition expected (icon staticDir method path : string) : outcome endpoint :=
  if decide (path = "/favicon.ico") then
    if decide (method = "GET" ∨ method = "HEAD") then Serve (Favicon icon) else MethodNotAllowed
  else if decide (path = "/static") then RedirectSlash
  else if has_prefix "/static/" path then Serve (Static staticDir)
  else match exact_endpoint path with Some e => Serve e | None => NoRoute end.

Lemma ends_with_slash_app s : ends_with_slash (s +:+ "/") = true.
Proof.
  induction s as [|c s IH]; [done|]. change (String c s +:+ "/") with (String c (s +:+ "/")). simpl.
  destruct (s +:+ "/"); [done|exact IH].
Qed.

Lemma str_eqb_slash p path : ends_with_slash p = false → str_eqb p (path +:+ "/") = false.
Proof.
  intros H. unfold str_eqb. apply bool_decide_false. intros ->. by rewrite ends_with_slash_app in H.
Qed.

(** The match among the routes of [Setup] of a path that is none of the exact ones. *)
Lemma match_any_static dir path :
  exact_endpoint path = None →
  match_method ((λ e, (parse_pattern e.1, e.2)) <$> setup_routes dir) "" path =
  if has_prefix "/static/" path then Some (parse_pattern "/static/", Static dir) else None.
Proof.
  unfold exact_endpoint. simpl. intros Hn. unfold match_method, path_match, subtree, str_eqb. simpl.
  repeat (case_decide; [done|]). rewrite !bool_decide_false by done. simpl.
  by destruct (has_prefix "/static/" path).
Qed.

Lemma match_any_exact dir path e :
  exact_endpoint path = Some e →
  has_prefix "/static/" path = false ∧ ends_with_slash path = false ∧ path ≠ "/static" ∧ path ≠ "/favicon.ico" ∧
  ∃ p, match_method ((λ e, (parse_pattern e.1, e.2)) <$> setup_routes dir) "" path = Some (p, e) ∧ pt_path p = path.
Proof.
  unfold exact_endpoint. simpl. intros He.
  repeat (case_decide; [injection He as <-; subst; split_and!; [done..|]; eexists; done|]). done.
Qed.

Lemma has_prefix_static path : has_prefix "/static/" path = true ↔ ∃ rest, path = "/static/" +:+ rest.
Proof.
  unfold has_prefix. rewrite bool_decide_eq_true. split.
  - intros [t Ht]. exists t. by apply strip_prefix_spec.
  - intros [t ->]. exists t. by apply strip_prefix_spec.
Qed.

Definition any_route (dir path : string) : option (pattern * endpoint) :=
  match_method ((λ e, (parse_pattern e.1, e.2)) <$> setup_routes dir) "" path.

Lemma find_oidc icon dir method path :
  find_route (oidc_router icon dir) method path =
  if decide (path = "/favicon.ico") then
    if decide (method = "GET" ∨ method = "HEAD")
    then Some (parse_pattern "GET /favicon.ico", Favicon icon) else None
  else any_route dir path.
Proof.
  unfold find_route. rewrite match_any. fold (any_route dir path).
  destruct (decide (path = "/favicon.ico")) as [->|Hp].
  - destruct (decide (method = "GET")) as [->|Hg]; [by rewrite match_get|].
    destruct (decide (method = "HEAD")) as [->|Hh].
    { rewrite match_other, str_eqb_refl, match_get by done. done. }
    rewrite decide_False by naive_solver. unfold str_eqb at 1. rewrite bool_decide_false by done.
    destruct (decide (method = "")) as [->|He]; [by rewrite match_any|by rewrite match_other].
  - assert (match_method (oidc_router icon dir) "GET" path = None) as Hget.
    { rewrite match_get. unfold str_eqb. by rewrite bool_decide_false by congruence. }
    destruct (decide (method = "GET")) as [->|Hg]; [by rewrite Hget|].
    rewrite Hget.
    destruct (decide (method = "")) as [->|He].
    { rewrite match_any. fold (any_route dir path). simpl. by destruct (any_route dir path). }
    rewrite match_other by done. by destruct (str_eqb method "HEAD").
Qed.

Lemma slash_not_favicon path : path +:+ "/" ≠ "/favicon.ico".
Proof. intros H. pose proof (ends_with_slash_app path) as E. by rewrite H in E. Qed.

Lemma exact_slash path : exact_endpoint (path +:+ "/") = None.
Proof.
  destruct (exact_endpoint (path +:+ "/")) as [e|] eqn:E; [|done].
  apply (match_any_exact "") in E as (_ & E & _). by rewrite ends_with_slash_app in E.
Qed.

(** No path but [/static] gets a redirection. *)
Lemma slash_exact icon dir method path :
  exact_match (find_route (oidc_router icon dir) method (path +:+ "/")) (path +:+ "/") = true ↔
  path = "/static".
Proof.
  rewrite find_oidc, decide_False by apply slash_not_favicon. unfold any_route.
  rewrite match_any_static by apply exact_slash. split.
  - destruct (has_prefix _ _); [|done]. simpl. rewrite str_eqb_true. intros E.
    assert ("/static" +:+ "/" = path +:+ "/") as E' by done.
    revert E'. clear. generalize "/static" as a. intros a. revert path.
    induction a as [|c a IH]; intros [|d b]; simpl; intros H; try done.
    + injection H as -> H. destruct b; done.
    + injection H as -> H. destruct a; done.
    + injection H as -> H. f_equal. by apply IH.
  - intros ->. done.
Qed.

Lemma path_known icon dir path :
  path ≠ "/favicon.ico" → any_route dir path = None →
  existsb (λ e, path_match e.1 path) (oidc_router icon dir) = false.
Proof.
  intros Hf Hn. apply not_true_is_false. rewrite existsb_exists. intros (e & Hin & He).
  unfold any_route in Hn. destruct (exact_endpoint path) as [x|] eqn:Ex.
  - destruct (match_any_exact dir path x Ex) as (_ & _ & _ & _ & p & Hp & _). congruence.
  - rewrite match_any_static in Hn by done. destruct (has_prefix "/static/" path) eqn:Hs; [done|].
    unfold exact_endpoint in Ex. simpl in Ex. repeat (case_decide; [done|]).
    simpl in Hin. repeat destruct Hin as [<-|Hin]; try done; revert He;
      unfold path_match, subtree, str_eqb; simpl; rewrite ?bool_decide_eq_true; congruence.
Qed.

Lemma route_oidc icon dir method path :
  route (oidc_router icon dir) method path = expected icon dir method path.
Proof.
  unfold route, expected. rewrite (find_oidc icon dir method path).
  destruct (decide (path = "/favicon.ico")) as [->|Hf].
  { destruct (decide _); [done|]. simpl.
    destruct (exact_match _ _) eqn:E; [apply (slash_exact icon dir method "/favicon.ico") in E; done|done]. }
  destruct (decide (path = "/static")) as [->|Hs].
  { change (any_route dir "/static") with (@None (pattern * endpoint)). simpl.
    by rewrite (proj2 (slash_exact icon dir method "/static")) by done. }
  assert (exact_match (find_route (oidc_router icon dir) method (path +:+ "/")) (path +:+ "/") = false) as ->.
  { apply not_true_is_false. by rewrite slash_exact. }
  rewrite !andb_false_r. unfold any_route at 1. destruct (exact_endpoint path) as [e|] eqn:Ex.
  - destruct (match_any_exact dir path e Ex) as (-> & _ & _ & _ & p & -> & _). done.
  - rewrite match_any_static by done. destruct (has_prefix "/static/" path) eqn:Hp; [done|].
    rewrite path_known; [done|done|]. unfold any_route. by rewrite match_any_static, Hp.
Qed.


(** The endpoints of the discovery document, by the name it gives them. *)
Definition advertised : list (string * (string * endpoint)) :=
  [("authorization_endpoint", ("/oauth2/auth", Authorize)); ("token_endpoint", ("/oauth2/token", Token));
   ("userinfo_endpoint", ("/userinfo", UserInfo)); ("end_session_endpoint", ("/oauth2/logout", Logout));
   ("jwks_uri", ("/.well-known/jwks.json", Jwks)); ("introspection_endpoint", ("/oauth2/introspect", Introspect))].

Section setup_facts.
Context {W Key : Type} `{ObjectStore W secret_data}.
Context (pem_decode : string → option pem_block) (pem_encode : pem_block → result string string).
Context (ParsePKCS1PrivateKey : string → result string Key) (MarshalPKCS1PrivateKey : Key → string).
Context (ParsePKCS8PrivateKey : string → result string (option Key)).

Abbreviation setup := (Setup pem_decode pem_encode ParsePKCS1PrivateKey MarshalPKCS1PrivateKey ParsePKCS8PrivateKey).
Abbreviation ensure := (ensureJwtSigningKey pem_decode pem_encode ParsePKCS1PrivateKey MarshalPKCS1PrivateKey ParsePKCS8PrivateKey).

Lemma Setup_run p gen newKID router0 w :
  favicon_router (sp_Resources p) = Some router0 →
  setup p gen newKID router0 w =
  Some (match ensure (sp_JWTSigningKeySecretName p) gen newKID w with
        | (Err e, w') => (Err ("failed to load/generate JWT signing key: " +:+ e), w')
        | (Ok (k, kid), w') =>
            (Ok {| rn_server := with_keyID kid (sp_server p); rn_key := k;
                   rn_storage := {| sc_Authenticator := Authenticator (sp_server p);
                                    sc_Issuer := sv_Issuer (sp_server p); sc_KeyID := kid;
                                    sc_AllowPasswordGrant := AllowPasswordGrant (sp_server p) |};
                   rn_oauth2 := ComposeAllEnabled (setup_config p) k (sp_JwtAccessToken p);
                   rn_router := oidc_router (Join (Join (sp_Resources p) "static") "favicon.ico")
                                  (Join (sp_Resources p) "static") |}, w')
        end).
Proof.
  unfold favicon_router. intros Hf. unfold Setup.
  destruct (ensure _ _ _ _) as [[[k kid]|e] w']; [|done]. simpl.
  assert (router0 = [(parse_pattern "GET /favicon.ico",
    Favicon (Join (Join (sp_Resources p) "static") "favicon.ico"))]) as ->.
  { unfold handle in Hf. simpl in Hf. congruence. }
  rewrite registered. done.
Qed.

(** Setting up the OIDC server never panics, fails exactly when the signing key is not
    available, and gives a server whose parts agree: the key that signs ID tokens (and JWT access
    tokens) is the one of the secret and its id the one put in the tokens; the tokens, the store
    and the discovery document have the same issuer; each endpoint of the discovery document is,
    under this issuer, a path routed to its handler; each grant type it announces has its
    handler, and the password grant is announced exactly when the store allows it. *)
Theorem setup_consistent p gen newKID router0 w :
  favicon_router (sp_Resources p) = Some router0 →
  (∃ r w', setup p gen newKID router0 w = Some (r, w') ∧
     ((∃ e, r = Err e) ↔ ∃ e, (ensure (sp_JWTSigningKeySecretName p) gen newKID w).1 = Err e)) ∧
  ∀ rn w', setup p gen newKID router0 w = Some (Ok rn, w') →
    ensure (sp_JWTSigningKeySecretName p) gen newKID w = (Ok (rn_key rn, keyID (rn_server rn)), w') ∧
    op_oidc_key (rn_oauth2 rn) = rn_key rn ∧ op_signer_key (rn_oauth2 rn) = rn_key rn ∧
    sc_KeyID (rn_storage rn) = keyID (rn_server rn) ∧
    (let doc := oidc_config (rn_server rn) in
     doc !! "issuer" = Some (VString (sc_Issuer (rn_storage rn))) ∧
     fc_IDTokenIssuer (op_config (rn_oauth2 rn)) = sc_Issuer (rn_storage rn) ∧
     fc_AccessTokenIssuer (op_config (rn_oauth2 rn)) = sc_Issuer (rn_storage rn) ∧
     (∀ key path e method, (key, (path, e)) ∈ advertised →
        doc !! key = Some (VString (sc_Issuer (rn_storage rn) +:+ path)) ∧
        route (rn_router rn) method path = Serve e) ∧
     ∃ gs, doc !! "grant_types_supported" = Some (VStrs gs) ∧
       (∀ g, g ∈ gs → ∃ f, f ∈ op_handlers (rn_oauth2 rn) ∧ grant_of f = Some g) ∧
       ("password" ∈ gs ↔ sc_AllowPasswordGrant (rn_storage rn) = true)).
Proof.
  intros Hf. rewrite (Setup_run p gen newKID router0 w Hf). split.
  { destruct (ensure _ _ _ _) as [[[k kid]|e] w'] eqn:E; (eexists _, _; split; [reflexivity|]);
      simpl; naive_solver. }
  intros rn w'. destruct (ensure _ _ _ _) as [[[k kid]|e] w1]; [|done]. intros [= <- <-].
  do 4 (split; [done|]). split; [done|]. split; [done|]. split; [done|]. split.
  - intros key path e method Hin.
    cbn [rn_router]. rewrite route_oidc. apply list_elem_of_In in Hin.
    simpl in Hin. repeat destruct Hin as [[= <- <- <-]|Hin]; done.
  - eexists. split; [reflexivity|]. unfold grantTypesSupported. simpl. split.
    + intros g Hg. apply list_elem_of_In in Hg. simpl in Hg.
      destruct Hg as [<-|[<-|[<-|Hg]]].
      * exists OAuth2AuthorizeExplicitFactory. split; [set_solver|done].
      * exists OAuth2ClientCredentialsGrantFactory. split; [set_solver|done].
      * exists OAuth2RefreshTokenGrantFactory. split; [set_solver|done].
      * destruct (AllowPasswordGrant _); simpl in Hg; [|done]. destruct Hg as [<-|[]].
        exists OAuth2ResourceOwnerPasswordCredentialsFactory. split; [set_solver|done].
    + destruct (AllowPasswordGrant (sp_server p)); simpl; set_solver.
Qed.
End setup_facts.

(** ** A concrete server *)

Definition demo_params : setup_params :=
  {| sp_server :=
       {| sv_Issuer := "https://idp"; Authenticator := {| Identify := λ _ _, Err "down"; Authenticate := λ _ _, Err "down" |};
          sv_PostLogoutURL := "/index"; DefaultStyle := "dark"; SsoMode := SsoNever; DefaultLoginLabel := "";
          keyID := ""; sv_AccessTokenLifespan := 60 * minute; AllowPasswordGrant := true; AllowPKCEPlain := false |};
     sp_Resources := "resources"; sp_JWTSigningKeySecretName := "jwt-key";
     sp_RefreshTokenLifespan := 60 * minute; sp_EnforcePKCE := false; sp_JwtAccessToken := true |}.

Definition demo_router0 : mux endpoint := default [] (favicon_router "resources").

Definition demo_setup : option (result string (running string) * cluster secret_data) :=
  Setup demo_decode demo_encode Ok (λ k, k) (λ _, Err "no") demo_params (Ok "key1") "kid1" demo_router0
    {| objs := ∅; faults := [] |}.

Lemma setup_consistent_witness : ∃ rn w',
  demo_setup = Some (Ok rn, w') ∧ rn_key rn = "key1" ∧
  route (rn_router rn) "GET" "/userinfo" = Serve UserInfo.
Proof.
  assert (favicon_router (sp_Resources demo_params) = Some demo_router0) as Hf by (vm_compute; reflexivity).
  destruct (setup_consistent demo_decode demo_encode Ok (λ k, k) (λ _, Err "no") demo_params (Ok "key1") "kid1"
    demo_router0 {| objs := ∅; faults := [] |} Hf) as [_ Hok].
  destruct demo_setup as [[[rn|e] w']|] eqn:E; [|vm_compute in E; discriminate E..].
  exists rn, w'. split; [reflexivity|].
  destruct (Hok rn w' E) as (Hk & _ & _ & _ & _ & _ & _ & Hr & _). split.
  - symmetry.
    exact (f_equal (λ x : result string (string * string) * cluster secret_data,
             match x.1 with Ok (k, _) => k | Err _ => "" end) Hk).
  - apply (Hr "userinfo_endpoint" "/userinfo" UserInfo "GET"). apply list_elem_of_In. simpl. tauto.
Defined.
