(* ===== verification/ServerRun.v ===== *)
(** * cmd/oidc: the server at work

    The handlers behind the router, and the runs of the server as seen by one browser: between two
    requests of it the sessions are saved and loaded again or lost, and the store changes in any
    way (other browsers, the controllers). What is issued in a run goes back to an
    authentication. *)

From S2P Require Import Prelude Values Proto HttpProvider OidcClient Storage Upstreams Session Url Server.
From S2P Require Import Json LoginFlow UpstreamFlow Wire Routes.

Section run.
Context {Rq PAR JWK AR Resp OErr SS LS : Type}.
Context `{Requester AR, SessionData SS, SessionData LS} {A : ClaimAdder}.
Abbreviation store := (@MemoryStore Rq PAR upstream JWK).
Abbreviation M := (@M Rq PAR JWK AR Resp OErr SS LS).
Abbreviation state := (@state Rq PAR JWK AR Resp OErr SS LS).
Context (NewAuthorizeRequest : request → store → result (option AR * OErr) AR * store).
Context (NewAuthorizeResponse : AR → view → store → result OErr Resp * store).
Context (executes : page → bool).
Context (sv : OIDCServer).
Context (AuthCodeURL : OAuth2AuthCodeSettings_ → string → string → option string → string).
Context (Exchange : OAuth2AuthCodeSettings_ → string → option string → result string token).
Context (verify : provider → string → string → result string claims).
Context (user_info : provider → string → result string claims).
(** The message of an encoding error. *)
Context (why : string → string).
Abbreviation marshal := (marshal_user why).
Abbreviation unmarshal := unmarshal_user.
Context (icon staticDir : string).
(** What the endpoints without a session do to the store. *)
Context (sessionless : endpoint → request → store → store).

(** A request with its path, the time and the random values it gets. *)
Record call := {
  cl_path : string;
  cl_request : request;
  cl_now : Z;
  cl_rand : nat → option (list Ascii.ascii);
  cl_rand2 : nat → option (list Ascii.ascii);
  cl_verifier : string;
}.

(** ** Dispatch *)

Definition dispatch (e : endpoint) (c : call) : M unit :=
  let r := cl_request c in
  match e with
  | Authorize => handleAuthorize NewAuthorizeRequest r
  | Login => handleLogin NewAuthorizeRequest NewAuthorizeResponse executes sv r (cl_now c)
  | Logout => handleLogout sv r
  | Index => handleIndex executes sv
  | UpstreamGo => handleUpstreamGo AuthCodeURL (cl_rand c) (cl_rand2 c) (cl_verifier c) r
  | UpstreamCallback =>
      handleUpstreamCallback NewAuthorizeRequest NewAuthorizeResponse sv Exchange verify user_info marshal
        r (cl_now c)
  | UpstreamWelcome =>
      handleUpstreamWelcome NewAuthorizeRequest NewAuthorizeResponse executes sv unmarshal r (cl_now c)
  | _ => upd (λ s, with_store (sessionless e r (st_store s)) s)
  end.

Definition serve (c : call) : M unit :=
  match route (oidc_router icon staticDir) (r_Method (cl_request c)) (cl_path c) with
  | Serve e => dispatch e c
  | RedirectSlash => redirect (cl_path c +:+ "/")
  | MethodNotAllowed => http_error 405 "Method Not Allowed"
  | NoRoute => upd (with_write HttpNotFound)
  end.

(** ** Runs *)

(** The login remembered by an SSO value. *)
Definition principal (v : option sval) : option string :=
  match v with Some (SUser u) => Some (ur_Login u) | _ => fst <$> sso_user v end.

Definition pending (s : state) : option upstream_user := loadPendingUpstreamUser unmarshal (st_login s).

(** The state the next request of the browser finds: sessions saved and loaded again, or lost. *)
Definition next (s s' : state) : Prop :=
  st_issued s' = st_issued s ∧
  (reloaded (st_heap s) (st_sso s) (st_sso s') ∨ ∀ k, sd_get k (st_sso s') = None) ∧
  ((∀ k, sd_get k (st_login s') = sd_get k (st_login s)) ∨ ∀ k, sd_get k (st_login s') = None).

(** The requests of a run, each with the state it found. A request that panics is lost. *)
Inductive runs : list (state * call) → state → Prop :=
| runs_start s :
    st_issued s = [] → principal (sd_get "ssoUser" (st_sso s)) = None → pending s = None → runs [] s
| runs_call tr s c s1 s2 :
    runs tr s → serve c s = Some (tt, s1) → next s1 s2 → runs (tr ++ [(s, c)]) s2
| runs_panic tr s c s2 : runs tr s → serve c s = None → next s s2 → runs (tr ++ [(s, c)]) s2.

(** This request authenticated the login: with its password, or by the word of an upstream
    provider. While such a user waits on the welcome page it is kept as JSON, which replaces bytes
    that are not valid UTF-8. *)
Inductive authenticates (s : state) (c : call) : string → Prop :=
| with_password form u :
    cl_path c = "/oauth2/login" → r_Method (cl_request c) = "POST" →
    r_PostForm (cl_request c) = Some form →
    HttpProvider.Authenticate (Authenticator sv) (values_get form "login") (values_get form "password")
      = Ok (Some u) →
    authenticates s c (ou_Login u)
| with_upstream u ic :
    cl_path c = "/upstream/callback" → vouched Exchange verify user_info (cl_request c) s u ic →
    authenticates s c (uu_Login (local_user sv u (idp_claims u ic)).2)
| with_upstream_kept u ic :
    cl_path c = "/upstream/callback" → vouched Exchange verify user_info (cl_request c) s u ic →
    authenticates s c (clean_string (uu_Login (local_user sv u (idp_claims u ic)).2)).

Definition established (tr : list (state * call)) (login : string) : Prop :=
  ∃ s c, (s, c) ∈ tr ∧ authenticates s c login.

(** ** What one request may add *)

(** The logins a request may act for. *)
Definition entitled (s : state) (c : call) (login : string) : Prop :=
  authenticates s c login ∨ principal (sd_get "ssoUser" (st_sso s)) = Some login ∨
  (∃ usr, pending s = Some usr ∧ uu_Login usr = login).

Definition sound_effect (s : state) (c : call) (s' : state) : Prop :=
  (∀ x, x ∈ st_issued s' → x ∈ st_issued s ∨ entitled s c (v_Subject x.2)) ∧
  (∀ login, principal (sd_get "ssoUser" (st_sso s')) = Some login → entitled s c login) ∧
  (∀ usr, pending s' = Some usr → entitled s c (uu_Login usr)).

(** A request that changes none of the three. *)
Lemma sound_same s c s' :
  st_issued s' = st_issued s → sd_get "ssoUser" (st_sso s') = sd_get "ssoUser" (st_sso s) →
  sd_get sessPendingUpstreamUser (st_login s') = sd_get sessPendingUpstreamUser (st_login s) →
  sound_effect s c s'.
Proof.
  intros H1' H2' H3'. unfold sound_effect, entitled, pending, loadPendingUpstreamUser, sd_string.
  rewrite H1', H2', H3'. split; [by left|]. split; [by auto|]. intros usr Hu. right. right. eauto.
Qed.

Context `{!ClaimAdderOk A, !SessionDataOk SS, !SessionDataOk LS}.

Lemma principal_user v login cl : sso_user v = Some (login, cl) → principal v = Some login.
Proof. destruct v as [[| |]|]; simpl; [done..| |done]. intros ->. done. Qed.

Lemma principal_reload h v login : principal (json_sval h <$> v) = Some login → principal v = Some login.
Proof.
  destruct v as [[x|u|w]|]; simpl; [done| | |done].
  - rewrite lookup_insert_eq. destruct (str_empty (ur_Login u)); [done|]. done.
  - destruct w as [| | | | | | |m]; simpl; try done. rewrite lookup_fmap.
    destruct (m !! "Login") as [[| | | |l| | |]|]; simpl; try done. by destruct (str_empty l).
Qed.

Lemma login_effect s c s' :
  cl_path c = "/oauth2/login" → dispatch Login c s = Some (tt, s') → sound_effect s c s'.
Proof.
  intros Hp Hrun. simpl in Hrun.
  pose proof (login_cases _ _ _ _ _ _ _ _ Hrun) as Hi.
  pose proof (sso_written_cases _ _ _ _ _ _ _ _ Hrun) as Hs.
  assert (sd_get sessPendingUpstreamUser (st_login s') = sd_get sessPendingUpstreamUser (st_login s)) as Hk
    by (by eapply login_keeps).
  split; [|split].
  - intros x Hx. destruct Hi as [Hi|(ar & v & Hi & Hauth)]; rewrite Hi in Hx; [by left|].
    apply elem_of_app in Hx as [Hx| ->%list_elem_of_singleton]; [by left|]. right. simpl.
    destruct Hauth as [(Hm & form & u & Hf & HA & _ & ->)|(_ & login & cl & Hu & _ & ->)]; simpl.
    + left. by eapply with_password.
    + right. left. by eapply principal_user.
  - intros login. destruct Hs as [->|(Hm & form & u & ur & Hf & _ & HA & -> & Hl)]; [by right; left|].
    simpl. intros [= <-]. rewrite Hl. left. by eapply with_password.
  - intros usr. unfold pending, loadPendingUpstreamUser, sd_string. rewrite Hk. intros Hu. right. right.
    exists usr. by split.
Qed.

Lemma logout_effect s c s' : dispatch Logout c s = Some (tt, s') → sound_effect s c s'.
Proof.
  simpl. unfold handleLogout, mbind, M_bind. simpl. intros [= <-].
  unfold sound_effect. simpl. split; [by left|].
  assert (∀ S (HS : SessionData S) (Hok : SessionDataOk S) k (x : S),
    sd_get k (sd_destroy x).2 = None ∨ sd_get k (sd_destroy x).2 = sd_get k x) as Hd.
  { intros S HS Hok k x. destruct (sd_destroy x) as [[e|] x'] eqn:E; simpl.
    - right. by eapply keep_destroy.
    - left. by eapply get_destroy. }
  split.
  - intros login. destruct (Hd SS _ _ "ssoUser" (st_sso s)) as [->| ->]; [done|]. by right; left.
  - intros usr. unfold pending, loadPendingUpstreamUser, sd_string. simpl. rewrite get_put_ne by done.
    destruct (Hd LS _ _ sessPendingUpstreamUser (st_login s)) as [->| ->]; [done|].
    intros Hu. right. right. exists usr. by split.
Qed.

Lemma callback_effect s c s' :
  cl_path c = "/upstream/callback" → dispatch UpstreamCallback c s = Some (tt, s') → sound_effect s c s'.
Proof.
  intros Hp. simpl.
  destruct (callback_cases NewAuthorizeRequest NewAuthorizeResponse sv Exchange verify user_info marshal
    (cl_request c) (cl_now c) s) as (s1 & -> & Hc). intros [= <-].
  destruct Hc as [(code & msg & ->)|(u & ic & Hv & _ & Hfin)]; [by apply sound_same|].
  assert (authenticates s c (uu_Login (local_user sv u (idp_claims u ic)).2)) as Hauth by (by eapply with_upstream).
  destruct Hfin as (_ & _ & Hfin). unfold sound_effect, pending, loadPendingUpstreamUser, sd_string in *.
  destruct (decide (SsoMode sv = SsoOnDemand)) as [Hm|Hm].
  - destruct Hfin as (-> & -> & Hok & Herr). split; [by left|]. split; [by right; left|].
    intros usr. destruct (marshal _) as [j|e] eqn:Hj.
    + destruct (Hok j eq_refl) as [-> _]. destruct (str_empty j); [done|].
      destruct (unmarshal j) as [u'|] eqn:Hu'; [|done]. destruct (str_empty _); [done|]. intros [= <-].
      left. rewrite (pending_login _ _ _ _ Hj Hu'). by eapply with_upstream_kept.
    + rewrite (Herr e eq_refl). intros Hu. right. right. exists usr. by split.
  - destruct Hfin as (Hans & -> & Hsso). split; [|split].
    + intros x Hx. destruct Hans as [[E _]|(ar & _ & E)]; rewrite E in Hx; [by left|].
      apply elem_of_app in Hx as [Hx| ->%list_elem_of_singleton]; [by left|]. right. by left.
    + intros login. case_decide.
      * destruct Hsso as (ur & -> & Hl). simpl. intros [= <-]. left. by rewrite Hl.
      * rewrite Hsso. by right; left.
    + intros usr Hu. right. right. exists usr. by split.
Qed.

Lemma welcome_effect s c s' : dispatch UpstreamWelcome c s = Some (tt, s') → sound_effect s c s'.
Proof.
  intros Hrun. simpl in Hrun. apply welcome_cases in Hrun; [|done..].
  destruct Hrun as [(E1 & E2 & E3)|(_ & _ & usr & form & Hp & _ & Hans & Hp' & Hsso)].
  { apply sound_same; by rewrite ?E1, ?E2, ?E3. }
  assert (entitled s c (uu_Login usr)) as He by (right; right; by exists usr).
  split; [|split].
  - intros x Hx. destruct Hans as [[E _]|(ar & _ & E)]; rewrite E in Hx; [by left|].
    apply elem_of_app in Hx as [Hx| ->%list_elem_of_singleton]; [by left|]. by right.
  - intros login. case_decide.
    + destruct Hsso as (ur & -> & Hl). simpl. intros [= <-]. by rewrite Hl.
    + rewrite Hsso. by right; left.
  - intros usr'. unfold pending. by rewrite Hp'.
Qed.

Lemma serve_effect s c s' : serve c s = Some (tt, s') → sound_effect s c s'.
Proof.
  unfold serve. rewrite route_oidc. unfold expected.
  destruct (decide (cl_path c = "/favicon.ico")).
  { destruct (decide _); intros [= <-]; by apply sound_same. }
  destruct (decide (cl_path c = "/static")); [intros [= <-]; by apply sound_same|].
  destruct (has_prefix _ _); [intros [= <-]; by apply sound_same|].
  destruct (exact_endpoint (cl_path c)) as [e|] eqn:He; [|intros [= <-]; by apply sound_same].
  revert He. unfold exact_endpoint. simpl.
  repeat (case_decide as Hp; [intros [= <-]; symmetry in Hp|clear Hp]); [..|done];
    try (intros [= <-]; by apply sound_same).
  - simpl. unfold handleAuthorize, mbind, M_bind, newAuthorizeRequest.
    destruct (NewAuthorizeRequest _ _) as [[ar|[ar e]] st]; [|intros [= <-]; by apply sound_same].
    destruct (str_eqb _ _); intros [= <-]; by apply sound_same.
  - by apply login_effect.
  - by apply logout_effect.
  - simpl. unfold handleIndex, render, mbind, M_bind. simpl.
    destruct (executes _); intros [= <-]; by apply sound_same.
  - intros Hgo. simpl in Hgo. apply go_keeps in Hgo as (E1 & E2 & E3); [|done..].
    apply sound_same; by rewrite ?E1, ?E2, ?E3.
  - by apply callback_effect.
  - by apply welcome_effect.
Qed.

(** ** The invariant of the runs *)

Record justified (tr : list (state * call)) (s : state) : Prop := {
  j_issued x : x ∈ st_issued s → established tr (v_Subject x.2);
  j_sso login : principal (sd_get "ssoUser" (st_sso s)) = Some login → established tr login;
  j_pending usr : pending s = Some usr → established tr (uu_Login usr);
}.

Lemma established_app tr tr' login : established tr login → established (tr ++ tr') login.
Proof. intros (s & c & Hin & Ha). exists s, c. split; [|done]. apply elem_of_app. by left. Qed.

Lemma entitled_established tr s c login :
  justified tr s → entitled s c login → established (tr ++ [(s, c)]) login.
Proof.
  intros [_ J2 J3] [Ha|[Hp|(usr & Hu & <-)]].
  - exists s, c. split; [|done]. apply elem_of_app. right. by apply list_elem_of_singleton.
  - by apply established_app, J2.
  - by apply established_app, J3.
Qed.

Lemma justified_effect tr s c s' :
  justified tr s → sound_effect s c s' → justified (tr ++ [(s, c)]) s'.
Proof.
  intros J (E1 & E2 & E3). split.
  - intros x [Hx|Hx]%E1; [by apply established_app, (j_issued _ _ J)|by eapply entitled_established].
  - intros login Hl%E2. by eapply entitled_established.
  - intros usr Hu%E3. by eapply entitled_established.
Qed.

Lemma justified_next tr s s' : justified tr s → next s s' → justified tr s'.
Proof.
  intros [J1 J2 J3] (E1 & E2 & E3). split.
  - by rewrite E1.
  - intros login. destruct E2 as [E2|E2]; rewrite E2; [|done]. intros Hl%principal_reload. auto.
  - intros usr. unfold pending, loadPendingUpstreamUser, sd_string in *.
    destruct E3 as [E3|E3]; rewrite E3; [apply J3|done].
Qed.

Lemma runs_justified tr s : runs tr s → justified tr s.
Proof.
  induction 1 as [s Hi Hs Hp|tr s c s1 s2 _ IH Hrun Hn|tr s c s2 _ IH _ Hn].
  - split.
    + rewrite Hi. by intros x ?%elem_of_nil.
    + by rewrite Hs.
    + by rewrite Hp.
  - eapply justified_next; [|done]. by eapply justified_effect; [|apply serve_effect].
  - eapply justified_next; [|done]. destruct IH as [J1 J2 J3].
    split; intros; apply established_app; auto.
Qed.

(** C2. Nobody is signed in without having been authenticated. In every run of the server, whatever
    the requests of the browser, the changes of the store between them and the loss of sessions,
    each authorisation that is issued, through the login form, the SSO session or an upstream
    provider, at once or after the welcome page, is issued for a login that some request of the
    same run authenticated: a login form whose password the identity module accepted, or a
    callback an upstream provider vouched for. The user that waits on the welcome page is kept as
    the JSON text of [Wire]. *)
Theorem issued_established tr s ar v :
  runs tr s → (ar, v) ∈ st_issued s → established tr (v_Subject v).
Proof. intros Hr Hin. by apply (j_issued _ _ (runs_justified _ _ Hr) (ar, v)). Qed.
End run.

(** ** A concrete run: a login, then an SSO answer *)

Module RunDemo.
Import LoginFlow.Demo UpstreamFlow.UDemo.
Definition call_of (path : string) (r : request) : call :=
  {| cl_path := path; cl_request := r; cl_now := 7; cl_rand := rnd "a"%char; cl_rand2 := rnd "b"%char;
     cl_verifier := "ver" |}.
Definition post_call : call := call_of "/oauth2/login" (post "secret" "").
Definition get_call : call := call_of "/oauth2/login" get_login.
Definition served_by (c : call) (s : dstate) : option (unit * dstate) :=
  serve (A := plain_add) new_areq new_aresp dpage (srv SsoAlways) url exchange verify1 info1
    id "icon" "static" (λ _ _ st, st) c s.
Definition after (c : call) (s : dstate) : dstate := match served_by c s with Some (_, s') => s' | None => s end.
(** The sessions are saved and loaded, the rest of the state is kept. *)
Definition reload (s : dstate) : dstate := with_sso (json_sval (st_heap s) <$> st_sso s) s.
Definition s1 : dstate := reload (after post_call state0).
Definition s2 : dstate := reload (after get_call s1).

Lemma reload_next s : ServerRun.next s (reload s).
Proof. split; [done|]. split; left; [|done]. intros k. unfold reload. simpl. apply lookup_fmap. Qed.
End RunDemo.
Import RunDemo.

Lemma issued_established_witness : ∃ (tr : list (LoginFlow.Demo.dstate * call)) ar v,
  (ar, v) ∈ st_issued s2 ∧ length (st_issued s2) = 2 ∧ v_Subject v = "bob" ∧
  established (AR := plain_request) (Resp := string) (OErr := string) (LoginFlow.Demo.srv SsoAlways)
    UpstreamFlow.UDemo.exchange UpstreamFlow.UDemo.verify1 UpstreamFlow.UDemo.info1 tr (v_Subject v).
Proof.
  assert (runs (A := plain_add) LoginFlow.Demo.new_areq LoginFlow.Demo.new_aresp LoginFlow.Demo.dpage
    (LoginFlow.Demo.srv SsoAlways) UpstreamFlow.UDemo.url UpstreamFlow.UDemo.exchange UpstreamFlow.UDemo.verify1
    UpstreamFlow.UDemo.info1 id "icon" "static"
    (λ _ _ st, st) ([] ++ [(LoginFlow.Demo.state0, post_call)] ++ [(s1, get_call)]) s2) as Hrun.
  { assert (served_by post_call LoginFlow.Demo.state0 = Some (tt, after post_call LoginFlow.Demo.state0)) as H1
      by (vm_compute; reflexivity).
    assert (served_by get_call s1 = Some (tt, after get_call s1)) as H2 by (vm_compute; reflexivity).
    rewrite app_assoc. eapply runs_call; [|exact H2|apply reload_next].
    eapply runs_call; [apply runs_start; vm_compute; reflexivity|exact H1|apply reload_next]. }
  destruct (st_issued s2) as [|[ar1 v1] [|[ar v] [|? ?]]] eqn:E; try (vm_compute in E; discriminate E).
  assert ((ar, v) ∈ st_issued s2) as Hin by (rewrite E; apply list_elem_of_In; simpl; tauto).
  assert (v_Subject v = "bob") as Hv.
  { pose proof (f_equal (λ l, v_Subject <$> l.*2) E) as E'. vm_compute in E'. injection E' as _ E'. done. }
  eexists _, ar, v. split; [rewrite <- E; exact Hin|]. split; [reflexivity|]. split; [exact Hv|].
  eapply (issued_established (A := plain_add) LoginFlow.Demo.new_areq LoginFlow.Demo.new_aresp
    LoginFlow.Demo.dpage (LoginFlow.Demo.srv SsoAlways) UpstreamFlow.UDemo.url UpstreamFlow.UDemo.exchange
    UpstreamFlow.UDemo.verify1 UpstreamFlow.UDemo.info1 id
    "icon" "static" (λ _ _ st, st)); [exact Hrun|exact Hin].
Defined.
