(* ===== verification/Cleaners.v ===== *)
(** * The background cleaners

    [startAuditCleaner] (the audit module) and [KubeSsoCleaner.Start] (the OIDC server) are the
    same loop: a cleanup at start, then one at each tick until the context is done, while the rest
    of the process keeps writing objects. The loop is modelled over the sequence of what happens:
    ticks, the end of the context, and writes of the other goroutines; the ticker may be late or
    skip ticks, and the API may fail.

    The theorems bound what is kept: with ticks at most [period] apart and an API that answers,
    nothing outlives its lifetime by more than [period]; in every history, nothing young is lost.
    Instants are those of the stored objects, which the API keeps to the second. *)

From S2P Require Import Prelude Values Proto K8s AuditTrail SsoStore.

(** ** The loop *)

Inductive event (W : Type) := Tick (now : Z) | Done | Elsewhere (now : Z) (f : W → W).
Arguments Tick {W}.
Arguments Done {W}.
Arguments Elsewhere {W}.

(** The [select] loop, [alive] until the context is done. *)
Fixpoint cleaner_loop {W} (cleanup : Z → W → W) (alive : bool) (evs : list (event W)) (w : W) : W :=
  match evs with
  | [] => w
  | Tick now :: evs => cleaner_loop cleanup alive evs (if alive then cleanup now w else w)
  | Done :: evs => cleaner_loop cleanup false evs w
  | Elsewhere _ f :: evs => cleaner_loop cleanup alive evs (f w)
  end.

Definition startAuditCleaner {W} `{ObjectStore W LoginAttempt} (recordLifetime now : Z)
    (evs : list (event W)) (w : W) : W :=
  let cleanup t := cleanupAudit t recordLifetime in cleaner_loop cleanup true evs (cleanup now w).

(** [KubeSsoCleaner.Start]. *)
Definition sso_Start {W} `{ObjectStore W SsoSession} (now : Z) (evs : list (event W)) (w : W) : W :=
  cleaner_loop cleanupOnce true evs (cleanupOnce now w).

(** The writes of the other goroutines: a login of the audit module, a commit of the session
    manager. *)
Definition login_event {W} `{ObjectStore W LoginAttempt} (marshal : claims → result string string)
    (exchange : IdentityRequest → result string IdentityResponse) (now : time) (request : IdentityRequest)
    : event W := Elsewhere (instant now) (λ w, (AuditTrail.Authenticate marshal exchange now request w).2).

Section commit.
Context {W : Type} `{ObjectStore W SsoSession} (sha256_hex : string → string).
Context (unmarshal : string → result string sessionEnvelope) (marshal_claims : claims → result string string).
Context (order : claims → list (string * value)).

Definition commit_event (now : Z) (token b : string) (expiry : option Z) : event W :=
  Elsewhere now (λ w, (Commit sha256_hex unmarshal marshal_claims order token b expiry w).2).
End commit.

(** ** Any cleaner *)

Section cleaner.
Context {W A : Type} `{ObjectStoreLaws W A} (expired : Z → A → bool).

Definition cleanup_of (now : Z) (w : W) : W :=
  match klist w with Err _ => w | Ok items => (sweep (expired now) items 0 0 w).2 end.

(** The API answered the listing and every deletion. *)
Definition no_error (now : Z) (w : W) : bool :=
  match klist w with Err _ => false | Ok items => bool_decide ((sweep (expired now) items 0 0 w).1.2 = 0) end.

(** A write at [now] adds nothing that is already expired. *)
Definition fresh_write (now : Z) (f : W → W) : Prop :=
  ∀ w k a, kobjects (f w) !! k = Some a → kobjects w !! k = Some a ∨ expired now a = false.

(** Expired objects stay expired. *)
Definition ages : Prop := ∀ t t' a, (t ≤ t')%Z → expired t' a = false → expired t a = false.

(** What happens keeps the schedule: time does not go back, a cleanup comes at most [period] after
    the last one and meets no error; the last argument is the time at the end. *)
Inductive on_time (period : Z) : Z → Z → W → list (event W) → Z → Prop :=
| on_time_nil last clock w : on_time period last clock w [] clock
| on_time_tick last clock w t evs e :
    (clock ≤ t ≤ last + period)%Z → no_error t w = true →
    on_time period t t (cleanup_of t w) evs e → on_time period last clock w (Tick t :: evs) e
| on_time_write last clock w t f evs e :
    (clock ≤ t ≤ last + period)%Z → fresh_write t f →
    on_time period last t (f w) evs e → on_time period last clock w (Elsewhere t f :: evs) e.

Lemma cleanup_of_spec now w :
  (∀ k a, kobjects (cleanup_of now w) !! k = Some a → kobjects w !! k = Some a) ∧
  (∀ k a, kobjects w !! k = Some a → expired now a = false → kobjects (cleanup_of now w) !! k = Some a) ∧
  (no_error now w = true → ∀ k a, kobjects (cleanup_of now w) !! k = Some a → expired now a = false).
Proof.
  unfold cleanup_of, no_error. destruct (klist w) as [l|e] eqn:Hl; [|by split_and!].
  destruct (sweep (expired now) l 0 0 w) as [[d e] w'] eqn:Hs. simpl.
  destruct (sweep_listing _ _ _ _ _ _ Hl Hs) as (H1 & H2 & H3). split_and!; [done|done|].
  intros ->%bool_decide_eq_true k a Ha. rewrite H3 in Ha by done.
  by apply map_lookup_filter_Some in Ha as [_ ?].
Qed.

(** On schedule, nothing is kept that was already expired [period] ago. *)
Lemma cleaner_bound period last clock w evs e :
  ages → on_time period last clock w evs e →
  (last ≤ clock ≤ last + period)%Z → (∀ k a, kobjects w !! k = Some a → expired last a = false) →
  ∀ k a, kobjects (cleaner_loop cleanup_of true evs w) !! k = Some a → expired (e - period) a = false.
Proof.
  intros Hages Ht. induction Ht as [last clock w|last clock w t evs e Hc Hn Ht IH|last clock w t f evs e Hc Hf Ht IH];
    intros Hlast Hw; simpl.
  - intros k a Ha. apply (Hages _ last); [lia|eauto].
  - apply IH; [lia|]. by apply cleanup_of_spec.
  - apply IH; [lia|]. intros k a Ha. destruct (Hf _ _ _ Ha) as [?|Hx]; [eauto|].
    apply (Hages _ t); [lia|done].
Qed.

(** What happens until [e], whatever the API answers: the ticks come before [e], and the other
    goroutines delete and overwrite nothing. *)
Definition before (e : Z) (ev : event W) : Prop :=
  match ev with
  | Tick t => (t ≤ e)%Z
  | Done => True
  | Elsewhere _ f => ∀ w k a, kobjects w !! k = Some a → kobjects (f w) !! k = Some a
  end.

(** In any history: nothing is destroyed that is not expired at its end. *)

Lemma cleaner_keeps e evs alive w k a :
  ages → Forall (before e) evs → kobjects w !! k = Some a → expired e a = false →
  kobjects (cleaner_loop cleanup_of alive evs w) !! k = Some a.
Proof.
  intros Hages Hevs. revert alive w. induction Hevs as [|[t| |t f] evs Hb _ IH]; intros alive w Ha Hx; simpl; [done| | |].
  - apply IH; [|done]. destruct alive; [|done]. apply cleanup_of_spec; [done|]. by apply (Hages t e).
  - by apply IH.
  - apply IH; [by apply Hb|done].
Qed.

(** Once the context is done the cleaner touches nothing. *)
Lemma cleaner_stopped evs w :
  cleaner_loop cleanup_of false evs w = cleaner_loop (λ _ w, w) false evs w.
Proof. revert w. induction evs as [|[t| |t f] evs IH]; intros w; simpl; auto. Qed.
End cleaner.

(** ** The audit records *)

Section audit_retention.
Context {W : Type} `{ObjectStoreLaws W LoginAttempt} (marshal : claims → result string string).

Definition too_old (lifetime now : Z) (a : LoginAttempt) : bool :=
  bool_decide (instant (la_When a) < now - lifetime)%Z.

Lemma too_old_ages lifetime : ages (too_old lifetime).
Proof. unfold ages, too_old. intros t t' a Ht. rewrite !bool_decide_eq_false. lia. Qed.

Lemma startAuditCleaner_loop lifetime now evs (w : W) :
  startAuditCleaner lifetime now evs w =
  cleaner_loop (cleanup_of (too_old lifetime)) true evs (cleanup_of (too_old lifetime) now w).
Proof. reflexivity. Qed.

(** A login adds at most its own record, dated now, and removes none. *)
Lemma login_writes exchange now request w k a :
  kobjects (AuditTrail.Authenticate marshal exchange now request w).2 !! k = Some a →
  kobjects w !! k = Some a ∨ la_When a = now.
Proof.
  unfold AuditTrail.Authenticate, createLoginAttemptRecord. destruct (exchange request) as [r|]; [|by left].
  destruct (kcreate _ _ w) as [[e|] w'] eqn:Hc; simpl.
  - apply kcreate_err in Hc as ->. by left.
  - apply kcreate_ok in Hc as [_ ->]. intros [[_ <-]|[_ ?]]%lookup_insert_Some; [by right|by left].
Qed.

Lemma login_keeps_records exchange now request w k a :
  kobjects w !! k = Some a →
  kobjects (AuditTrail.Authenticate marshal exchange now request w).2 !! k = Some a.
Proof.
  unfold AuditTrail.Authenticate, createLoginAttemptRecord. destruct (exchange request) as [r|]; [|done].
  destruct (kcreate _ _ w) as [[e|] w'] eqn:Hc; simpl.
  - by apply kcreate_err in Hc as ->.
  - apply kcreate_ok in Hc as [Hn ->]. intros Ha. rewrite lookup_insert_ne; [done|]. by intros <-; simplify_eq.
Qed.

Lemma login_fresh lifetime exchange now request :
  (0 ≤ lifetime)%Z →
  fresh_write (too_old lifetime) (instant now) (λ w, (AuditTrail.Authenticate marshal exchange now request w).2).
Proof.
  intros Hl w k a [?|Ha]%login_writes; [by left|right]. unfold too_old. rewrite Ha, bool_decide_eq_false. lia.
Qed.

(** C30. Retention of the audit trail. While the cleaner runs on schedule (a cleanup at least every
    [period], the API answering) next to the logins, no record is ever kept longer than the
    lifetime plus one period. And in every history, with late or failing cleanups and a cleaner
    that may stop, no record younger than the lifetime is lost. *)
Theorem audit_retention lifetime period start evs e (w : W) :
  (0 ≤ period)%Z →
  no_error (too_old lifetime) start w = true →
  on_time (too_old lifetime) period start start (cleanupAudit start lifetime w) evs e →
  (∀ k a, kobjects (startAuditCleaner lifetime start evs w) !! k = Some a →
     (e - instant (la_When a) ≤ lifetime + period)%Z) ∧
  (∀ evs' e' k a, Forall (before e') evs' → (start ≤ e')%Z →
     kobjects w !! k = Some a → (e' - instant (la_When a) ≤ lifetime)%Z →
     kobjects (startAuditCleaner lifetime start evs' w) !! k = Some a).
Proof.
  intros Hp Hn Ht. split.
  - intros k a Ha. rewrite startAuditCleaner_loop in Ha.
    eapply cleaner_bound in Ha; [| |exact Ht|lia|by apply cleanup_of_spec]; [|apply too_old_ages].
    unfold too_old in Ha. apply bool_decide_eq_false in Ha. lia.
  - intros evs' e' k a Hb Hs Ha Hy. rewrite startAuditCleaner_loop.
    assert (too_old lifetime e' a = false) as Hx by (unfold too_old; apply bool_decide_eq_false; lia).
    eapply cleaner_keeps; [apply too_old_ages|exact Hb| |exact Hx].
    apply cleanup_of_spec; [done|]. by eapply too_old_ages.
Qed.
End audit_retention.

(** ** The SSO sessions *)

Section sso_retention.
Context {W : Type} `{ObjectStoreLaws W SsoSession} (sha256_hex : string → string).
Context (unmarshal : string → result string sessionEnvelope) (marshal_claims : claims → result string string).
Context (order : claims → list (string * value)).

Lemma expired_ages : ages expired.
Proof.
  unfold ages, expired. intros t t' s Ht. rewrite !orb_false_iff.
  destruct (ss_Expiry s), (ss_Deadline s); rewrite ?bool_decide_eq_false; intros []; split; try done; lia.
Qed.

Lemma commit_fresh now token b expiry :
  (∀ x, expiry = Some x → (now ≤ x)%Z) →
  (∀ env d, unmarshal b = Ok env → env_Deadline env = Some d → (now ≤ d)%Z) →
  fresh_write expired now (λ w : W, (Commit sha256_hex unmarshal marshal_claims order token b expiry w).2).
Proof.
  intros Hx Hd w k a. destruct (Commit _ _ _ _ _ _ _ w) as [err w'] eqn:Hc. simpl.
  destruct (Commit_effect sha256_hex unmarshal marshal_claims order _ _ _ _ _ _ Hc) as [->|(env & ann & Hu & _ & _ & ->)]; [by left|].
  intros [[_ <-]|[_ ?]]%lookup_insert_Some; [right|by left].
  unfold expired, session_object; simpl. apply orb_false_iff.
  destruct expiry, (env_Deadline env) eqn:Hde; rewrite ?bool_decide_eq_false; split; try done;
    try (specialize (Hx _ eq_refl); lia); specialize (Hd _ _ Hu Hde); lia.
Qed.

(** While the cleaner runs on schedule, every stored session was still valid one period ago, by
    its expiry and by its deadline. *)
Lemma sso_sessions_swept period start evs e (w : W) :
  (0 ≤ period)%Z → no_error expired start w = true →
  on_time expired period start start (cleanupOnce start w) evs e →
  ∀ k s, kobjects (sso_Start start evs w) !! k = Some s →
    (∀ x, ss_Expiry s = Some x → (e - period ≤ x)%Z) ∧ (∀ d, ss_Deadline s = Some d → (e - period ≤ d)%Z).
Proof.
  intros Hp Hn Ht k s Hk.
  eapply (cleaner_bound expired) in Hk; [| |exact Ht|lia|by apply cleanup_of_spec]; [|apply expired_ages].
  unfold expired in Hk. apply orb_false_iff in Hk as [H1 H2].
  split; intros x Hs; rewrite Hs in *; [apply bool_decide_eq_false in H1|apply bool_decide_eq_false in H2]; lia.
Qed.
End sso_retention.

(** ** A concrete run *)

Definition demo_records : cluster LoginAttempt :=
  {| objs := {["old" := attempt_at 10; "new" := attempt_at 60]}; faults := [] |}.

Definition demo_history : list (event (cluster LoginAttempt)) :=
  [Tick 105; login_event (λ _, Err "no json") (λ _, Ok demo_response)
     {| Year := 2025; Month := 3; Day := 9; Hour := 12; Minute := 0; Second := 5; Nanosecond := 0;
        instant := 107 |} {| req_Login := "bob"; req_Password := "pw" |}; Tick 112].

Lemma audit_retention_witness :
  on_time (too_old 50) 10 100 100 (cleanupAudit 100 50 demo_records) demo_history 112 ∧
  size (kobjects (startAuditCleaner 50 100 demo_history demo_records)) = 1 ∧
  (∀ k a, kobjects (startAuditCleaner 50 100 demo_history demo_records) !! k = Some a →
     (112 - instant (la_When a) ≤ 50 + 10)%Z).
Proof.
  assert (on_time (too_old 50) 10 100 100 (cleanupAudit 100 50 demo_records) demo_history 112) as Ht.
  { apply on_time_tick; [lia|reflexivity|]. apply on_time_write; [simpl; lia|by apply login_fresh|].
    apply on_time_tick; [simpl; lia|reflexivity|]. apply on_time_nil. }
  split; [exact Ht|]. split; [reflexivity|].
  refine (proj1 (audit_retention 50 10 100 demo_history 112 demo_records _ _ Ht)); [lia|reflexivity].
Defined.
