(* ===== verification/Startup.v ===== *)
(** * Starting a process

    What the commands of kubauth share: the default ports ([internal/global/defaults.go]), the
    client of the API server ([internal/k8sapi]), a start-up as a sequence of calls each of which
    may end the process with an exit code, and the preparation of the servers of a controller
    manager (TLS options, certificates, metrics), which [cmd/oidc] and [cmd/ucrd] have in common.

    The calls go to libraries (controller-runtime, the API server, files), so their answers are
    arguments; what is modelled is the order of the calls, their parameters, and what the process
    does with each answer. *)

From stdpp Require Import pretty.
From S2P Require Import Prelude Paths LoadConfig HttpServer.

(** ** defaults.go *)

Record manager_ports := { Entry : Z; HealthProbe : Z; Webhook : Z; Metrics : Z }.
Record default_ports := {
  Oidc : manager_ports;
  Ucrd : manager_ports;
  Ldap_Entry : Z;
  Merger_Entry : Z;
  Logger_Entry : Z;
}.

Definition DefaultPorts : default_ports := {|
  Oidc := {| Entry := 6801; HealthProbe := 8110; Webhook := 9443; Metrics := 0 |};
  Ucrd := {| Entry := 6802; HealthProbe := 8111; Webhook := 9444; Metrics := 0 |};
  Ldap_Entry := 6803;
  Merger_Entry := 6804;
  Logger_Entry := 6805;
|}.

(** [fmt.Sprintf(":%d", port)] and [fmt.Sprintf("http://localhost:%d", port)]. *)
Definition port_addr (port : Z) : string := ":" +:+ pretty port.
Definition localhost_url (port : Z) : string := "http://localhost:" +:+ pretty port.

(** ** k8sapi.go *)

Section k8sapi.
Context {Cfg Client Clientset : Type}.
Context (InClusterConfig : result string Cfg) (UserHomeDir : result string string).
Context (BuildConfigFromFlags : string → result string Cfg).

(** [GetRestConfig]: the configuration of the pod, or else the file named by [KUBECONFIG], or
    else the one of the home directory. *)
Definition GetRestConfig (KUBECONFIG : string) : result string Cfg :=
  match InClusterConfig with
  | Ok config => Ok config
  | Err _ =>
      match UserHomeDir with
      | Err e => Err ("unable to locate home directory: " +:+ e)
      | Ok home =>
          let kubeconfig := if str_empty KUBECONFIG then Join (Join home ".kube") "config" else KUBECONFIG in
          match BuildConfigFromFlags kubeconfig with
          | Err e => Err ("unable to build kubernetes config: " +:+ e)
          | Ok config => Ok config
          end
      end
  end.

Definition GetKubeClientFromConfig (client_New : Cfg → result string Client) (config : Cfg) : result string Client :=
  match client_New config with
  | Err e => Err ("unable to build kubernetes client: " +:+ e)
  | Ok c => Ok c
  end.

Definition GetKubeClient (client_New : Cfg → result string Client) (KUBECONFIG : string) : result string Client :=
  try! config <- GetRestConfig KUBECONFIG; GetKubeClientFromConfig client_New config.

Definition GetClientSet (NewForConfig : Cfg → result string Clientset) (KUBECONFIG : string) : result string Clientset :=
  try! config <- GetRestConfig KUBECONFIG; NewForConfig config.
End k8sapi.

(** ** Calls and exit codes *)

(** The options of a manager. *)
Inductive tls_opt := DisableHTTP2 | UseCertificate (cert key : string).

Record manager_options := {
  mo_MetricsAddr : string;
  mo_MetricsSecure : bool;
  mo_MetricsFilter : bool;
  mo_MetricsTLS : list tls_opt;
  mo_WebhookPort : Z;
  mo_WebhookTLS : list tls_opt;
  mo_ProbeAddr : string;
  mo_LeaderElection : bool;
  mo_LeaderElectionID : string;
  mo_CacheNamespace : string;
}.

(** What a start-up asks of the outside; [S] is the servers it runs. *)
Inductive op (S : Type) :=
| LoadConfigFile (file : string)
| GetConfig
| NewKubeClient
| NewCertWatcher (cert key : string)
| NewManager (o : manager_options)
| NewAuthenticator
| IndexField (kind index : string)
| NewController (name : string)
| SetupWebhook (kind : string)
| AddCertWatcher (cert key : string)
| AddCheck (name : string)
| AddCleaner (namespace : string) (period : Z)
| GoCleaner (namespace : string) (lifetime period : Z)
| ReadTemplate (file : string)
| SetupServer
| AddServer (name : string) (s : S)
| StartServer (name : string) (s : S)
| StartManager.
Arguments LoadConfigFile {S}.
Arguments GetConfig {S}.
Arguments NewKubeClient {S}.
Arguments NewCertWatcher {S}.
Arguments NewManager {S}.
Arguments NewAuthenticator {S}.
Arguments IndexField {S}.
Arguments NewController {S}.
Arguments SetupWebhook {S}.
Arguments AddCertWatcher {S}.
Arguments AddCheck {S}.
Arguments AddCleaner {S}.
Arguments GoCleaner {S}.
Arguments ReadTemplate {S}.
Arguments SetupServer {S}.
Arguments AddServer {S}.
Arguments StartServer {S}.
Arguments StartManager {S}.

Create HintDb startup.

(** A start-up: given the calls made so far, it ends the process with an exit code or goes on. *)
Definition startup (S A : Type) : Type := list (op S) → result Z A * list (op S).

Section startup.
Context {S : Type}.

#[global] Instance startup_ret : MRet (startup S) := λ A a log, (Ok a, log).
#[global] Instance startup_bind : MBind (startup S) := λ A B k m log,
  match m log with
  | (Ok a, log') => k a log'
  | (Err code, log') => (Err code, log')
  end.

Definition exit {A} (code : Z) : startup S A := λ log, (Err code, log).

(** [os.Exit(code)] when the test holds. *)
Definition exit_if (b : bool) (code : Z) : startup S unit := if b then exit code else mret tt.

(** A call that answers [r]; an error ends the process. *)
Definition call {A} (o : op S) (r : result string A) (code : Z) : startup S A := λ log,
  match r with
  | Ok a => (Ok a, log ++ [o])
  | Err _ => (Err code, log ++ [o])
  end.

(** A panic ends the process with 2. *)
Definition or_panic {A} (o : option A) : startup S A := match o with Some a => mret a | None => exit 2 end.

(** [misc.NewLogger]. *)
Definition new_logger (c : LogConfig) : startup S unit :=
  match NewLogger (Some c) with Ok _ => mret tt | Err _ => exit 2 end.

(** The same for a call without a value; [answers] is the errors of the calls. *)
Context (answers : op S → result string unit).
Definition ask (o : op S) (code : Z) : startup S unit := call o (answers o) code.
Definition ask_if (b : bool) (o : op S) (code : Z) : startup S unit := if b then ask o code else mret tt.
End startup.

(** *** What is known of a start-up that goes on *)

Section runs.
Context {S : Type}.

Lemma bind_run {A B} (m : startup S A) (k : A → startup S B) log :
  (m ≫= k) log = match m log with (Ok a, log') => k a log' | (Err code, log') => (Err code, log') end.
Proof. reflexivity. Qed.

Lemma bind_ok {A B} (m : startup S A) (k : A → startup S B) log b log' :
  (m ≫= k) log = (Ok b, log') ↔ ∃ a log1, m log = (Ok a, log1) ∧ k a log1 = (Ok b, log').
Proof. unfold mbind, startup_bind. destruct (m log) as [[a|c] l]; naive_solver. Qed.

Lemma exit_if_ok b code (log : list (op S)) u log' : exit_if b code log = (Ok u, log') ↔ b = false ∧ log' = log.
Proof. destruct b, u; unfold exit_if, exit, mret, startup_ret; naive_solver. Qed.

Lemma call_ok {A} (o : op S) (r : result string A) code log a log' :
  call o r code log = (Ok a, log') ↔ r = Ok a ∧ log' = log ++ [o].
Proof. unfold call. destruct r; naive_solver. Qed.

Lemma mret_ok {A} (a b : A) (log log' : list (op S)) : (mret a : startup S A) log = (Ok b, log') ↔ a = b ∧ log' = log.
Proof. unfold mret, startup_ret. naive_solver. Qed.

Lemma or_panic_ok {A} (o : option A) (log : list (op S)) a log' :
  or_panic o log = (Ok a, log') ↔ o = Some a ∧ log' = log.
Proof. destruct o; simpl; [rewrite mret_ok|unfold exit]; naive_solver. Qed.

Lemma new_logger_ok c (log : list (op S)) u log' :
  new_logger c log = (Ok u, log') ↔ (∃ h, NewLogger (Some c) = Ok h) ∧ log' = log.
Proof. unfold new_logger. destruct u, (NewLogger (Some c)); [rewrite mret_ok|unfold exit]; naive_solver. Qed.

Context (answers : op S → result string unit).

Lemma ask_ok o code log u log' : ask answers o code log = (Ok u, log') ↔ answers o = Ok u ∧ log' = log ++ [o].
Proof. apply call_ok. Qed.

Lemma ask_if_ok b o code log u log' :
  ask_if answers b o code log = (Ok u, log') ↔
  (b = true → answers o = Ok u) ∧ log' = log ++ (if b then [o] else []).
Proof.
  destruct b, u; simpl; [rewrite ask_ok; naive_solver|]. unfold mret, startup_ret. rewrite app_nil_r. naive_solver.
Qed.

End runs.

(** Inverts the steps of a start-up that went on. *)
Ltac started :=
  repeat match goal with
  | H : (_ ≫= _) _ = (Ok _, _) |- _ => apply bind_ok in H as (? & ? & ? & ?)
  | H : exit_if _ _ _ = (Ok _, _) |- _ => apply exit_if_ok in H as [? ->]
  | H : ask _ _ _ _ = (Ok _, _) |- _ => apply ask_ok in H as [? ->]
  | H : ask_if _ _ _ _ _ = (Ok _, _) |- _ => apply ask_if_ok in H as [? ->]
  | H : call _ _ _ _ = (Ok _, _) |- _ => apply call_ok in H as [? ->]
  | H : mret _ _ = (Ok _, _) |- _ => apply mret_ok in H as [? ->]
  | H : or_panic _ _ = (Ok _, _) |- _ => apply or_panic_ok in H as [? ->]
  | H : new_logger _ _ = (Ok _, _) |- _ => apply new_logger_ok in H as [[? ?] ->]
  | H : (match ?x with (_, _) => _ end) _ = (Ok _, _) |- _ => is_var x; destruct x
  end.

(** A start-up only adds calls. *)
Definition extends {S A} (m : startup S A) : Prop := ∀ log, ∃ l, (m log).2 = log ++ l.

Lemma extends_bind {S A B} (m : startup S A) (k : A → startup S B) :
  extends m → (∀ a, extends (k a)) → extends (m ≫= k).
Proof.
  intros Hm Hk log. unfold mbind, startup_bind. destruct (Hm log) as [l Hl].
  destruct (m log) as [[a|c] log1]; simpl in *; subst; [|eauto].
  destruct (Hk a (log ++ l)) as [l' ->]. exists (l ++ l'). by rewrite app_assoc.
Qed.

Lemma extends_mret {S A} (a : A) : extends (S := S) (mret a).
Proof. intros log. exists []. by rewrite app_nil_r. Qed.

Lemma extends_exit {S A} code : extends (S := S) (A := A) (exit code).
Proof. intros log. exists []. by rewrite app_nil_r. Qed.

Lemma extends_call {S A} (o : op S) (r : result string A) code : extends (call o r code).
Proof. intros log. unfold call. destruct r; eexists; reflexivity. Qed.

Lemma extends_if {S A} (b : bool) (m k : startup S A) : extends m → extends k → extends (if b then m else k).
Proof. by destruct b. Qed.

Lemma extends_or_panic {S A} (o : option A) : extends (S := S) (or_panic o).
Proof. destruct o; [apply extends_mret|apply extends_exit]. Qed.

Lemma extends_new_logger {S} c : extends (S := S) (new_logger c).
Proof. unfold new_logger. destruct (NewLogger _); [apply extends_mret|apply extends_exit]. Qed.

Lemma extends_pair {S A B C} (x : A * B) (k : A → B → startup S C) :
  (∀ a b, extends (k a b)) → extends (let '(a, b) := x in k a b).
Proof. by destruct x. Qed.

Lemma extends_ask {S} (answers : op S → result string unit) o code : extends (ask answers o code).
Proof. apply extends_call. Qed.

Lemma extends_ask_if {S} (answers : op S → result string unit) b o code : extends (ask_if answers b o code).
Proof. destruct b; [apply extends_call|apply extends_mret]. Qed.

Lemma extends_exit_if {S} b code : extends (S := S) (exit_if b code).
Proof. destruct b; [apply extends_exit|apply extends_mret]. Qed.

#[export] Hint Resolve extends_ask extends_ask_if extends_exit_if extends_bind extends_mret extends_exit extends_call extends_if extends_or_panic
  extends_new_logger extends_pair : startup.

(** ** The servers of a manager

    The TLS options of the webhook and metrics servers are Go slices that start as the same slice,
    so the backing arrays are modelled: a slice is an array of the memory with a length, and
    [append] writes in place when the array has room. *)

Record slice := { sl_array : nat; sl_len : nat }.

(** The arrays: their elements, and their capacity. *)
Abbreviation memory := (list (list tls_opt * nat)).

Definition nil_slice : slice := {| sl_array := 0; sl_len := 0 |}.

(** The memory starts with the empty array of the nil slice. *)
Definition memory0 : memory := [([], 0)].

Definition read_slice (m : memory) (s : slice) : list tls_opt :=
  match m !! sl_array s with Some (l, _) => take (sl_len s) l | None => [] end.

Section append.
(** The capacity of a new array for so many elements: the language only says that it is enough. *)
Context (grow : nat → nat).

Definition append (m : memory) (s : slice) (x : tls_opt) : memory * slice :=
  match m !! sl_array s with
  | Some (l, cap) =>
      if decide (sl_len s < cap)
      then (<[sl_array s := (take (sl_len s) l ++ [x] ++ drop (S (sl_len s)) l, cap)]> m,
            {| sl_array := sl_array s; sl_len := S (sl_len s) |})
      else (m ++ [(take (sl_len s) l ++ [x], grow (S (sl_len s)))], {| sl_array := length m; sl_len := S (sl_len s) |})
  | None => (m, s)
  end.

(** The flags [cmd/oidc] and [cmd/ucrd] have in common. *)
Record manager_flags := {
  probeAddr : string;
  enableLeaderElection : bool;
  enableHTTP2 : bool;
  enableWebhook : bool;
  webhookPort : Z;
  webhookCertPath : string;
  webhookCertName : string;
  webhookCertKey : string;
  metricsAddr : string;
  secureMetrics : bool;
  metricsCertPath : string;
  metricsCertName : string;
  metricsCertKey : string;
}.

Definition webhook_cert (f : manager_flags) : option (string * string) :=
  if str_empty (webhookCertPath f) then None
  else Some (Join (webhookCertPath f) (webhookCertName f), Join (webhookCertPath f) (webhookCertKey f)).

Definition metrics_cert (f : manager_flags) : option (string * string) :=
  if str_empty (metricsCertPath f) then None
  else Some (Join (metricsCertPath f) (metricsCertName f), Join (metricsCertPath f) (metricsCertKey f)).

Definition append_cert (m : memory) (s : slice) (c : option (string * string)) : memory * slice :=
  match c with Some (cert, key) => append m s (UseCertificate cert key) | None => (m, s) end.

(** The two slices of options, and the memory once both servers are configured. *)
Definition tls_options (f : manager_flags) : memory * slice * slice :=
  let '(m, tlsOpts) := if enableHTTP2 f then (memory0, nil_slice) else append memory0 nil_slice DisableHTTP2 in
  let '(m, webhookTLSOpts) := append_cert m tlsOpts (webhook_cert f) in
  let '(m, metricsTLSOpts) := append_cert m tlsOpts (metrics_cert f) in
  (m, webhookTLSOpts, metricsTLSOpts).

(** The options as the servers read them when they start. *)
Definition webhook_tls (f : manager_flags) : list tls_opt :=
  let '(m, webhookTLSOpts, _) := tls_options f in read_slice m webhookTLSOpts.
Definition metrics_tls (f : manager_flags) : list tls_opt :=
  let '(m, _, metricsTLSOpts) := tls_options f in read_slice m metricsTLSOpts.

Definition manager_options_of (f : manager_flags) (cacheNamespace : string) : manager_options := {|
  mo_MetricsAddr := metricsAddr f;
  mo_MetricsSecure := secureMetrics f;
  mo_MetricsFilter := secureMetrics f;
  mo_MetricsTLS := metrics_tls f;
  mo_WebhookPort := webhookPort f;
  mo_WebhookTLS := webhook_tls f;
  mo_ProbeAddr := probeAddr f;
  mo_LeaderElection := enableLeaderElection f;
  mo_LeaderElectionID := "33b8e6ab.kubotal.io";
  mo_CacheNamespace := cacheNamespace;
|}.

Section manager.
Context {S : Type} (answers : op S → result string unit).

Definition ask_cert (mk : string → string → op S) (c : option (string * string)) : startup S unit :=
  match c with Some (cert, key) => ask answers (mk cert key) 1 | None => mret tt end.

(** The certificate watchers, then the manager. *)
Definition create_manager (f : manager_flags) (cacheNamespace : string) : startup S unit :=
  ask_cert NewCertWatcher (webhook_cert f);;
  ask_cert NewCertWatcher (metrics_cert f);;
  ask answers GetConfig 1;;
  ask answers (NewManager (manager_options_of f cacheNamespace)) 1.

Fixpoint setup_webhooks (kinds : list string) : startup S unit :=
  match kinds with
  | [] => mret tt
  | k :: kinds => ask answers (SetupWebhook k) 1;; setup_webhooks kinds
  end.

(** The webhooks, the watchers as runnables, the probes. *)
Definition populate_manager (f : manager_flags) (webhooks : list string) : startup S unit :=
  (if enableWebhook f then setup_webhooks webhooks else mret tt);;
  ask_cert AddCertWatcher (metrics_cert f);;
  ask_cert AddCertWatcher (webhook_cert f);;
  ask answers (AddCheck "healthz") 1;;
  ask answers (AddCheck "readyz") 1.

(** The calls of a start-up that gets past these two. *)
Definition cert_ops (mk : string → string → op S) (c : option (string * string)) : list (op S) :=
  match c with Some (cert, key) => [mk cert key] | None => [] end.

Definition manager_ops (f : manager_flags) (cacheNamespace : string) : list (op S) :=
  cert_ops NewCertWatcher (webhook_cert f) ++ cert_ops NewCertWatcher (metrics_cert f) ++
  [GetConfig; NewManager (manager_options_of f cacheNamespace)].

Definition populate_ops (f : manager_flags) (webhooks : list string) : list (op S) :=
  (if enableWebhook f then SetupWebhook <$> webhooks else []) ++
  cert_ops AddCertWatcher (metrics_cert f) ++ cert_ops AddCertWatcher (webhook_cert f) ++
  [AddCheck "healthz"; AddCheck "readyz"].

Lemma ask_cert_ok mk c log u log' : ask_cert mk c log = (Ok u, log') → log' = log ++ cert_ops mk c.
Proof. destruct c as [[]|]; simpl; intros H; started; by rewrite ?app_nil_r. Qed.

Lemma setup_webhooks_ok kinds log u log' :
  setup_webhooks kinds log = (Ok u, log') → log' = log ++ (SetupWebhook <$> kinds).
Proof.
  revert log. induction kinds as [|k kinds IH]; intros log H; simpl in *; started; [by rewrite app_nil_r|].
  match goal with H : setup_webhooks _ _ = _ |- _ => apply IH in H as -> end. by rewrite <- app_assoc.
Qed.

Lemma create_manager_ok f ns log u log' : create_manager f ns log = (Ok u, log') → log' = log ++ manager_ops f ns.
Proof.
  unfold create_manager, manager_ops. intros H. started.
  repeat match goal with H : ask_cert _ _ _ = _ |- _ => apply ask_cert_ok in H as -> end.
  by rewrite <- !app_assoc.
Qed.

Lemma populate_manager_ok f webhooks log u log' :
  populate_manager f webhooks log = (Ok u, log') → log' = log ++ populate_ops f webhooks.
Proof.
  unfold populate_manager, populate_ops. intros H. started.
  repeat match goal with H : ask_cert _ _ _ = _ |- _ => apply ask_cert_ok in H as -> end.
  destruct (enableWebhook f); started;
    try match goal with H : setup_webhooks _ _ = _ |- _ => apply setup_webhooks_ok in H as -> end;
    by rewrite <- !app_assoc.
Qed.
End manager.

(** What each server is meant to use. *)
Definition http2_opts (f : manager_flags) : list tls_opt := if enableHTTP2 f then [] else [DisableHTTP2].
Definition cert_opts (c : option (string * string)) : list tls_opt :=
  match c with Some (cert, key) => [UseCertificate cert key] | None => [] end.

(** With an [append] that allocates no more than one option for the first one, as the compiler's
    does, each server has its own certificate and, by default, no HTTP/2. *)
Lemma tls_options_separate f :
  grow 1 = 1 →
  webhook_tls f = http2_opts f ++ cert_opts (webhook_cert f) ∧
  metrics_tls f = http2_opts f ++ cert_opts (metrics_cert f).
Proof.
  intros Hg. unfold webhook_tls, metrics_tls, tls_options, http2_opts.
  destruct (enableHTTP2 f), (webhook_cert f) as [[]|], (metrics_cert f) as [[]|];
    unfold append_cert, append; simpl; rewrite ?Hg; split; reflexivity.
Qed.

(** An [append] that leaves room would make the two slices share an array, and the webhook server
    present the certificate of the metrics server. *)
Lemma tls_options_shared f cert key cert' key' :
  1 < grow 1 → enableHTTP2 f = false →
  webhook_cert f = Some (cert, key) → metrics_cert f = Some (cert', key') →
  webhook_tls f = [DisableHTTP2; UseCertificate cert' key'].
Proof.
  intros Hg H2 Hw Hm. unfold webhook_tls, tls_options. rewrite H2, Hw, Hm. unfold append_cert, append; simpl.
  rewrite decide_True by done. simpl. rewrite decide_True by done. reflexivity.
Qed.
End append.
