(* ===== verification/Modules.v ===== *)
(** * The commands of the identity modules

    [merger], [audit], [ldap] and [ucrd]: flags with their defaults, and the [Run] of each command
    up to the server it starts. All four end with the same identity endpoint, on [/v1/identity],
    in front of their authenticator. *)

From stdpp Require Import pretty.
From S2P Require Import HttpServer Ldap HttpClient.
From S2P Require Import Prelude Values Misc Paths LoadConfig Proto K8s Protector Identity Provider Merger Ucrd AuditTrail.
From S2P Require Import HttpProvider Session Url Server Endpoints Routes EndToEnd Startup.

(** ** Flags *)

(** The flags of [httpsrv] with their defaults. *)
Definition default_http (addr : string) (port : Z) : HttpServer.Config := {|
  BindAddr := addr; BindPort := port; HttpServer.Tls := false; CertDir := ""; CertName := "tls.crt"; KeyName := "tls.key";
  HttpServer.DumpExchanges := 0; AllowedOrigins := []
|}.

Definition default_log : LogConfig := {| log_Level := "INFO"; log_Mode := "text" |}.

(** The identity service a module calls. *)
Definition default_client (port : Z) : HttpClient.Config := {|
  BaseURL := localhost_url port; RootCaPaths := []; RootCaDatas := []; RootCaBytes := [];
  InsecureSkipVerify := false; HttpClient.DumpExchanges := false; HttpAuth_ := None; Label := ""
|}.

Record mergerParams := {
  mp_logConfig : LogConfig;
  mp_httpConfig : HttpServer.Config;
  mp_bfaProtection : bool;
  mp_configFile : string;
}.

Definition merger_defaults : mergerParams := {|
  mp_logConfig := default_log;
  mp_httpConfig := default_http "127.0.0.1" (Merger_Entry DefaultPorts);
  mp_bfaProtection := false;
  mp_configFile := "./config.yaml"
|}.

Record ldapParams := {
  lp_logConfig : LogConfig;
  lp_httpConfig : HttpServer.Config;
  lp_bfaProtection : bool;
  lp_configFile : string;
  lp_namespace : string;
}.

Definition ldap_defaults : ldapParams := {|
  lp_logConfig := default_log;
  lp_httpConfig := default_http "127.0.0.1" (Ldap_Entry DefaultPorts);
  lp_bfaProtection := false;
  lp_configFile := "./config.yaml";
  lp_namespace := ""
|}.

Record auditParams := {
  ap_logConfig : LogConfig;
  ap_httpConfig : HttpServer.Config;
  ap_bfaProtection : bool;
  ap_idProviderHttpConfig : HttpClient.Config;
  ap_namespace : string;
  ap_recordLifetime : Z;
  ap_cleanupPeriod : Z;
}.

Definition audit_defaults : auditParams := {|
  ap_logConfig := default_log;
  ap_httpConfig := default_http "127.0.0.1" (Logger_Entry DefaultPorts);
  ap_bfaProtection := false;
  ap_idProviderHttpConfig := default_client (Merger_Entry DefaultPorts);
  ap_namespace := "kubauth-audit";
  ap_recordLifetime := 8 * (60 * minute);
  ap_cleanupPeriod := 5 * minute
|}.

Record ucrdFlags := {
  uf_logConfig : LogConfig;
  uf_httpConfig : HttpServer.Config;
  uf_bfaProtection : bool;
  uf_manager : manager_flags;
  uf_usersNamespace : string;
}.

Definition metrics_default (port : Z) : string := if bool_decide (port ≠ 0)%Z then port_addr port else "0".

Definition ucrd_manager_defaults : manager_flags := {|
  probeAddr := port_addr (HealthProbe (Ucrd DefaultPorts));
  enableLeaderElection := false;
  enableHTTP2 := false;
  enableWebhook := true;
  webhookPort := Webhook (Ucrd DefaultPorts);
  webhookCertPath := ""; webhookCertName := "tls.crt"; webhookCertKey := "tls.key";
  metricsAddr := metrics_default (Metrics (Ucrd DefaultPorts));
  secureMetrics := true;
  metricsCertPath := ""; metricsCertName := "tls.crt"; metricsCertKey := "tls.key"
|}.

Definition ucrd_defaults : ucrdFlags := {|
  uf_logConfig := default_log;
  uf_httpConfig := default_http "127.0.0.1" (Entry (Ucrd DefaultPorts));
  uf_bfaProtection := false;
  uf_manager := ucrd_manager_defaults;
  uf_usersNamespace := ""
|}.

(** ** The identity server *)

Section server.
Context {B T : Type}.

Abbreviation identity_endpoint := (IdentityHandler B T * protector)%type.

Record identity_server := {
  is_config : HttpServer.Config;
  is_router : mux identity_endpoint;
}.

Definition identity_handler (a : T) (bfaProtection : bool) : identity_endpoint :=
  ({| Validators := [OnlyGetValidator]; Authenticator_ := a |}, Protector.New bfaProtection []).

(** [None] is a panic of the router. *)
Definition new_identity_server (config : HttpServer.Config) (a : T) (bfaProtection : bool) : option identity_server :=
  router ← handle [] "/v1/identity" (identity_handler a bfaProtection);
  Some {| is_config := config; is_router := router |}.

(** What the server answers to a request; [None] is the 404 of the router. *)
Definition module_answer {W} `{Proto.Authenticator W T} (Decode : B → result string IdentityRequest)
    (s : identity_server) (method path : string) (body : B) (now : Z) (w : W)
    : option (http_out * Z * protector * W) :=
  match route (is_router s) method path with
  | Serve (h, p) => Some (ServeHTTP Decode h p now {| in_Method := method; in_Body := body |} w)
  | _ => None
  end.

Context (answers : op identity_server → result string unit).

(** The end of the three commands that run a server of their own. *)
Definition serve_identity (name : string) (config : HttpServer.Config) (bfaProtection : bool) (a : T)
    (before : startup identity_server unit) : startup identity_server unit :=
  s ← or_panic (new_identity_server config a bfaProtection);
  before;;
  ask answers (StartServer name s) 1.
End server.
Arguments identity_server : clear implicits.

(** ** merger *)

(** The error of a configuration, for the exit code alone. *)
Definition loaded {C} (r : result load_error C) : result string C :=
  match r with Ok c => Ok c | Err _ => Err "Unable to load configuration" end.

Section merger.
Context {B : Type} (answers : op (identity_server B mergerAuthenticator) → result string unit).
(** The YAML decoder and the file system of [LoadConfig]. *)
Context (decode : list IdProviderConfig → string → decoded (list IdProviderConfig)).
Context (read_file : string → result string string) (env : gmap string string) (cwd : result string string).
(** [fmt.Sprintf], and the exchange with a configured service. *)
Context (Sprintf : string → string → string).
Context (connect : IdProviderConfig → result string (IdentityRequest → result string IdentityResponse)).

Definition merger_Run (f : mergerParams) : startup (identity_server B mergerAuthenticator) unit :=
  new_logger (mp_logConfig f);;
  '(configPath, r) ← or_panic (LoadConfig decode read_file env cwd (mp_configFile f) []);
  config ← call (LoadConfigFile (mp_configFile f)) (loaded r) 2;
  a ← call NewAuthenticator (Merger.New (λ c, Provider.New Sprintf c (connect c)) config) 2;
  serve_identity answers "mergerConnector" (mp_httpConfig f) (mp_bfaProtection f) a (mret tt).
End merger.

(** ** ldap *)

(** [path.Dir]. *)
Definition Dir (p : string) : string :=
  match reverse (split_path p) with
  | [] | [_] => Clean ""
  | _ :: rest => Clean (join_path (reverse rest) +:+ "/")
  end.

(** [&config.Config{}]. *)
Definition ldap_config0 : LdapConfig := {|
  Host := ""; Port := ""; TimeoutSec := 0; InsecureNoSSL := false; Ldap.InsecureSkipVerify := false;
  StartTLS := false; RootCaPath := ""; RootCaData := ""; RootCaSecret := ""; RootCaSecretPath := "";
  ClientCert := ""; ClientKey := ""; BindDN := ""; BindPW := "";
  UserSearch := {| us_BaseDN := ""; us_Filter := ""; us_LoginAttr := ""; us_Scope := "";
                   us_NumericalIdAttr := ""; us_EmailAttr := ""; us_CnAttr := "" |};
  GroupSearch := {| gs_BaseDN := ""; gs_Filter := ""; gs_Scope := ""; gs_NameAttr := "";
                    gs_LinkUserAttr := ""; gs_LinkGroupAttr := "" |}
|}.

Section ldap.
Context {B : Type} (answers : op (identity_server B ldapAuthenticator) → result string unit).
Context (decode : LdapConfig → string → decoded LdapConfig).
Context (read_file : string → result string string) (env : gmap string string) (cwd : result string string).
Context (files : environment).

Definition ldap_Run (f : ldapParams) : startup (identity_server B ldapAuthenticator) unit :=
  new_logger (lp_logConfig f);;
  '(configPath, r) ← or_panic (LoadConfig decode read_file env cwd (lp_configFile f) ldap_config0);
  config ← call (LoadConfigFile (lp_configFile f)) (loaded r) 2;
  ask answers NewKubeClient 1;;
  a ← call NewAuthenticator (Ldap.New files (Dir configPath) (lp_namespace f) config) 2;
  serve_identity answers "ldapConnector" (lp_httpConfig f) (lp_bfaProtection f) a.1 (mret tt).
End ldap.

(** ** audit *)

(** A client of an identity service. *)
Record http_client (cert : Type) := { hc_config : HttpClient.Config; hc_tls : @tls_setup cert }.
Arguments hc_config {cert}.
Arguments hc_tls {cert}.

Record auditAuthenticator (cert : Type) := { aa_httpClient : http_client cert; aa_namespace : string }.
Arguments aa_httpClient {cert}.
Arguments aa_namespace {cert}.

Abbreviation bytes := (list Ascii.ascii).

Section audit.
Context {cert : Type} (pem_decode : bytes → option (string * bytes) * bytes).
Context (ParseCertificate : bytes → result string cert) (Subject : cert → string).
Context (ReadFile : string → result string bytes) (b64_decode : string → result string bytes).
Context (parse_scheme : string → result string string) (SystemCertPool : result string (list cert)).

(** [httpclient.New]; [None] is a panic. *)
Definition new_client (config : HttpClient.Config) : option (result string (http_client cert)) :=
  r ← HttpClient.New pem_decode ParseCertificate Subject ReadFile b64_decode parse_scheme SystemCertPool config;
  Some (try! t <- r; Ok {| hc_config := config; hc_tls := t |}).

(** [authenticator.New] of the audit module. *)
Definition audit_New (config : HttpClient.Config) (namespace : string)
    : option (result string (auditAuthenticator cert)) :=
  r ← new_client config;
  Some (try! c <- r; Ok {| aa_httpClient := c; aa_namespace := namespace |}).

Context {B : Type} (answers : op (identity_server B (auditAuthenticator cert)) → result string unit).

Definition audit_Run (f : auditParams) : startup (identity_server B (auditAuthenticator cert)) unit :=
  new_logger (ap_logConfig f);;
  exit_if (str_empty (ap_namespace f)) 1;;
  ask answers GetConfig 1;;
  ask answers NewKubeClient 1;;
  r ← or_panic (audit_New (ap_idProviderHttpConfig f) (ap_namespace f));
  a ← call NewAuthenticator r 2;
  serve_identity answers "auditModule" (ap_httpConfig f) (ap_bfaProtection f) a
    (if bool_decide (0 < ap_cleanupPeriod f)%Z
     then call (GoCleaner (ap_namespace f) (ap_recordLifetime f) (ap_cleanupPeriod f)) (Ok tt) 0
     else mret tt).
End audit.

(** ** ucrd *)

Section ucrd.
Context {B : Type} (answers : op (identity_server B crd_client) → result string unit) (grow : nat → nat).
(** The cached client of the manager, on a namespace. *)
Context (client_in : string → crd_client).

(** The server, the index of the group bindings by user, and the start. *)
Definition ucrd_serve (f : ucrdFlags) : startup (identity_server B crd_client) unit :=
  s ← or_panic (new_identity_server (uf_httpConfig f) (client_in (uf_usersNamespace f)) (uf_bfaProtection f));
  ask answers (AddServer "userIdSrv" s) 1;;
  ask answers (IndexField "GroupBinding" "userkey") 1;;
  ask answers StartManager 1.

Definition ucrd_Run (f : ucrdFlags) : startup (identity_server B crd_client) unit :=
  new_logger (uf_logConfig f);;
  exit_if (str_empty (uf_usersNamespace f)) 1;;
  create_manager grow answers (uf_manager f) (uf_usersNamespace f);;
  populate_manager answers (uf_manager f) ["User"; "Group"; "GroupBinding"];;
  ucrd_serve f.
End ucrd.

(** ** What the modules serve *)

Section serves.
Context {B T : Type}.

Lemma new_identity_server_spec config (a : T) bfa :
  new_identity_server (B := B) config a bfa =
  Some {| is_config := config; is_router := [(parse_pattern "/v1/identity", identity_handler a bfa)] |}.
Proof. reflexivity. Qed.

(** The routing of an identity server. *)
Lemma identity_route (h : IdentityHandler B T * protector) method path :
  route [(parse_pattern "/v1/identity", h)] method path =
  if str_eqb path "/v1/identity" then Serve h else NoRoute.
Proof.
  assert (∀ m p, find_route [(parse_pattern "/v1/identity", h)] m p =
    if str_eqb "/v1/identity" p then Some (parse_pattern "/v1/identity", h) else None) as Hf.
  { intros m p. unfold find_route, match_method, path_match, subtree. simpl.
    destruct (str_eqb "" m); simpl; destruct (str_eqb "/v1/identity" p); simpl; try done;
      by destruct (str_eqb m "HEAD"). }
  unfold route. rewrite !Hf, (str_eqb_slash "/v1/identity" path) by done.
  rewrite andb_false_r, (str_eqb_sym path). unfold path_match, subtree; simpl.
  by destruct (str_eqb "/v1/identity" path).
Qed.

(** Nothing is locked yet. *)
Lemma new_protector_open bfa login : EntryForLogin (Protector.New bfa []) login = false.
Proof. by destruct bfa. Qed.

(** A server in front of the authenticator [a]: it listens as configured; a request on any path
    but [/v1/identity] is not found; a GET there answers what the identity endpoint answers; any
    other method is refused, before the authenticator is asked. *)
Definition serves (s : identity_server B T) (config : HttpServer.Config) (a : T) (bfa : bool) : Prop :=
  is_config s = config ∧
  ∀ W (auth : Proto.Authenticator W T) Decode method path body now w,
    module_answer Decode s method path body now w =
      if str_eqb path "/v1/identity"
      then Some (ServeHTTP Decode {| Validators := [OnlyGetValidator]; Authenticator_ := a |} (Protector.New bfa [])
                   now {| in_Method := method; in_Body := body |} w)
      else None.

Lemma new_server_serves config (a : T) bfa s :
  new_identity_server config a bfa = Some s → serves s config a bfa.
Proof.
  rewrite new_identity_server_spec. intros [= <-]. split; [done|]. intros. unfold module_answer. simpl.
  rewrite identity_route. by destruct (str_eqb path "/v1/identity").
Qed.

Lemma serve_identity_ok answers name config bfa (a : T) pre log u log' :
  serve_identity (B := B) answers name config bfa a pre log = (Ok u, log') →
  ∃ s log1 u1, serves s config a bfa ∧ pre log = (Ok u1, log1) ∧ answers (StartServer name s) = Ok tt ∧
    log' = log1 ++ [StartServer name s].
Proof.
  unfold serve_identity. intros H. started. destruct u.
  do 3 eexists. split; [by apply new_server_serves|done].
Qed.
End serves.

(** *** The commands *)

(** A command that went to its end started its server last, and [P] holds of its authenticator. *)
Definition ends_serving {B T} (name : string) (config : HttpServer.Config) (bfa : bool) (P : T → Prop)
    (run : result Z unit * list (op (identity_server B T))) : Prop :=
  ∀ log, run = (Ok tt, log) →
    ∃ s a pre, log = pre ++ [StartServer name s] ∧ serves s config a bfa ∧ P a ∧
      Forall (λ o, ∀ n t, o ≠ StartServer n t) pre.

Ltac serving :=
  match goal with H : serve_identity _ _ _ _ _ _ _ = _ |- _ =>
    let sv := fresh "sv" in apply serve_identity_ok in H as (sv & ? & ? & ? & ? & ? & ->) end; started.

Ltac no_server := rewrite ?Forall_app; repeat split; repeat constructor; by intros.

(** The preparation of a manager neither starts it nor adds a cleaner to it. *)
Definition preparation {S} (o : op S) : Prop :=
  match o with StartManager | AddCleaner _ _ => False | _ => True end.

Lemma manager_preparation {S} grow f ns webhooks :
  Forall (preparation (S := S)) (manager_ops grow f ns) ∧ Forall (preparation (S := S)) (populate_ops f webhooks).
Proof.
  unfold manager_ops, populate_ops. rewrite !Forall_app.
  destruct (webhook_cert f) as [[]|], (metrics_cert f) as [[]|], (enableWebhook f); simpl; split_and!;
    repeat constructor; by apply Forall_fmap, Forall_true.
Qed.

Section commands.
Context {B : Type}.

Lemma merger_serves (answers : op (identity_server B mergerAuthenticator) → result string unit)
    decode read_file env cwd Sprintf connect f :
  ends_serving "mergerConnector" (mp_httpConfig f) (mp_bfaProtection f)
    (λ a, ∃ path cfgs, LoadConfig decode read_file env cwd (mp_configFile f) [] = Some (path, Ok cfgs) ∧
       Forall2 (λ c p, Provider.New Sprintf c (connect c) = Ok p) cfgs (providers a))
    (merger_Run answers decode read_file env cwd Sprintf connect f []).
Proof.
  intros log H. unfold merger_Run in H. started. serving.
  exists sv, x3. eexists. split; [reflexivity|]. split; [done|]. split; [|by no_server].
  destruct r as [cfgs|]; [|done]. injection H1 as ->. exists s, x0. split; [done|].
  unfold Merger.New in H2. destruct (rmap _ x0) as [ps|] eqn:Hps; [|done]. injection H2 as <-. simpl.
  apply rmap_Forall2 in Hps. eapply Forall2_impl; [exact Hps|]. simpl. intros c p Hp.
  by destruct (Provider.New _ _ _); simplify_eq.
Qed.

Lemma ldap_serves (answers : op (identity_server B ldapAuthenticator) → result string unit)
    decode read_file env cwd files f :
  ends_serving "ldapConnector" (lp_httpConfig f) (lp_bfaProtection f)
    (λ a, ∃ path cfg tls, LoadConfig decode read_file env cwd (lp_configFile f) ldap_config0 = Some (path, Ok cfg) ∧
       Ldap.New files (Dir path) (lp_namespace f) cfg = Ok (a, tls))
    (ldap_Run answers decode read_file env cwd files f []).
Proof.
  intros log H. unfold ldap_Run in H. started. serving. destruct x5 as [a tls].
  exists sv, a. eexists. split; [reflexivity|]. split; [done|]. split; [|by no_server].
  destruct r as [cfg|]; [|done]. injection H1 as ->. eauto.
Qed.

Lemma audit_serves {cert} (answers : op (identity_server B (auditAuthenticator cert)) → result string unit)
    pem_decode ParseCertificate Subject ReadFile b64_decode parse_scheme SystemCertPool f :
  ends_serving "auditModule" (ap_httpConfig f) (ap_bfaProtection f)
    (λ a : auditAuthenticator cert, ap_namespace f ≠ "" ∧ aa_namespace a = ap_namespace f ∧
       hc_config (aa_httpClient a) = ap_idProviderHttpConfig f)
    (audit_Run pem_decode ParseCertificate Subject ReadFile b64_decode parse_scheme SystemCertPool answers f []).
Proof.
  intros log H. unfold audit_Run in H. started. serving.
  match goal with H : audit_New _ _ _ _ _ _ _ _ _ = Some ?r, Hr : ?r = Ok ?a |- _ =>
    rewrite Hr in H; rename a into aa, H into Hn end.
  assert (aa_namespace aa = ap_namespace f ∧ hc_config (aa_httpClient aa) = ap_idProviderHttpConfig f) as Haa.
  { unfold audit_New, new_client in Hn. destruct (HttpClient.New _ _ _ _ _ _ _ _) as [[t|e]|]; [|done..].
    by injection Hn as <-. }
  match goal with H : (if ?b then _ else _) _ = (Ok _, ?l) |- _ =>
    assert (∃ pre, l = pre ∧ Forall (λ o, ∀ n t, o ≠ StartServer n t) pre) as (pre & -> & Hpre) end.
  { case_bool_decide; started; eexists; (split; [reflexivity|]); by no_server. }
  exists sv, aa, pre. split_and!; [done|done| |apply Haa..|done]. by apply str_empty_false.
Qed.

(** The commands of the four identity modules. A command that gets to its end has started its
    server after everything else, in front of the authenticator built from its configuration: the
    providers of the file in their order, the directory of the file, the client of the service
    behind in the namespace of the records, the users of the given namespace with the index of
    their group bindings in place. The server listens where the flags say and serves nothing but
    the identity endpoint of this authenticator. *)
Theorem modules_serve
    (merger_answers : op (identity_server B mergerAuthenticator) → result string unit)
    (ldap_answers : op (identity_server B ldapAuthenticator) → result string unit)
    {cert} (audit_answers : op (identity_server B (auditAuthenticator cert)) → result string unit)
    (ucrd_answers : op (identity_server B crd_client) → result string unit)
    decode_m decode_l read_file env cwd Sprintf connect files
    pem_decode ParseCertificate Subject ReadFile b64_decode parse_scheme SystemCertPool grow client_in mp lp ap uf :
  ends_serving "mergerConnector" (mp_httpConfig mp) (mp_bfaProtection mp)
    (λ a, ∃ path cfgs, LoadConfig decode_m read_file env cwd (mp_configFile mp) [] = Some (path, Ok cfgs) ∧
       Forall2 (λ c p, Provider.New Sprintf c (connect c) = Ok p) cfgs (providers a))
    (merger_Run merger_answers decode_m read_file env cwd Sprintf connect mp []) ∧
  ends_serving "ldapConnector" (lp_httpConfig lp) (lp_bfaProtection lp)
    (λ a, ∃ path cfg tls, LoadConfig decode_l read_file env cwd (lp_configFile lp) ldap_config0 = Some (path, Ok cfg) ∧
       Ldap.New files (Dir path) (lp_namespace lp) cfg = Ok (a, tls))
    (ldap_Run ldap_answers decode_l read_file env cwd files lp []) ∧
  ends_serving "auditModule" (ap_httpConfig ap) (ap_bfaProtection ap)
    (λ a : auditAuthenticator cert, ap_namespace ap ≠ "" ∧ aa_namespace a = ap_namespace ap ∧
       hc_config (aa_httpClient a) = ap_idProviderHttpConfig ap)
    (audit_Run pem_decode ParseCertificate Subject ReadFile b64_decode parse_scheme SystemCertPool audit_answers ap []) ∧
  (∀ log, ucrd_Run ucrd_answers grow client_in uf [] = (Ok tt, log) →
     ∃ s pre, log = pre ++ [AddServer "userIdSrv" s; IndexField "GroupBinding" "userkey"; StartManager] ∧
       (StartManager ∉ pre) ∧ uf_usersNamespace uf ≠ "" ∧
       serves s (uf_httpConfig uf) (client_in (uf_usersNamespace uf)) (uf_bfaProtection uf)).
Proof.
  split; [apply merger_serves|]. split; [apply ldap_serves|]. split; [apply audit_serves|].
  intros log H. unfold ucrd_Run, ucrd_serve in H. started.
  match goal with H : create_manager _ _ _ _ _ = _ |- _ => apply create_manager_ok in H as -> end.
  match goal with H : populate_manager _ _ _ _ = _ |- _ => apply populate_manager_ok in H as -> end.
  match goal with H : new_identity_server _ _ _ = Some ?x |- _ => exists x; apply new_server_serves in H end.
  exists (manager_ops grow (uf_manager uf) (uf_usersNamespace uf) ++
    populate_ops (uf_manager uf) ["User"; "Group"; "GroupBinding"]). split; [by rewrite <- !app_assoc|].
  split.
  { destruct (manager_preparation (S := identity_server B crd_client) grow (uf_manager uf) (uf_usersNamespace uf)
      ["User"; "Group"; "GroupBinding"]) as [H1 H2].
    rewrite Forall_forall in H1, H2. intros [Hin|Hin]%elem_of_app; [by apply H1 in Hin|by apply H2 in Hin]. }
  split; [by apply str_empty_false|done].
Qed.
End commands.

(** ** Concrete runs *)

Definition demo_merger_run : result Z unit * list (op (identity_server IdentityRequest mergerAuthenticator)) :=
  merger_Run (λ _, Ok tt) (λ _ _, Decoded [EndToEnd.Deployed.cfg "users"; EndToEnd.Deployed.cfg "people"]) (λ _, Ok "idProviders: []") ∅ (Ok "/kubauth")
    EndToEnd.Deployed.sprintf (λ _, Ok (λ _, Err "down")) merger_defaults [].

Lemma modules_serve_witness :
  ∃ s a pre, demo_merger_run.2 = pre ++ [StartServer "mergerConnector" s] ∧
    BindPort (is_config s) = 6804%Z ∧ length (providers a) = 2 ∧
    serves s (mp_httpConfig merger_defaults) a false.
Proof.
  destruct (modules_serve (B := IdentityRequest) (λ _, Ok tt) (λ _, Ok tt) (cert := unit) (λ _, Ok tt) (λ _, Ok tt)
    (λ _ _, Decoded [EndToEnd.Deployed.cfg "users"; EndToEnd.Deployed.cfg "people"]) (λ c _, Decoded c) (λ _, Ok "idProviders: []") ∅ (Ok "/kubauth")
    EndToEnd.Deployed.sprintf (λ _, Ok (λ _, Err "down")) {| read_file := λ _, Err ""; get_secret := λ _ _, Err "";
      decode_b64 := λ _, Err ""; has_certs := λ _, false; load_key_pair := λ _ _, Err "" |}
    (λ _, (None, [])) (λ _, Err "") (λ _, "") (λ _, Err "") (λ _, Err "") (λ _, Err "") (Err "") id
    (λ _, EndToEnd.Deployed.empty_cluster) merger_defaults ldap_defaults audit_defaults ucrd_defaults) as [Hm _].
  assert (demo_merger_run = (Ok tt, demo_merger_run.2)) as E by (vm_compute; reflexivity).
  destruct (Hm _ E) as (s & a & pre & Hl & Hs & (path & cfgs & Hc & Hp) & _).
  exists s, a, pre. split; [exact Hl|]. split; [by rewrite (proj1 Hs)|]. split; [|exact Hs].
  assert (cfgs = [EndToEnd.Deployed.cfg "users"; EndToEnd.Deployed.cfg "people"]) as -> by (vm_compute in Hc; by injection Hc as _ <-).
  apply Forall2_length in Hp. by rewrite <- Hp.
Defined.

(** Without a namespace for the users the ucrd module does not start, and calls nothing. *)
Example ucrd_needs_namespace answers grow client_in :
  ucrd_Run (B := unit) answers grow client_in ucrd_defaults [] = (Err 1%Z, []).
Proof. reflexivity. Qed.
