(* ===== verification/OidcCommand.v ===== *)
(** * The command of the OIDC server

    [cmd/oidc/oidc.go]: the flags with their defaults, their validation, the session managers, and
    [Run] up to the start of the manager, with [OIDCServer.Setup] ([Routes.Setup]) inside. *)

From S2P Require Import HttpServer HttpClient.
From S2P Require Import Prelude Values Misc Paths LoadConfig Proto K8s HttpProvider SigningKey Session Url Server.
From S2P Require Import Endpoints Routes Startup Modules.

(** ** Flags *)

Record oidc_flags := {
  fl_logConfig : LogConfig;
  fl_manager : manager_flags;
  fl_oidcHttpConfig : HttpServer.Config;
  fl_issuer : string;
  fl_resources : string;
  fl_postLogoutURL : string;
  fl_jwtKeySecretName : string;
  fl_jwtKeySecretNamespace : string;
  fl_allowPasswordGrant : bool;
  fl_enforcePKCE : bool;
  fl_allowPKCEPlain : bool;
  fl_jwtAccessToken : bool;
  fl_clientPrivilegedNamespace : string;
  fl_defaultStyle : string;
  fl_defaultLoginLabel : string;
  fl_dumpUpstreamClaims : bool;
  fl_ssoNamespace : string;
  fl_stickySso : bool;
  fl_ssoLifetime : Z;
  fl_cleanupPeriod : Z;
  fl_idProviderHttpConfig : HttpClient.Config;
  fl_upstreamNamespace : string;
  fl_ssoModeStr : string;
}.

Definition oidc_manager_defaults : manager_flags := {|
  probeAddr := port_addr (HealthProbe (Oidc DefaultPorts));
  enableLeaderElection := true;
  enableHTTP2 := false;
  enableWebhook := true;
  webhookPort := Webhook (Oidc DefaultPorts);
  webhookCertPath := ""; webhookCertName := "tls.crt"; webhookCertKey := "tls.key";
  metricsAddr := metrics_default (Metrics (Oidc DefaultPorts));
  secureMetrics := true;
  metricsCertPath := ""; metricsCertName := "tls.crt"; metricsCertKey := "tls.key"
|}.

Definition oidc_defaults : oidc_flags := {|
  fl_logConfig := default_log;
  fl_manager := oidc_manager_defaults;
  fl_oidcHttpConfig := default_http "0.0.0.0" (Entry (Oidc DefaultPorts));
  fl_issuer := localhost_url (Entry (Oidc DefaultPorts));
  fl_resources := "resources";
  fl_postLogoutURL := "";
  fl_jwtKeySecretName := "jwt-signing-key";
  fl_jwtKeySecretNamespace := "";
  fl_allowPasswordGrant := false;
  fl_enforcePKCE := false;
  fl_allowPKCEPlain := false;
  fl_jwtAccessToken := false;
  fl_clientPrivilegedNamespace := "";
  fl_defaultStyle := "dark";
  fl_defaultLoginLabel := "";
  fl_dumpUpstreamClaims := false;
  fl_ssoNamespace := "";
  fl_stickySso := false;
  fl_ssoLifetime := 8 * (60 * minute);
  fl_cleanupPeriod := 5 * minute;
  fl_idProviderHttpConfig := default_client (Logger_Entry DefaultPorts);
  fl_upstreamNamespace := "";
  fl_ssoModeStr := ""
|}.

(** ** Session managers *)

(** What is set of an [scs.SessionManager]; the store is in memory, or in a namespace. *)
Record session_manager := {
  sm_Store : option string;
  sm_Lifetime : Z;
  sm_IdleTimeout : Z;
  sm_CookieName : string;
  sm_HttpOnly : bool;
  sm_SameSite : string;
  sm_Persist : bool;
  sm_Secure : bool;
  sm_HashTokenInStore : bool;
}.

Definition sso_manager (f : oidc_flags) : session_manager := {|
  sm_Store := Some (fl_ssoNamespace f);
  sm_Lifetime := fl_ssoLifetime f;
  sm_IdleTimeout := 0;
  sm_CookieName := "kubauth_sso";
  sm_HttpOnly := true;
  sm_SameSite := "Lax";
  sm_Persist := fl_stickySso f;
  sm_Secure := has_prefix "https://" (fl_issuer f);
  sm_HashTokenInStore := true
|}.

Definition login_manager (f : oidc_flags) : session_manager := {|
  sm_Store := None;
  sm_Lifetime := 2 * (60 * minute);
  sm_IdleTimeout := 30 * minute;
  sm_CookieName := "kubauth_login";
  sm_HttpOnly := true;
  sm_SameSite := "Lax";
  sm_Persist := false;
  sm_Secure := has_prefix "https://" (fl_issuer f);
  sm_HashTokenInStore := true
|}.

(** ** Run *)

(** The server the manager runs. *)
Record oidc_process (Key : Type) := {
  pr_http : HttpServer.Config;
  pr_running : running Key;
  pr_sso : session_manager;
  pr_login : session_manager;
}.
Arguments pr_http {Key}.
Arguments pr_running {Key}.
Arguments pr_sso {Key}.
Arguments pr_login {Key}.

(** The test of the flags; the mode is the trimmed flag. *)
Definition sso_mode {S} (str : string) : startup S string :=
  let m := trim_space str in
  if str_eqb m SsoAlways || str_eqb m SsoNever || str_eqb m SsoOnDemand then mret m else exit 1.

Definition validate_flags {S} (f : oidc_flags) : startup S string :=
  exit_if (str_empty (fl_ssoNamespace f)) 1;;
  exit_if (str_empty (fl_upstreamNamespace f)) 1;;
  exit_if (str_empty (fl_postLogoutURL f)) 1;;
  exit_if (str_empty (fl_jwtKeySecretNamespace f)) 1;;
  exit_if (str_empty (fl_upstreamNamespace f)) 1;;
  sso_mode (fl_ssoModeStr f).

Definition server_params (f : oidc_flags) (mode : string) (idp : OidcAuthenticator) : setup_params := {|
  sp_server :=
    {| sv_Issuer := fl_issuer f; Authenticator := idp; sv_PostLogoutURL := fl_postLogoutURL f;
       DefaultStyle := fl_defaultStyle f; SsoMode := mode; DefaultLoginLabel := fl_defaultLoginLabel f;
       keyID := ""; sv_AccessTokenLifespan := 60 * minute; AllowPasswordGrant := fl_allowPasswordGrant f;
       AllowPKCEPlain := fl_allowPKCEPlain f |};
  sp_Resources := fl_resources f;
  sp_JWTSigningKeySecretName := fl_jwtKeySecretName f;
  sp_RefreshTokenLifespan := 60 * minute;
  sp_EnforcePKCE := fl_enforcePKCE f;
  sp_JwtAccessToken := fl_jwtAccessToken f
|}.

Section oidc.
(** The HTTP client of the identity service. *)
Context {cert : Type} (pem_blocks : bytes → option (string * bytes) * bytes).
Context (ParseCertificate : bytes → result string cert) (Subject : cert → string).
Context (ReadFile : string → result string bytes) (b64_decode : string → result string bytes).
Context (parse_scheme : string → result string string) (SystemCertPool : result string (list cert)).
(** [proto.Exchange] through a client. *)
Context (exchange : http_client cert → IdentityRequest → result string IdentityResponse).
(** The cluster of the signing key, and the encodings of the key. *)
Context {W Key : Type} `{ObjectStore W secret_data}.
Context (pem_decode : string → option pem_block) (pem_encode : pem_block → result string string).
Context (ParsePKCS1PrivateKey : string → result string Key) (MarshalPKCS1PrivateKey : Key → string).
Context (ParsePKCS8PrivateKey : string → result string (option Key)).
Context (answers : op (oidc_process Key) → result string unit) (grow : nat → nat).

(** The controllers with the indexes their watches use. *)
Definition setup_controllers : startup (oidc_process Key) unit :=
  ask answers (IndexField "OidcClient" "secretIndexOnOidcClient") 1;;
  ask answers (NewController "kubauth-oidcClient") 1;;
  ask answers (IndexField "UpstreamProvider" "secretIndexOnUpstreamProvider") 1;;
  ask answers (NewController "kubauth-upstreamProvider") 1.

(** [template.Must(template.ParseFiles(...))]: a panic. *)
Definition read_templates (f : oidc_flags) : startup (oidc_process Key) unit :=
  let template name := ask answers (ReadTemplate (Join (Join (fl_resources f) "templates") name)) 2 in
  template "login.gohtml";; template "index.gohtml";; template "upstream-welcome.gohtml".

(** The router, and the server set up on it. *)
Definition build_server (f : oidc_flags) (mode : string) (idp : OidcAuthenticator) (gen : result string Key)
    (newKID : string) (w : W) : startup (oidc_process Key) (running Key) :=
  router ← or_panic (favicon_router (fl_resources f));
  read_templates f;;
  '(r, _) ← or_panic (Setup pem_decode pem_encode ParsePKCS1PrivateKey MarshalPKCS1PrivateKey ParsePKCS8PrivateKey
                        (server_params f mode idp) gen newKID router w);
  call SetupServer r 1.

(** What [Run] does with the manager. *)
Definition assemble (f : oidc_flags) (gen : result string Key) (newKID : string) (w : W) (mode : string)
    : startup (oidc_process Key) unit :=
  r ← or_panic (new_client pem_blocks ParseCertificate Subject ReadFile b64_decode parse_scheme SystemCertPool
                  (fl_idProviderHttpConfig f));
  client ← call NewAuthenticator r 1;
  setup_controllers;;
  populate_manager answers (fl_manager f) ["OidcClient"; "UpstreamProvider"];;
  ask answers GetConfig 1;;
  ask answers NewKubeClient 1;;
  ask_if answers (bool_decide (0 < fl_cleanupPeriod f)%Z) (AddCleaner (fl_ssoNamespace f) (fl_cleanupPeriod f)) 1;;
  rn ← build_server f mode (httpProvider (exchange client)) gen newKID w;
  ask answers (AddServer "oidcSrv" {| pr_http := fl_oidcHttpConfig f; pr_running := rn;
                                      pr_sso := sso_manager f; pr_login := login_manager f |}) 1;;
  ask answers StartManager 1.
Definition oidc_Run (f : oidc_flags) (gen : result string Key) (newKID : string) (w : W)
    : startup (oidc_process Key) unit :=
  mode ← (new_logger (fl_logConfig f);; validate_flags f);
  create_manager grow answers (fl_manager f) (fl_upstreamNamespace f);;
  assemble f gen newKID w mode.

(** ** What is known of a server that runs *)

(** The flags a server needs. *)
Record valid_flags (f : oidc_flags) (mode : string) : Prop := {
  vf_log : ∃ h, NewLogger (Some (fl_logConfig f)) = Ok h;
  vf_sso : fl_ssoNamespace f ≠ "";
  vf_upstream : fl_upstreamNamespace f ≠ "";
  vf_logout : fl_postLogoutURL f ≠ "";
  vf_key : fl_jwtKeySecretNamespace f ≠ "";
  vf_mode : mode = trim_space (fl_ssoModeStr f) ∧ mode ∈ [SsoAlways; SsoNever; SsoOnDemand];
}.

Lemma sso_mode_ok {S} str (log : list (op S)) mode log' :
  sso_mode str log = (Ok mode, log') ↔
  log' = log ∧ mode = trim_space str ∧ mode ∈ [SsoAlways; SsoNever; SsoOnDemand].
Proof.
  unfold sso_mode. destruct (_ || _) eqn:E.
  - rewrite mret_ok. rewrite !orb_true_iff, !str_eqb_true in E. set_solver.
  - unfold exit. rewrite !orb_false_iff, !str_eqb_false in E. set_solver.
Qed.

Lemma validated {S} f (log : list (op S)) mode log' :
  (new_logger (fl_logConfig f) ≫= λ _, validate_flags f) log = (Ok mode, log') ↔
  valid_flags f mode ∧ log' = log.
Proof.
  split.
  - unfold validate_flags. intros H0. started. repeat match goal with H : str_empty _ = false |- _ => apply str_empty_false in H end.
    match goal with H : sso_mode _ _ = _ |- _ => apply sso_mode_ok in H as (-> & ? & ?) end.
    split; [|done]. split; eauto.
  - intros [[] ->]. apply bind_ok. exists tt, log. rewrite new_logger_ok. split; [done|].
    unfold validate_flags. repeat (apply bind_ok; exists tt, log; rewrite exit_if_ok, str_empty_false; split; [done|]).
    by apply sso_mode_ok.
Qed.

Abbreviation run f gen newKID w := (oidc_Run f gen newKID w []).

(** The first call of a server with valid flags. *)
Lemma create_manager_calls {S} (answers' : op S → result string unit) f ns log :
  ∃ o l, (create_manager grow answers' f ns log).2 = log ++ o :: l.
Proof.
  unfold create_manager, ask_cert, ask, call, mbind, startup_bind, mret, startup_ret.
  repeat (case_match; simplify_eq/=; rewrite <- ?app_assoc; eauto).
Qed.

Lemma extends_webhooks {S} (answers' : op S → result string unit) kinds : extends (setup_webhooks answers' kinds).
Proof. induction kinds; simpl; auto 10 with startup. Qed.

Lemma extends_cert {S} (answers' : op S → result string unit) mk c : extends (ask_cert answers' mk c).
Proof. destruct c as [[]|]; simpl; auto with startup. Qed.

Hint Resolve extends_webhooks extends_cert : startup.

Lemma extends_assemble f gen newKID w mode : extends (assemble f gen newKID w mode).
Proof.
  unfold assemble, setup_controllers, populate_manager, build_server, read_templates.
  repeat (apply extends_bind; [|intros]); auto 20 with startup.
Qed.

Lemma refused {S} f (log : list (op S)) code log' :
  (new_logger (fl_logConfig f) ≫= λ _, validate_flags f) log = (Err code, log') → log' = log ∧ code ∈ [1; 2]%Z.
Proof.
  unfold new_logger, validate_flags, exit_if, sso_mode, exit, mbind, startup_bind, mret, startup_ret.
  intros E. repeat (case_match; simplify_eq/=); (split; [done|set_solver]).
Qed.

(** Invalid flags are refused. Without a usable log configuration, a namespace for the sessions,
    one for the upstream providers and one for the signing key, a URL to go to after a logout, and
    one of the three SSO modes (white space aside), the process ends with code 1 or 2 before it
    has called anything; with them, it goes on to make its calls. *)
Theorem flags_checked_first f gen newKID w :
  ((∃ mode, valid_flags f mode) ∧ (run f gen newKID w).2 ≠ []) ∨
  (~ (∃ mode, valid_flags f mode) ∧ ∃ code, run f gen newKID w = (Err code, []) ∧ code ∈ [1; 2]%Z).
Proof.
  unfold oidc_Run. rewrite bind_run.
  destruct ((new_logger _ ≫= _) []) as [[mode|code] log] eqn:E.
  - apply validated in E as [Hv ->]. left. split; [eauto|].
    rewrite bind_run. destruct (create_manager_calls answers (fl_manager f) (fl_upstreamNamespace f) []) as (o & l & Hl).
    destruct (create_manager _ _ _ _ []) as [[u|c] log1]; simpl in Hl; subst; [|done].
    destruct (extends_assemble f gen newKID w mode (o :: l)) as [l' ->]. done.
  - right. destruct (refused _ _ _ _ E) as [-> Hc]. split; [|by exists code].
    intros [mode Hv]. rewrite (proj2 (validated f [] mode []) (conj Hv eq_refl)) in E. done.
Qed.

(** *** A server that runs *)

Lemma setup_controllers_ok log u log' :
  setup_controllers log = (Ok u, log') →
  log' = log ++ [IndexField "OidcClient" "secretIndexOnOidcClient"; NewController "kubauth-oidcClient";
                 IndexField "UpstreamProvider" "secretIndexOnUpstreamProvider"; NewController "kubauth-upstreamProvider"].
Proof. unfold setup_controllers. intros H0. started. by rewrite <- !app_assoc. Qed.

Abbreviation ensure := (ensureJwtSigningKey pem_decode pem_encode ParsePKCS1PrivateKey MarshalPKCS1PrivateKey
  ParsePKCS8PrivateKey).

Lemma build_server_ok f mode idp gen newKID w log rn log' :
  build_server f mode idp gen newKID w log = (Ok rn, log') →
  (∃ l, log' = log ++ l ∧ Forall preparation l) ∧
  (∃ w', ensure (fl_jwtKeySecretName f) gen newKID w = (Ok (rn_key rn, keyID (rn_server rn)), w')) ∧
  rn_server rn = with_keyID (keyID (rn_server rn)) (sp_server (server_params f mode idp)) ∧
  sc_Authenticator (rn_storage rn) = idp ∧
  sc_AllowPasswordGrant (rn_storage rn) = fl_allowPasswordGrant f ∧
  rn_router rn = oidc_router (Join (Join (fl_resources f) "static") "favicon.ico") (Join (fl_resources f) "static").
Proof.
  unfold build_server, read_templates. intros H0. started. subst.
  match goal with H : Setup _ _ _ _ _ _ _ _ _ _ = _, H' : favicon_router _ = _ |- _ =>
    rewrite (Setup_run _ _ _ _ _ (server_params f mode idp) _ _ _ _ H') in H; rename H into Hs end.
  simpl in Hs. destruct (ensure _ _ _ _) as [[[k kid]|e] w'] eqn:E; [|done]. injection Hs as <- <-. simpl.
  split; [|by eauto 10]. eexists. rewrite <- !app_assoc. split; [reflexivity|]. by repeat constructor.
Qed.

(** The server a start-up ends with. *)
Record well_started (f : oidc_flags) (mode : string) (client : http_client cert) (p : oidc_process Key) : Prop := {
  ws_http : pr_http p = fl_oidcHttpConfig f;
  ws_issuer : sv_Issuer (rn_server (pr_running p)) = fl_issuer f;
  ws_mode : SsoMode (rn_server (pr_running p)) = mode;
  ws_logout : sv_PostLogoutURL (rn_server (pr_running p)) = fl_postLogoutURL f;
  ws_client : hc_config client = fl_idProviderHttpConfig f;
  ws_login : Authenticator (rn_server (pr_running p)) = httpProvider (exchange client);
  ws_grant : sc_Authenticator (rn_storage (pr_running p)) = Authenticator (rn_server (pr_running p)) ∧
    sc_AllowPasswordGrant (rn_storage (pr_running p)) = fl_allowPasswordGrant f;
  ws_route method path : route (rn_router (pr_running p)) method path =
    expected (Join (Join (fl_resources f) "static") "favicon.ico") (Join (fl_resources f) "static") method path;
  ws_cookies : sm_CookieName (pr_sso p) ≠ sm_CookieName (pr_login p) ∧
    (∀ sm, sm ∈ [pr_sso p; pr_login p] → sm_HttpOnly sm = true ∧ sm_HashTokenInStore sm = true ∧
       (sm_Secure sm = true ↔ ∃ rest, fl_issuer f = "https://" +:+ rest));
  ws_sso : sm_Store (pr_sso p) = Some (fl_ssoNamespace f) ∧ sm_Lifetime (pr_sso p) = fl_ssoLifetime f;
}.

Lemma has_prefix_iff p s : has_prefix p s = true ↔ ∃ rest, s = p +:+ rest.
Proof.
  unfold has_prefix. rewrite bool_decide_eq_true. split; intros [t Ht]; exists t; by apply strip_prefix_spec.
Qed.

Lemma well_started_intro f mode client gen newKID w log rn log' :
  hc_config client = fl_idProviderHttpConfig f →
  build_server f mode (httpProvider (exchange client)) gen newKID w log = (Ok rn, log') →
  well_started f mode client {| pr_http := fl_oidcHttpConfig f; pr_running := rn; pr_sso := sso_manager f;
                                pr_login := login_manager f |}.
Proof.
  intros Hc (_ & _ & Hs & Ha & Hg & Hr)%build_server_ok.
  split; cbn [pr_http pr_running pr_sso pr_login]; [reflexivity|rewrite Hs; reflexivity..|exact Hc| | | | |].
  - rewrite Hs. reflexivity.
  - split; [|exact Hg]. rewrite Ha, Hs. reflexivity.
  - intros method path. rewrite Hr. apply route_oidc.
  - split; [discriminate|]. intros sm [->|[->|[]%not_elem_of_nil]%elem_of_cons]%elem_of_cons;
      (split_and!; [reflexivity|reflexivity|apply has_prefix_iff]).
  - split; reflexivity.
Qed.

Abbreviation controller_ops :=
  [IndexField "OidcClient" "secretIndexOnOidcClient"; NewController "kubauth-oidcClient";
   IndexField "UpstreamProvider" "secretIndexOnUpstreamProvider"; NewController "kubauth-upstreamProvider"].

Lemma assemble_ok f gen newKID w mode log log' :
  assemble f gen newKID w mode log = (Ok tt, log') →
  ∃ client p l w', well_started f mode client p ∧
    ensure (fl_jwtKeySecretName f) gen newKID w = (Ok (rn_key (pr_running p), keyID (rn_server (pr_running p))), w') ∧
    log' = (log ++ [NewAuthenticator] ++ controller_ops ++ l) ++ [AddServer "oidcSrv" p; StartManager] ∧
    Forall (λ o, preparation o ∨ ((0 < fl_cleanupPeriod f)%Z ∧ o = AddCleaner (fl_ssoNamespace f) (fl_cleanupPeriod f))) l ∧
    ((0 < fl_cleanupPeriod f)%Z → AddCleaner (fl_ssoNamespace f) (fl_cleanupPeriod f) ∈ l).
Proof.
  unfold assemble. intros H0. started.
  match goal with H : setup_controllers _ = _ |- _ => apply setup_controllers_ok in H as -> end.
  match goal with H : populate_manager _ _ _ _ = _ |- _ => apply populate_manager_ok in H as -> end.
  match goal with H : build_server _ _ _ _ _ _ _ = (Ok ?rn, _), H' : new_client _ _ _ _ _ _ _ _ = Some ?r, Hr : ?r = Ok ?c |- _ =>
    rename H into Hb, H' into Hn; rewrite Hr in Hn; rename c into client, rn into rn' end.
  assert (hc_config client = fl_idProviderHttpConfig f) as Hc.
  { unfold new_client in Hn. destruct (HttpClient.New _ _ _ _ _ _ _ _) as [[t|e]|]; [|done..]. by injection Hn as <-. }
  pose proof (well_started_intro _ _ _ _ _ _ _ _ _ Hc Hb) as Hw.
  destruct (build_server_ok _ _ _ _ _ _ _ _ _ Hb) as ((l & -> & Hl) & (w' & He) & _).
  eexists client, _, (populate_ops (fl_manager f) ["OidcClient"; "UpstreamProvider"] ++ [GetConfig; NewKubeClient] ++
    (if bool_decide (0 < fl_cleanupPeriod f)%Z then [AddCleaner (fl_ssoNamespace f) (fl_cleanupPeriod f)] else []) ++ l), w'.
  split; [exact Hw|]. split; [exact He|]. split; [by rewrite <- !app_assoc|]. split.
  - rewrite !Forall_app. split_and!.
    + eapply Forall_impl; [apply (manager_preparation grow (fl_manager f) "" _)|]. by left.
    + by repeat constructor.
    + case_bool_decide; [|constructor]. constructor; [by right|constructor].
    + eapply Forall_impl; [exact Hl|]. by left.
  - intros Hp. rewrite (bool_decide_true _ Hp), !elem_of_app. right; right; left. by apply list_elem_of_here.
Qed.

(** C35. What a running OIDC server is. When the command gets to its end, the flags were valid and the
    manager was started last, with everything in it: the two controllers, each after the index its
    watch uses, the cleaner of the sessions exactly when a period is given, and one server. This
    server has the issuer, the URL and one of the three SSO modes of the flags; it asks the
    configured identity service, for logins and for the password grant alike; it routes as
    documented; its two cookies differ, are kept from scripts, hashed in the stores, and secure
    exactly under an https issuer; and its signing key is the one of the secret. *)
Theorem oidc_started f gen newKID w log :
  run f gen newKID w = (Ok tt, log) →
  ∃ mode client p pre w',
    valid_flags f mode ∧ well_started f mode client p ∧
    log = pre ++ [AddServer "oidcSrv" p; StartManager] ∧ (StartManager ∉ pre) ∧
    (∃ l1 l2, pre = l1 ++ [IndexField "OidcClient" "secretIndexOnOidcClient"; NewController "kubauth-oidcClient";
       IndexField "UpstreamProvider" "secretIndexOnUpstreamProvider"; NewController "kubauth-upstreamProvider"] ++ l2) ∧
    (∀ ns period, AddCleaner ns period ∈ log ↔
       (0 < fl_cleanupPeriod f)%Z ∧ ns = fl_ssoNamespace f ∧ period = fl_cleanupPeriod f) ∧
    ensure (fl_jwtKeySecretName f) gen newKID w = (Ok (rn_key (pr_running p), keyID (rn_server (pr_running p))), w').
Proof.
  unfold oidc_Run. rewrite bind_ok. intros (mode & log1 & Hv & Hr). apply validated in Hv as [Hv ->].
  apply bind_ok in Hr as (u & log2 & Hc & Hr). apply create_manager_ok in Hc as ->.
  apply assemble_ok in Hr as (client & p & l & w' & Hw & He & -> & Hl & Hin).
  destruct (manager_preparation (S := oidc_process Key) grow (fl_manager f) (fl_upstreamNamespace f) []) as [Hm _].
  rewrite Forall_forall in Hl, Hm. eexists mode, client, p, _, w'.
  split; [exact Hv|]. split; [exact Hw|]. split; [reflexivity|]. split; [|split; [|split; [|exact He]]].
  - rewrite !elem_of_app. intros [[[]%not_elem_of_nil|Hx%Hm]|[Hx|[Hx|Hx]]]; [done|set_solver..|].
    by destruct (Hl _ Hx) as [|[_ ?]].
  - eexists (manager_ops _ _ _ ++ [NewAuthenticator]), l. by rewrite <- !app_assoc.
  - intros ns period. split.
    + rewrite !elem_of_app. intros [[[[]%not_elem_of_nil|Hx%Hm]|[Hx|[Hx|Hx]]]|Hx]; [done|set_solver..| |set_solver].
      destruct (Hl _ Hx) as [|[? [= -> ->]]]; [done|by split_and!].
    + intros (Hp & -> & ->). rewrite !elem_of_app. left; right; right; right. by apply Hin.
Qed.
End oidc.

(** ** Defaults *)

(** Left to its defaults the chain of the modules fits together: the OIDC server asks the audit
    module, which asks the merger, each at the port the other listens on, without TLS; and the
    five modules, the probes and the webhook servers, which may run in one pod, have different
    ports. *)
Lemma default_deployment :
  BaseURL (fl_idProviderHttpConfig oidc_defaults) = localhost_url (BindPort (ap_httpConfig audit_defaults)) ∧
  BaseURL (ap_idProviderHttpConfig audit_defaults) = localhost_url (BindPort (mp_httpConfig merger_defaults)) ∧
  fl_issuer oidc_defaults = localhost_url (BindPort (fl_oidcHttpConfig oidc_defaults)) ∧
  HttpServer.Tls (ap_httpConfig audit_defaults) = false ∧ HttpServer.Tls (mp_httpConfig merger_defaults) = false ∧
  NoDup [BindPort (fl_oidcHttpConfig oidc_defaults); BindPort (uf_httpConfig ucrd_defaults);
         BindPort (lp_httpConfig ldap_defaults); BindPort (mp_httpConfig merger_defaults);
         BindPort (ap_httpConfig audit_defaults); HealthProbe (Oidc DefaultPorts); HealthProbe (Ucrd DefaultPorts);
         webhookPort (fl_manager oidc_defaults); webhookPort (uf_manager ucrd_defaults)].
Proof. do 5 (split; [reflexivity|]). apply (bool_decide_unpack _). vm_compute. exact I. Qed.

(** ** A concrete run *)

Definition demo_flags : oidc_flags := {|
  fl_logConfig := default_log; fl_manager := oidc_manager_defaults;
  fl_oidcHttpConfig := default_http "0.0.0.0" 6801; fl_issuer := "https://idp"; fl_resources := "resources";
  fl_postLogoutURL := "/index"; fl_jwtKeySecretName := "jwt-signing-key"; fl_jwtKeySecretNamespace := "kubauth";
  fl_allowPasswordGrant := false; fl_enforcePKCE := true; fl_allowPKCEPlain := false; fl_jwtAccessToken := true;
  fl_clientPrivilegedNamespace := ""; fl_defaultStyle := "dark"; fl_defaultLoginLabel := "";
  fl_dumpUpstreamClaims := false; fl_ssoNamespace := "kubauth-sso"; fl_stickySso := false;
  fl_ssoLifetime := 8 * (60 * minute); fl_cleanupPeriod := 5 * minute;
  fl_idProviderHttpConfig := default_client 6805; fl_upstreamNamespace := "kubauth"; fl_ssoModeStr := " onDemand "
|}.

Definition demo_oidc (f : oidc_flags) : result Z unit * list (op (oidc_process string)) :=
  oidc_Run (cert := unit) (λ _, (None, [])) (λ _, Err "") (λ _, "") (λ _, Err "") (λ _, Err "") (λ _, Ok "http") (Ok [])
    (λ _ _, Err "down") demo_decode demo_encode Ok (λ k, k) (λ _, Err "no") (λ _, Ok tt) id
    f (Ok "key1") "kid1" ({| objs := ∅; faults := [] |} : cluster secret_data) [].

(** The defaults alone are refused. *)
Example defaults_refused : demo_oidc oidc_defaults = (Err 1%Z, []).
Proof. reflexivity. Qed.

Lemma oidc_started_witness :
  ∃ p pre, (demo_oidc demo_flags).2 = pre ++ [AddServer "oidcSrv" p; StartManager] ∧
    SsoMode (rn_server (pr_running p)) = SsoOnDemand ∧ sm_Secure (pr_sso p) = true ∧
    rn_key (pr_running p) = "key1" ∧ AddCleaner "kubauth-sso" (5 * minute) ∈ (demo_oidc demo_flags).2.
Proof.
  assert (demo_oidc demo_flags = (Ok tt, (demo_oidc demo_flags).2)) as E by (vm_compute; reflexivity).
  destruct (oidc_started (cert := unit) (λ _, (None, [])) (λ _, Err "") (λ _, "") (λ _, Err "") (λ _, Err "")
    (λ _, Ok "http") (Ok []) (λ _ _, Err "down") demo_decode demo_encode Ok (λ k, k) (λ _, Err "no") (λ _, Ok tt) id
    demo_flags (Ok "key1") "kid1" ({| objs := ∅; faults := [] |} : cluster secret_data) _ E)
    as (mode & client & p & pre & w' & Hv & Hw & Hl & _ & _ & Hc & Hk).
  exists p, pre. split; [exact Hl|]. split.
  { rewrite (ws_mode _ _ _ _ _ Hw), (proj1 (vf_mode _ _ Hv)). reflexivity. }
  split.
  { apply (proj2 (ws_cookies _ _ _ _ _ Hw)); [by apply list_elem_of_here|]. by exists "idp". }
  split; [|by apply Hc].
  symmetry. exact (f_equal (λ x : result string (string * string) * cluster secret_data,
    match x.1 with Ok (k, _) => k | Err _ => "" end) Hk).
Defined.
