(* ===== verification/DeepCopy.v ===== *)
(** * api/kubauth/v1alpha1: copies of the API objects

    The [DeepCopyInto] functions are programs on a memory: [*out = *in] copies the fields and shares
    what they point to, then each statement gives one field memory of its own. This file has the
    memory, the statements the generated code is made of, and what makes a copy deep; [ApiCopies]
    has the types and the functions.

    A block of memory is a list of values: the target of a pointer is a block of one value, the
    elements of a slice are a block. Blocks are only added, so a location is an index. *)

From S2P Require Import Prelude.

(** ** Memory *)

Unset Elimination Schemes.
Inductive mval :=
| Scalar (s : string)                       (** a value without references, by its text *)
| Nil
| Ref (l : nat)                             (** a pointer, or a slice *)
| Fields (fs : list (string * mval)).       (** a struct *)

(** Types, and the values they describe, without memory. *)
Inductive shape :=
| SScalar
| SPtr (t : shape)
| SSlice (t : shape)
| SStruct (fs : list (string * shape)).

Inductive tree :=
| TScalar (s : string)
| TNil
| TPtr (x : tree)
| TSlice (l : list tree)
| TStruct (l : list (string * tree)).
Set Elimination Schemes.

Section shape_ind.
Variable P : shape → Prop.
Hypothesis Hscalar : P SScalar.
Hypothesis Hptr : ∀ t, P t → P (SPtr t).
Hypothesis Hslice : ∀ t, P t → P (SSlice t).
Hypothesis Hstruct : ∀ fs, Forall (λ f, P f.2) fs → P (SStruct fs).

Fixpoint shape_ind (t : shape) : P t :=
  match t with
  | SScalar => Hscalar
  | SPtr t => Hptr t (shape_ind t)
  | SSlice t => Hslice t (shape_ind t)
  | SStruct fs => Hstruct fs ((fix go l : Forall (λ f, P f.2) l :=
      match l with [] => Forall_nil_2 _ | f :: l => Forall_cons_2 _ _ _ (shape_ind f.2) (go l) end) fs)
  end.
End shape_ind.

Abbreviation block := (list mval).
Abbreviation memory := (list block).

(** ** What a value of a type is *)

Fixpoint zip_fields {A} (ds : list (string * (mval → option A))) (fs : list (string * mval)) :
    option (list (string * A)) :=
  match ds, fs with
  | [], [] => Some []
  | d :: ds, f :: fs =>
      if str_eqb d.1 f.1 then x ← d.2 f.2; r ← zip_fields ds fs; Some ((f.1, x) :: r) else None
  | _, _ => None
  end.

(** The value [v] denotes at type [t], [None] when it is not of this type. *)
Fixpoint reify (t : shape) (h : memory) (v : mval) {struct t} : option tree :=
  match t, v with
  | SScalar, Scalar s => Some (TScalar s)
  | (SPtr _ | SSlice _), Nil => Some TNil
  | SPtr t, Ref l => b ← h !! l; match b with [x] => TPtr <$> reify t h x | _ => None end
  | SSlice t, Ref l => b ← h !! l; TSlice <$> mapM (reify t h) b
  | SStruct ts, Fields fs => TStruct <$> zip_fields ((λ d, (d.1, reify d.2 h)) <$> ts) fs
  | _, _ => None
  end.

Fixpoint concat_fields (ds : list (string * (mval → list nat))) (fs : list (string * mval)) : list nat :=
  match ds, fs with
  | d :: ds, f :: fs => d.2 f.2 ++ concat_fields ds fs
  | _, _ => []
  end.

(** The blocks it is made of. *)
Fixpoint reach (t : shape) (h : memory) (v : mval) {struct t} : list nat :=
  match t, v with
  | SPtr t, Ref l => l :: match h !! l with Some [x] => reach t h x | _ => [] end
  | SSlice t, Ref l => l :: match h !! l with Some b => concat (reach t h <$> b) | None => [] end
  | SStruct ts, Fields fs => concat_fields ((λ d, (d.1, reach d.2 h)) <$> ts) fs
  | _, _ => []
  end.

(** A type without references. *)
Fixpoint flat (t : shape) : bool :=
  match t with
  | SScalar => true
  | SStruct fs => forallb (λ f, flat f.2) fs
  | _ => false
  end.

(** ** The statements *)

(** What a function that copies gives for [out], from the value of [in]; [None] is a fault. *)
Definition copier := mval → memory → option (mval * memory).

Definition alloc (b : block) (h : memory) : nat * memory := (length h, h ++ [b]).

(** [out.F = in.F]. *)
Definition assign : copier := λ v h, Some (v, h).

(** [if in.F != nil { *out = new(T); **out = **in }], and [make] with [copy] for a slice. *)
Definition new_copy : copier := λ v h,
  match v with
  | Nil => Some (Nil, h)
  | Ref l => b ← h !! l; let '(l', h) := alloc b h in Some (Ref l', h)
  | _ => None
  end.

(** The loop over a slice: each element is copied into the new one by its [DeepCopyInto]. *)
Fixpoint each (into : copier) (b : block) (h : memory) : option (block * memory) :=
  match b with
  | [] => Some ([], h)
  | v :: b => '(v', h) ← into v h; '(b', h) ← each into b h; Some (v' :: b', h)
  end.

(** [if in.F != nil { *out = new(T) }] and the [DeepCopyInto] of the target, or the loop for a slice: the new
    memory is zero ([Nil] stands for it) until it is filled. *)
Definition new_into (into : copier) : copier := λ v h,
  match v with
  | Nil => Some (Nil, h)
  | Ref l =>
      b ← h !! l;
      let '(l', h) := alloc ((λ _, Nil) <$> b) h in
      '(b', h) ← each into b h;
      Some (Ref l', <[l' := b']> h)
  | _ => None
  end.

Definition get_field (f : string) (fs : list (string * mval)) : option mval :=
  snd <$> (snd <$> list_find (λ x, x.1 = f) fs).
Definition set_field (f : string) (v : mval) (fs : list (string * mval)) : list (string * mval) :=
  (λ x, if str_eqb x.1 f then (x.1, v) else x) <$> fs.

(** The statements of a [DeepCopyInto], after [*out = *in]. *)
Fixpoint run_statements (ss : list (string * copier)) (inp out : list (string * mval)) (h : memory) :
    option (list (string * mval) * memory) :=
  match ss with
  | [] => Some (out, h)
  | (f, c) :: ss => v ← get_field f inp; '(v', h) ← c v h; run_statements ss inp (set_field f v' out) h
  end.

Definition copy_struct (ss : list (string * copier)) : copier := λ v h,
  match v with
  | Fields fs => '(out, h) ← run_statements ss fs fs h; Some (Fields out, h)
  | _ => None
  end.

(** [DeepCopy]: nil for nil, else a new object filled by [DeepCopyInto]. *)
Definition DeepCopy (into : copier) : copier := λ v h,
  match v with
  | Nil => Some (Nil, h)
  | Ref l =>
      b ← h !! l;
      match b with
      | [x] => let '(l', h) := alloc [Nil] h in '(x', h) ← into x h; Some (Ref l', <[l' := [x']]> h)
      | _ => None
      end
  | _ => None
  end.

(** [DeepCopyObject]: a nil copy is a nil interface. *)
Definition DeepCopyObject (copy : copier) (v : mval) (h : memory) : option (option mval * memory) :=
  '(c, h) ← copy v h; Some (match c with Nil => None | _ => Some c end, h).

(** ** Values and the blocks they are made of *)

(** A value depends on its blocks only. *)
Lemma reify_agree t : ∀ h h' v,
  (∀ l, l ∈ reach t h v → h' !! l = h !! l) → reify t h' v = reify t h v ∧ reach t h' v = reach t h v.
Proof.
  induction t as [|t IH|t IH|ts IH] using shape_ind; intros h h' v Hl; [done|..].
  - destruct v as [| |l|]; try done. cbn in *. rewrite (Hl l) by (by left).
    destruct (h !! l) as [[|x []]|]; try done. cbn.
    destruct (IH h h' x) as [-> ->]; [|done]. intros k ?. apply Hl. by right.
  - destruct v as [| |l|]; try done. cbn in *. rewrite (Hl l) by (by left).
    destruct (h !! l) as [b|]; [|done]. cbn.
    assert (mapM (reify t h') b = mapM (reify t h) b ∧ reach t h' <$> b = reach t h <$> b) as [-> ->]; [|done].
    assert (∀ k, k ∈ concat (reach t h <$> b) → h' !! k = h !! k) as Hb by (intros; apply Hl; by right).
    clear Hl. induction b as [|x b IHb]; [done|]. rewrite !fmap_cons in *. cbn in *.
    destruct (IH h h' x) as [-> ->]; [intros; apply Hb; rewrite elem_of_app; auto|].
    destruct IHb as [-> ->]; [intros; apply Hb; rewrite elem_of_app; auto|done].
  - destruct v as [| | |fs]; try done. cbn in *.
    assert (zip_fields ((λ d, (d.1, reify d.2 h')) <$> ts) fs = zip_fields ((λ d, (d.1, reify d.2 h)) <$> ts) fs ∧
      concat_fields ((λ d, (d.1, reach d.2 h')) <$> ts) fs = concat_fields ((λ d, (d.1, reach d.2 h)) <$> ts) fs)
      as [-> ->]; [|done].
    revert fs Hl. induction IH as [|d ts Hd _ IHt]; intros [|f fs] Hl; try done.
    rewrite !fmap_cons in *. cbn in *.
    destruct (Hd h h' f.2) as [-> ->]; [intros; apply Hl; rewrite elem_of_app; auto|].
    destruct (IHt fs) as [-> ->]; [intros; apply Hl; rewrite elem_of_app; auto|done].
Qed.

Lemma zip_fields_Forall3 {A} (ts : list (string * shape)) (r : shape → mval → option A) fs xs :
  zip_fields ((λ d, (d.1, r d.2)) <$> ts) fs = Some xs ↔
  Forall3 (λ d f x, d.1 = f.1 ∧ x.1 = f.1 ∧ r d.2 f.2 = Some x.2) ts fs xs.
Proof.
  split.
  - revert fs xs. induction ts as [|d ts IH]; intros [|f fs] xs; rewrite ?fmap_cons; cbn; try done.
    { intros [= <-]. constructor. }
    destruct (str_eqb d.1 f.1) eqn:E; [|done]. apply str_eqb_true in E.
    intros (x & Hx & H)%bind_Some. apply bind_Some in H as (r' & Hr & [= <-]). constructor; auto.
  - induction 1 as [|d f [n x] ts fs xs (H1 & H2 & H3) _ IH]; [done|]. rewrite fmap_cons. cbn in *.
    rewrite H1, str_eqb_refl, H3. cbn. by rewrite IH, H2.
Qed.

(** The blocks of a value exist. *)
Lemma reify_dom t : ∀ h v x, reify t h v = Some x → ∀ l, l ∈ reach t h v → is_Some (h !! l).
Proof.
  induction t as [|t IH|t IH|ts IH] using shape_ind; intros h v x Hv l Hl.
  - by apply elem_of_nil in Hl.
  - destruct v as [| |k|]; cbn in *; try (by apply elem_of_nil in Hl); [].
    destruct (h !! k) as [[|y []]|] eqn:Hk; try done. cbn in Hv.
    destruct (reify t h y) eqn:Hy; [|done]. apply elem_of_cons in Hl as [->|Hl]; [by rewrite Hk|eauto].
  - destruct v as [| |k|]; cbn in *; try (by apply elem_of_nil in Hl); [].
    destruct (h !! k) as [b|] eqn:Hk; try done. cbn in Hv.
    destruct (mapM (reify t h) b) as [ys|] eqn:Hb; [|done]. apply elem_of_cons in Hl as [->|Hl]; [by rewrite Hk|].
    clear Hk Hv. revert ys Hb. induction b as [|y b IHb]; intros ys Hb; [by apply elem_of_nil in Hl|].
    cbn in Hb. apply bind_Some in Hb as (z & Hz & Hb). apply bind_Some in Hb as (zs & Hzs & _).
    rewrite fmap_cons in Hl. cbn in Hl. apply elem_of_app in Hl as [Hl|Hl]; eauto.
  - destruct v as [| | |fs]; cbn in *; try (by apply elem_of_nil in Hl); [].
    destruct (zip_fields _ fs) as [xs|] eqn:Hz; [|done]. apply (zip_fields_Forall3 ts (λ t, reify t h)) in Hz.
    clear Hv. revert IH Hl. induction Hz as [|d f y ts fs xs (_ & _ & Hd) _ IHz]; intros IH Hl;
      [by apply elem_of_nil in Hl|].
    apply Forall_cons in IH as [IHd IH]. rewrite fmap_cons in Hl. cbn in Hl.
    apply elem_of_app in Hl as [Hl|Hl]; eauto.
Qed.

(** More memory, or other memory, does not change a value. *)
Lemma reify_mono t h h' v x :
  h `prefix_of` h' → reify t h v = Some x → reify t h' v = Some x ∧ reach t h' v = reach t h v.
Proof.
  intros [k ->] Hv. destruct (reify_agree t h (h ++ k) v) as [-> ->]; [|done].
  intros l Hl. destruct (reify_dom t h v x Hv l Hl) as [b Hb]. by rewrite Hb, (lookup_app_l_Some _ _ _ _ Hb).
Qed.

Lemma reify_frame t h v l b :
  l ∉ reach t h v → reify t (<[l := b]> h) v = reify t h v ∧ reach t (<[l := b]> h) v = reach t h v.
Proof. intros Hl. apply reify_agree. intros k Hk. apply list_lookup_insert_ne. by intros ->. Qed.

Lemma flat_reach t : flat t = true → ∀ h v, reach t h v = [].
Proof.
  induction t as [|t IH|t IH|ts IH] using shape_ind; intros Hf h v; try done.
  destruct v as [| | |fs]; try done. cbn in *. revert fs Hf.
  induction IH as [|d ts Hd _ IHt]; intros [|f fs] Hf; rewrite ?fmap_cons; cbn in *; try done.
  apply andb_prop in Hf as [? ?]. by rewrite Hd, IHt.
Qed.

(** ** Deep copies *)

(** A copier is deep at a type: on any value of the type it succeeds, keeps the memory there was,
    gives an equal value, and all blocks of the copy are new. *)
Definition deep (t : shape) (c : copier) : Prop :=
  ∀ h v x, reify t h v = Some x →
    ∃ v' h', c v h = Some (v', h') ∧ h `prefix_of` h' ∧ reify t h' v' = Some x ∧
      ∀ l, l ∈ reach t h' v' → length h ≤ l.

Lemma deep_assign t : flat t = true → deep t assign.
Proof.
  intros Hf h v x Hv. exists v, h. split; [done|]. split; [done|]. split; [done|].
  intros l. rewrite flat_reach by done. by intros []%elem_of_nil.
Qed.

Lemma flat_elements t h h' b : flat t = true → concat (reach t h <$> b) = concat (reach t h' <$> b).
Proof. intros Hf. induction b as [|x b IH]; [done|]. rewrite !fmap_cons. cbn. by rewrite !flat_reach, IH. Qed.

Lemma concat_flat t h b : flat t = true → concat (reach t h <$> b) = [].
Proof. intros Hf. induction b as [|x b IH]; [done|]. rewrite fmap_cons. cbn. by rewrite flat_reach, IH. Qed.

Lemma mapM_mono t h h' b xs :
  h `prefix_of` h' → mapM (reify t h) b = Some xs →
  mapM (reify t h') b = Some xs ∧ reach t h' <$> b = reach t h <$> b.
Proof.
  intros Hp. revert xs. induction b as [|v b IH]; intros xs H; [done|]. cbn in H.
  apply bind_Some in H as (x & Hx & H). apply bind_Some in H as (ys & Hys & [= <-]).
  destruct (reify_mono t h h' v x Hp Hx) as [E1 E2]. destruct (IH ys Hys) as [E3 E4].
  rewrite !fmap_cons. cbn. by rewrite E1, E2, E4; cbn; rewrite E3.
Qed.

Lemma deep_new_copy_ptr t : flat t = true → deep (SPtr t) new_copy.
Proof.
  intros Hf h v x Hv. destruct v as [| |l|]; try done.
  - cbn in Hv. simplify_eq. exists Nil, h. split; [done|]. split; [done|]. split; [done|].
    by intros l []%elem_of_nil.
  - cbn in Hv |- *. destruct (h !! l) as [b|]; [|done]. cbn in *. eexists _, _. split; [done|].
    split; [by eexists|]. rewrite lookup_app_r, Nat.sub_diag by lia. cbn.
    destruct b as [|y []]; try done. destruct (reify t h y) as [z|] eqn:Hy; [|done].
    destruct (reify_mono t h (h ++ [[y]]) y z) as [-> _]; [by eexists|done|]. split; [done|].
    intros k. rewrite flat_reach by done. intros Hk%list_elem_of_singleton. lia.
Qed.

Lemma deep_new_copy_slice t : flat t = true → deep (SSlice t) new_copy.
Proof.
  intros Hf h v x Hv. destruct v as [| |l|]; try done.
  - cbn in Hv. simplify_eq. exists Nil, h. split; [done|]. split; [done|]. split; [done|].
    by intros l []%elem_of_nil.
  - cbn in Hv |- *. destruct (h !! l) as [b|]; [|done]. cbn in *. eexists _, _. split; [done|].
    split; [by eexists|]. rewrite lookup_app_r, Nat.sub_diag by lia. cbn.
    destruct (mapM (reify t h) b) as [ys|] eqn:Hb; [|done].
    destruct (mapM_mono t h (h ++ [b]) b ys) as [-> _]; [by eexists|done|]. split; [done|].
    intros k. rewrite concat_flat by done. intros Hk%list_elem_of_singleton. lia.
Qed.

(** The loop copies each element into memory of its own. *)
Lemma each_deep t c : deep t c → ∀ b h xs, mapM (reify t h) b = Some xs →
  ∃ b' h', each c b h = Some (b', h') ∧ h `prefix_of` h' ∧ mapM (reify t h') b' = Some xs ∧
    length b' = length b ∧ ∀ l, l ∈ concat (reach t h' <$> b') → length h ≤ l.
Proof.
  intros Hc. induction b as [|v b IH]; intros h xs H.
  { cbn in *. simplify_eq. exists [], h. split_and!; try done. by intros l []%elem_of_nil. }
  cbn in H. apply bind_Some in H as (x & Hx & H). apply bind_Some in H as (ys & Hys & [= <-]).
  destruct (Hc h v x Hx) as (v' & h1 & E1 & Hp1 & Hx1 & Hf1).
  destruct (mapM_mono t h h1 b ys Hp1 Hys) as [Hys1 _].
  destruct (IH h1 ys Hys1) as (b' & h2 & E2 & Hp2 & Hys2 & Hlen & Hf2).
  destruct (reify_mono t h1 h2 v' x Hp2 Hx1) as [Hx2 Hr2].
  exists (v' :: b'), h2. cbn [each]. rewrite E1. cbn [mbind option_bind]. rewrite E2. split; [done|].
  split; [by etrans|]. cbn [mapM]. rewrite Hx2. cbn [mbind option_bind]. rewrite Hys2. split; [done|]. split; [cbn; by rewrite Hlen|].
  intros l. rewrite fmap_cons. cbn [concat]. rewrite elem_of_app, Hr2. intros [Hl|Hl]; [by apply Hf1|].
  apply Hf2 in Hl. apply prefix_length in Hp1. lia.
Qed.

Lemma mapM_agree t h h' b :
  (∀ v, v ∈ b → reify t h' v = reify t h v) → mapM (reify t h') b = mapM (reify t h) b.
Proof.
  induction b as [|v b IH]; intros H; [done|]. cbn [mapM]. rewrite (H v), IH; [done| |by left].
  intros w ?. apply H. by right.
Qed.

(** A new block, filled by copies of the elements of another: its location, and the final memory. *)
Lemma fill_deep t c h b xs :
  deep t c → mapM (reify t h) b = Some xs →
  ∀ z, ∃ b' h', each c b (h ++ [z]) = Some (b', h') ∧ length b' = length b ∧
    h `prefix_of` <[length h := b']> h' ∧ <[length h := b']> h' !! length h = Some b' ∧
    mapM (reify t (<[length h := b']> h')) b' = Some xs ∧
    ∀ l, l ∈ concat (reach t (<[length h := b']> h') <$> b') → length h ≤ l.
Proof.
  intros Hc Hb z. destruct (mapM_mono t h (h ++ [z]) b xs) as [Hb1 _]; [by eexists|done|].
  destruct (each_deep t c Hc b (h ++ [z]) xs Hb1) as (b' & h' & E & Hp & Hxs & Hlen & Hf).
  rewrite length_app in Hf. cbn in Hf. exists b', h'. split; [done|]. split; [done|].
  pose proof (prefix_length _ _ Hp) as Hl. rewrite length_app in Hl. cbn in Hl.
  destruct Hp as [k ->]. rewrite <- app_assoc in *. rewrite insert_app_r_alt, Nat.sub_diag by lia. cbn.
  split; [by eexists|]. split; [by apply list_lookup_middle|].
  assert (∀ v, v ∈ b' → reify t (h ++ b' :: k) v = reify t (h ++ z :: k) v ∧
    reach t (h ++ b' :: k) v = reach t (h ++ z :: k) v) as Hag.
  { intros v Hv. replace (h ++ b' :: k) with (<[length h := b']> (h ++ z :: k))
      by (rewrite insert_app_r_alt, Nat.sub_diag by lia; done).
    apply reify_frame. intros Hin. assert (length h + 1 ≤ length h); [|lia].
    apply Hf, list_elem_of_In, in_concat. exists (reach t (h ++ z :: k) v).
    rewrite <- !list_elem_of_In. split; [|done]. by apply list_elem_of_fmap_2. }
  assert (reach t (h ++ b' :: k) <$> b' = reach t (h ++ z :: k) <$> b') as ->
    by (apply list_fmap_ext; intros; apply Hag; by eapply list_elem_of_lookup_2).
  split; [|intros l Hin; apply Hf in Hin; lia].
  rewrite <- Hxs. apply mapM_agree. intros v Hv. by apply Hag.
Qed.

Lemma deep_new_into_slice t c : deep t c → deep (SSlice t) (new_into c).
Proof.
  intros Hc h v x Hv. destruct v as [| |l|]; try done.
  - cbn in Hv. simplify_eq. exists Nil, h. split; [done|]. split; [done|]. split; [done|].
    by intros l []%elem_of_nil.
  - cbn in Hv |- *. destruct (h !! l) as [b|]; [|done]. cbn in *.
    destruct (mapM (reify t h) b) as [ys|] eqn:Hb; [|done].
    destruct (fill_deep t c h b ys Hc Hb ((λ _, Nil) <$> b)) as (b' & h' & -> & Hlen & Hp & Hl & Hxs & Hf).
    cbn. eexists _, _. split; [done|]. split; [done|]. rewrite Hl. cbn. rewrite Hxs. split; [done|].
    intros k [->|Hk]%elem_of_cons; [lia|by apply Hf].
Qed.

Lemma deep_new_into_ptr t c : deep t c → deep (SPtr t) (new_into c).
Proof.
  intros Hc h v x Hv. destruct v as [| |l|]; try done.
  - cbn in Hv. simplify_eq. exists Nil, h. split; [done|]. split; [done|]. split; [done|].
    by intros l []%elem_of_nil.
  - cbn in Hv |- *. destruct (h !! l) as [[|y []]|]; try done. cbn in *.
    destruct (reify t h y) as [z|] eqn:Hy; [|done].
    destruct (fill_deep t c h [y] [z] Hc) with (z := [Nil]) as (b' & h' & E & Hlen & Hp & Hl & Hxs & Hf);
      [cbn; by rewrite Hy|].
    cbn in E. rewrite E. cbn. eexists _, _. split; [done|]. split; [done|]. rewrite Hl. cbn.
    destruct b' as [|y' []]; try done. cbn in Hxs, Hf. rewrite app_nil_r in Hf.
    apply bind_Some in Hxs as (z' & Hz & [= ->]). rewrite Hz. split; [done|].
    intros k [->|Hk]%elem_of_cons; [lia|by apply Hf].
Qed.

(** [DeepCopy] is what a pointer field gets. *)
Lemma DeepCopy_new_into c l y h : h !! l = Some [y] → DeepCopy c (Ref l) h = new_into c (Ref l) h.
Proof.
  intros Hl. cbn. rewrite Hl. cbn. by destruct (c y (h ++ [[Nil]])) as [[]|].
Qed.

Lemma deep_DeepCopy t c : deep t c → deep (SPtr t) (DeepCopy c).
Proof.
  intros Hc h v x Hv. destruct v as [| |l|]; try done.
  - cbn in Hv. simplify_eq. exists Nil, h. split; [done|]. split; [done|]. split; [done|].
    by intros l []%elem_of_nil.
  - destruct (h !! l) as [[|y []]|] eqn:Hl; try (by cbn in Hv; rewrite Hl in Hv).
    rewrite (DeepCopy_new_into c l y h Hl). by apply (deep_new_into_ptr t c Hc).
Qed.

(** *** Structs *)

Lemma Forall3_elem {A B C} (P Q : A → B → C → Prop) l k m :
  Forall3 P l k m → (∀ x y z, x ∈ l → y ∈ k → P x y z → Q x y z) → Forall3 Q l k m.
Proof.
  induction 1 as [|x y z l k m Hx _ IH]; intros H; constructor; [apply H; [by left..|done]|].
  apply IH. intros. apply H; [by right..|done].
Qed.

Lemma NoDup_fst {A} (l : list (string * A)) k a b : NoDup l.*1 → (k, a) ∈ l → (k, b) ∈ l → a = b.
Proof.
  induction l as [|[j c] l IH]; intros Hnd Ha Hb; [by apply elem_of_nil in Ha|].
  apply NoDup_cons in Hnd as [Hn Hnd].
  apply elem_of_cons in Ha as [Ea|Ha]; apply elem_of_cons in Hb as [Eb|Hb]; simplify_eq; auto.
  - destruct Hn. apply list_elem_of_fmap. by exists (j, b).
  - destruct Hn. apply list_elem_of_fmap. by exists (j, a).
Qed.

Lemma get_field_elem f v fs : NoDup fs.*1 → (f, v) ∈ fs → get_field f fs = Some v.
Proof.
  intros Hnd Hin. unfold get_field.
  destruct (list_find (λ x, x.1 = f) fs) as [[i [n w]]|] eqn:E.
  - apply list_find_Some in E as (Hi & Hn & _). cbn in *. subst. f_equal.
    by eapply NoDup_fst; [done|eapply list_elem_of_lookup_2|].
  - exfalso. apply list_find_None in E. rewrite Forall_forall in E. by apply (E (f, v)).
Qed.

(** One field of the output after the statements for the fields [dn] have run. *)
Definition field_ok (h0 : memory) (inp : list (string * mval)) (h : memory) (dn : list string)
    (d : string * shape) (o : string * mval) (x : string * tree) : Prop :=
  d.1 = o.1 ∧ x.1 = o.1 ∧ reify d.2 h o.2 = Some x.2 ∧
  (∃ v, get_field d.1 inp = Some v ∧ reify d.2 h0 v = Some x.2) ∧
  (d.1 ∈ dn → ∀ l, l ∈ reach d.2 h o.2 → length h0 ≤ l).

Lemma Forall3_set f v' (R R' : string * shape → string * mval → string * tree → Prop) ts out xs :
  Forall3 R ts out xs →
  (∀ d o x, d ∈ ts → R d o x → R' d (if str_eqb o.1 f then (o.1, v') else o) x) →
  Forall3 R' ts (set_field f v' out) xs.
Proof.
  induction 1 as [|d o x ts out xs Hd _ IH]; intros H; [constructor|].
  unfold set_field. rewrite fmap_cons. constructor; [apply H; [by left|done]|].
  apply IH. intros. apply H; [by right|done].
Qed.

Lemma Forall3_field {R : string * shape → string * mval → string * tree → Prop} {ts out xs d} :
  Forall3 R ts out xs → d ∈ ts → ∃ o x, R d o x.
Proof.
  induction 1 as [|d' o x ts out xs Hd _ IH]; intros Hin; [by apply elem_of_nil in Hin|].
  apply elem_of_cons in Hin as [->|Hin]; eauto.
Qed.

Lemma run_statements_deep ts xs h0 inp : NoDup ts.*1 → ∀ ss dn out h,
  (∀ f c, (f, c) ∈ ss → ∃ t, (f, t) ∈ ts ∧ deep t c) →
  Forall3 (field_ok h0 inp h dn) ts out xs → h0 `prefix_of` h →
  ∃ out' h', run_statements ss inp out h = Some (out', h') ∧ h0 `prefix_of` h' ∧
    Forall3 (field_ok h0 inp h' (ss.*1 ++ dn)) ts out' xs.
Proof.
  intros Hnd. induction ss as [|[f c] ss IH]; intros dn out h Hss Hout Hp; [by exists out, h|].
  destruct (Hss f c) as (t & Ht & Hc); [by left|].
  destruct (Forall3_field Hout Ht) as (o & x & _ & _ & _ & (v & Hg & Hv) & _). cbn in Hg, Hv.
  destruct (reify_mono t h0 h v x.2 Hp Hv) as [Hv' _].
  destruct (Hc h v x.2 Hv') as (v' & h1 & E & Hp1 & Hv1 & Hf1).
  cbn [run_statements]. rewrite Hg. cbn [mbind option_bind]. rewrite E. cbn [mbind option_bind].
  destruct (IH (f :: dn) (set_field f v' out) h1) as (out' & h' & E' & Hp' & HF);
    [intros; apply Hss; by right| |by etrans|].
  - eapply Forall3_set; [exact Hout|]. intros d o' x' Hd (H1 & H2 & H3 & (w & Hw & Hr) & H5).
    destruct (str_eqb o'.1 f) eqn:Ef.
    + apply str_eqb_true in Ef. destruct d as [n t']. cbn in *. subst n. rewrite Ef in *.
      assert (t' = t) as -> by (by eapply NoDup_fst). rewrite Hg in Hw. injection Hw as <-.
      rewrite Hv in Hr. injection Hr as Hr. unfold field_ok. cbn. rewrite <- Hr. split_and!; try done; [by eauto|].
      intros _ l Hl. apply Hf1 in Hl. apply prefix_length in Hp. lia.
    + apply str_eqb_false in Ef. destruct (reify_mono d.2 h h1 o'.2 x'.2 Hp1 H3) as [H3' Hr'].
      unfold field_ok. split_and!; try done; [by eauto|]. rewrite Hr'.
      intros [Heq|Hin]%elem_of_cons; [congruence|by apply H5].
  - exists out', h'. split; [done|]. split; [done|]. eapply Forall3_elem; [exact HF|].
    intros d o' x' _ _ (H1 & H2 & H3 & H4 & H5). unfold field_ok. split_and!; try done.
    intros Hin. apply H5. rewrite fmap_cons in Hin. cbn in Hin. set_solver.
Qed.

(** Every field is without references, or one of the statements gives it memory of its own. *)
Lemma deep_copy_struct ts ss :
  NoDup ts.*1 → (∀ f t, (f, t) ∈ ts → flat t = true ∨ f ∈ ss.*1) →
  (∀ f c, (f, c) ∈ ss → ∃ t, (f, t) ∈ ts ∧ deep t c) →
  deep (SStruct ts) (copy_struct ss).
Proof.
  intros Hnd Hcov Hss h v x Hv. destruct v as [| | |fs]; try done. cbn in Hv.
  destruct (zip_fields _ fs) as [xs|] eqn:Hz; [|done]. cbn in Hv. injection Hv as <-.
  apply (zip_fields_Forall3 ts (λ t, reify t h)) in Hz.
  assert (fs.*1 = ts.*1) as Hn.
  { clear -Hz. induction Hz as [|d f y ts fs xs (? & _) _ IH]; [done|]. rewrite !fmap_cons. cbn. congruence. }
  assert (Forall3 (field_ok h fs h []) ts fs xs) as H0.
  { eapply Forall3_elem; [exact Hz|]. intros d [n o] y _ Ho (H1 & H2 & H3). cbn in *. unfold field_ok. cbn.
    split_and!; try done; [|by intros []%elem_of_nil]. exists o. split; [|done]. rewrite H1.
    apply get_field_elem; [by rewrite Hn|done]. }
  destruct (run_statements_deep ts xs h fs Hnd ss [] fs h Hss H0) as (out & h' & E & Hp & HF); [done|].
  exists (Fields out), h'. cbn [copy_struct]. rewrite E. split; [done|]. split; [done|]. split.
  - cbn [reify]. assert (zip_fields ((λ d, (d.1, reify d.2 h')) <$> ts) out = Some xs) as ->; [|done].
    apply (zip_fields_Forall3 ts (λ t, reify t h')). eapply Forall3_elem; [exact HF|].
    intros d o y _ _ (H1 & H2 & H3 & _). done.
  - cbn [reach]. assert (∀ d o y, d ∈ ts → field_ok h fs h' (ss.*1 ++ []) d o y →
      ∀ l, l ∈ reach d.2 h' o.2 → length h ≤ l) as Hf.
    { intros [f t] o y Hd (_ & _ & _ & _ & H5) l Hl. destruct (Hcov f t Hd) as [Hflat|Hin].
      - cbn in Hl. rewrite flat_reach in Hl by done. by apply elem_of_nil in Hl.
      - apply H5; [by rewrite app_nil_r|done]. }
    clear -HF Hf. induction HF as [|d o y ts out xs Hd _ IH]; intros l Hl; [by apply elem_of_nil in Hl|].
    rewrite fmap_cons in Hl. cbn in Hl. apply elem_of_app in Hl as [Hl|Hl].
    + eapply Hf; [by left|done|done].
    + apply IH; [|done]. intros d' o' y' ?. apply Hf. by right.
Qed.

(** ** Separation *)

(** After a deep copy, the original and the copy are equal, and a write to a block of one of them
    leaves the other as it was. *)
Definition separate (t : shape) (x : tree) (h : memory) (v v' : mval) : Prop :=
  reify t h v = Some x ∧ reify t h v' = Some x ∧
  (∀ l b, l ∈ reach t h v' → reify t (<[l := b]> h) v = Some x) ∧
  (∀ l b, l ∈ reach t h v → reify t (<[l := b]> h) v' = Some x).

Lemma deep_separate t c h v x :
  deep t c → reify t h v = Some x → ∃ v' h', c v h = Some (v', h') ∧ h `prefix_of` h' ∧ separate t x h' v v'.
Proof.
  intros Hc Hv. destruct (Hc h v x Hv) as (v' & h' & E & Hp & Hv' & Hf). exists v', h'.
  destruct (reify_mono t h h' v x Hp Hv) as [H1 H2].
  assert (∀ l, l ∈ reach t h' v → l < length h) as Hold.
  { intros l Hl. rewrite H2 in Hl. by apply lookup_lt_is_Some, (reify_dom t h v x). }
  split; [done|]. split; [done|]. split; [done|]. split; [done|].
  split; intros l b Hl.
  - destruct (reify_frame t h' v l b) as [-> _]; [|done]. intros Hin. apply Hold in Hin. apply Hf in Hl. lia.
  - destruct (reify_frame t h' v' l b) as [-> _]; [|done]. intros Hin. apply Hold in Hl. apply Hf in Hin. lia.
Qed.
