(* ===== verification/ApiCopies.v ===== *)
(** * api/kubauth/v1alpha1: the types of the API and their copies

    The structs of the API by the shape of their fields, and the [DeepCopyInto], [DeepCopy] and
    [DeepCopyObject] functions of each ([zz_generated.deepcopy.go]), statement by statement. Every
    type is shown to be copied deeply: a cache that hands out copies never sees the changes of its
    clients.

    The types of the Kubernetes libraries ([ObjectMeta], [ListMeta], [JSON]) are arguments with
    their copying functions, which are documented to be deep. Times and durations are scalars: their
    parts are never written. *)

From S2P Require Import Prelude DeepCopy.

(** ** The libraries *)

Class ApiMachinery := {
  ObjectMeta_t : shape;
  ListMeta_t : shape;
  JSON_t : shape;
  ObjectMeta_DeepCopyInto : copier;
  ListMeta_DeepCopyInto : copier;
  JSON_DeepCopyInto : copier;
  Time_DeepCopyInto : copier;
}.

Class ApiMachineryOk (A : ApiMachinery) := {
  ObjectMeta_deep : deep ObjectMeta_t ObjectMeta_DeepCopyInto;
  ListMeta_deep : deep ListMeta_t ListMeta_DeepCopyInto;
  JSON_deep : deep JSON_t JSON_DeepCopyInto;
  Time_deep : deep SScalar Time_DeepCopyInto;
}.

Section api.
Context {A : ApiMachinery}.

(** ** The types *)

Definition GroupSpec_t : shape := SStruct [("Comment", SScalar); ("Claims", SPtr JSON_t)].
Definition GroupStatus_t : shape := SStruct [].
Definition Group_t : shape := SStruct [("TypeMeta", SScalar); ("ObjectMeta", ObjectMeta_t);
  ("Spec", GroupSpec_t); ("Status", GroupStatus_t)].
Definition GroupList_t : shape := SStruct [("TypeMeta", SScalar); ("ListMeta", ListMeta_t);
  ("Items", SSlice Group_t)].
Definition GroupBindingSpec_t : shape := SStruct [("User", SScalar); ("Group", SScalar)].
Definition GroupBindingStatus_t : shape := SStruct [].
Definition GroupBinding_t : shape := SStruct [("TypeMeta", SScalar); ("ObjectMeta", ObjectMeta_t);
  ("Spec", GroupBindingSpec_t); ("Status", GroupBindingStatus_t)].
Definition GroupBindingList_t : shape := SStruct [("TypeMeta", SScalar); ("ListMeta", ListMeta_t);
  ("Items", SSlice GroupBinding_t)].
Definition LoginAttemptDetailProvider_t : shape := SStruct [("Name", SScalar); ("ClaimAuthority", SScalar);
  ("CredentialAuthority", SScalar); ("EmailAuthority", SScalar); ("GroupAuthority", SScalar);
  ("NameAuthority", SScalar)].
Definition LoginAttemptDetailTranslated_t : shape := SStruct [("Claims", JSON_t); ("Groups", SSlice SScalar);
  ("Uid", SPtr SScalar)].
Definition LoginAttemptUser_t : shape := SStruct [("Login", SScalar); ("Uid", SPtr SScalar); ("Name", SScalar);
  ("Emails", SSlice SScalar); ("Groups", SSlice SScalar); ("Claims", SPtr JSON_t)].
Definition LoginAttemptDetail_t : shape := SStruct [("Provider", LoginAttemptDetailProvider_t);
  ("User", LoginAttemptUser_t); ("Status", SScalar); ("Translated", LoginAttemptDetailTranslated_t)].
Definition LoginAttemptSpec_t : shape := SStruct [("When", SScalar); ("User", LoginAttemptUser_t);
  ("Authority", SScalar); ("Status", SScalar); ("Details", SSlice LoginAttemptDetail_t)].
Definition LoginAttemptStatus_t : shape := SStruct [].
Definition LoginAttempt_t : shape := SStruct [("TypeMeta", SScalar); ("ObjectMeta", ObjectMeta_t);
  ("Spec", LoginAttemptSpec_t); ("Status", LoginAttemptStatus_t)].
Definition LoginAttemptList_t : shape := SStruct [("TypeMeta", SScalar); ("ListMeta", ListMeta_t);
  ("Items", SSlice LoginAttempt_t)].
Definition OidcClientSecretSpec_t : shape := SStruct [("Name", SScalar); ("Key", SScalar); ("Hashed", SScalar)].
Definition OidcClientSpec_t : shape := SStruct [("Enabled", SPtr SScalar);
  ("Secrets", SPtr (SSlice OidcClientSecretSpec_t)); ("RedirectURIs", SSlice SScalar);
  ("GrantTypes", SSlice SScalar); ("ResponseTypes", SSlice SScalar); ("Scopes", SSlice SScalar);
  ("Public", SScalar); ("Audiences", SSlice SScalar); ("ForceOpenIdScope", SPtr SScalar); ("Style", SScalar);
  ("PostLogoutURL", SScalar); ("DisplayName", SScalar); ("Description", SScalar); ("EntryURL", SScalar);
  ("AccessTokenLifespan", SScalar); ("RefreshTokenLifespan", SScalar); ("IDTokenLifespan", SScalar);
  ("ClientId", SScalar); ("UpstreamProviders", SSlice SScalar)].
Definition OidcClientStatus_t : shape := SStruct [("Phase", SScalar); ("ClientId", SScalar);
  ("Message", SScalar)].
Definition OidcClient_t : shape := SStruct [("TypeMeta", SScalar); ("ObjectMeta", ObjectMeta_t);
  ("Spec", OidcClientSpec_t); ("Status", OidcClientStatus_t)].
Definition OidcClientList_t : shape := SStruct [("TypeMeta", SScalar); ("ListMeta", ListMeta_t);
  ("Items", SSlice OidcClient_t)].
Definition SsoSessionSpec_t : shape := SStruct [("Login", SScalar); ("FullName", SScalar);
  ("Deadline", SScalar); ("Expiry", SScalar); ("Claims", SPtr JSON_t); ("WebToken", SScalar)].
Definition SsoSessionStatus_t : shape := SStruct [].
Definition SsoSession_t : shape := SStruct [("TypeMeta", SScalar); ("ObjectMeta", ObjectMeta_t);
  ("Spec", SsoSessionSpec_t); ("Status", SsoSessionStatus_t)].
Definition SsoSessionList_t : shape := SStruct [("TypeMeta", SScalar); ("ListMeta", ListMeta_t);
  ("Items", SSlice SsoSession_t)].
Definition LocalConfigMapSpec_t : shape := SStruct [("Name", SScalar); ("Key", SScalar)].
Definition LocalSecretSpec_t : shape := SStruct [("Name", SScalar); ("Key", SScalar)].
Definition CertificateAuthoritySource_t : shape := SStruct [("ConfigMap", SPtr LocalConfigMapSpec_t);
  ("Secret", SPtr LocalSecretSpec_t)].
Definition UpstreamProviderConfig_t : shape := SStruct [("AuthURL", SScalar); ("TokenURL", SScalar);
  ("DeviceAuthURL", SScalar); ("UserInfoURL", SScalar); ("JWKSURL", SScalar); ("Algorithms", SSlice SScalar);
  ("IntrospectionURL", SScalar); ("EndSessionURL", SScalar)].
Definition ClaimRenamingSpec_t : shape := SStruct [("OldName", SScalar); ("NewName", SScalar);
  ("Operation", SScalar)].
Definition UpstreamProviderSpec_t : shape := SStruct [("Enabled", SPtr SScalar); ("Type", SScalar);
  ("DisplayName", SScalar); ("ClientSpecific", SScalar); ("IssuerURL", SScalar);
  ("CertificateAuthority", SPtr CertificateAuthoritySource_t); ("InsecureSkipVerify", SScalar);
  ("RedirectURL", SScalar); ("ClientId", SScalar); ("ClientSecret", LocalSecretSpec_t);
  ("Scopes", SSlice SScalar); ("UseUserInfo", SScalar); ("ClaimRenamings", SSlice ClaimRenamingSpec_t);
  ("ClaimRemovals", SSlice SScalar); ("LocalEnrichment", SPtr SScalar);
  ("ExplicitConfig", SPtr UpstreamProviderConfig_t); ("DumpExchanges", SScalar)].
Definition UpstreamProviderStatus_t : shape := SStruct [("Phase", SScalar); ("Message", SScalar);
  ("EffectiveConfig", SPtr UpstreamProviderConfig_t)].
Definition UpstreamProvider_t : shape := SStruct [("TypeMeta", SScalar); ("ObjectMeta", ObjectMeta_t);
  ("Spec", UpstreamProviderSpec_t); ("Status", UpstreamProviderStatus_t)].
Definition UpstreamProviderList_t : shape := SStruct [("TypeMeta", SScalar); ("ListMeta", ListMeta_t);
  ("Items", SSlice UpstreamProvider_t)].
Definition UserSpec_t : shape := SStruct [("Name", SScalar); ("Emails", SSlice SScalar);
  ("PasswordHash", SScalar); ("Uid", SPtr SScalar); ("Comment", SScalar); ("Claims", SPtr JSON_t);
  ("Disabled", SPtr SScalar)].
Definition UserStatus_t : shape := SStruct [].
Definition User_t : shape := SStruct [("TypeMeta", SScalar); ("ObjectMeta", ObjectMeta_t);
  ("Spec", UserSpec_t); ("Status", UserStatus_t)].
Definition UserList_t : shape := SStruct [("TypeMeta", SScalar); ("ListMeta", ListMeta_t);
  ("Items", SSlice User_t)].

(** ** [DeepCopyInto] *)

Definition GroupSpec_DeepCopyInto : copier := copy_struct [("Claims", new_into JSON_DeepCopyInto)].
Definition GroupStatus_DeepCopyInto : copier := copy_struct [].
Definition Group_DeepCopyInto : copier := copy_struct [("TypeMeta", assign);
  ("ObjectMeta", ObjectMeta_DeepCopyInto); ("Spec", GroupSpec_DeepCopyInto); ("Status", assign)].
Definition GroupList_DeepCopyInto : copier := copy_struct [("TypeMeta", assign);
  ("ListMeta", ListMeta_DeepCopyInto); ("Items", new_into Group_DeepCopyInto)].
Definition GroupBindingSpec_DeepCopyInto : copier := copy_struct [].
Definition GroupBindingStatus_DeepCopyInto : copier := copy_struct [].
Definition GroupBinding_DeepCopyInto : copier := copy_struct [("TypeMeta", assign);
  ("ObjectMeta", ObjectMeta_DeepCopyInto); ("Spec", assign); ("Status", assign)].
Definition GroupBindingList_DeepCopyInto : copier := copy_struct [("TypeMeta", assign);
  ("ListMeta", ListMeta_DeepCopyInto); ("Items", new_into GroupBinding_DeepCopyInto)].
Definition LoginAttemptDetailProvider_DeepCopyInto : copier := copy_struct [].
Definition LoginAttemptDetailTranslated_DeepCopyInto : copier := copy_struct [("Claims", JSON_DeepCopyInto);
  ("Groups", new_copy); ("Uid", new_copy)].
Definition LoginAttemptUser_DeepCopyInto : copier := copy_struct [("Uid", new_copy); ("Emails", new_copy);
  ("Groups", new_copy); ("Claims", new_into JSON_DeepCopyInto)].
Definition LoginAttemptDetail_DeepCopyInto : copier := copy_struct [("Provider", assign);
  ("User", LoginAttemptUser_DeepCopyInto); ("Translated", LoginAttemptDetailTranslated_DeepCopyInto)].
Definition LoginAttemptSpec_DeepCopyInto : copier := copy_struct [("When", Time_DeepCopyInto);
  ("User", LoginAttemptUser_DeepCopyInto); ("Details", new_into LoginAttemptDetail_DeepCopyInto)].
Definition LoginAttemptStatus_DeepCopyInto : copier := copy_struct [].
Definition LoginAttempt_DeepCopyInto : copier := copy_struct [("TypeMeta", assign);
  ("ObjectMeta", ObjectMeta_DeepCopyInto); ("Spec", LoginAttemptSpec_DeepCopyInto); ("Status", assign)].
Definition LoginAttemptList_DeepCopyInto : copier := copy_struct [("TypeMeta", assign);
  ("ListMeta", ListMeta_DeepCopyInto); ("Items", new_into LoginAttempt_DeepCopyInto)].
Definition OidcClientSecretSpec_DeepCopyInto : copier := copy_struct [].
Definition OidcClientSpec_DeepCopyInto : copier := copy_struct [("Enabled", new_copy);
  ("Secrets", new_into new_copy); ("RedirectURIs", new_copy); ("GrantTypes", new_copy);
  ("ResponseTypes", new_copy); ("Scopes", new_copy); ("Audiences", new_copy); ("ForceOpenIdScope", new_copy);
  ("AccessTokenLifespan", assign); ("RefreshTokenLifespan", assign); ("IDTokenLifespan", assign);
  ("UpstreamProviders", new_copy)].
Definition OidcClientStatus_DeepCopyInto : copier := copy_struct [].
Definition OidcClient_DeepCopyInto : copier := copy_struct [("TypeMeta", assign);
  ("ObjectMeta", ObjectMeta_DeepCopyInto); ("Spec", OidcClientSpec_DeepCopyInto); ("Status", assign)].
Definition OidcClientList_DeepCopyInto : copier := copy_struct [("TypeMeta", assign);
  ("ListMeta", ListMeta_DeepCopyInto); ("Items", new_into OidcClient_DeepCopyInto)].
Definition SsoSessionSpec_DeepCopyInto : copier := copy_struct [("Deadline", Time_DeepCopyInto);
  ("Expiry", Time_DeepCopyInto); ("Claims", new_into JSON_DeepCopyInto)].
Definition SsoSessionStatus_DeepCopyInto : copier := copy_struct [].
Definition SsoSession_DeepCopyInto : copier := copy_struct [("TypeMeta", assign);
  ("ObjectMeta", ObjectMeta_DeepCopyInto); ("Spec", SsoSessionSpec_DeepCopyInto); ("Status", assign)].
Definition SsoSessionList_DeepCopyInto : copier := copy_struct [("TypeMeta", assign);
  ("ListMeta", ListMeta_DeepCopyInto); ("Items", new_into SsoSession_DeepCopyInto)].
Definition LocalConfigMapSpec_DeepCopyInto : copier := copy_struct [].
Definition LocalSecretSpec_DeepCopyInto : copier := copy_struct [].
Definition CertificateAuthoritySource_DeepCopyInto : copier := copy_struct [("ConfigMap", new_copy);
  ("Secret", new_copy)].
Definition UpstreamProviderConfig_DeepCopyInto : copier := copy_struct [("Algorithms", new_copy)].
Definition ClaimRenamingSpec_DeepCopyInto : copier := copy_struct [].
Definition UpstreamProviderSpec_DeepCopyInto : copier := copy_struct [("Enabled", new_copy);
  ("CertificateAuthority", new_into CertificateAuthoritySource_DeepCopyInto); ("ClientSecret", assign);
  ("Scopes", new_copy); ("ClaimRenamings", new_copy); ("ClaimRemovals", new_copy);
  ("LocalEnrichment", new_copy); ("ExplicitConfig", new_into UpstreamProviderConfig_DeepCopyInto)].
Definition UpstreamProviderStatus_DeepCopyInto : copier := copy_struct [
  ("EffectiveConfig", new_into UpstreamProviderConfig_DeepCopyInto)].
Definition UpstreamProvider_DeepCopyInto : copier := copy_struct [("TypeMeta", assign);
  ("ObjectMeta", ObjectMeta_DeepCopyInto); ("Spec", UpstreamProviderSpec_DeepCopyInto);
  ("Status", UpstreamProviderStatus_DeepCopyInto)].
Definition UpstreamProviderList_DeepCopyInto : copier := copy_struct [("TypeMeta", assign);
  ("ListMeta", ListMeta_DeepCopyInto); ("Items", new_into UpstreamProvider_DeepCopyInto)].
Definition UserSpec_DeepCopyInto : copier := copy_struct [("Emails", new_copy); ("Uid", new_copy);
  ("Claims", new_into JSON_DeepCopyInto); ("Disabled", new_copy)].
Definition UserStatus_DeepCopyInto : copier := copy_struct [].
Definition User_DeepCopyInto : copier := copy_struct [("TypeMeta", assign);
  ("ObjectMeta", ObjectMeta_DeepCopyInto); ("Spec", UserSpec_DeepCopyInto); ("Status", assign)].
Definition UserList_DeepCopyInto : copier := copy_struct [("TypeMeta", assign);
  ("ListMeta", ListMeta_DeepCopyInto); ("Items", new_into User_DeepCopyInto)].

(** ** [DeepCopy] and [DeepCopyObject] *)

Definition GroupSpec_DeepCopy : copier := DeepCopy GroupSpec_DeepCopyInto.
Definition GroupStatus_DeepCopy : copier := DeepCopy GroupStatus_DeepCopyInto.
Definition Group_DeepCopy : copier := DeepCopy Group_DeepCopyInto.
Definition GroupList_DeepCopy : copier := DeepCopy GroupList_DeepCopyInto.
Definition GroupBindingSpec_DeepCopy : copier := DeepCopy GroupBindingSpec_DeepCopyInto.
Definition GroupBindingStatus_DeepCopy : copier := DeepCopy GroupBindingStatus_DeepCopyInto.
Definition GroupBinding_DeepCopy : copier := DeepCopy GroupBinding_DeepCopyInto.
Definition GroupBindingList_DeepCopy : copier := DeepCopy GroupBindingList_DeepCopyInto.
Definition LoginAttemptDetailProvider_DeepCopy : copier := DeepCopy LoginAttemptDetailProvider_DeepCopyInto.
Definition LoginAttemptDetailTranslated_DeepCopy : copier := DeepCopy LoginAttemptDetailTranslated_DeepCopyInto.
Definition LoginAttemptUser_DeepCopy : copier := DeepCopy LoginAttemptUser_DeepCopyInto.
Definition LoginAttemptDetail_DeepCopy : copier := DeepCopy LoginAttemptDetail_DeepCopyInto.
Definition LoginAttemptSpec_DeepCopy : copier := DeepCopy LoginAttemptSpec_DeepCopyInto.
Definition LoginAttemptStatus_DeepCopy : copier := DeepCopy LoginAttemptStatus_DeepCopyInto.
Definition LoginAttempt_DeepCopy : copier := DeepCopy LoginAttempt_DeepCopyInto.
Definition LoginAttemptList_DeepCopy : copier := DeepCopy LoginAttemptList_DeepCopyInto.
Definition OidcClientSecretSpec_DeepCopy : copier := DeepCopy OidcClientSecretSpec_DeepCopyInto.
Definition OidcClientSpec_DeepCopy : copier := DeepCopy OidcClientSpec_DeepCopyInto.
Definition OidcClientStatus_DeepCopy : copier := DeepCopy OidcClientStatus_DeepCopyInto.
Definition OidcClient_DeepCopy : copier := DeepCopy OidcClient_DeepCopyInto.
Definition OidcClientList_DeepCopy : copier := DeepCopy OidcClientList_DeepCopyInto.
Definition SsoSessionSpec_DeepCopy : copier := DeepCopy SsoSessionSpec_DeepCopyInto.
Definition SsoSessionStatus_DeepCopy : copier := DeepCopy SsoSessionStatus_DeepCopyInto.
Definition SsoSession_DeepCopy : copier := DeepCopy SsoSession_DeepCopyInto.
Definition SsoSessionList_DeepCopy : copier := DeepCopy SsoSessionList_DeepCopyInto.
Definition LocalConfigMapSpec_DeepCopy : copier := DeepCopy LocalConfigMapSpec_DeepCopyInto.
Definition LocalSecretSpec_DeepCopy : copier := DeepCopy LocalSecretSpec_DeepCopyInto.
Definition CertificateAuthoritySource_DeepCopy : copier := DeepCopy CertificateAuthoritySource_DeepCopyInto.
Definition UpstreamProviderConfig_DeepCopy : copier := DeepCopy UpstreamProviderConfig_DeepCopyInto.
Definition ClaimRenamingSpec_DeepCopy : copier := DeepCopy ClaimRenamingSpec_DeepCopyInto.
Definition UpstreamProviderSpec_DeepCopy : copier := DeepCopy UpstreamProviderSpec_DeepCopyInto.
Definition UpstreamProviderStatus_DeepCopy : copier := DeepCopy UpstreamProviderStatus_DeepCopyInto.
Definition UpstreamProvider_DeepCopy : copier := DeepCopy UpstreamProvider_DeepCopyInto.
Definition UpstreamProviderList_DeepCopy : copier := DeepCopy UpstreamProviderList_DeepCopyInto.
Definition UserSpec_DeepCopy : copier := DeepCopy UserSpec_DeepCopyInto.
Definition UserStatus_DeepCopy : copier := DeepCopy UserStatus_DeepCopyInto.
Definition User_DeepCopy : copier := DeepCopy User_DeepCopyInto.
Definition UserList_DeepCopy : copier := DeepCopy UserList_DeepCopyInto.

Definition Group_DeepCopyObject := DeepCopyObject Group_DeepCopy.
Definition GroupList_DeepCopyObject := DeepCopyObject GroupList_DeepCopy.
Definition GroupBinding_DeepCopyObject := DeepCopyObject GroupBinding_DeepCopy.
Definition GroupBindingList_DeepCopyObject := DeepCopyObject GroupBindingList_DeepCopy.
Definition LoginAttempt_DeepCopyObject := DeepCopyObject LoginAttempt_DeepCopy.
Definition LoginAttemptList_DeepCopyObject := DeepCopyObject LoginAttemptList_DeepCopy.
Definition OidcClient_DeepCopyObject := DeepCopyObject OidcClient_DeepCopy.
Definition OidcClientList_DeepCopyObject := DeepCopyObject OidcClientList_DeepCopy.
Definition SsoSession_DeepCopyObject := DeepCopyObject SsoSession_DeepCopy.
Definition SsoSessionList_DeepCopyObject := DeepCopyObject SsoSessionList_DeepCopy.
Definition UpstreamProvider_DeepCopyObject := DeepCopyObject UpstreamProvider_DeepCopy.
Definition UpstreamProviderList_DeepCopyObject := DeepCopyObject UpstreamProviderList_DeepCopy.
Definition User_DeepCopyObject := DeepCopyObject User_DeepCopy.
Definition UserList_DeepCopyObject := DeepCopyObject UserList_DeepCopy.

Definition api_copies : list (string * shape * copier * copier) := [
  ("GroupSpec", GroupSpec_t, GroupSpec_DeepCopyInto, GroupSpec_DeepCopy);
  ("GroupStatus", GroupStatus_t, GroupStatus_DeepCopyInto, GroupStatus_DeepCopy);
  ("Group", Group_t, Group_DeepCopyInto, Group_DeepCopy);
  ("GroupList", GroupList_t, GroupList_DeepCopyInto, GroupList_DeepCopy);
  ("GroupBindingSpec", GroupBindingSpec_t, GroupBindingSpec_DeepCopyInto, GroupBindingSpec_DeepCopy);
  ("GroupBindingStatus", GroupBindingStatus_t, GroupBindingStatus_DeepCopyInto, GroupBindingStatus_DeepCopy);
  ("GroupBinding", GroupBinding_t, GroupBinding_DeepCopyInto, GroupBinding_DeepCopy);
  ("GroupBindingList", GroupBindingList_t, GroupBindingList_DeepCopyInto, GroupBindingList_DeepCopy);
  ("LoginAttemptDetailProvider", LoginAttemptDetailProvider_t, LoginAttemptDetailProvider_DeepCopyInto, LoginAttemptDetailProvider_DeepCopy);
  ("LoginAttemptDetailTranslated", LoginAttemptDetailTranslated_t, LoginAttemptDetailTranslated_DeepCopyInto, LoginAttemptDetailTranslated_DeepCopy);
  ("LoginAttemptUser", LoginAttemptUser_t, LoginAttemptUser_DeepCopyInto, LoginAttemptUser_DeepCopy);
  ("LoginAttemptDetail", LoginAttemptDetail_t, LoginAttemptDetail_DeepCopyInto, LoginAttemptDetail_DeepCopy);
  ("LoginAttemptSpec", LoginAttemptSpec_t, LoginAttemptSpec_DeepCopyInto, LoginAttemptSpec_DeepCopy);
  ("LoginAttemptStatus", LoginAttemptStatus_t, LoginAttemptStatus_DeepCopyInto, LoginAttemptStatus_DeepCopy);
  ("LoginAttempt", LoginAttempt_t, LoginAttempt_DeepCopyInto, LoginAttempt_DeepCopy);
  ("LoginAttemptList", LoginAttemptList_t, LoginAttemptList_DeepCopyInto, LoginAttemptList_DeepCopy);
  ("OidcClientSecretSpec", OidcClientSecretSpec_t, OidcClientSecretSpec_DeepCopyInto, OidcClientSecretSpec_DeepCopy);
  ("OidcClientSpec", OidcClientSpec_t, OidcClientSpec_DeepCopyInto, OidcClientSpec_DeepCopy);
  ("OidcClientStatus", OidcClientStatus_t, OidcClientStatus_DeepCopyInto, OidcClientStatus_DeepCopy);
  ("OidcClient", OidcClient_t, OidcClient_DeepCopyInto, OidcClient_DeepCopy);
  ("OidcClientList", OidcClientList_t, OidcClientList_DeepCopyInto, OidcClientList_DeepCopy);
  ("SsoSessionSpec", SsoSessionSpec_t, SsoSessionSpec_DeepCopyInto, SsoSessionSpec_DeepCopy);
  ("SsoSessionStatus", SsoSessionStatus_t, SsoSessionStatus_DeepCopyInto, SsoSessionStatus_DeepCopy);
  ("SsoSession", SsoSession_t, SsoSession_DeepCopyInto, SsoSession_DeepCopy);
  ("SsoSessionList", SsoSessionList_t, SsoSessionList_DeepCopyInto, SsoSessionList_DeepCopy);
  ("LocalConfigMapSpec", LocalConfigMapSpec_t, LocalConfigMapSpec_DeepCopyInto, LocalConfigMapSpec_DeepCopy);
  ("LocalSecretSpec", LocalSecretSpec_t, LocalSecretSpec_DeepCopyInto, LocalSecretSpec_DeepCopy);
  ("CertificateAuthoritySource", CertificateAuthoritySource_t, CertificateAuthoritySource_DeepCopyInto, CertificateAuthoritySource_DeepCopy);
  ("UpstreamProviderConfig", UpstreamProviderConfig_t, UpstreamProviderConfig_DeepCopyInto, UpstreamProviderConfig_DeepCopy);
  ("ClaimRenamingSpec", ClaimRenamingSpec_t, ClaimRenamingSpec_DeepCopyInto, ClaimRenamingSpec_DeepCopy);
  ("UpstreamProviderSpec", UpstreamProviderSpec_t, UpstreamProviderSpec_DeepCopyInto, UpstreamProviderSpec_DeepCopy);
  ("UpstreamProviderStatus", UpstreamProviderStatus_t, UpstreamProviderStatus_DeepCopyInto, UpstreamProviderStatus_DeepCopy);
  ("UpstreamProvider", UpstreamProvider_t, UpstreamProvider_DeepCopyInto, UpstreamProvider_DeepCopy);
  ("UpstreamProviderList", UpstreamProviderList_t, UpstreamProviderList_DeepCopyInto, UpstreamProviderList_DeepCopy);
  ("UserSpec", UserSpec_t, UserSpec_DeepCopyInto, UserSpec_DeepCopy);
  ("UserStatus", UserStatus_t, UserStatus_DeepCopyInto, UserStatus_DeepCopy);
  ("User", User_t, User_DeepCopyInto, User_DeepCopy);
  ("UserList", UserList_t, UserList_DeepCopyInto, UserList_DeepCopy)].
Definition api_objects : list (shape * copier * (mval → memory → option (option mval * memory))) := [
  (Group_t, Group_DeepCopyInto, Group_DeepCopyObject);
  (GroupList_t, GroupList_DeepCopyInto, GroupList_DeepCopyObject);
  (GroupBinding_t, GroupBinding_DeepCopyInto, GroupBinding_DeepCopyObject);
  (GroupBindingList_t, GroupBindingList_DeepCopyInto, GroupBindingList_DeepCopyObject);
  (LoginAttempt_t, LoginAttempt_DeepCopyInto, LoginAttempt_DeepCopyObject);
  (LoginAttemptList_t, LoginAttemptList_DeepCopyInto, LoginAttemptList_DeepCopyObject);
  (OidcClient_t, OidcClient_DeepCopyInto, OidcClient_DeepCopyObject);
  (OidcClientList_t, OidcClientList_DeepCopyInto, OidcClientList_DeepCopyObject);
  (SsoSession_t, SsoSession_DeepCopyInto, SsoSession_DeepCopyObject);
  (SsoSessionList_t, SsoSessionList_DeepCopyInto, SsoSessionList_DeepCopyObject);
  (UpstreamProvider_t, UpstreamProvider_DeepCopyInto, UpstreamProvider_DeepCopyObject);
  (UpstreamProviderList_t, UpstreamProviderList_DeepCopyInto, UpstreamProviderList_DeepCopyObject);
  (User_t, User_DeepCopyInto, User_DeepCopyObject);
  (UserList_t, UserList_DeepCopyInto, UserList_DeepCopyObject)].

(** ** Every copy is deep *)

(** A checkable form of [deep_copy_struct]. *)
Definition covered (ts : list (string * shape)) (ss : list (string * copier)) : bool :=
  forallb (λ d, existsb (str_eqb d.1) ss.*1 || flat d.2) ts.
Definition shape_of (f : string) (ts : list (string * shape)) : option shape :=
  snd <$> (snd <$> list_find (λ d, d.1 = f) ts).

Lemma deep_by_fields ts ss :
  bool_decide (NoDup ts.*1) = true → covered ts ss = true →
  Forall (λ s, ∃ t, shape_of s.1 ts = Some t ∧ deep t s.2) ss → deep (SStruct ts) (copy_struct ss).
Proof.
  intros Hnd%bool_decide_eq_true Hcov Hss. apply deep_copy_struct; [done|..].
  - intros f t Hin. unfold covered in Hcov. rewrite forallb_forall in Hcov.
    specialize (Hcov (f, t)). rewrite <- list_elem_of_In in Hcov. specialize (Hcov Hin).
    apply orb_true_iff in Hcov as [H|H]; [right|by left].
    apply existsb_exists in H as (g & Hg & E). apply str_eqb_true in E. cbn in E. subst.
    by apply list_elem_of_In.
  - intros f c Hin. rewrite Forall_forall in Hss. destruct (Hss (f, c) Hin) as (t & Ht & Hd).
    exists t. split; [|done]. unfold shape_of in Ht. cbn in Ht.
    destruct (list_find (λ d, d.1 = f) ts) as [[i [n u]]|] eqn:E; [|done]. cbn in Ht. injection Ht as ->.
    apply list_find_Some in E as (Hi & Hn & _). cbn in Hn. subst. by eapply list_elem_of_lookup_2.
Qed.

(** The statements of the generated code, one by one. *)
Ltac copies_deep :=
  lazymatch goal with
  | |- deep _ ObjectMeta_DeepCopyInto => exact ObjectMeta_deep
  | |- deep _ ListMeta_DeepCopyInto => exact ListMeta_deep
  | |- deep _ JSON_DeepCopyInto => exact JSON_deep
  | |- deep _ Time_DeepCopyInto => exact Time_deep
  | |- deep _ assign => apply deep_assign; vm_compute; reflexivity
  | |- deep (SPtr _) new_copy => apply deep_new_copy_ptr; vm_compute; reflexivity
  | |- deep (SSlice _) new_copy => apply deep_new_copy_slice; vm_compute; reflexivity
  | |- deep (SPtr _) (new_into _) => apply deep_new_into_ptr; copies_deep
  | |- deep (SSlice _) (new_into _) => apply deep_new_into_slice; copies_deep
  | |- deep (SStruct _) (copy_struct _) =>
      apply deep_by_fields; [vm_compute; reflexivity|vm_compute; reflexivity|];
      repeat apply Forall_cons_2; try apply Forall_nil_2;
      (eexists; split; [cbv; reflexivity|cbn [snd]; copies_deep])
  | |- deep ?t (copy_struct ?ss) => let t := eval hnf in t in change (deep t (copy_struct ss)); copies_deep
  | |- deep ?t ?c => let c := eval red in c in change (deep t c); copies_deep
  end.

Context `{!ApiMachineryOk A}.

Lemma api_deep : Forall (λ e, deep e.1.1.2 e.1.2 ∧ e.2 = DeepCopy e.1.2) api_copies.
Proof.
  unfold api_copies. repeat apply Forall_cons_2; try apply Forall_nil_2; split; try reflexivity; cbn [fst snd];
    copies_deep.
Qed.

(** A nil object gives a nil interface, any other one a copy. *)
Lemma api_objects_nil : Forall (λ e, ∀ h v x, reify (SPtr e.1.1) h v = Some x →
  ∃ o h', e.2 v h = Some (o, h') ∧ (o = None ↔ v = Nil)) api_objects.
Proof.
  assert (∀ t into h v x, deep t into → reify (SPtr t) h v = Some x →
    ∃ o h', DeepCopyObject (DeepCopy into) v h = Some (o, h') ∧ (o = None ↔ v = Nil)) as Hobj.
  { intros t into h v x Hd Hv. destruct (deep_DeepCopy t into Hd h v x Hv) as (v' & h' & E & _).
    unfold DeepCopyObject. rewrite E. cbn. eexists _, _. split; [done|].
    destruct v as [| |l|]; cbn in E; try done; [by simplify_eq|].
    destruct (h !! l) as [[|y []]|]; try done. cbn in E. destruct (into y _) as [[]|]; by simplify_eq/=. }
  unfold api_objects. repeat apply Forall_cons_2; try apply Forall_nil_2; cbn [fst snd]; intros h v x;
    (apply Hobj; copies_deep).
Qed.

(** C27. Copies share nothing: for each type of the API, [DeepCopy] and [DeepCopyInto] always succeed,
    give a value equal to the original, and whatever is then written to a block of memory of one of
    them leaves the other unchanged. *)
Theorem api_copies_separate name t into copy h x :
  (name, t, into, copy) ∈ api_copies →
  (∀ p, reify (SPtr t) h p = Some x →
     ∃ p' h', copy p h = Some (p', h') ∧ h `prefix_of` h' ∧ separate (SPtr t) x h' p p') ∧
  (∀ v, reify t h v = Some x →
     ∃ v' h', into v h = Some (v', h') ∧ h `prefix_of` h' ∧ separate t x h' v v').
Proof.
  intros Hin. pose proof api_deep as Hall. rewrite Forall_forall in Hall.
  destruct (Hall _ Hin) as [Hd Hc]. cbn in Hd, Hc. subst copy.
  split; intros v Hv; (eapply deep_separate; [|done]); [by apply deep_DeepCopy|done].
Qed.
End api.

(** ** A concrete object *)

Module ApiDemo.
#[export] Instance machinery : ApiMachinery := {|
  ObjectMeta_t := SStruct [("Name", SScalar); ("Finalizers", SSlice SScalar)];
  ListMeta_t := SStruct [("ResourceVersion", SScalar); ("RemainingItemCount", SPtr SScalar)];
  JSON_t := SStruct [("Raw", SSlice SScalar)];
  ObjectMeta_DeepCopyInto := copy_struct [("Finalizers", new_copy)];
  ListMeta_DeepCopyInto := copy_struct [("RemainingItemCount", new_copy)];
  JSON_DeepCopyInto := copy_struct [("Raw", new_copy)];
  Time_DeepCopyInto := assign;
|}.

#[export] Instance machinery_ok : ApiMachineryOk machinery.
Proof.
  split; [..|by apply deep_assign];
    (apply deep_by_fields; [vm_compute; reflexivity|vm_compute; reflexivity|]; apply Forall_cons_2; [|apply Forall_nil_2];
     eexists; split; [reflexivity|]; first [by apply deep_new_copy_ptr|by apply deep_new_copy_slice]).
Qed.

(** A user with two addresses, a uid and claims: the emails, the uid, the claims and their bytes, and
    the object itself are blocks 0 to 4. *)
Definition spec : mval :=
  Fields [("Name", Scalar "Alice"); ("Emails", Ref 0); ("PasswordHash", Scalar "h"); ("Uid", Ref 1);
          ("Comment", Scalar ""); ("Claims", Ref 3); ("Disabled", Nil)].
Definition mem : memory :=
  [[Scalar "a@x"; Scalar "a@y"]; [Scalar "1000"]; [Scalar "{"; Scalar "}"]; [Fields [("Raw", Ref 2)]]; [spec]].
End ApiDemo.
Import ApiDemo.

Lemma api_copies_separate_witness :
  ∃ x p' h', UserSpec_DeepCopy (Ref 4) ApiDemo.mem = Some (p', h') ∧
    separate (SPtr UserSpec_t) x h' (Ref 4) p' ∧ p' ≠ Ref 4 ∧
    reify (SPtr UserSpec_t) (<[0 := []]> h') p' = Some x.
Proof.
  destruct (reify (SPtr UserSpec_t) ApiDemo.mem (Ref 4)) as [x|] eqn:Hx; [|vm_compute in Hx; discriminate Hx].
  destruct (api_copies_separate "UserSpec" UserSpec_t UserSpec_DeepCopyInto UserSpec_DeepCopy ApiDemo.mem x)
    as [Hcopy _]; [exact (list_elem_of_lookup_2 api_copies 34 _ eq_refl)|].
  destruct (Hcopy (Ref 4) Hx) as (p' & h' & E & _ & Hs).
  exists x, p', h'. split; [exact E|]. split; [exact Hs|].
  vm_compute in E. injection E as <- <-. split; [discriminate|].
  destruct Hs as (_ & _ & _ & Hw). apply Hw. vm_compute. right. left.
Defined.
