(* ===== verification/Convergence.v ===== *)
(** * The OidcClient controller in a changing cluster

    The controller runs [Reconcile] on the keys of a work queue while users create, edit and delete
    OidcClient resources and secrets, requests are served from the store, and the process may be
    restarted. [world] is the cluster, the store and the queue; a change enqueues what the watches of
    [oidc.go] enqueue ([Watches]); a run reads the cluster (reads and patches may fail) and its
    writes come back as changes.

    When the queue is empty, the store holds exactly the clients the cluster asks for
    ([store_converges]), and the queue does become empty once the cluster is left alone and the API
    answers ([controller_settles]). Both hold as long as status updates are accepted: a lost one can
    leave the client of a deleted resource registered ([lost_status_leaves_client]). *)

From S2P Require Import Prelude Misc K8s OidcClient Storage Upstreams UpstreamController ClientController Watches.

(** A resource: namespace and name, as the requests have them. *)
Abbreviation key := (string * string)%type.

Section world.
Context {Req AReq Up Key : Type}.
Abbreviation store := (@MemoryStore Req AReq Up Key).
Context (r : OidcClientReconciler) (bcrypt_hash : string → option string).

Record world := {
  w_objs : gmap key OidcClient;
  w_secrets : gmap key (gmap string string);
  w_store : store;
  w_queue : gset key;
}.

(** ** What the cluster asks for *)

(** What a reconciliation decides about a live resource. *)
Inductive verdict := Off | Bad (e : string) | Good (hashes : list string) | Unreadable (e : string).

Definition verdict_of (a : api) (ns : string) (sp : OidcClientSpec) : verdict :=
  if negb (BoolPtrTrue (Enabled sp)) then Off
  else if Public sp then
    match Secrets sp with Some _ => Bad "'secrets' set while public is enabled" | None => Good [] end
  else
    match Secrets sp with
    | None | Some [] => Bad "when not public, one of 'secrets' must be defined with at least one item"
    | Some refs =>
        match hash_secrets a bcrypt_hash ns refs [] with
        | Hashes hs => Good hs
        | BadSecret e => Bad e
        | SecretApiErr e => Unreadable e
        end
    end.

Definition expected_status (v : verdict) (id : string) : OidcClientStatus :=
  let st p m := {| ost_Phase := p; ost_ClientId := id; ost_Message := m |} in
  match v with
  | Off => st OidcClientPhaseOff "Disabled"
  | Bad e | Unreadable e => st OidcClientPhaseError e
  | Good _ => st OidcClientPhaseReady "OK"
  end.

(** The client of a resource whose status is settled. *)
Definition expected_client (v : verdict) (o : OidcClient) : option kubauthClient :=
  match v with
  | Good hs => Some (NewKubauthClient (with_default_style r o) (ost_ClientId (oc_Status o)) hs)
  | _ => None
  end.

(** The answers of an API that does not fail. *)
Definition read {A} (x : option A) : get_result A := match x with Some v => Found v | None => NotFound end.
Definition cluster_api (w : world) (k : key) : api :=
  {| api_get := read (w_objs w !! k); api_secret := λ n, read (w_secrets w !! (k.1, n));
     api_patch := λ _, None; api_status_update := λ _, None |}.

(** The client id of a resource. *)
Definition cid (k : key) (o : OidcClient) : string := ost_ClientId (oc_Status (with_client_id r o k.2 k.1)).

(** ** Steps *)

(** What a run leaves of the object, and whether it changed it. *)
Definition written (res : outcome store) (o : OidcClient) : OidcClient :=
  let o := match out_status res with Some s => set_status s o | None => o end in
  match out_finalizers res with Some fs => set_finalizers fs o | None => o end.
Definition changed (res : outcome store) (o : OidcClient) : bool :=
  match out_status res with Some _ => true | None => false end ||
  match out_finalizers res with Some fs => bool_decide (fs ≠ oc_Finalizers o) | None => false end.

Definition succeeded (res : outcome store) : bool :=
  match out_result res with Done => true | _ => false end.

(** An object under deletion is removed with its last finalizer. *)
Definition put_back (k : key) (o : OidcClient) (objs : gmap key OidcClient) : gmap key OidcClient :=
  if oc_Deleting o && bool_decide (oc_Finalizers o = []) then delete k objs else <[k := o]> objs.

(** One run on the request [k]. It is queued again when it failed, or by the event of its own change. *)
Definition run (a : api) (k : key) (w : world) : world :=
  let res := Reconcile r a bcrypt_hash k.2 k.1 (w_store w) in
  match w_objs w !! k with
  | Some o =>
      {| w_objs := put_back k (written res o) (w_objs w); w_secrets := w_secrets w; w_store := out_store res;
         w_queue := if succeeded res && negb (changed res o)
                    then w_queue w ∖ {[k]} else w_queue w |}
  | None =>
      {| w_objs := w_objs w; w_secrets := w_secrets w; w_store := out_store res;
         w_queue := if succeeded res then w_queue w ∖ {[k]} else w_queue w |}
  end.

Definition new_object (k : key) (sp : OidcClientSpec) : OidcClient :=
  {| oc_Name := k.2; oc_Namespace := k.1; oc_Deleting := false; oc_Finalizers := []; oc_Spec := sp;
     oc_Status := {| ost_Phase := ""; ost_ClientId := ""; ost_Message := "" |} |}.

Definition edited (k : key) (sp : OidcClientSpec) (objs : gmap key OidcClient) : OidcClient :=
  match objs !! k with Some o => set_spec sp o | None => new_object k sp end.

Definition set_deleting (o : OidcClient) : OidcClient :=
  {| oc_Name := oc_Name o; oc_Namespace := oc_Namespace o; oc_Deleting := true;
     oc_Finalizers := oc_Finalizers o; oc_Spec := oc_Spec o; oc_Status := oc_Status o |}.

Definition unique_ids (objs : gmap key OidcClient) : Prop :=
  ∀ k1 o1 k2 o2, objs !! k1 = Some o1 → objs !! k2 = Some o2 → cid k1 o1 = cid k2 o2 → k1 = k2.

(** An API that answers what the cluster holds, or an error; status updates are accepted. *)
Definition honest (w : world) (k : key) (a : api) : Prop :=
  (api_get a = read (w_objs w !! k) ∨ ∃ e, api_get a = GetErr e) ∧
  (∀ n, api_secret a n = read (w_secrets w !! (k.1, n)) ∨ ∃ e, api_secret a n = GetErr e) ∧
  ∀ o, api_status_update a o = None.

Inductive step : world → world → Prop :=
(** A user creates a resource or edits its spec; client ids stay unique. *)
| Edit w k sp :
    k.2 ≠ "" → Watches.no_colon k.1 = true → unique_ids (<[k := edited k sp (w_objs w)]> (w_objs w)) →
    step w {| w_objs := <[k := edited k sp (w_objs w)]> (w_objs w); w_secrets := w_secrets w;
              w_store := w_store w; w_queue := w_queue w ∪ {[k]} |}
(** A user deletes a resource. *)
| Remove w k o :
    w_objs w !! k = Some o →
    step w {| w_objs := put_back k (set_deleting o) (w_objs w); w_secrets := w_secrets w;
              w_store := w_store w; w_queue := w_queue w ∪ {[k]} |}
(** A secret is written or deleted. *)
| Secret w ns n data :
    Watches.no_colon ns = true →
    step w {| w_objs := w_objs w; w_secrets := partial_alter (λ _, data) (ns, n) (w_secrets w);
              w_store := w_store w;
              w_queue := w_queue w ∪ list_to_set (findOidcClientFromSecret (map_to_list (w_objs w)).*2 None ns n) |}
(** Requests are served: they do not touch the registered clients. *)
| Serve w st :
    Clients st = Clients (w_store w) →
    step w {| w_objs := w_objs w; w_secrets := w_secrets w; w_store := st; w_queue := w_queue w |}
(** The process restarts: the store is empty, every resource is listed. *)
| Restart w :
    step w {| w_objs := w_objs w; w_secrets := w_secrets w; w_store := NewMemoryStore;
              w_queue := dom (w_objs w) |}
(** The controller takes a request. *)
| Run w k a : k ∈ w_queue w → honest w k a → step w (run a k w).

Definition started (w : world) : Prop :=
  w_objs w = ∅ ∧ Clients (w_store w) = ∅.

Inductive reachable : world → Prop :=
| reach_start w : started w → reachable w
| reach_step w w' : reachable w → step w w' → reachable w'.

(** ** One run on a live resource *)

Lemma with_client_id_fields k o :
  let o' := with_client_id r o k.2 k.1 in
  oc_Name o' = oc_Name o ∧ oc_Namespace o' = oc_Namespace o ∧ oc_Deleting o' = oc_Deleting o ∧
  oc_Finalizers o' = oc_Finalizers o ∧ oc_Spec o' = oc_Spec o ∧
  ost_Phase (oc_Status o') = ost_Phase (oc_Status o) ∧ ost_Message (oc_Status o') = ost_Message (oc_Status o).
Proof. unfold with_client_id. by destruct (str_empty _). Qed.

Lemma Reconcile_verdict a o k (st : store) :
  api_get a = Found o → oc_Deleting o = false → finalizerName ∈ oc_Finalizers o →
  Reconcile r a bcrypt_hash k.2 k.1 st =
  match verdict_of a k.1 (oc_Spec o) with
  | Off => UpdateStorageAndStatus r a (effective r o k.2 k.1) [] None st
  | Good hs => UpdateStorageAndStatus r a (effective r o k.2 k.1) hs None st
  | Bad e => UpdateStorageAndStatus r a (effective r o k.2 k.1) [] (Some e) st
  | Unreadable e => nothing r (ReconcileErr e) st
  end.
Proof.
  intros Hg Hd Hf. unfold Reconcile, verdict_of, effective. rewrite Hg.
  destruct (with_client_id_fields k o) as (_ & _ & Ed & Ef & Es & _). cbn zeta.
  set (o1 := with_client_id r o k.2 k.1) in *. rewrite Ed, Hd, Ef, bool_decide_false, Es by tauto.
  destruct (BoolPtrTrue (Enabled (oc_Spec o))) eqn:Hen; [|done]. cbn.
  assert (Public (oc_Spec (with_default_style r o1)) = Public (oc_Spec o) ∧
          Secrets (oc_Spec (with_default_style r o1)) = Secrets (oc_Spec o)) as [-> ->]
    by (unfold with_default_style; rewrite <- Es; by destruct (str_empty _)).
  destruct (Public (oc_Spec o)); [by destruct (Secrets (oc_Spec o))|].
  destruct (Secrets (oc_Spec o)) as [[|x l]|]; [done| |done].
  by destruct (hash_secrets a bcrypt_hash k.1 (x :: l) []).
Qed.

Lemma verdict_good a ns sp hs : verdict_of a ns sp = Good hs → BoolPtrTrue (Enabled sp) = true.
Proof. unfold verdict_of. by destruct (BoolPtrTrue (Enabled sp)). Qed.
Lemma verdict_off a ns sp : verdict_of a ns sp = Off → BoolPtrTrue (Enabled sp) = false.
Proof. unfold verdict_of. destruct (BoolPtrTrue (Enabled sp)); [|done]. cbn. by repeat case_match. Qed.

(** A status is new, or was written by the controller with the client id. *)
Definition status_ok (o : OidcClient) : Prop :=
  ost_ClientId (oc_Status o) = "" → ost_Phase (oc_Status o) = "".

Lemma cid_status k o : ost_ClientId (oc_Status o) ≠ "" → cid k o = ost_ClientId (oc_Status o).
Proof. intros H. unfold cid, with_client_id. by rewrite (proj2 (str_empty_false _) H). Qed.

Lemma set_status_same o : set_status (oc_Status o) o = o.
Proof. by destruct o. Qed.

(** [updateStatus], accepted: the object gets the status, and is changed when it is another one. *)
Lemma updateStatus_effect a k o err (st : store) ev v :
  (∀ x, api_status_update a x = None) → status_ok o →
  phase_message (effective r o k.2 k.1) err = (ost_Phase (expected_status v ""), ost_Message (expected_status v "")) →
  let res := updateStatus r a (effective r o k.2 k.1) err st ev in
  succeeded res = true ∧ out_store res = st ∧ out_finalizers res = None ∧
  written res o = set_status (expected_status v (cid k o)) o ∧
  (changed res o = false ↔ oc_Status o = expected_status v (cid k o)).
Proof.
  intros Ha Hok Hpm. destruct (effective_fields r o k.2 k.1) as (_ & _ & Est & _).
  destruct (with_client_id_fields k o) as (_ & _ & _ & _ & _ & Eph & Emsg).
  assert (new_status (effective r o k.2 k.1) err = expected_status v (cid k o)) as Hnew.
  { unfold new_status. rewrite Hpm, Est. cbn. unfold cid. by destruct v. }
  unfold updateStatus. rewrite Hnew, Est, Eph, Emsg, Ha.
  destruct (negb _ || negb _) eqn:Hup.
  - cbn. unfold written, changed. cbn. split_and!; try done. split; [done|]. intros E. exfalso. rewrite E in Hup.
    by rewrite !str_eqb_refl in Hup.
  - apply orb_false_iff in Hup as [H1%negb_false_iff%str_eqb_true H2%negb_false_iff%str_eqb_true].
    assert (oc_Status o = expected_status v (cid k o)) as E.
    { rewrite cid_status; [|intros Hid; rewrite (Hok Hid) in H1; by destruct v].
      clear -H1 H2. destruct v; cbn in *; rewrite <- H1, <- H2; by destruct (oc_Status o). }
    cbn. unfold written, changed. cbn. split_and!; try done. by rewrite <- E, set_status_same.
Qed.

Lemma with_default_style_status s o : with_default_style r (set_status s o) = set_status s (with_default_style r o).
Proof. unfold with_default_style. cbn. by destruct (str_empty _). Qed.

(** The store after a run that decided [v]. *)
Definition registered (v : verdict) (k : key) (o : OidcClient) (m : gmap string kubauthClient) : gmap string kubauthClient :=
  match expected_client v o with
  | Some c => <[cid k o := c]> m
  | None => delete (cid k o) m
  end.

Lemma run_live a o k (st : store) v :
  api_get a = Found o → (∀ x, api_status_update a x = None) → oc_Deleting o = false → finalizerName ∈ oc_Finalizers o →
  status_ok o → cid k o ≠ "" → (oc_Namespace o, oc_Name o) = k →
  (∀ old, Clients st !! cid k o = Some old → GetK8sId old = oc_Namespace o +:+ ":" +:+ oc_Name o) →
  verdict_of a k.1 (oc_Spec o) = v → (∀ e, v ≠ Unreadable e) →
  let res := Reconcile r a bcrypt_hash k.2 k.1 st in
  let o' := set_status (expected_status v (cid k o)) o in
  succeeded res = true ∧ out_finalizers res = None ∧ written res o = o' ∧
  (changed res o = false ↔ oc_Status o = expected_status v (cid k o)) ∧
  Clients (out_store res) = registered v k o' (Clients st).
Proof.
  intros Hg Ha Hd Hf Hok Hid Hk Hold Hv Hread. cbn zeta. rewrite (Reconcile_verdict a o k st Hg Hd Hf), Hv.
  destruct (effective_fields r o k.2 k.1) as (En & Ens & Est & _).
  destruct (with_client_id_fields k o) as (_ & _ & _ & _ & Esp & _).
  assert (Enabled (oc_Spec (effective r o k.2 k.1)) = Enabled (oc_Spec o)) as Een.
  { unfold effective, with_default_style. rewrite <- Esp. by repeat case_match. }
  assert (cid k (set_status (expected_status v (cid k o)) o) = cid k o) as Hcid.
  { rewrite cid_status; [by destruct v|]. by destruct v. }
  unfold registered. rewrite Hcid. unfold UpdateStorageAndStatus. rewrite Een, Est. fold (cid k o).
  destruct v as [|e|hs|e]; [| | |by destruct (Hread e)].
  - rewrite (verdict_off _ _ _ Hv).
    edestruct (updateStatus_effect a k o None (DeleteClient (cid k o) st)) with (v := Off) as (H1 & H2 & H3 & H4 & H5); [done|done| |].
    { unfold phase_message. by rewrite Een, (verdict_off _ _ _ Hv). }
    do 4 (split; [done|]). rewrite H2. done.
  - edestruct (updateStatus_effect a k o (Some e) (DeleteClient (cid k o) st)) with (v := Bad e) as (H1 & H2 & H3 & H4 & H5); [done|done|done|].
    do 4 (split; [done|]). rewrite H2. done.
  - rewrite (verdict_good _ _ _ _ Hv).
    set (c := NewKubauthClient _ _ _). destruct (SetClient c st) as [[e|] st'] eqn:Hset; apply SetClient_spec in Hset.
    { exfalso. destruct Hset as (_ & old & Ho & Hne). apply Hne. change (OidcClient.GetID c) with (cid k o) in Ho.
      rewrite (Hold old Ho). unfold c, GetK8sId. cbn. by rewrite En, Ens. }
    edestruct (updateStatus_effect a k o None st') with (v := Good hs) as (H1 & H2 & H3 & H4 & H5); [done|done| |].
    { unfold phase_message. by rewrite Een, (verdict_good _ _ _ _ Hv). }
    do 4 (split; [done|]). rewrite H2, Hset. cbn. f_equal.
    unfold c. f_equal. rewrite with_default_style_status.
    assert (new_status (effective r o k.2 k.1) None = expected_status (Good hs) (cid k o)) as ->.
    { unfold new_status, phase_message. by rewrite Een, (verdict_good _ _ _ _ Hv), Est. }
    unfold effective. rewrite Esp, (verdict_good _ _ _ _ Hv). unfold with_client_id.
    destruct (str_empty _); [|done]. by rewrite with_default_style_status.
Qed.


(** ** The invariant *)

(** Every registered client belongs to a resource that is ready under this id. *)
Definition no_orphan (w : world) : Prop :=
  ∀ id c, Clients (w_store w) !! id = Some c →
    ∃ k o, w_objs w !! k = Some o ∧ GetK8sId c = k.1 +:+ ":" +:+ k.2 ∧
      ost_Phase (oc_Status o) = OidcClientPhaseReady ∧ ost_ClientId (oc_Status o) = id ∧
      finalizerName ∈ oc_Finalizers o.

Definition object_ok (k : key) (o : OidcClient) : Prop :=
  (oc_Namespace o, oc_Name o) = k ∧ k.2 ≠ "" ∧ Watches.no_colon k.1 = true ∧ status_ok o ∧
  (oc_Deleting o = true → oc_Finalizers o ≠ []).

(** What the controller has nothing left to do about. *)
Definition settled (w : world) (k : key) : Prop :=
  match w_objs w !! k with
  | None => True
  | Some o =>
      if oc_Deleting o then ((finalizerName ∉ oc_Finalizers o) ∧ Clients (w_store w) !! cid k o = None)
      else
        let v := verdict_of (cluster_api w k) k.1 (oc_Spec o) in
        finalizerName ∈ oc_Finalizers o ∧ oc_Status o = expected_status v (cid k o) ∧
        Clients (w_store w) !! cid k o = expected_client v o
  end.

Definition Inv (w : world) : Prop :=
  map_Forall object_ok (w_objs w) ∧ unique_ids (w_objs w) ∧ no_orphan w ∧ ∀ k, k ∉ w_queue w → settled w k.

Lemma verdict_readable w k sp e : verdict_of (cluster_api w k) k.1 sp ≠ Unreadable e.
Proof.
  assert (∀ refs acc e', hash_secrets (cluster_api w k) bcrypt_hash k.1 refs acc ≠ SecretApiErr e') as Hh.
  { induction refs as [|x refs IH]; intros acc e'; [done|]. cbn. unfold read.
    destruct (w_secrets w !! _) as [d|]; [|done]. destruct (d !! _); [|done].
    destruct (ocs_Hashed x); [apply IH|]. destruct (bcrypt_hash _); [apply IH|done]. }
  unfold verdict_of. destruct (negb _); [done|]. destruct (Public sp); [by destruct (Secrets sp)|].
  destruct (Secrets sp) as [[|x refs]|]; [done| |done].
  destruct (hash_secrets _ _ _ _ _) eqn:E; [done|done|]. by apply Hh in E.
Qed.

(** An honest API gives the verdict of the cluster, or an error. *)
Lemma verdict_honest w k a sp :
  honest w k a →
  verdict_of a k.1 sp = verdict_of (cluster_api w k) k.1 sp ∨ ∃ e, verdict_of a k.1 sp = Unreadable e.
Proof.
  intros (_ & Hs & _). unfold verdict_of. destruct (negb _); [by left|]. destruct (Public sp); [by left|].
  destruct (Secrets sp) as [refs|]; [|by left]. destruct refs as [|x refs]; [by left|].
  assert (∀ refs acc, hash_secrets a bcrypt_hash k.1 refs acc = hash_secrets (cluster_api w k) bcrypt_hash k.1 refs acc ∨
    ∃ e, hash_secrets a bcrypt_hash k.1 refs acc = SecretApiErr e) as Hh.
  { clear -Hs. induction refs as [|x refs IH]; intros acc; [by left|]. cbn.
    destruct (Hs (ocs_Name x)) as [->|[e ->]]; [|by right; exists e].
    destruct (read _) as [d| |e]; [|by left..]. destruct (d !! _); [|by left].
    destruct (ocs_Hashed x); [apply IH|]. destruct (bcrypt_hash _); [apply IH|by left]. }
  destruct (Hh (x :: refs) []) as [->|[e ->]]; [by left|]. right. by exists e.
Qed.

Lemma cid_nonempty k o : object_ok k o → cid k o ≠ "".
Proof.
  intros (_ & Hn & _). unfold cid, with_client_id. destruct (str_empty _) eqn:E; [|by apply str_empty_false in E].
  cbn. unfold buildClientId. destruct (str_empty (ClientId (oc_Spec o))) eqn:E2; cbn;
    [|by apply str_empty_false in E2]. destruct (negb _); [|done].
  intros H. apply (f_equal String.length) in H. rewrite !str_app_length in H. cbn in H. lia.
Qed.

Lemma status_ready o : status_ok o → ost_Phase (oc_Status o) = OidcClientPhaseReady → ost_ClientId (oc_Status o) ≠ "".
Proof. intros Hok Hp Hid. rewrite (Hok Hid) in Hp. done. Qed.

(** The client under the id of a resource is its own. *)
Lemma owner_of w k o c :
  Inv w → w_objs w !! k = Some o → Clients (w_store w) !! cid k o = Some c →
  GetK8sId c = k.1 +:+ ":" +:+ k.2 ∧ ost_Phase (oc_Status o) = OidcClientPhaseReady ∧
  finalizerName ∈ oc_Finalizers o.
Proof.
  intros (Hobj & Huniq & Horph & _) Ho Hc. destruct (Horph _ _ Hc) as (k' & o' & Ho' & Hid & Hp & Hi & Hf).
  destruct (Hobj k' o' Ho') as (_ & _ & _ & Hok & _).
  assert (cid k' o' = cid k o) as E by (rewrite cid_status; [done|by apply status_ready]).
  pose proof (Huniq _ _ _ _ Ho' Ho E) as ->. rewrite Ho in Ho'. by injection Ho' as ->.
Qed.

(** A resource that did not change, with the same secrets and client, stays settled. *)
Lemma settled_frame w w' k :
  w_objs w' !! k = w_objs w !! k → w_secrets w' = w_secrets w →
  (∀ o, w_objs w !! k = Some o → Clients (w_store w') !! cid k o = Clients (w_store w) !! cid k o) →
  settled w k → settled w' k.
Proof.
  intros Ho Hs Hc. unfold settled. rewrite Ho. destruct (w_objs w !! k) as [o|] eqn:E; [|done].
  rewrite (Hc o eq_refl). unfold cluster_api. rewrite Ho, Hs, E. done.
Qed.

Lemma put_back_ne k k' o objs : k' ≠ k → put_back k o objs !! k' = objs !! k'.
Proof. intros H. unfold put_back. destruct (_ && _); [by rewrite lookup_delete_ne|by rewrite lookup_insert_ne]. Qed.

Lemma put_back_eq k o objs o' : put_back k o objs !! k = Some o' → o' = o ∧ (oc_Deleting o = true → oc_Finalizers o ≠ []).
Proof.
  unfold put_back. destruct (oc_Deleting o) eqn:Hd; cbn.
  - case_bool_decide; [by rewrite lookup_delete_eq|]. rewrite lookup_insert_eq. by intros [= <-].
  - rewrite lookup_insert_eq. by intros [= <-].
Qed.

Lemma put_back_same k o objs : object_ok k o → objs !! k = Some o → put_back k o objs = objs.
Proof.
  intros (_ & _ & _ & _ & Hd) Ho. unfold put_back. destruct (oc_Deleting o); cbn; [|by apply insert_id].
  rewrite bool_decide_false by auto. by apply insert_id.
Qed.

(** Replacing an object by one with the same id keeps the ids unique. *)
Lemma put_back_unique k o o' objs :
  objs !! k = Some o → cid k o' = cid k o → unique_ids objs → unique_ids (put_back k o' objs).
Proof.
  intros Ho Hid Hu.
  assert (∀ k1 o1, put_back k o' objs !! k1 = Some o1 → ∃ o2, objs !! k1 = Some o2 ∧ cid k1 o2 = cid k1 o1) as Hold.
  { intros k1 o1 H1. destruct (decide (k1 = k)) as [->|Hne].
    - apply put_back_eq in H1 as [-> _]. by exists o.
    - rewrite put_back_ne in H1 by done. by exists o1. }
  intros k1 o1 k2 o2 (o1' & H1 & E1)%Hold (o2' & H2 & E2)%Hold E. apply (Hu k1 o1' k2 o2'); [done..|congruence].
Qed.

(** Replacing one object, and at most the client of its id. *)
Lemma Inv_replace w k o o' st' q' :
  Inv w → w_objs w !! k = Some o → (oc_Namespace o', oc_Name o') = k → status_ok o' → cid k o' = cid k o →
  (∀ id, id ≠ cid k o → Clients st' !! id = Clients (w_store w) !! id) →
  (∀ c, Clients st' !! cid k o = Some c → GetK8sId c = k.1 +:+ ":" +:+ k.2 ∧
     ost_Phase (oc_Status o') = OidcClientPhaseReady ∧ finalizerName ∈ oc_Finalizers o') →
  (∀ k', k' ≠ k → k' ∉ q' → k' ∉ w_queue w) →
  let w' := {| w_objs := put_back k o' (w_objs w); w_secrets := w_secrets w; w_store := st'; w_queue := q' |} in
  (k ∉ q' → settled w' k) → Inv w'.
Proof.
  intros Hinv Ho Hk Hok Hcid Hother Hown Hq w' Hset. pose proof Hinv as (Hobj & Huniq & Horph & Hsett).
  destruct (Hobj k o Ho) as (_ & Hname & Hcol & Hok0 & _). split; [|split; [|split]].
  - intros k1 o1 H1. cbn in H1. destruct (decide (k1 = k)) as [->|Hne].
    + apply put_back_eq in H1 as [-> Hd]. done.
    + rewrite put_back_ne in H1 by done. by apply Hobj.
  - by apply (put_back_unique k o).
  - intros id c Hc. cbn in Hc |- *. destruct (decide (id = cid k o)) as [->|Hne].
    + destruct (Hown c Hc) as (Hid & Hp & Hf). exists k, o'. split; [|split_and!; [done|done| |done]].
      * unfold put_back. rewrite (bool_decide_false (oc_Finalizers o' = [])), andb_false_r by (intros E; rewrite E in Hf; by apply elem_of_nil in Hf).
        apply lookup_insert_eq.
      * rewrite <- Hcid. symmetry. by apply cid_status, status_ready.
    + rewrite Hother in Hc by done. destruct (Horph id c Hc) as (k0 & o0 & H0 & Hid0 & Hp0 & Hi0 & Hf0).
      exists k0, o0. split_and!; try done. rewrite put_back_ne; [done|]. intros ->. rewrite Ho in H0. injection H0 as <-.
      apply Hne. rewrite cid_status by (by apply status_ready). done.
  - intros k1 Hk1. destruct (decide (k1 = k)) as [->|Hne]; [by apply Hset|].
    eapply settled_frame; [cbn; by apply put_back_ne|done| |by apply Hsett, Hq].
    intros o1 H1. cbn. apply Hother. intros E. apply Hne. by apply (Huniq _ _ _ _ H1 Ho E).
Qed.

Lemma patched w k o fs st' :
  Inv w → k ∈ w_queue w → w_objs w !! k = Some o →
  (∀ id, id ≠ cid k o → Clients st' !! id = Clients (w_store w) !! id) →
  (∀ c, Clients st' !! cid k o = Some c → Clients (w_store w) !! cid k o = Some c ∧ finalizerName ∈ fs) →
  ∀ a, let o1 := with_client_id r o k.2 k.1 in let res := patch r a o1 fs st' in
  (succeeded res = true → changed res o = false → fs = oc_Finalizers o →
     settled {| w_objs := put_back k (written res o) (w_objs w); w_secrets := w_secrets w; w_store := st';
                w_queue := w_queue w ∖ {[k]} |} k) →
  Inv {| w_objs := put_back k (written res o) (w_objs w); w_secrets := w_secrets w; w_store := out_store res;
         w_queue := if succeeded res && negb (changed res o) then w_queue w ∖ {[k]} else w_queue w |}.
Proof.
  intros Hinv Hin Ho Hother Hown a o1 res Hset.
  pose proof Hinv as (Hobj & _). destruct (Hobj k o Ho) as (Hk & _ & _ & Hok & _).
  assert (out_store res = st') as -> by (unfold res, patch; by destruct (api_patch a _)).
  apply (Inv_replace w k o); [done|done|..].
  - unfold res, patch. by destruct (api_patch a _).
  - unfold res, patch. by destruct (api_patch a _).
  - unfold res, patch, cid, with_client_id. destruct (api_patch a _); [done|]. cbn. by destruct (str_empty _).
  - done.
  - intros c Hc. destruct (Hown c Hc) as [Hc0 Hfs]. destruct (owner_of w k o c Hinv Ho Hc0) as (H1 & H2 & H3).
    unfold res, patch. by destruct (api_patch a _).
  - intros k' Hne. destruct (_ && _); set_solver.
  - destruct (succeeded res) eqn:Hs; cbn; [|done]. destruct (changed res o) eqn:Hch; cbn; [done|].
    intros _. apply Hset; [done|done|]. unfold res, patch in Hs, Hch. destruct (api_patch a _); [done|].
    cbn in Hch. by apply bool_decide_eq_false, dec_stable in Hch.
Qed.

(** A run that failed without effect. *)
Lemma Inv_nothing w k o e :
  Inv w → w_objs w !! k = Some o → ∀ res : outcome store, res = nothing r (ReconcileErr e) (w_store w) →
  Inv {| w_objs := put_back k (written res o) (w_objs w); w_secrets := w_secrets w; w_store := out_store res;
         w_queue := if succeeded res && negb (changed res o) then w_queue w ∖ {[k]} else w_queue w |}.
Proof.
  intros Hinv Ho res ->. pose proof (proj1 Hinv k o Ho) as Hok. unfold written, changed. cbn.
  rewrite put_back_same by done. by destruct w.
Qed.

(** A run on a resource under deletion leaves no client of its id. *)
Lemma deleted_client w k o :
  Inv w → w_objs w !! k = Some o →
  Clients (if str_eqb (ost_Phase (oc_Status o)) OidcClientPhaseReady then DeleteClient (cid k o) (w_store w)
           else w_store w) !! cid k o = None.
Proof.
  intros Hinv Ho. destruct (str_eqb _ _) eqn:Hp; [cbn; apply lookup_delete_eq|].
  destruct (Clients (w_store w) !! cid k o) as [c|] eqn:Hc; [|done]. apply str_eqb_false in Hp.
  by destruct (owner_of w k o c Hinv Ho Hc) as (_ & ? & _).
Qed.

Lemma cid_set_finalizers k o fs : cid k (set_finalizers fs o) = cid k o.
Proof. unfold cid, with_client_id. cbn. by destruct (str_empty _). Qed.

Lemma Inv_run_deleting w k o a :
  Inv w → k ∈ w_queue w → w_objs w !! k = Some o → api_get a = Found o → oc_Deleting o = true → Inv (run a k w).
Proof.
  intros Hinv Hin Ho Hget Hd. unfold run. rewrite Ho. unfold Reconcile. rewrite Hget. cbn zeta.
  destruct (with_client_id_fields k o) as (_ & _ & Ed & Ef & _ & Eph & _). rewrite Ed, Eph, Ef, Hd.
  pose proof (deleted_client w k o Hinv Ho) as Hnone. unfold cid in Hnone.
  apply patched; try done.
  - intros id Hne. destruct (str_eqb _ _); [|done]. cbn. by rewrite lookup_delete_ne.
  - intros c Hc. unfold cid in Hc. by rewrite Hnone in Hc.
  - intros Hs Hch Hfs. unfold patch in *. destruct (api_patch a _); [done|]. unfold written. cbn.
    pose proof (proj1 Hinv k o Ho) as (_ & _ & _ & _ & Hne). rewrite Hfs. unfold settled, put_back. cbn.
    rewrite Hd, bool_decide_false by auto. cbn. rewrite lookup_insert_eq. cbn. rewrite Hd.
    rewrite cid_set_finalizers. split; [|exact Hnone]. rewrite <- Hfs. intros [H _]%list_elem_of_filter. done.
Qed.

Lemma Inv_run_live w k o a :
  Inv w → k ∈ w_queue w → w_objs w !! k = Some o → api_get a = Found o → oc_Deleting o = false →
  finalizerName ∈ oc_Finalizers o → honest w k a → Inv (run a k w).
Proof.
  intros Hinv Hin Ho Hget Hd Hf Ha. pose proof (proj1 Hinv k o Ho) as Hoko. pose proof Hoko as (Hk & _ & _ & Hok & _).
  unfold run. rewrite Ho.
  destruct (verdict_honest w k a (oc_Spec o) Ha) as [Hv|[e Hv]]; cycle 1.
  { apply (Inv_nothing w k o e Hinv Ho). by rewrite (Reconcile_verdict a o k _ Hget Hd Hf), Hv. }
  set (v := verdict_of (cluster_api w k) k.1 (oc_Spec o)) in *.
  destruct (run_live a o k (w_store w) v) as (H1 & H2 & H3 & H4 & H5); try done; [apply Ha|by apply cid_nonempty| | |].
  { intros old Hc. destruct (owner_of w k o old Hinv Ho Hc) as (-> & _). by rewrite <- Hk. }
  { intros e. apply verdict_readable. }
  rewrite H1, H3. cbn [andb].
  assert (cid k (set_status (expected_status v (cid k o)) o) = cid k o) as Hcid.
  { rewrite cid_status; [by destruct v|]. apply cid_nonempty in Hoko. by destruct v. }
  unfold registered in H5. rewrite Hcid in H5.
  apply (Inv_replace w k o); try done.
  - intros E. destruct (cid_nonempty k o Hoko). by destruct v.
  - intros id Hne. rewrite H5. destruct (expected_client v _); [by rewrite lookup_insert_ne|by rewrite lookup_delete_ne].
  - intros c Hc. rewrite H5 in Hc. destruct v; cbn in Hc; try (by rewrite lookup_delete_eq in Hc).
    rewrite lookup_insert_eq in Hc. injection Hc as <-. split; [|by split].
    unfold GetK8sId. cbn. rewrite with_default_style_status. cbn. rewrite <- Hk. unfold with_default_style. by destruct (str_empty _).
  - intros k' Hne. destruct (negb _); set_solver.
  - intros _. unfold settled, put_back. cbn. rewrite Hd. cbn. rewrite lookup_insert_eq. cbn. rewrite Hd, Hcid, H5.
    split; [done|]. split; [done|]. fold v. destruct (expected_client v _) as [c|] eqn:Hc; [by rewrite lookup_insert_eq|by rewrite lookup_delete_eq].
Qed.

Lemma Inv_run w k a : Inv w → k ∈ w_queue w → honest w k a → Inv (run a k w).
Proof.
  intros Hinv Hin Ha. pose proof Ha as (Hget & _ & _). pose proof Hinv as (Hobj & Huniq & Horph & Hsett).
  destruct (w_objs w !! k) as [o|] eqn:Ho; cycle 1.
  { unfold run. rewrite Ho. assert (out_store (Reconcile r a bcrypt_hash k.2 k.1 (w_store w)) = w_store w) as ->
      by (unfold Reconcile; destruct Hget as [->|[e ->]]; done).
    split_and!; [done|done|done|]. intros k1 Hk1.
    destruct (decide (k1 = k)) as [->|Hne]; [unfold settled; cbn; by rewrite Ho|].
    apply (settled_frame w); try done. apply Hsett. cbn in Hk1. destruct (succeeded _); set_solver. }
  destruct Hget as [Hget|[e Hget]]; cycle 1.
  { unfold run. rewrite Ho. apply (Inv_nothing w k o e Hinv Ho). unfold Reconcile. by rewrite Hget. }
  cbn in Hget. destruct (oc_Deleting o) eqn:Hd; [by apply (Inv_run_deleting w k o)|].
  destruct (decide (finalizerName ∈ oc_Finalizers o)) as [Hf|Hf]; [by apply (Inv_run_live w k o)|].
  unfold run. rewrite Ho. unfold Reconcile. rewrite Hget. cbn zeta.
  destruct (with_client_id_fields k o) as (_ & _ & Ed & Ef & _). rewrite Ed, Ef, Hd, bool_decide_true by done.
  apply patched; try done.
  - intros c Hc. split; [done|]. apply elem_of_app. right. by apply list_elem_of_singleton.
  - intros _ _ E. apply (f_equal length) in E. rewrite length_app in E. cbn in E. lia.
Qed.

Lemma Inv_edit w k sp :
  Inv w → k.2 ≠ "" → Watches.no_colon k.1 = true → unique_ids (<[k := edited k sp (w_objs w)]> (w_objs w)) →
  Inv {| w_objs := <[k := edited k sp (w_objs w)]> (w_objs w); w_secrets := w_secrets w;
         w_store := w_store w; w_queue := w_queue w ∪ {[k]} |}.
Proof.
  intros (Hobj & Huniq & Horph & Hsett) Hn Hc Hu. split; [|split; [done|split]].
  - intros k1 o1. cbn. rewrite lookup_insert_Some. intros [[<- <-]|[_ H1]]; [|by apply Hobj].
    unfold edited. destruct (w_objs w !! k) as [o|] eqn:Ho; [|by destruct k].
    destruct (Hobj k o Ho) as (? & ? & ? & ? & ?). done.
  - intros id c Hc'. destruct (Horph id c Hc') as (k0 & o0 & H0 & Hid & Hp & Hi & Hf). cbn.
    destruct (decide (k0 = k)) as [->|Hne].
    + exists k, (set_spec sp o0). unfold edited. by rewrite lookup_insert_eq, H0.
    + exists k0, o0. by rewrite lookup_insert_ne.
  - intros k1 Hk1. cbn in Hk1. apply (settled_frame w); cbn; [|done|done|apply Hsett; set_solver].
    rewrite lookup_insert_ne; [done|set_solver].
Qed.

Lemma Inv_remove w k o :
  Inv w → w_objs w !! k = Some o →
  Inv {| w_objs := put_back k (set_deleting o) (w_objs w); w_secrets := w_secrets w;
         w_store := w_store w; w_queue := w_queue w ∪ {[k]} |}.
Proof.
  intros Hinv Ho. pose proof (proj1 Hinv k o Ho) as (Hk & _ & _ & Hok & _).
  assert (cid k (set_deleting o) = cid k o) as Hcid by (unfold cid, with_client_id; cbn; by destruct (str_empty _)).
  apply (Inv_replace w k o); try done.
  - intros c Hc. by destruct (owner_of w k o c Hinv Ho Hc) as (? & ? & ?).
  - set_solver.
  - set_solver.
Qed.

Lemma hash_secrets_ext a a' ns refs acc :
  (∀ s, s ∈ refs → api_secret a (ocs_Name s) = api_secret a' (ocs_Name s)) →
  hash_secrets a bcrypt_hash ns refs acc = hash_secrets a' bcrypt_hash ns refs acc.
Proof.
  revert acc. induction refs as [|s refs IH]; intros acc H; [done|]. cbn. rewrite (H s) by (by left).
  assert (∀ acc, hash_secrets a bcrypt_hash ns refs acc = hash_secrets a' bcrypt_hash ns refs acc) as IH'
    by (intros; apply IH; intros; apply H; by right).
  destruct (api_secret a' _) as [d| |]; [|done..]. destruct (d !! _); [|done].
  destruct (ocs_Hashed s); [apply IH'|]. by destruct (bcrypt_hash _).
Qed.

(** A change of a secret does not change the verdict on a resource that is not woken. *)
Lemma verdict_secret w k o ns n data :
  map_Forall object_ok (w_objs w) → Watches.no_colon ns = true → w_objs w !! k = Some o →
  k ∉ findOidcClientFromSecret (map_to_list (w_objs w)).*2 None ns n →
  ∀ w', w_secrets w' = partial_alter (λ _, data) (ns, n) (w_secrets w) →
  verdict_of (cluster_api w' k) k.1 (oc_Spec o) = verdict_of (cluster_api w k) k.1 (oc_Spec o).
Proof.
  intros Hobj Hns Ho Hk w' Hw'. destruct (Hobj k o Ho) as (Hkey & _).
  unfold verdict_of. destruct (negb _); [done|]. destruct (Public _); [done|].
  destruct (Secrets (oc_Spec o)) as [[|x refs]|] eqn:Hs; [done| |done].
  rewrite (hash_secrets_ext (cluster_api w' k) (cluster_api w k)); [done|].
  intros s Hin. cbn. rewrite Hw'. destruct (decide ((k.1, ocs_Name s) = (ns, n))) as [E|E];
    [|by rewrite lookup_partial_alter_ne].
  injection E as Hkn Hsn. destruct Hk. apply woken_clients; [done|..].
  { apply Forall_forall. intros o1 ([k1 o1'] & E1 & H1)%list_elem_of_fmap. cbn in E1. subst.
    apply elem_of_map_to_list in H1. destruct (Hobj k1 o1' H1) as (Hk1 & _ & Hc & _). by rewrite <- Hk1 in Hc. }
  exists o, (x :: refs), s. rewrite <- Hkey in Hkn. cbn in Hkn. split_and!; try done.
  - apply list_elem_of_fmap. exists (k, o). split; [done|]. by apply elem_of_map_to_list.
  - by rewrite <- Hkey, Hkn.
Qed.

Lemma Inv_step w w' : Inv w → step w w' → Inv w'.
Proof.
  intros Hinv Hstep. destruct Hstep as [w k sp Hn Hc Hu|w k o Ho|w ns n data Hns|w st Hst|w|w k a Hin Ha].
  - by apply Inv_edit.
  - by apply Inv_remove.
  - destruct Hinv as (Hobj & Huniq & Horph & Hsett). split_and!; [done|done|done|].
    intros k Hk. cbn in Hk. rewrite not_elem_of_union, elem_of_list_to_set in Hk. destruct Hk as [Hq Hwoken].
    specialize (Hsett k Hq). unfold settled in *. cbn. destruct (w_objs w !! k) as [o|] eqn:Ho; [|done].
    destruct (oc_Deleting o); [done|]. by rewrite (verdict_secret w k o ns n data).
  - destruct Hinv as (Hobj & Huniq & Horph & Hsett). split_and!; [done|done| |].
    + intros id c. cbn. rewrite Hst. apply Horph.
    + intros k Hk. apply (settled_frame w); cbn; [done|done|by rewrite Hst|by apply Hsett].
  - destruct Hinv as (Hobj & Huniq & Horph & Hsett). split_and!; [done|done|done|].
    intros k Hk. unfold settled. cbn in *. apply not_elem_of_dom in Hk. by rewrite Hk.
  - by apply Inv_run.
Qed.

Lemma reachable_Inv w : reachable w → Inv w.
Proof.
  induction 1 as [w [Ho Hc]|w w' _ IH Hstep]; [|by eapply Inv_step].
  split_and!.
  - rewrite Ho. apply map_Forall_empty.
  - intros k1 o1 k2 o2. by rewrite Ho, lookup_empty.
  - intros id c. by rewrite Hc, lookup_empty.
  - intros k _. unfold settled. by rewrite Ho, lookup_empty.
Qed.

(** ** Convergence *)

#[global] Instance OidcClientStatus_eq_dec : EqDecision OidcClientStatus.
Proof. solve_decision. Defined.

(** The clients the cluster asks for: one for each resource that is not being deleted and whose
    verdict is good. *)
Definition wanted (w : world) (id : string) (c : kubauthClient) : Prop :=
  ∃ k o, w_objs w !! k = Some o ∧ oc_Deleting o = false ∧ cid k o = id ∧
    expected_client (verdict_of (cluster_api w k) k.1 (oc_Spec o)) o = Some c.

Lemma quiescent_store w :
  reachable w → w_queue w = ∅ →
  (∀ id c, Clients (w_store w) !! id = Some c ↔ wanted w id c) ∧
  ∀ k o, w_objs w !! k = Some o → oc_Deleting o = false →
    oc_Status o = expected_status (verdict_of (cluster_api w k) k.1 (oc_Spec o)) (cid k o).
Proof.
  intros Hr Hq. pose proof (reachable_Inv w Hr) as Hinv. pose proof Hinv as (Hobj & Huniq & Horph & Hsett).
  assert (∀ k, settled w k) as Hset by (intros k; apply Hsett; rewrite Hq; set_solver).
  split.
  - intros id c. split.
    + intros Hc. destruct (Horph id c Hc) as (k & o & Ho & _ & Hp & Hi & _).
      destruct (Hobj k o Ho) as (_ & _ & _ & Hok & _).
      assert (cid k o = id) as Hid by (rewrite cid_status; [done|by apply status_ready]).
      exists k, o. specialize (Hset k). unfold settled in Hset. rewrite Ho in Hset. rewrite Hid in Hset.
      destruct (oc_Deleting o); [destruct Hset as [_ Hn]; by rewrite Hn in Hc|].
      destruct Hset as (_ & _ & Hcl). split_and!; try done. by rewrite <- Hcl.
    + intros (k & o & Ho & Hd & <- & Hc). specialize (Hset k). unfold settled in Hset. rewrite Ho, Hd in Hset.
      destruct Hset as (_ & _ & ->). done.
  - intros k o Ho Hd. specialize (Hset k). unfold settled in Hset. rewrite Ho, Hd in Hset. by destruct Hset as (_ & -> & _).
Qed.


(** ** The queue empties *)

(** How many runs a resource may still need. *)
Definition rank (w : world) (k : key) : nat :=
  match w_objs w !! k with
  | None => 1
  | Some o =>
      if oc_Deleting o then (if bool_decide (finalizerName ∈ oc_Finalizers o) then 2 else 1)
      else if bool_decide (finalizerName ∈ oc_Finalizers o) then
        (if bool_decide (oc_Status o = expected_status (verdict_of (cluster_api w k) k.1 (oc_Spec o)) (cid k o))
         then 1 else 2)
      else 3
  end.

Definition remaining (w : world) : nat := sum_list_with (rank w) (elements (w_queue w)).

Lemma rank_bounds w k : 1 ≤ rank w k ≤ 3.
Proof. unfold rank. repeat case_match; lia. Qed.

Lemma honest_cluster w k : honest w k (cluster_api w k).
Proof. split; [by left|]. split; [by left|done]. Qed.

(** One run with an API that answers: the resource is done, or closer to it. *)
Lemma run_progress w k :
  Inv w → k ∈ w_queue w →
  let w' := run (cluster_api w k) k w in
  w_secrets w' = w_secrets w ∧ (∀ k', k' ≠ k → w_objs w' !! k' = w_objs w !! k') ∧
  (w_queue w' = w_queue w ∖ {[k]} ∨ w_queue w' = w_queue w ∧ rank w' k < rank w k).
Proof.
  intros Hinv Hin w'. unfold w', run. destruct (w_objs w !! k) as [o|] eqn:Ho; cycle 1.
  { cbn. split; [done|]. split; [done|]. left. unfold Reconcile. cbn. by rewrite Ho. }
  split; [done|]. split; [intros; cbn; by apply put_back_ne|]. cbn [w_queue].
  assert (api_get (cluster_api w k) = Found o) as Hget by (cbn; by rewrite Ho).
  pose proof (proj1 Hinv k o Ho) as Hoko. pose proof Hoko as (Hk & _ & _ & Hok & _).
  destruct (with_client_id_fields k o) as (_ & _ & Ed & Ef & _).
  destruct (oc_Deleting o) eqn:Hd; [|destruct (decide (finalizerName ∈ oc_Finalizers o)) as [Hf|Hf]].
  - unfold Reconcile. rewrite Hget. cbn zeta. rewrite Ed, Ef. unfold patch, changed, written. cbn.
    case_bool_decide as Hfs; cbn; [right|by left]. split; [done|]. unfold rank. cbn. rewrite Ho, Hd.
    rewrite bool_decide_true.
    2: { destruct (decide (finalizerName ∈ oc_Finalizers o)) as [|Hf]; [done|]. destruct Hfs.
         apply list_filter_all, Forall_forall. intros x Hx ->. done. }
    destruct (put_back _ _ _ !! k) as [o'|] eqn:Hp; [|lia]. apply put_back_eq in Hp as [-> _]. cbn. rewrite Hd.
    rewrite bool_decide_false; [lia|]. by intros [? _]%list_elem_of_filter.
  - destruct (run_live (cluster_api w k) o k (w_store w) (verdict_of (cluster_api w k) k.1 (oc_Spec o)))
      as (H1 & H2 & H3 & H4 & H5); try done; [by apply cid_nonempty| |intros e; apply verdict_readable|].
    { intros old Hc. destruct (owner_of w k o old Hinv Ho Hc) as (-> & _). by rewrite <- Hk. }
    rewrite H1, H3. destruct (changed _ o) eqn:Hch; [right|by left]. split; [done|].
    assert (oc_Status o ≠ expected_status (verdict_of (cluster_api w k) k.1 (oc_Spec o)) (cid k o)) as Hst
      by (intros E; apply H4 in E; congruence).
    unfold rank. rewrite Ho, Hd, bool_decide_true, bool_decide_false by done. unfold put_back. cbn [w_objs].
    cbn [oc_Deleting set_status]. rewrite Hd. cbn [andb]. rewrite lookup_insert_eq. cbn. rewrite Hd, bool_decide_true by done.
    rewrite bool_decide_true; [lia|]. f_equal. symmetry. rewrite cid_status; [by destruct (verdict_of _ _ _)|].
    apply cid_nonempty in Hoko. by destruct (verdict_of _ _ _).
  - unfold Reconcile. rewrite Hget. cbn zeta. rewrite Ed, Ef, bool_decide_true by done. right.
    unfold patch, changed, written. cbn.
    rewrite bool_decide_true; [|intros E; apply (f_equal length) in E; rewrite length_app in E; cbn in E; lia].
    cbn. split; [done|]. unfold rank at 2. rewrite Ho, Hd, bool_decide_false by done.
    unfold rank, put_back. cbn. rewrite Hd. cbn. rewrite lookup_insert_eq. cbn. rewrite Hd, bool_decide_true.
    + case_bool_decide; lia.
    + apply elem_of_app. right. by apply list_elem_of_singleton.
Qed.

Lemma remaining_split w k :
  k ∈ w_queue w → remaining w = rank w k + sum_list_with (rank w) (elements (w_queue w ∖ {[k]})).
Proof.
  intros Hk. unfold remaining. rewrite (union_difference_singleton_L k (w_queue w) Hk) at 1.
  by rewrite elements_union_singleton by set_solver.
Qed.

Lemma run_decreases w k : Inv w → k ∈ w_queue w → remaining (run (cluster_api w k) k w) < remaining w.
Proof.
  intros Hinv Hin. destruct (run_progress w k Hinv Hin) as (Hs & Hobjs & Hq).
  set (w' := run (cluster_api w k) k w) in *.
  assert (∀ k', k' ≠ k → rank w' k' = rank w k') as Hr.
  { intros k' Hne. unfold rank, cluster_api. rewrite (Hobjs k' Hne), Hs. done. }
  assert (sum_list_with (rank w') (elements (w_queue w ∖ {[k]})) = sum_list_with (rank w) (elements (w_queue w ∖ {[k]}))) as Hsum.
  { assert (∀ l, (∀ k', k' ∈ l → k' ≠ k) → sum_list_with (rank w') l = sum_list_with (rank w) l) as Hl.
    { induction l as [|x l IH]; intros Hne; [done|]. cbn. rewrite Hr by (apply Hne; by left).
      rewrite IH; [done|]. intros y ?. apply Hne. by right. }
    apply Hl. intros k' Hk'%elem_of_elements. set_solver. }
  rewrite (remaining_split w k Hin). pose proof (rank_bounds w k). destruct Hq as [Hq|[Hq Hlt]].
  - unfold remaining. rewrite Hq, Hsum. lia.
  - rewrite (remaining_split w' k) by (by rewrite Hq). rewrite Hq, Hsum. lia.
Qed.

(** Runs with an API that answers and a cluster left alone. *)
Inductive quiet_runs : nat → world → world → Prop :=
| quiet_none w : quiet_runs 0 w w
| quiet_run n w k w' :
    k ∈ w_queue w → quiet_runs n (run (cluster_api w k) k w) w' → quiet_runs (S n) w w'.

Lemma quiet_reachable n w w' : reachable w → quiet_runs n w w' → reachable w'.
Proof.
  intros Hr Hq. induction Hq as [|n w k w' Hk _ IH]; [done|]. apply IH. eapply reach_step; [done|].
  apply Run; [done|apply honest_cluster].
Qed.

Lemma quiet_bound n w w' : reachable w → quiet_runs n w w' → n + remaining w' ≤ remaining w.
Proof.
  intros Hr Hq. induction Hq as [|n w k w' Hk _ IH]; [lia|].
  assert (reachable (run (cluster_api w k) k w)) as Hr'
    by (eapply reach_step; [done|]; apply Run; [done|apply honest_cluster]).
  pose proof (run_decreases w k (reachable_Inv w Hr) Hk). specialize (IH Hr'). lia.
Qed.

Lemma quiet_end w : reachable w → ∃ n w', quiet_runs n w w' ∧ w_queue w' = ∅.
Proof.
  remember (remaining w) as m eqn:Hm. revert w Hm. induction m as [m IH] using lt_wf_ind. intros w -> Hr.
  destruct (decide (w_queue w = ∅)) as [He|He]; [exists 0, w; split; [constructor|done]|].
  destruct (set_choose_L (w_queue w) He) as [k Hk].
  destruct (IH _ (run_decreases w k (reachable_Inv w Hr) Hk) _ eq_refl) as (n & w' & Hq & Hw').
  { eapply reach_step; [done|]. apply Run; [done|apply honest_cluster]. }
  exists (S n), w'. split; [by econstructor|done].
Qed.

End world.

Arguments w_objs {Req AReq Up Key}. Arguments w_store {Req AReq Up Key}. Arguments w_queue {Req AReq Up Key}.
Arguments w_secrets {Req AReq Up Key}.

(** ** A concrete history *)

Module ConvergenceDemo.
Abbreviation world1 := (@world string unit unit unit).
Definition k : key := ("apps", "web").
Definition hash (s : string) : option string := Some s.
Definition quiet (w : world1) : world1 := run demo_reconciler hash (cluster_api w k) k w.

Definition w0 : world1 := {| w_objs := ∅; w_secrets := ∅; w_store := demo_store; w_queue := ∅ |}.
Definition w1 : world1 :=
  {| w_objs := <[k := edited k (oc_Spec web) (w_objs w0)]> (w_objs w0); w_secrets := w_secrets w0;
     w_store := w_store w0; w_queue := w_queue w0 ∪ {[k]} |}.
(** The finalizer, the client and its status, and a last look. *)
Definition w4 : world1 := quiet (quiet (quiet w1)).

(** The same, but the status update is refused, and the user deletes the resource. *)
Definition refusing (w : world1) : api :=
  {| api_get := api_get (cluster_api w k); api_secret := api_secret (cluster_api w k);
     api_patch := λ _, None; api_status_update := λ _, Some "the object has been modified" |}.
Definition lost : world1 := run demo_reconciler hash (refusing (quiet w1)) k (quiet w1).
Definition removed : world1 :=
  {| w_objs := match w_objs lost !! k with Some o => put_back k (set_deleting o) (w_objs lost) | None => w_objs lost end;
     w_secrets := w_secrets lost; w_store := w_store lost; w_queue := w_queue lost ∪ {[k]} |}.
Definition final : world1 := quiet (quiet removed).

Lemma w1_unique : unique_ids demo_reconciler (w_objs w1).
Proof.
  assert (∀ k' o', w_objs w1 !! k' = Some o' → k' = k) as H.
  { intros k' o'. unfold w1. cbn [w_objs w0]. rewrite lookup_insert_Some, lookup_empty. by intros [[<- _]|[_ ?]]. }
  intros k1 o1 k2 o2 ->%H ->%H _. done.
Qed.

Lemma w1_reachable : reachable demo_reconciler hash w1.
Proof.
  apply (reach_step _ _ w0 w1); [apply reach_start; split; reflexivity|]. apply (Edit demo_reconciler hash w0 k (oc_Spec web)); [done|done|].
  apply w1_unique.
Qed.

Lemma quiet_step w :
  reachable demo_reconciler hash w → bool_decide (k ∈ w_queue w) = true → reachable demo_reconciler hash (quiet w).
Proof.
  intros Hr Hk%bool_decide_eq_true. eapply reach_step; [exact Hr|]. apply Run; [done|apply honest_cluster].
Qed.
End ConvergenceDemo.
Import ConvergenceDemo.



(** A lost status update can leave a client behind: when the update that would have recorded the
    phase READY is refused and the resource is then deleted, the reconciler, which unregisters only
    resources whose recorded phase is READY, removes the finalizer and the client stays registered
    without any resource, with nothing left to do. *)
Theorem lost_status_leaves_client :
  w_objs final = ∅ ∧ w_queue final = ∅ ∧ ∃ c, Clients (w_store final) !! "web" = Some c ∧ GetK8sId c = "apps:web".
Proof.
  split; [vm_compute; reflexivity|]. split; [vm_compute; reflexivity|].
  destruct (Clients (w_store final) !! "web") as [c|] eqn:E; [|vm_compute in E; discriminate E].
  exists c. split; [done|]. vm_compute in E. by injection E as <-.
Qed.
