(* ===== verification/UpstreamConvergence.v ===== *)
(** * The UpstreamProvider controller in a changing cluster

    As [Convergence] for the clients: [uworld] is the cluster (the resources of the upstream
    namespace, its secrets and config maps), the store and the work queue, and the steps are edits,
    deletions, changes of secrets, restarts and runs of [Reconcile], with an API and an identity
    provider that may fail.

    When the queue is empty, every live resource has the status it should have and every valid one
    its upstream ([upstreams_converge]); what else is registered belongs to a name whose last run
    ended in error ([uw_bad], a history variable): the controller does not unregister these. The
    queue does become empty once the cluster is left alone and the providers answer
    ([upstreams_settle]).

    Three assumptions, each of which the code needs: status updates are accepted; reads of secrets and
    config maps are answered, since a failed one is not retried ([failed_read_not_retried]); the
    object that holds a certificate authority in use is not changed, since it is not watched
    ([Watches]). *)

From S2P Require Import Prelude Misc K8s HttpClient OidcClient Storage ClientController Upstreams UpstreamController Watches.

#[global] Instance UpstreamProviderConfig_eq_dec : EqDecision UpstreamProviderConfig.
Proof. solve_decision. Defined.
#[global] Instance UpstreamProviderStatus_eq_dec : EqDecision UpstreamProviderStatus.
Proof. solve_decision. Defined.

Section world.
Context {Req AReq Key : Type}.
Abbreviation store := (@MemoryStore Req AReq upstream Key).
Context (r : UpstreamProviderReconciler).
(** The libraries under [NewUpstream]; [discover] is what a provider that can be reached answers. *)
Context (http_new : Config → option string) (discover : Config → string → result string provider).
Context (provider_claims : provider → result string extraConfig) (config_provider : ProviderConfig → provider).

Abbreviation new_with d := (NewUpstream http_new d provider_claims config_provider).
Abbreviation ns := (UpstreamNamespace r).
Abbreviation data := (gmap string string).

Record uworld := {
  uw_objs : gmap string UpstreamProvider;
  uw_secrets : gmap string data;
  uw_configmaps : gmap string data;
  uw_store : store;
  uw_queue : gset string;
  uw_bad : gset string;
}.

(** ** What the cluster asks for *)

Inductive uverdict := UOff | UBad (e : string) | UDown (e : string) | UGood (u : upstream).

Definition built (o : UpstreamProvider) (d : Config → string → result string provider) (secret : string)
    (ca : list Ascii.ascii) : uverdict :=
  match new_with d o secret ca with Ok u => UGood u | Err e => UDown e end.

Definition uverdict_of (a : uapi) (d : Config → string → result string provider) (o : UpstreamProvider) : uverdict :=
  let sp := upp_Spec o in
  if negb (BoolPtrTrue (us_Enabled sp)) then UOff
  else if str_eqb (us_Type sp) UpstreamProviderTypeInternal then built o d "" []
  else match check_spec sp with
       | Some e => UBad e
       | None =>
           match (if str_empty (ls_Name (us_ClientSecret sp)) then Ok ""
                  else fetchClientSecret a ns (ls_Name (us_ClientSecret sp)) (ls_Key (us_ClientSecret sp))) with
           | Err e => UBad e
           | Ok secret =>
               match match us_CertificateAuthority sp with
                     | None => Ok ""
                     | Some src => fetchCertificateAuthority a ns src
                     end with
               | Err e => UBad e
               | Ok ca => built o d secret (String.list_ascii_of_string ca)
               end
           end
       end.

Definition expected_ustatus (v : uverdict) : UpstreamProviderStatus :=
  match v with
  | UOff => {| ups_Phase := UpstreamProviderPhaseOff; ups_Message := "OK"; ups_EffectiveConfig := None |}
  | UBad e | UDown e => {| ups_Phase := UpstreamProviderPhaseError; ups_Message := e; ups_EffectiveConfig := None |}
  | UGood u => {| ups_Phase := UpstreamProviderPhaseReady; ups_Message := "OK"; ups_EffectiveConfig := GetEffectiveConfig u |}
  end.

(** The upstreams after a run that decided [v]. *)
Definition uregistered (v : uverdict) (n : string) (m : gmap string upstream) : gmap string upstream :=
  match v with
  | UOff => delete n m
  | UGood u => <[n := u]> m
  | UBad _ | UDown _ => m
  end.

Definition uread {A} (x : option A) : get_result A := match x with Some v => Found v | None => NotFound end.
Definition ucluster_api (w : uworld) (n : string) : uapi :=
  {| uapi_get := uread (uw_objs w !! n); uapi_secret := λ s, uread (uw_secrets w !! s);
     uapi_configmap := λ c, uread (uw_configmaps w !! c); uapi_patch := λ _, None; uapi_status_update := λ _, None |}.

Abbreviation verdict_now w o := (uverdict_of (ucluster_api w (upp_Name o)) discover o).

(** ** Steps *)

Definition uwritten (res : uoutcome store) (o : UpstreamProvider) : UpstreamProvider :=
  let o := match uout_status res with Some s => set_ustatus s o | None => o end in
  match uout_finalizers res with Some fs => set_ufinalizers fs o | None => o end.
Definition uchanged (res : uoutcome store) (o : UpstreamProvider) : bool :=
  bool_decide (default (upp_Status o) (uout_status res) ≠ upp_Status o) ||
  bool_decide (default (upp_Finalizers o) (uout_finalizers res) ≠ upp_Finalizers o).
Definition usucceeded (res : uoutcome store) : bool := match uout_result res with Done => true | _ => false end.

(** The names whose last run ended in error. *)
Definition note_bad (res : uoutcome store) (n : string) (b : gset string) : gset string :=
  match uout_status res with
  | Some s => if str_eqb (ups_Phase s) UpstreamProviderPhaseError then {[n]} ∪ b else b ∖ {[n]}
  | None => b
  end.

Definition uput_back (n : string) (o : UpstreamProvider) (objs : gmap string UpstreamProvider) :
    gmap string UpstreamProvider :=
  if upp_Deleting o && bool_decide (upp_Finalizers o = []) then delete n objs else <[n := o]> objs.

Definition urun (a : uapi) (d : Config → string → result string provider) (n : string) (w : uworld) : uworld :=
  let res := Reconcile r a (new_with d) n ns (uw_store w) in
  match uw_objs w !! n with
  | Some o =>
      {| uw_objs := uput_back n (uwritten res o) (uw_objs w); uw_secrets := uw_secrets w;
         uw_configmaps := uw_configmaps w; uw_store := uout_store res;
         uw_queue := if usucceeded res && negb (uchanged res o) then uw_queue w ∖ {[n]} else uw_queue w;
         uw_bad := note_bad res n (uw_bad w) |}
  | None =>
      {| uw_objs := uw_objs w; uw_secrets := uw_secrets w; uw_configmaps := uw_configmaps w;
         uw_store := uout_store res;
         uw_queue := if usucceeded res then uw_queue w ∖ {[n]} else uw_queue w; uw_bad := uw_bad w |}
  end.

Definition unew_object (n : string) (sp : UpstreamProviderSpec) : UpstreamProvider :=
  {| upp_Name := n; upp_Deleting := false; upp_Finalizers := []; upp_Spec := sp;
     upp_Status := {| ups_Phase := ""; ups_Message := ""; ups_EffectiveConfig := None |} |}.
Definition set_uspec (sp : UpstreamProviderSpec) (o : UpstreamProvider) : UpstreamProvider :=
  {| upp_Name := upp_Name o; upp_Deleting := upp_Deleting o; upp_Finalizers := upp_Finalizers o;
     upp_Spec := sp; upp_Status := upp_Status o |}.
Definition uedited (n : string) (sp : UpstreamProviderSpec) (objs : gmap string UpstreamProvider) : UpstreamProvider :=
  match objs !! n with Some o => set_uspec sp o | None => unew_object n sp end.
Definition set_udeleting (o : UpstreamProvider) : UpstreamProvider :=
  {| upp_Name := upp_Name o; upp_Deleting := true; upp_Finalizers := upp_Finalizers o; upp_Spec := upp_Spec o;
     upp_Status := upp_Status o |}.

(** The certificate authority of the upstream is in this config map. *)
Definition ca_in_configmap (n : string) (o : UpstreamProvider) : Prop :=
  ∃ src c, us_CertificateAuthority (upp_Spec o) = Some src ∧ ca_ConfigMap src = Some c ∧ cms_Name c = n.

(** The object is answered or its read fails, status updates are accepted; the provider answers or
    not. *)
Definition uhonest (w : uworld) (n : string) (a : uapi) (d : Config → string → result string provider) : Prop :=
  (uapi_get a = uread (uw_objs w !! n) ∨ ∃ e, uapi_get a = GetErr e) ∧
  (∀ s, uapi_secret a s = uread (uw_secrets w !! s)) ∧ (∀ c, uapi_configmap a c = uread (uw_configmaps w !! c)) ∧
  (∀ o, uapi_status_update a o = None) ∧ ∀ c u, d c u = discover c u ∨ ∃ e, d c u = Err e.

Inductive ustep : uworld → uworld → Prop :=
| UEdit w n sp :
    ustep w {| uw_objs := <[n := uedited n sp (uw_objs w)]> (uw_objs w); uw_secrets := uw_secrets w;
               uw_configmaps := uw_configmaps w; uw_store := uw_store w; uw_queue := uw_queue w ∪ {[n]};
               uw_bad := uw_bad w |}
| URemove w n o :
    uw_objs w !! n = Some o →
    ustep w {| uw_objs := uput_back n (set_udeleting o) (uw_objs w); uw_secrets := uw_secrets w;
               uw_configmaps := uw_configmaps w; uw_store := uw_store w; uw_queue := uw_queue w ∪ {[n]};
               uw_bad := uw_bad w |}
(** A secret changes; it is not the authority of a resource. *)
| USecret w s x :
    map_Forall (λ _ o, ~ ca_in_secret s o) (uw_objs w) →
    ustep w {| uw_objs := uw_objs w; uw_secrets := partial_alter (λ _, x) s (uw_secrets w);
               uw_configmaps := uw_configmaps w; uw_store := uw_store w;
               uw_queue := uw_queue w ∪ list_to_set
                 (findUpstreamProviderFromSecret ns (pair ns <$> (map_to_list (uw_objs w)).*2) None ns s).*2;
               uw_bad := uw_bad w |}
| UConfigMap w c x :
    map_Forall (λ _ o, ~ ca_in_configmap c o) (uw_objs w) →
    ustep w {| uw_objs := uw_objs w; uw_secrets := uw_secrets w;
               uw_configmaps := partial_alter (λ _, x) c (uw_configmaps w); uw_store := uw_store w;
               uw_queue := uw_queue w; uw_bad := uw_bad w |}
(** Requests are served: they do not touch the upstreams. *)
| UServe w st :
    Upstreams st = Upstreams (uw_store w) →
    ustep w {| uw_objs := uw_objs w; uw_secrets := uw_secrets w; uw_configmaps := uw_configmaps w; uw_store := st;
               uw_queue := uw_queue w; uw_bad := uw_bad w |}
| URestart w :
    ustep w {| uw_objs := uw_objs w; uw_secrets := uw_secrets w; uw_configmaps := uw_configmaps w;
               uw_store := NewMemoryStore; uw_queue := dom (uw_objs w); uw_bad := ∅ |}
| URun w n a d : n ∈ uw_queue w → uhonest w n a d → ustep w (urun a d n w).

Definition ustarted (w : uworld) : Prop := uw_objs w = ∅ ∧ Upstreams (uw_store w) = ∅.

Inductive ureachable : uworld → Prop :=
| ureach_start w : ustarted w → ureachable w
| ureach_step w w' : ureachable w → ustep w w' → ureachable w'.

(** ** One run on a live resource *)

Lemma new_ext d o o' s ca :
  upp_Name o = upp_Name o' → upp_Spec o = upp_Spec o' → new_with d o s ca = new_with d o' s ca.
Proof. intros Hn Hs. unfold NewUpstream, http_config. by rewrite Hn, Hs. Qed.

Lemma new_name d o s ca u : new_with d o s ca = Ok u → up_name u = upp_Name o.
Proof. unfold NewUpstream. repeat case_match; intros [= <-]; done. Qed.

Lemma new_internal d o s ca : us_Type (upp_Spec o) = UpstreamProviderTypeInternal → ∃ u, new_with d o s ca = Ok u.
Proof. intros H. unfold NewUpstream. rewrite H. by eexists. Qed.

Lemma uverdict_good_name a d o u : uverdict_of a d o = UGood u → up_name u = upp_Name o.
Proof.
  unfold uverdict_of, built. repeat case_match; try done; intros [= <-]; by eapply new_name.
Qed.

Lemma built_ext d o o' s ca :
  upp_Name o = upp_Name o' → upp_Spec o = upp_Spec o' → built o d s ca = built o' d s ca.
Proof. intros Hn Hs. unfold built. by rewrite (new_ext d o o'). Qed.

(** The verdict depends on the name, the spec, and the objects the spec names. *)
Lemma uverdict_ext a a' d o o' :
  upp_Name o = upp_Name o' → upp_Spec o = upp_Spec o' →
  (ls_Name (us_ClientSecret (upp_Spec o)) ≠ "" →
     uapi_secret a (ls_Name (us_ClientSecret (upp_Spec o))) = uapi_secret a' (ls_Name (us_ClientSecret (upp_Spec o)))) →
  (∀ src, us_CertificateAuthority (upp_Spec o) = Some src →
     fetchCertificateAuthority a ns src = fetchCertificateAuthority a' ns src) →
  uverdict_of a d o = uverdict_of a' d o'.
Proof.
  intros Hn Hs Es Ec. unfold uverdict_of. rewrite <- Hs. destruct (negb _); [done|].
  destruct (str_eqb (us_Type _) _); [by apply built_ext|]. destruct (check_spec _); [done|].
  assert ((if str_empty (ls_Name (us_ClientSecret (upp_Spec o))) then Ok ""
           else fetchClientSecret a ns (ls_Name (us_ClientSecret (upp_Spec o))) (ls_Key (us_ClientSecret (upp_Spec o)))) =
          (if str_empty (ls_Name (us_ClientSecret (upp_Spec o))) then Ok ""
           else fetchClientSecret a' ns (ls_Name (us_ClientSecret (upp_Spec o))) (ls_Key (us_ClientSecret (upp_Spec o)))))
    as ->.
  { destruct (str_empty _) eqn:E; [done|]. apply str_empty_false in E. unfold fetchClientSecret. by rewrite Es. }
  destruct (if str_empty _ then _ else _) as [s|e]; [|done].
  assert (match us_CertificateAuthority (upp_Spec o) with
          | None => Ok "" | Some src => fetchCertificateAuthority a ns src end =
          match us_CertificateAuthority (upp_Spec o) with
          | None => Ok "" | Some src => fetchCertificateAuthority a' ns src end) as ->.
  { destruct (us_CertificateAuthority _) as [src|] eqn:E; [|done]. by apply Ec. }
  destruct (match us_CertificateAuthority _ with None => _ | Some _ => _ end) as [ca|e]; [|done]. by apply built_ext.
Qed.

Lemma fetch_ca_ext a a' src :
  (∀ s, uapi_secret a s = uapi_secret a' s) → (∀ c, uapi_configmap a c = uapi_configmap a' c) →
  fetchCertificateAuthority a ns src = fetchCertificateAuthority a' ns src.
Proof. intros Es Ec. unfold fetchCertificateAuthority. repeat case_match; by rewrite ?Es, ?Ec. Qed.

Lemma uverdict_same a a' d o o' :
  (∀ s, uapi_secret a s = uapi_secret a' s) → (∀ c, uapi_configmap a c = uapi_configmap a' c) →
  upp_Name o = upp_Name o' → upp_Spec o = upp_Spec o' → uverdict_of a d o = uverdict_of a' d o'.
Proof. intros Es Ec Hn Hs. apply uverdict_ext; [done|done|done|]. intros src _. by apply fetch_ca_ext. Qed.

(** A provider that does not answer makes the verdict a failure, or does not matter. *)
Lemma uverdict_flaky a d o :
  (∀ c u, d c u = discover c u ∨ ∃ e, d c u = Err e) →
  uverdict_of a d o = uverdict_of a discover o ∨ ∃ e, uverdict_of a d o = UDown e.
Proof.
  intros Hd. assert (∀ s ca, built o d s ca = built o discover s ca ∨ ∃ e, built o d s ca = UDown e) as Hb.
  { intros s ca. unfold built, NewUpstream. destruct (str_eqb _ _); [by left|]. destruct (http_new _); [by left|].
    destruct (us_ExplicitConfig _); [by left|].
    destruct (Hd (http_config o ca) (us_IssuerURL (upp_Spec o))) as [->|[e ->]]; [by left|]. right. by eexists. }
  unfold uverdict_of. destruct (negb _); [by left|]. destruct (str_eqb (us_Type _) _); [apply Hb|].
  destruct (check_spec _); [by left|]. destruct (if str_empty _ then _ else _); [|by left].
  destruct (match us_CertificateAuthority _ with None => _ | Some _ => _ end); [apply Hb|by left].
Qed.

Lemma run_ulive a d o (st : store) :
  uapi_get a = Found o → (∀ x, uapi_status_update a x = None) → upp_Deleting o = false →
  finalizerName ∈ upp_Finalizers o →
  let v := uverdict_of a d o in
  let res := Reconcile r a (new_with d) (upp_Name o) ns st in
  usucceeded res = match v with UDown _ => false | _ => true end ∧ uout_finalizers res = None ∧
  uout_status res = Some (expected_ustatus v) ∧ Upstreams (uout_store res) = uregistered v (upp_Name o) (Upstreams st).
Proof.
  intros Hg Ha Hd Hf. cbn zeta. unfold Reconcile, uverdict_of. rewrite str_eqb_refl, Hg, Hd, bool_decide_false by tauto.
  cbn [negb]. destruct (BoolPtrTrue (us_Enabled (upp_Spec o))) eqn:Hen; cbn [negb]; cycle 1.
  { unfold updateStatus, new_ustatus. rewrite Ha, Hen. done. }
  assert (∀ s ca es u, new_with d o s ca = Ok u →
    let res := add_events es (updateStatus r a o (Some u) None (SetUpstream GetName u st)) in
    usucceeded res = true ∧ uout_finalizers res = None ∧ uout_status res = Some (expected_ustatus (UGood u)) ∧
    Upstreams (uout_store res) = uregistered (UGood u) (upp_Name o) (Upstreams st)) as Hgood.
  { intros s ca es u Hu%new_name. unfold updateStatus, new_ustatus. rewrite Ha, Hen. cbn. unfold GetName. by rewrite Hu. }
  assert (∀ e, let res := configuration_error r a o e st in
    usucceeded res = true ∧ uout_finalizers res = None ∧ uout_status res = Some (expected_ustatus (UBad e)) ∧
    Upstreams (uout_store res) = Upstreams st) as Hbad.
  { intros e. unfold configuration_error, updateStatus, new_ustatus. by rewrite Ha. }
  destruct (str_eqb (us_Type (upp_Spec o)) _) eqn:Hty.
  { apply str_eqb_true in Hty. destruct (new_internal d o "" [] Hty) as [u Hu]. unfold built. rewrite Hu.
    by apply (Hgood _ _ _ _ Hu). }
  destruct (check_spec _) as [e|]; [apply Hbad|]. unfold build.
  destruct (if str_empty _ then _ else _) as [s|e]; [|apply Hbad].
  destruct (match us_CertificateAuthority _ with None => _ | Some _ => _ end) as [ca|e]; [|apply Hbad].
  unfold built. destruct (new_with d o s _) as [u|e] eqn:Hu; [by apply (Hgood _ _ _ _ Hu)|].
  unfold updateStatus, new_ustatus. by rewrite Ha.
Qed.

(** ** The invariant *)

Definition uobject_ok (n : string) (o : UpstreamProvider) : Prop :=
  upp_Name o = n ∧ (upp_Deleting o = true → upp_Finalizers o ≠ []).

(** What is registered belongs to a resource that is ready, unless its last run ended in error. *)
Definition uno_orphan (w : uworld) : Prop :=
  ∀ n u, Upstreams (uw_store w) !! n = Some u → n ∉ uw_bad w →
    ∃ o, uw_objs w !! n = Some o ∧ ups_Phase (upp_Status o) = UpstreamProviderPhaseReady ∧
      finalizerName ∈ upp_Finalizers o.

Definition usettled (w : uworld) (n : string) : Prop :=
  match uw_objs w !! n with
  | None => True
  | Some o =>
      if upp_Deleting o then
        (finalizerName ∉ upp_Finalizers o) ∧ (n ∉ uw_bad w → Upstreams (uw_store w) !! n = None)
      else
        finalizerName ∈ upp_Finalizers o ∧ upp_Status o = expected_ustatus (verdict_now w o) ∧
        match verdict_now w o with
        | UOff => Upstreams (uw_store w) !! n = None
        | UGood u => Upstreams (uw_store w) !! n = Some u
        | UBad _ => True
        | UDown _ => False
        end
  end.

Definition uInv (w : uworld) : Prop :=
  map_Forall uobject_ok (uw_objs w) ∧ uno_orphan w ∧ ∀ n, n ∉ uw_queue w → usettled w n.

Lemma usettled_frame w w' n :
  uw_objs w' !! n = uw_objs w !! n → uw_secrets w' = uw_secrets w → uw_configmaps w' = uw_configmaps w →
  Upstreams (uw_store w') !! n = Upstreams (uw_store w) !! n → (n ∈ uw_bad w' ↔ n ∈ uw_bad w) →
  usettled w n → usettled w' n.
Proof.
  intros Ho Hs Hc Hu Hb. unfold usettled. rewrite Ho, Hu. destruct (uw_objs w !! n) as [o|]; [|done].
  destruct (upp_Deleting o); [by rewrite Hb|].
  rewrite (uverdict_same (ucluster_api w' (upp_Name o)) (ucluster_api w (upp_Name o)) discover o o); try done;
    intros; cbn; by rewrite ?Hs, ?Hc.
Qed.

Lemma uput_back_ne n n' o objs : n' ≠ n → uput_back n o objs !! n' = objs !! n'.
Proof. intros H. unfold uput_back. destruct (_ && _); [by rewrite lookup_delete_ne|by rewrite lookup_insert_ne]. Qed.

Lemma uput_back_eq n o objs o' :
  uput_back n o objs !! n = Some o' → o' = o ∧ (upp_Deleting o = true → upp_Finalizers o ≠ []).
Proof.
  unfold uput_back. destruct (upp_Deleting o) eqn:Hd; cbn.
  - case_bool_decide; [by rewrite lookup_delete_eq|]. rewrite lookup_insert_eq. by intros [= <-].
  - rewrite lookup_insert_eq. by intros [= <-].
Qed.

Lemma uput_back_kept n o objs : upp_Finalizers o ≠ [] → uput_back n o objs !! n = Some o.
Proof. intros H. unfold uput_back. by rewrite bool_decide_false, andb_false_r, lookup_insert_eq. Qed.

(** Replacing one object, and at most its upstream. *)
Lemma uInv_replace w n o' st' q' b' :
  uInv w → upp_Name o' = n →
  (∀ m, m ≠ n → Upstreams st' !! m = Upstreams (uw_store w) !! m) → (∀ m, m ≠ n → m ∈ b' ↔ m ∈ uw_bad w) →
  (∀ u, Upstreams st' !! n = Some u → n ∉ b' →
     ups_Phase (upp_Status o') = UpstreamProviderPhaseReady ∧ finalizerName ∈ upp_Finalizers o') →
  (∀ m, m ≠ n → m ∉ q' → m ∉ uw_queue w) →
  let w' := {| uw_objs := uput_back n o' (uw_objs w); uw_secrets := uw_secrets w; uw_configmaps := uw_configmaps w;
               uw_store := st'; uw_queue := q'; uw_bad := b' |} in
  (n ∉ q' → usettled w' n) → uInv w'.
Proof.
  intros (Hobj & Horph & Hsett) Hn Hother Hb Hown Hq w' Hset. split; [|split].
  - intros m o1 H1. cbn in H1. destruct (decide (m = n)) as [->|Hne].
    + by apply uput_back_eq in H1 as [-> Hd].
    + rewrite uput_back_ne in H1 by done. by apply Hobj.
  - intros m u Hu Hm. cbn in Hu, Hm |- *. destruct (decide (m = n)) as [->|Hne].
    + destruct (Hown u Hu Hm) as [Hp Hf]. exists o'. split; [|done]. apply uput_back_kept.
      intros E. rewrite E in Hf. by apply elem_of_nil in Hf.
    + rewrite Hother in Hu by done. rewrite Hb in Hm by done. rewrite uput_back_ne by done. by apply (Horph m u).
  - intros m Hm. destruct (decide (m = n)) as [->|Hne]; [by apply Hset|].
    eapply usettled_frame; [cbn; by apply uput_back_ne|done|done|cbn; by apply Hother|cbn; by apply Hb|].
    by apply Hsett, Hq.
Qed.

(** A run that failed without effect. *)
Lemma uInv_nothing w n o e :
  uInv w → uw_objs w !! n = Some o → ∀ res : uoutcome store, res = unothing r (ReconcileErr e) (uw_store w) →
  uInv {| uw_objs := uput_back n (uwritten res o) (uw_objs w); uw_secrets := uw_secrets w;
          uw_configmaps := uw_configmaps w; uw_store := uout_store res;
          uw_queue := if usucceeded res && negb (uchanged res o) then uw_queue w ∖ {[n]} else uw_queue w;
          uw_bad := note_bad res n (uw_bad w) |}.
Proof.
  intros Hinv Ho res ->. destruct (proj1 Hinv n o Ho) as [_ Hd]. cbn.
  assert (uput_back n o (uw_objs w) = uw_objs w) as ->; [|by destruct w].
  unfold uput_back. destruct (upp_Deleting o); cbn; [|by apply insert_id].
  rewrite bool_decide_false by auto. by apply insert_id.
Qed.

(** A patch of the finalizers, with a store in which at most the upstream was removed. *)
Lemma upatched w n o a fs st' :
  uInv w → uw_objs w !! n = Some o →
  (∀ m, m ≠ n → Upstreams st' !! m = Upstreams (uw_store w) !! m) →
  (∀ u, Upstreams st' !! n = Some u → n ∉ uw_bad w → Upstreams (uw_store w) !! n = Some u ∧ finalizerName ∈ fs) →
  let res := upatch r a o fs st' in
  (fs = upp_Finalizers o →
     usettled {| uw_objs := uput_back n (set_ufinalizers fs o) (uw_objs w); uw_secrets := uw_secrets w;
                 uw_configmaps := uw_configmaps w; uw_store := st'; uw_queue := uw_queue w ∖ {[n]};
                 uw_bad := uw_bad w |} n) →
  n ∈ uw_queue w →
  uInv {| uw_objs := uput_back n (uwritten res o) (uw_objs w); uw_secrets := uw_secrets w;
          uw_configmaps := uw_configmaps w; uw_store := uout_store res;
          uw_queue := if usucceeded res && negb (uchanged res o) then uw_queue w ∖ {[n]} else uw_queue w;
          uw_bad := note_bad res n (uw_bad w) |}.
Proof.
  intros Hinv Ho Hother Hown res Hset Hin. pose proof Hinv as (Hobj & Horph & _). destruct (Hobj n o Ho) as [Hn _].
  assert (uout_store res = st' ∧ note_bad res n (uw_bad w) = uw_bad w) as [-> ->]
    by (unfold res, upatch; by destruct (uapi_patch a _)).
  apply uInv_replace; try done.
  - unfold res, upatch. by destruct (uapi_patch a _).
  - intros u Hu Hb. destruct (Hown u Hu Hb) as [Hu0 Hfs]. destruct (Horph n u Hu0 Hb) as (o0 & Ho0 & Hp & Hf).
    rewrite Ho in Ho0. injection Ho0 as <-. unfold res, upatch. by destruct (uapi_patch a _).
  - intros m Hne. destruct (_ && _); set_solver.
  - unfold res, upatch, uchanged. destruct (uapi_patch a _); cbn; [done|].
    rewrite bool_decide_false by tauto. cbn. case_bool_decide as E; cbn; [done|]. intros _.
    by apply Hset.
Qed.

Lemma uInv_run_deleting w n o a d :
  uInv w → n ∈ uw_queue w → uw_objs w !! n = Some o → uapi_get a = Found o → upp_Deleting o = true →
  uInv (urun a d n w).
Proof.
  intros Hinv Hin Ho Hget Hd. unfold urun. rewrite Ho. unfold Reconcile. rewrite str_eqb_refl, Hget, Hd. cbn [negb].
  pose proof Hinv as (Hobj & Horph & _). destruct (Hobj n o Ho) as [Hn Hne].
  set (st' := if str_eqb _ _ then _ else _).
  assert (n ∉ uw_bad w → Upstreams st' !! n = None) as Hnone.
  { intros Hb. unfold st'. destruct (str_eqb _ _) eqn:Hp; [rewrite <- Hn; cbn; apply lookup_delete_eq|].
    destruct (Upstreams (uw_store w) !! n) as [u|] eqn:Hu; [|done]. destruct (Horph n u Hu Hb) as (o0 & Ho0 & Hr & _).
    apply str_eqb_false in Hp. congruence. }
  apply upatched; try done.
  - intros m Hm. unfold st'. destruct (str_eqb _ _); [|done]. cbn. apply lookup_delete_ne. congruence.
  - intros u Hu Hb. by rewrite Hnone in Hu.
  - intros Hfs. unfold usettled. cbn [uw_objs uw_store uw_bad]. rewrite uput_back_kept by (cbn; rewrite Hfs; auto).
    cbn. rewrite Hd. split; [|done]. by intros [? _]%list_elem_of_filter.
Qed.

Lemma uInv_run_live w n o a d :
  uInv w → n ∈ uw_queue w → uw_objs w !! n = Some o → uapi_get a = Found o → upp_Deleting o = false →
  finalizerName ∈ upp_Finalizers o → uhonest w n a d → uInv (urun a d n w).
Proof.
  intros Hinv Hin Ho Hget Hd Hf (_ & Hs & Hc & Hup & Hdisc). pose proof Hinv as (Hobj & Horph & _).
  destruct (Hobj n o Ho) as [Hn _]. unfold urun. rewrite Ho.
  destruct (run_ulive a d o (uw_store w) Hget Hup Hd Hf) as (H1 & H2 & H3 & H4). rewrite Hn in H1, H2, H3, H4.
  set (res := Reconcile r a _ n ns _) in *. set (v := uverdict_of a d o) in *.
  assert (uwritten res o = set_ustatus (expected_ustatus v) o) as -> by (unfold uwritten; by rewrite H2, H3).
  assert (v = verdict_now w o ∨ ∃ e, v = UDown e) as Hv.
  { destruct (uverdict_flaky a d o Hdisc) as [E|E]; [left|by right]. unfold v. rewrite E.
    by apply uverdict_same. }
  unfold note_bad. rewrite H1, H3. apply uInv_replace; try done.
  - intros m Hm. rewrite H4. destruct v; cbn; [by rewrite lookup_delete_ne|done|done|by rewrite lookup_insert_ne].
  - intros m Hm. destruct (str_eqb _ _); set_solver.
  - intros u Hu Hb. rewrite H4 in Hu. split; [|done].
    destruct v; cbn in Hu, Hb |- *; [by rewrite lookup_delete_eq in Hu|set_solver|set_solver|done].
  - intros m Hne. destruct (_ && _); set_solver.
  - destruct v as [|e|e|u] eqn:Ev; cbn [andb]; [| |done|]; intros _;
      (destruct Hv as [Hv|[e' Hv]]; [|done]); unfold usettled; cbn [uw_objs uw_store uw_bad];
      (rewrite uput_back_kept by (intros E; cbn in E; rewrite E in Hf; by apply elem_of_nil in Hf)); cbn [upp_Deleting set_ustatus];
      rewrite Hd; (split; [done|]);
      (match goal with |- context [uverdict_of ?b discover ?o'] =>
         replace (uverdict_of b discover o') with (verdict_now w o) by (by apply uverdict_same) end);
      rewrite <- Hv; (split; [done|]); rewrite ?H4; cbn; [apply lookup_delete_eq|done|apply lookup_insert_eq].
Qed.

Lemma uInv_run w n a d : uInv w → n ∈ uw_queue w → uhonest w n a d → uInv (urun a d n w).
Proof.
  intros Hinv Hin Ha. pose proof Ha as (Hget & _). pose proof Hinv as (Hobj & Horph & Hsett).
  destruct (uw_objs w !! n) as [o|] eqn:Ho; cycle 1.
  { unfold urun. rewrite Ho.
    assert (uout_store (Reconcile r a (new_with d) n ns (uw_store w)) = uw_store w) as ->.
    { unfold Reconcile. rewrite str_eqb_refl. destruct Hget as [->|[e ->]]; done. }
    split_and!; [done|done|]. intros m Hm.
    destruct (decide (m = n)) as [->|Hne]; [unfold usettled; cbn; by rewrite Ho|].
    apply (usettled_frame w); try done. apply Hsett. cbn in Hm. destruct (usucceeded _); set_solver. }
  destruct Hget as [Hget|[e Hget]]; cycle 1.
  { unfold urun. rewrite Ho. apply (uInv_nothing w n o e Hinv Ho). unfold Reconcile. by rewrite str_eqb_refl, Hget. }
  cbn in Hget. destruct (upp_Deleting o) eqn:Hd; [by apply (uInv_run_deleting w n o)|].
  destruct (decide (finalizerName ∈ upp_Finalizers o)) as [Hf|Hf]; [by apply (uInv_run_live w n o)|].
  unfold urun. rewrite Ho. unfold Reconcile. rewrite str_eqb_refl, Hget, Hd, bool_decide_true by done. cbn [negb].
  apply upatched; try done.
  - intros u Hu _. split; [done|]. apply elem_of_app. right. by apply list_elem_of_singleton.
  - intros E. apply (f_equal length) in E. rewrite length_app in E. cbn in E. lia.
Qed.

Lemma uInv_edit w n sp :
  uInv w →
  uInv {| uw_objs := <[n := uedited n sp (uw_objs w)]> (uw_objs w); uw_secrets := uw_secrets w;
          uw_configmaps := uw_configmaps w; uw_store := uw_store w; uw_queue := uw_queue w ∪ {[n]};
          uw_bad := uw_bad w |}.
Proof.
  intros (Hobj & Horph & Hsett). split; [|split].
  - intros m o1. cbn. rewrite lookup_insert_Some. intros [[<- <-]|[_ H1]]; [|by apply Hobj].
    unfold uedited. destruct (uw_objs w !! n) as [o|] eqn:Ho; [|done]. destruct (Hobj n o Ho). done.
  - intros m u Hu Hb. destruct (Horph m u Hu Hb) as (o0 & H0 & Hp & Hf). cbn.
    destruct (decide (m = n)) as [->|Hne].
    + exists (set_uspec sp o0). unfold uedited. by rewrite lookup_insert_eq, H0.
    + exists o0. by rewrite lookup_insert_ne.
  - intros m Hm. cbn in Hm. apply (usettled_frame w); cbn; try done; [|apply Hsett; set_solver].
    rewrite lookup_insert_ne; [done|set_solver].
Qed.

Lemma uInv_remove w n o :
  uInv w → uw_objs w !! n = Some o →
  uInv {| uw_objs := uput_back n (set_udeleting o) (uw_objs w); uw_secrets := uw_secrets w;
          uw_configmaps := uw_configmaps w; uw_store := uw_store w; uw_queue := uw_queue w ∪ {[n]};
          uw_bad := uw_bad w |}.
Proof.
  intros Hinv Ho. pose proof Hinv as (Hobj & Horph & _). destruct (Hobj n o Ho) as [Hn _].
  apply uInv_replace; try done; [|set_solver|set_solver].
  intros u Hu Hb. destruct (Horph n u Hu Hb) as (o0 & H0 & Hp & Hf). rewrite Ho in H0. by injection H0 as <-.
Qed.

(** Names of namespaces have no colon. *)
Hypothesis ns_name : no_colon ns = true.

(** A secret wakes the upstreams whose client secret it is. *)
Lemma woken_upstream w n o s :
  uw_objs w !! n = Some o → upp_Name o = n → ls_Name (us_ClientSecret (upp_Spec o)) = s → s ≠ "" →
  n ∈ (findUpstreamProviderFromSecret ns (pair ns <$> (map_to_list (uw_objs w)).*2) None ns s).*2.
Proof.
  intros Ho Hn Hs He. apply list_elem_of_fmap. exists (ns, n). split; [done|].
  unfold findUpstreamProviderFromSecret. rewrite str_eqb_refl. cbn [negb]. unfold list_indexed. cbn.
  apply list_elem_of_fmap. exists (ns, o). split; [cbn; by rewrite Hn|]. apply list_elem_of_filter. split.
  - by apply indexed_upstream.
  - apply list_elem_of_fmap. exists o. split; [done|]. apply list_elem_of_fmap. exists (n, o).
    split; [done|]. by apply elem_of_map_to_list.
Qed.

Lemma uInv_step w w' : uInv w → ustep w w' → uInv w'.
Proof.
  intros Hinv Hstep. pose proof Hinv as (Hobj & Horph & Hsett).
  destruct Hstep as [w n sp|w n o Ho|w s x Hca|w c x Hca|w st Hst|w|w n a d Hin Ha].
  - by apply uInv_edit.
  - by apply uInv_remove.
  - split_and!; [done|done|]. intros m Hm. cbn in Hm. rewrite not_elem_of_union, elem_of_list_to_set in Hm.
    destruct Hm as [Hq Hwoken]. specialize (Hsett m Hq). unfold usettled in *. cbn.
    destruct (uw_objs w !! m) as [o|] eqn:Ho; [|done]. destruct (upp_Deleting o); [done|].
    destruct (Hobj m o Ho) as [Hn _].
    rewrite (uverdict_ext _ (ucluster_api w (upp_Name o)) discover o o); try done.
    + intros He. cbn. rewrite lookup_partial_alter_ne; [done|]. intros ->. apply Hwoken. by apply (woken_upstream w m o).
    + intros src Hsrc. apply (ca_same _ _ s ns o src); [done| |by apply (Hca m o Ho)|done].
      intros s' Hne. cbn. by rewrite lookup_partial_alter_ne.
  - split_and!; [done|done|]. intros m Hm. specialize (Hsett m Hm). unfold usettled in *. cbn.
    destruct (uw_objs w !! m) as [o|] eqn:Ho; [|done]. destruct (upp_Deleting o); [done|].
    rewrite (uverdict_ext _ (ucluster_api w (upp_Name o)) discover o o); try done.
    intros src Hsrc. unfold fetchCertificateAuthority. cbn. destruct (ca_ConfigMap src) as [cm|] eqn:Hcm; [|done].
    assert (partial_alter (λ _, x) c (uw_configmaps w) !! cms_Name cm = uw_configmaps w !! cms_Name cm) as E.
    { rewrite lookup_partial_alter_ne; [done|]. intros ->. apply (Hca m o Ho). by exists src, cm. }
    repeat case_match; simplify_eq; by rewrite ?E.
  - split_and!; [done| |].
    + intros m u. cbn. rewrite Hst. apply Horph.
    + intros m Hm. apply (usettled_frame w); cbn; try done; [by rewrite Hst|by apply Hsett].
  - split_and!; [done|done|]. intros m Hm. unfold usettled. cbn in *. apply not_elem_of_dom in Hm. by rewrite Hm.
  - by apply uInv_run.
Qed.

Lemma ureachable_Inv w : ureachable w → uInv w.
Proof.
  induction 1 as [w [Ho Hu]|w w' _ IH Hstep]; [|by eapply uInv_step]. split_and!.
  - rewrite Ho. apply map_Forall_empty.
  - intros n u. by rewrite Hu, lookup_empty.
  - intros n _. unfold usettled. by rewrite Ho, lookup_empty.
Qed.

(** ** Convergence *)

Lemma uquiescent w :
  ureachable w → uw_queue w = ∅ →
  (∀ n o, uw_objs w !! n = Some o → upp_Deleting o = false →
     upp_Status o = expected_ustatus (verdict_now w o) ∧
     match verdict_now w o with
     | UOff => Upstreams (uw_store w) !! n = None
     | UGood u => Upstreams (uw_store w) !! n = Some u
     | UBad _ => True
     | UDown _ => False
     end) ∧
  ∀ n u, Upstreams (uw_store w) !! n = Some u → n ∉ uw_bad w →
    ∃ o, uw_objs w !! n = Some o ∧ upp_Deleting o = false ∧ verdict_now w o = UGood u.
Proof.
  intros Hr Hq. destruct (ureachable_Inv w Hr) as (_ & Horph & Hsett).
  assert (∀ n, usettled w n) as Hset by (intros n; apply Hsett; rewrite Hq; set_solver). split.
  - intros n o Ho Hd. specialize (Hset n). unfold usettled in Hset. rewrite Ho, Hd in Hset.
    by destruct Hset as (_ & ? & ?).
  - intros n u Hu Hb. destruct (Horph n u Hu Hb) as (o & Ho & Hp & _). exists o. specialize (Hset n).
    unfold usettled in Hset. rewrite Ho in Hset. destruct (upp_Deleting o).
    { destruct Hset as [_ Hn]. by rewrite Hn in Hu. }
    destruct Hset as (_ & Hst & Hv). rewrite Hst in Hp. split; [done|]. split; [done|].
    destruct (verdict_now w o); try done. rewrite Hu in Hv. by injection Hv as ->.
Qed.


(** ** The queue empties *)

(** The providers of the live resources answer. *)
Definition answering (w : uworld) : Prop :=
  ∀ n o e, uw_objs w !! n = Some o → upp_Deleting o = false → verdict_now w o ≠ UDown e.

Abbreviation quiet n w := (urun (ucluster_api w n) discover n w).

Definition urank (w : uworld) (n : string) : nat :=
  match uw_objs w !! n with
  | None => 1
  | Some o =>
      if upp_Deleting o then (if bool_decide (finalizerName ∈ upp_Finalizers o) then 2 else 1)
      else if bool_decide (finalizerName ∈ upp_Finalizers o) then
        (if bool_decide (upp_Status o = expected_ustatus (verdict_now w o)) then 1 else 2)
      else 3
  end.

Definition uremaining (w : uworld) : nat := sum_list_with (urank w) (elements (uw_queue w)).

Lemma urank_bounds w n : 1 ≤ urank w n ≤ 3.
Proof. unfold urank. repeat case_match; lia. Qed.

Lemma uhonest_cluster w n : uhonest w n (ucluster_api w n) discover.
Proof. split; [by left|]. split_and!; try done. by left. Qed.

Lemma verdict_kept w w' o o' :
  uw_secrets w' = uw_secrets w → uw_configmaps w' = uw_configmaps w → upp_Name o' = upp_Name o →
  upp_Spec o' = upp_Spec o → verdict_now w' o' = verdict_now w o.
Proof. intros Hs Hc Hn Hsp. apply uverdict_same; try done; intros; cbn; by rewrite ?Hs, ?Hc. Qed.

(** One run with an API and providers that answer: the resource is done, or closer to it. *)
Lemma urun_progress w n :
  uInv w → answering w → n ∈ uw_queue w →
  let w' := quiet n w in
  uw_secrets w' = uw_secrets w ∧ uw_configmaps w' = uw_configmaps w ∧
  (∀ m, m ≠ n → uw_objs w' !! m = uw_objs w !! m) ∧
  (∀ o', uw_objs w' !! n = Some o' → ∃ o, uw_objs w !! n = Some o ∧ upp_Name o' = upp_Name o ∧
     upp_Spec o' = upp_Spec o ∧ upp_Deleting o' = upp_Deleting o) ∧
  (uw_queue w' = uw_queue w ∖ {[n]} ∨ uw_queue w' = uw_queue w ∧ urank w' n < urank w n).
Proof.
  intros Hinv Hans Hin w'. unfold w', urun. destruct (uw_objs w !! n) as [o|] eqn:Ho; cycle 1.
  { cbn. rewrite Ho. split_and!; try done. left. unfold Reconcile. rewrite str_eqb_refl. cbn. by rewrite Ho. }
  cbn [uw_secrets uw_configmaps uw_objs]. split; [done|]. split; [done|].
  split; [intros; by apply uput_back_ne|]. split.
  { intros o' [-> _]%uput_back_eq. exists o. unfold uwritten. by repeat case_match. }
  assert (uapi_get (ucluster_api w n) = Found o) as Hget by (cbn; by rewrite Ho).
  destruct (proj1 Hinv n o Ho) as [Hn _]. cbn [uw_queue].
  destruct (upp_Deleting o) eqn:Hd; [|destruct (decide (finalizerName ∈ upp_Finalizers o)) as [Hf|Hf]].
  - unfold Reconcile. rewrite str_eqb_refl, Hget, Hd. unfold upatch, uchanged, uwritten. cbn.
    rewrite bool_decide_false by tauto. cbn. case_bool_decide as Hfs; cbn; [right|by left]. split; [done|].
    unfold urank. cbn. rewrite Ho, Hd. rewrite bool_decide_true.
    2: { destruct (decide (finalizerName ∈ upp_Finalizers o)) as [|Hf]; [done|]. destruct Hfs.
         apply list_filter_all, Forall_forall. intros x Hx ->. done. }
    destruct (uput_back _ _ _ !! n) as [o'|] eqn:Hp; [|lia]. apply uput_back_eq in Hp as [-> _]. cbn. rewrite Hd.
    rewrite bool_decide_false; [lia|]. by intros [? _]%list_elem_of_filter.
  - destruct (run_ulive (ucluster_api w n) discover o (uw_store w)) as (H1 & H2 & H3 & _); [done..|].
    rewrite Hn in H1, H2, H3. set (res := Reconcile r _ _ n ns _) in *.
    assert (uverdict_of (ucluster_api w n) discover o = verdict_now w o) as Hv by (by rewrite Hn). rewrite Hv in H1, H3.
    assert (usucceeded res = true) as ->.
    { rewrite H1. destruct (verdict_now w o) as [| |e|] eqn:E; try done. by destruct (Hans n o e). }
    unfold uchanged, uwritten. rewrite H2, H3. cbn [default from_option id andb].
    rewrite (bool_decide_false (_ ≠ upp_Finalizers o)), orb_false_r by tauto.
    case_bool_decide as Hst; cbn [negb]; [right|by left]. split; [done|].
    assert (upp_Finalizers o ≠ []) as Hne by (intros E; rewrite E in Hf; by apply elem_of_nil in Hf).
    unfold urank. rewrite Ho. cbn [uw_objs]. rewrite uput_back_kept by done. cbn [upp_Deleting set_ustatus upp_Finalizers].
    rewrite Hd, bool_decide_true by done. rewrite (bool_decide_false (upp_Status o = _)) by congruence.
    rewrite bool_decide_true; [lia|]. cbn [upp_Status set_ustatus]. by f_equal.
  - unfold Reconcile. rewrite str_eqb_refl, Hget, Hd, bool_decide_true by done. right.
    unfold upatch, uchanged, uwritten. cbn. rewrite bool_decide_false by tauto.
    rewrite bool_decide_true; [|intros E; apply (f_equal length) in E; rewrite length_app in E; cbn in E; lia].
    cbn. split; [done|]. unfold urank at 2. rewrite Ho, Hd, bool_decide_false by done.
    unfold urank. cbn [uw_objs]. rewrite uput_back_kept by (cbn; by destruct (upp_Finalizers o)). cbn. rewrite Hd, bool_decide_true.
    + case_bool_decide; lia.
    + apply elem_of_app. right. by apply list_elem_of_singleton.
Qed.

Lemma quiet_answering w n : uInv w → answering w → n ∈ uw_queue w → answering (quiet n w).
Proof.
  intros Hinv Hans Hin. destruct (urun_progress w n Hinv Hans Hin) as (Hs & Hc & Hother & Hown & _).
  set (w' := quiet n w) in *. intros m o' e Ho' Hd. destruct (decide (m = n)) as [->|Hne].
  - destruct (Hown o' Ho') as (o & Ho & Hn & Hsp & Hdo). rewrite (verdict_kept w w' o o') by done.
    apply (Hans n o e); congruence.
  - rewrite Hother in Ho' by done. rewrite (verdict_kept w w' o' o') by done. by apply (Hans m o').
Qed.

Lemma quiet_ureachable w n : ureachable w → n ∈ uw_queue w → ureachable (quiet n w).
Proof. intros Hr Hin. eapply ureach_step; [done|]. apply URun; [done|apply uhonest_cluster]. Qed.

Lemma uremaining_split w n :
  n ∈ uw_queue w → uremaining w = urank w n + sum_list_with (urank w) (elements (uw_queue w ∖ {[n]})).
Proof.
  intros Hn. unfold uremaining. rewrite (union_difference_singleton_L n (uw_queue w) Hn) at 1.
  by rewrite elements_union_singleton by set_solver.
Qed.

Lemma urun_decreases w n : uInv w → answering w → n ∈ uw_queue w → uremaining (quiet n w) < uremaining w.
Proof.
  intros Hinv Hans Hin. destruct (urun_progress w n Hinv Hans Hin) as (Hs & Hc & Hother & _ & Hq).
  set (w' := quiet n w) in *.
  assert (∀ m, m ≠ n → urank w' m = urank w m) as Hr.
  { intros m Hne. unfold urank. rewrite (Hother m Hne). destruct (uw_objs w !! m) as [o|]; [|done].
    by rewrite (verdict_kept w w' o o). }
  assert (sum_list_with (urank w') (elements (uw_queue w ∖ {[n]})) = sum_list_with (urank w) (elements (uw_queue w ∖ {[n]}))) as Hsum.
  { assert (∀ l, (∀ m, m ∈ l → m ≠ n) → sum_list_with (urank w') l = sum_list_with (urank w) l) as Hl.
    { induction l as [|x l IH]; intros Hne; [done|]. cbn. rewrite Hr by (apply Hne; by left).
      rewrite IH; [done|]. intros y ?. apply Hne. by right. }
    apply Hl. intros m Hm%elem_of_elements. set_solver. }
  rewrite (uremaining_split w n Hin). pose proof (urank_bounds w n). destruct Hq as [Hq|[Hq Hlt]].
  - unfold uremaining. rewrite Hq, Hsum. lia.
  - rewrite (uremaining_split w' n) by (by rewrite Hq). rewrite Hq, Hsum. lia.
Qed.

Inductive uquiet_runs : nat → uworld → uworld → Prop :=
| uquiet_none w : uquiet_runs 0 w w
| uquiet_run k w n w' : n ∈ uw_queue w → uquiet_runs k (quiet n w) w' → uquiet_runs (S k) w w'.

Lemma uquiet_bound k w w' : ureachable w → answering w → uquiet_runs k w w' → k + uremaining w' ≤ uremaining w.
Proof.
  intros Hr Hans Hq. induction Hq as [|k w n w' Hn _ IH]; [lia|]. pose proof (ureachable_Inv w Hr) as Hinv.
  pose proof (urun_decreases w n Hinv Hans Hn).
  specialize (IH (quiet_ureachable w n Hr Hn) (quiet_answering w n Hinv Hans Hn)). lia.
Qed.

Lemma uquiet_end w : ureachable w → answering w → ∃ k w', uquiet_runs k w w' ∧ uw_queue w' = ∅.
Proof.
  remember (uremaining w) as m eqn:Hm. revert w Hm. induction m as [m IH] using lt_wf_ind. intros w -> Hr Hans.
  destruct (decide (uw_queue w = ∅)) as [He|He]; [exists 0, w; split; [constructor|done]|].
  destruct (set_choose_L (uw_queue w) He) as [n Hn]. pose proof (ureachable_Inv w Hr) as Hinv.
  destruct (IH _ (urun_decreases w n Hinv Hans Hn) _ eq_refl) as (k & w' & Hq & Hw');
    [by apply quiet_ureachable|by apply quiet_answering|].
  exists (S k), w'. split; [by econstructor|done].
Qed.

(** The controller settles: once the cluster is left alone and the API and the providers answer, it
    makes at most three runs for each queued resource, and then the queue is empty. *)
Theorem upstreams_settle w :
  ureachable w → answering w →
  (∀ k w', uquiet_runs k w w' → k ≤ 3 * size (uw_queue w)) ∧ ∃ k w', uquiet_runs k w w' ∧ uw_queue w' = ∅.
Proof.
  intros Hr Hans. split; [|by apply uquiet_end]. intros k w' Hq. pose proof (uquiet_bound k w w' Hr Hans Hq) as Hb.
  assert (∀ l, sum_list_with (urank w) l ≤ 3 * length l) as Hl.
  { induction l as [|x l IH]; cbn; [lia|]. pose proof (urank_bounds w x). lia. }
  specialize (Hl (elements (uw_queue w))). unfold uremaining in Hb. unfold size, set_size. cbn. lia.
Qed.

(** A provider that cannot be reached is asked again: the request of its resource stays queued. *)
Lemma unreachable_retried w n o a d e :
  uInv w → n ∈ uw_queue w → uw_objs w !! n = Some o → uapi_get a = Found o → uhonest w n a d →
  upp_Deleting o = false → finalizerName ∈ upp_Finalizers o → uverdict_of a d o = UDown e → n ∈ uw_queue (urun a d n w).
Proof.
  intros Hinv Hin Ho Hget (_ & _ & _ & Hup & _) Hd Hf Hv. destruct (proj1 Hinv n o Ho) as [Hn _].
  destruct (run_ulive a d o (uw_store w) Hget Hup Hd Hf) as (H1 & _). rewrite Hn, Hv in H1. unfold urun. rewrite Ho. cbn.
  by rewrite H1.
Qed.
End world.

Arguments uw_objs {Req AReq Key}. Arguments uw_secrets {Req AReq Key}. Arguments uw_configmaps {Req AReq Key}.
Arguments uw_store {Req AReq Key}. Arguments uw_queue {Req AReq Key}. Arguments uw_bad {Req AReq Key}.

(** ** Concrete histories *)

Module UConvergenceDemo.
Abbreviation world1 := (@uworld unit unit unit).
Definition no_fault (c : Config) : option string := None.
Definition idp (c : Config) (url : string) : result string provider := Ok demo_oidc_provider.
Definition claims_of_idp (p : provider) : result string extraConfig := Ok no_extra.
Definition configured (c : ProviderConfig) : provider := demo_oidc_provider.
Definition look (w : world1) : world1 :=
  urun demo_urec no_fault claims_of_idp configured (ucluster_api w "corp") idp "corp" w.

Definition corp_spec (secret : string) : UpstreamProviderSpec :=
  let sp := upp_Spec (corp "" false "https://idp") in
  {| us_Enabled := us_Enabled sp; us_Type := us_Type sp; us_DisplayName := us_DisplayName sp;
     us_ClientSpecific := us_ClientSpecific sp; us_IssuerURL := us_IssuerURL sp;
     us_CertificateAuthority := us_CertificateAuthority sp; us_InsecureSkipVerify := us_InsecureSkipVerify sp;
     us_RedirectURL := us_RedirectURL sp; us_ClientId := us_ClientId sp;
     us_ClientSecret := {| ls_Name := secret; ls_Key := "secret" |}; us_Scopes := us_Scopes sp;
     us_UseUserInfo := us_UseUserInfo sp; us_ClaimRenamings := us_ClaimRenamings sp;
     us_ClaimRemovals := us_ClaimRemovals sp; us_LocalEnrichment := us_LocalEnrichment sp;
     us_ExplicitConfig := us_ExplicitConfig sp; us_DumpExchanges := us_DumpExchanges sp |}.

(** A secret, then a resource that names it. *)
Definition w0 : world1 := {| uw_objs := ∅; uw_secrets := {["idp" := {["secret" := "s3cret"]}]}; uw_configmaps := ∅;
  uw_store := ustore0; uw_queue := ∅; uw_bad := ∅ |}.
Definition w1 : world1 :=
  {| uw_objs := <["corp" := uedited "corp" (corp_spec "idp") (uw_objs w0)]> (uw_objs w0); uw_secrets := uw_secrets w0;
     uw_configmaps := uw_configmaps w0; uw_store := uw_store w0; uw_queue := uw_queue w0 ∪ {["corp"]};
     uw_bad := uw_bad w0 |}.
(** The finalizer, the upstream with its status, and a last look. *)
Definition w4 : world1 := look (look (look w1)).

Abbreviation reached := (ureachable demo_urec no_fault idp claims_of_idp configured).

Lemma w1_reached : reached w1.
Proof.
  apply (ureach_step _ _ _ _ _ w0 w1); [apply ureach_start; split; reflexivity|]. apply UEdit.
Qed.

Lemma look_reached w : reached w → bool_decide ("corp" ∈ uw_queue w) = true → reached (look w).
Proof. intros Hr Hk%bool_decide_eq_true. by apply quiet_ureachable. Qed.

(** The API fails on the secret. *)
Definition failing (w : world1) : uapi :=
  {| uapi_get := uapi_get (ucluster_api w "corp"); uapi_secret := λ _, GetErr "timeout";
     uapi_configmap := uapi_configmap (ucluster_api w "corp"); uapi_patch := λ _, None;
     uapi_status_update := λ _, None |}.
Definition fail (w : world1) : world1 :=
  urun demo_urec no_fault claims_of_idp configured (failing w) idp "corp" w.
Definition stuck : world1 := fail (fail (look w1)).
End UConvergenceDemo.
Import UConvergenceDemo.


(** A read of the client secret that fails twice leaves a valid resource in error, with nothing queued:
    the controller takes the failure for a configuration error and does not retry. *)
Theorem failed_read_not_retried :
  uw_queue stuck = ∅ ∧ Upstreams (uw_store stuck) = ∅ ∧
  ∃ o, uw_objs stuck !! "corp" = Some o ∧ ups_Phase (upp_Status o) = UpstreamProviderPhaseError ∧
    ups_Message (upp_Status o) = "timeout" ∧
    ∃ u, uverdict_of demo_urec no_fault claims_of_idp configured (ucluster_api stuck "corp") idp o = UGood u.
Proof.
  split; [vm_compute; reflexivity|]. split; [vm_compute; reflexivity|].
  destruct (uw_objs stuck !! "corp") as [o|] eqn:E; [|vm_compute in E; discriminate E].
  exists o. split; [done|]. vm_compute in E. injection E as <-. split; [reflexivity|]. split; [reflexivity|].
  eexists. vm_compute. reflexivity.
Qed.
