(* ===== verification/SessionCopy.v ===== *)
(** * cmd/oidc/fositepatch/session.go: copies and lazily created parts of a session

    The getters the OAuth library calls create the headers and claims they return when these are nil;
    [Clone] gives the library a session of its own. The deep-copy library is an argument with the
    law its documentation states, on the heap of claim maps of [Session]. *)

From S2P Require Import Prelude Values HttpProvider OidcClient Session.

(** ** Getters: what is returned, and the session afterwards *)

Definition zero_IDTokenClaims : IDTokenClaims :=
  {| Issuer := ""; id_Subject := ""; Audience := []; IssuedAt := zero_time; RequestedAt := zero_time;
     AuthTime := zero_time; Extra := None |}.
Definition zero_JWTClaims : JWTClaims :=
  {| j_Issuer := ""; j_Subject := ""; j_Audience := []; j_IssuedAt := zero_time; j_ExpiresAt := zero_time;
     j_Extra := None |}.

Definition IDTokenHeaders (s : OIDCSession) : gmap string value * OIDCSession :=
  let h := default ∅ (Headers s) in
  (h, {| IDTokenClaims_ := IDTokenClaims_ s; JWTClaims_ := JWTClaims_ s; Headers := Some h;
         ExpiresAt := ExpiresAt s; Username := Username s; Subject := Subject s |}).

Definition GetJWTHeader (s : OIDCSession) : gmap string value * OIDCSession := IDTokenHeaders s.

Definition get_IDTokenClaims (s : OIDCSession) : IDTokenClaims * OIDCSession :=
  let c := default zero_IDTokenClaims (IDTokenClaims_ s) in
  (c, {| IDTokenClaims_ := Some c; JWTClaims_ := JWTClaims_ s; Headers := Headers s;
         ExpiresAt := ExpiresAt s; Username := Username s; Subject := Subject s |}).

Definition GetJWTClaims (s : OIDCSession) : JWTClaims * OIDCSession :=
  let c := default zero_JWTClaims (JWTClaims_ s) in
  (c, {| IDTokenClaims_ := IDTokenClaims_ s; JWTClaims_ := Some c; Headers := Headers s;
         ExpiresAt := ExpiresAt s; Username := Username s; Subject := Subject s |}).

(** After both getters of claims, the server can set the audience: nothing is nil any more. *)
Lemma claims_created s :
  is_Some (SetAudience ["a"] (GetJWTClaims (get_IDTokenClaims s).2).2).
Proof. by eexists. Qed.

(** A getter returns the same thing when it is called again, and changes nothing then. *)
Lemma getters_idempotent s :
  get_IDTokenClaims (get_IDTokenClaims s).2 = get_IDTokenClaims s ∧
  GetJWTClaims (GetJWTClaims s).2 = GetJWTClaims s ∧
  IDTokenHeaders (IDTokenHeaders s).2 = IDTokenHeaders s.
Proof. done. Qed.

(** ** Clone *)

(** The references of a session: the extra claims of its two sets of claims. *)
Definition id_extra (s : OIDCSession) : option loc := IDTokenClaims_ s ≫= Extra.
Definition jwt_extra (s : OIDCSession) : option loc := JWTClaims_ s ≫= j_Extra.

(** A session by its contents, with the claim maps instead of their locations. *)
Definition id_view (h : heap) (s : OIDCSession) :=
  (λ c, (Issuer c, id_Subject c, Audience c, IssuedAt c, RequestedAt c, AuthTime c,
         (λ l, deref h (Some l)) <$> Extra c)) <$> IDTokenClaims_ s.
Definition jwt_view (h : heap) (s : OIDCSession) :=
  (λ c, (j_Issuer c, j_Subject c, j_Audience c, j_IssuedAt c, j_ExpiresAt c,
         (λ l, deref h (Some l)) <$> j_Extra c)) <$> JWTClaims_ s.
Definition contents (h : heap) (s : OIDCSession) :=
  (id_view h s, jwt_view h s, Headers s, ExpiresAt s, Username s, Subject s).

(** The maps of a session exist. *)
Definition allocated (h : heap) (s : OIDCSession) : Prop :=
  ∀ l, id_extra s = Some l ∨ jwt_extra s = Some l → l < length h.

(** [deepcopy.Copy]. *)
Class DeepCopier := Copy : OIDCSession → heap → OIDCSession * heap.

(** "Copy creates a deep copy of whatever is passed to it": the same contents, in new maps. *)
Class DeepCopierOk (D : DeepCopier) : Prop := {
  Copy_ok s h : allocated h s → let '(s', h') := Copy s h in
    h `prefix_of` h' ∧ contents h' s' = contents h s ∧
    (∀ l, id_extra s' = Some l ∨ jwt_extra s' = Some l → length h ≤ l < length h');
}.

Section clone.
Context {D : DeepCopier}.

(** A nil session is cloned to a nil interface. *)
Definition Clone (s : option OIDCSession) (h : heap) : option OIDCSession * heap :=
  match s with
  | None => (None, h)
  | Some s => let '(s', h') := Copy s h in (Some s', h')
  end.

(** The contents depend on the maps of the session only. *)
Lemma contents_agree h h' s :
  (∀ l, id_extra s = Some l ∨ jwt_extra s = Some l → h' !! l = h !! l) → contents h' s = contents h s.
Proof.
  intros Hl. unfold id_extra, jwt_extra in Hl.
  assert (id_view h' s = id_view h s) as E1.
  { unfold id_view. destruct (IDTokenClaims_ s) as [i|]; [|done]. cbn in *. destruct (Extra i) as [l|]; [|done].
    cbn. by rewrite Hl by auto. }
  assert (jwt_view h' s = jwt_view h s) as E2.
  { unfold jwt_view. destruct (JWTClaims_ s) as [j|]; [|done]. cbn in *. destruct (j_Extra j) as [l|]; [|done].
    cbn. by rewrite Hl by auto. }
  unfold contents. by rewrite E1, E2.
Qed.

Context `{!DeepCopierOk D}.

(** A session and its clone are independent: the clone has the same contents, and a claim map
    written through one of them is not seen through the other. *)
Theorem clone_independent s h c h' :
  Clone (Some s) h = (Some c, h') → allocated h s →
  contents h' c = contents h s ∧ contents h' s = contents h s ∧
  (∀ l m, id_extra c = Some l ∨ jwt_extra c = Some l → contents (<[l := m]> h') s = contents h s) ∧
  (∀ l m, id_extra s = Some l ∨ jwt_extra s = Some l → contents (<[l := m]> h') c = contents h s).
Proof.
  unfold Clone. pose proof (Copy_ok s h) as Hc. destruct (Copy s h) as [s' h1]. intros [= <- <-] Ha.
  destruct (Hc Ha) as ([k ->] & Hv & Hf).
  assert (contents (h ++ k) s = contents h s) as Hs
    by (apply contents_agree; intros l Hl; by rewrite lookup_app_l by (by apply Ha)).
  split; [done|]. split; [done|]. split; intros l m Hl.
  - rewrite (contents_agree (h ++ k)); [done|]. intros l' Hl'. apply list_lookup_insert_ne.
    apply Ha in Hl'. apply Hf in Hl. lia.
  - rewrite (contents_agree (h ++ k)); [done|]. intros l' Hl'. apply list_lookup_insert_ne.
    apply Ha in Hl. apply Hf in Hl'. lia.
Qed.
End clone.

(** ** A concrete copier *)

Module CopyDemo.
(** Copies one map; a nil one stays nil. *)
Definition copy_map (l : option loc) (h : heap) : option loc * heap :=
  match l with Some l => (Some (length h), h ++ [deref h (Some l)]) | None => (None, h) end.

#[export] Instance copier : DeepCopier := λ s h,
  let '(i, h) := match IDTokenClaims_ s with
                 | Some c => let '(e, h) := copy_map (Extra c) h in
                             (Some {| Issuer := Issuer c; id_Subject := id_Subject c; Audience := Audience c;
                                      IssuedAt := IssuedAt c; RequestedAt := RequestedAt c; AuthTime := AuthTime c;
                                      Extra := e |}, h)
                 | None => (None, h)
                 end in
  let '(j, h) := match JWTClaims_ s with
                 | Some c => let '(e, h) := copy_map (j_Extra c) h in
                             (Some {| j_Issuer := j_Issuer c; j_Subject := j_Subject c; j_Audience := j_Audience c;
                                      j_IssuedAt := j_IssuedAt c; j_ExpiresAt := j_ExpiresAt c; j_Extra := e |}, h)
                 | None => (None, h)
                 end in
  ({| IDTokenClaims_ := i; JWTClaims_ := j; Headers := Headers s; ExpiresAt := ExpiresAt s;
      Username := Username s; Subject := Subject s |}, h).

Lemma copy_map_spec l h l' h' :
  copy_map l h = (l', h') → (∀ x, l = Some x → x < length h) →
  h `prefix_of` h' ∧ ((λ l, deref h' (Some l)) <$> l') = ((λ l, deref h (Some l)) <$> l) ∧
  (∀ x, l' = Some x → length h ≤ x < length h').
Proof.
  intros E Hl. destruct l as [x|]; cbn in E; injection E as <- <-; [|done].
  split; [by eexists|]. split.
  - cbn. by rewrite lookup_app_r, Nat.sub_diag by lia.
  - intros y [= <-]. rewrite length_app. cbn. lia.
Qed.

Lemma deref_prefix h h' (l : option loc) :
  h `prefix_of` h' → (∀ x, l = Some x → x < length h) →
  ((λ l, deref h' (Some l)) <$> l) = ((λ l, deref h (Some l)) <$> l).
Proof. intros [k ->] Hl. destruct l as [x|]; [|done]. cbn. by rewrite lookup_app_l by auto. Qed.

#[local] Arguments deref : simpl never.

#[export] Instance copier_ok : DeepCopierOk copier.
Proof.
  constructor. intros s h Ha. unfold Copy, copier. unfold allocated, id_extra, jwt_extra in Ha.
  destruct s as [[i|] [j|] hd ex un sb]; cbn in *.
  - destruct (copy_map (Extra i) h) as [e1 h1] eqn:E1. destruct (copy_map (j_Extra j) h1) as [e2 h2] eqn:E2.
    destruct (copy_map_spec _ _ _ _ E1) as (P1 & V1 & F1); [auto|].
    pose proof (prefix_length _ _ P1) as L1.
    assert (∀ x, j_Extra j = Some x → x < length h1) as Hj by (intros x Hx; specialize (Ha x (or_intror Hx)); lia).
    destruct (copy_map_spec _ _ _ _ E2 Hj) as (P2 & V2 & F2). pose proof (prefix_length _ _ P2) as L2.
    unfold contents, id_view, jwt_view, id_extra, jwt_extra. cbn. split; [by etrans|]. split.
    + rewrite (deref_prefix h1 h2 e1 P2), V1, V2 by (intros x Hx; apply F1 in Hx; lia).
      by rewrite (deref_prefix h h1 (j_Extra j) P1) by auto.
    + intros l [Hl|Hl]; [apply F1 in Hl|apply F2 in Hl]; lia.
  - destruct (copy_map (Extra i) h) as [e1 h1] eqn:E1.
    destruct (copy_map_spec _ _ _ _ E1) as (P1 & V1 & F1); [auto|].
    unfold contents, id_view, jwt_view, id_extra, jwt_extra. cbn. split; [done|]. split; [by rewrite V1|].
    intros l [Hl|Hl]; [by apply F1|done].
  - destruct (copy_map (j_Extra j) h) as [e1 h1] eqn:E1.
    destruct (copy_map_spec _ _ _ _ E1) as (P1 & V1 & F1); [auto|].
    unfold contents, id_view, jwt_view, id_extra, jwt_extra. cbn. split; [done|]. split; [by rewrite V1|].
    intros l [Hl|Hl]; [done|by apply F1].
  - split; [done|]. split; [done|]. by intros l [|].
Qed.

(** A session whose two sets of claims share a map, as [newSession] builds it. *)
Definition shared : OIDCSession :=
  {| IDTokenClaims_ := Some {| Issuer := "i"; id_Subject := "alice"; Audience := ["web"]; IssuedAt := 0; RequestedAt := 0;
                               AuthTime := 0; Extra := Some 0 |};
     JWTClaims_ := Some {| j_Issuer := "i"; j_Subject := "alice"; j_Audience := ["web"]; j_IssuedAt := 0;
                           j_ExpiresAt := 9; j_Extra := Some 0 |};
     Headers := None; ExpiresAt := None; Username := "alice"; Subject := "alice" |}.
Definition maps : heap := [{["groups" := VStrs ["dev"]]}].
End CopyDemo.

Lemma clone_independent_witness :
  ∃ c h', @Clone CopyDemo.copier (Some CopyDemo.shared) CopyDemo.maps = (Some c, h') ∧
    id_extra c ≠ jwt_extra c ∧ contents (<[1 := ∅]> h') CopyDemo.shared = contents CopyDemo.maps CopyDemo.shared.
Proof.
  destruct (@Clone CopyDemo.copier (Some CopyDemo.shared) CopyDemo.maps) as [[c|] h'] eqn:E;
    [|vm_compute in E; discriminate E].
  exists c, h'. split; [reflexivity|].
  destruct (@clone_independent CopyDemo.copier CopyDemo.copier_ok CopyDemo.shared CopyDemo.maps c h' E)
    as (_ & _ & Hw & _).
  { intros l [Hl|Hl]; vm_compute in Hl; injection Hl as <-; vm_compute; lia. }
  assert (id_extra c = Some 1 ∧ jwt_extra c = Some 2) as [E1 E2]
    by (vm_compute in E; injection E as <- _; split; reflexivity).
  split; [rewrite E1, E2; discriminate|]. apply Hw. left. exact E1.
Defined.
