(* ===== verification/DebugTransport.v ===== *)
(** * internal/httpclient: dumping the exchanges

    [debugTransport] wraps the transport of a client configured with [DumpExchanges]: it prints each
    request and each response with a running number. The number is a variable of the package, shared
    by all clients. The dumps of [net/http/httputil] are arguments: the text of a message, or an
    error. *)

From S2P Require Import Prelude HttpClient.

Section debug.
Context {Req Rsp : Type}.
Context (DumpRequest : http_request Req → result string string).
Context (DumpResponse : http_response Rsp → result string string).

(** What a round trip leaves: the number of the next message, the texts printed, whether the request
    was sent, and whether the body of the response was closed here. *)
Record trace := { exchangeCount : Z; printed : list (bool * Z * string); sent : bool; closed : bool }.

(** [http.RoundTripper]. *)
Abbreviation transport := (http_request Req → result string (http_response Rsp)).

Definition RoundTrip (t : transport) (req : http_request Req) (count : Z) :
    result string (http_response Rsp) * trace :=
  match DumpRequest req with
  | Err e => (Err e, {| exchangeCount := count; printed := []; sent := false; closed := false |})
  | Ok reqDump =>
      let out1 := [(true, count, reqDump)] in
      let count := wrap64 (count + 1) in
      match t req with
      | Err e => (Err e, {| exchangeCount := count; printed := out1; sent := true; closed := false |})
      | Ok resp =>
          match DumpResponse resp with
          | Err e => (Err e, {| exchangeCount := count; printed := out1; sent := true; closed := true |})
          | Ok respDump =>
              (Ok resp, {| exchangeCount := wrap64 (count + 1); printed := out1 ++ [(false, count, respDump)];
                           sent := true; closed := false |})
          end
      end
  end.

(** [New]: the transport of the client. *)
Definition client_transport (cfg : Config) (t : transport) : transport :=
  if DumpExchanges cfg then λ req, (RoundTrip t req 0).1 else t.

(** Dumping is transparent as long as the messages can be dumped: same answers, errors included. *)
Theorem debug_transparent t req count :
  (∃ x, DumpRequest req = Ok x) → (∀ resp, t req = Ok resp → ∃ y, DumpResponse resp = Ok y) →
  (RoundTrip t req count).1 = t req ∧ sent (RoundTrip t req count).2 = true ∧
  closed (RoundTrip t req count).2 = false.
Proof.
  intros [x Hx] Hr. unfold RoundTrip. rewrite Hx. destruct (t req) as [resp|e] eqn:E; [|done].
  destruct (Hr resp eq_refl) as [y ->]. done.
Qed.

(** A request that cannot be dumped is not sent, and a response that cannot be dumped is closed and
    turned into an error although the server answered. *)
Lemma debug_failures t req count :
  (∀ e, DumpRequest req = Err e → (RoundTrip t req count).1 = Err e ∧ sent (RoundTrip t req count).2 = false) ∧
  (∀ x resp e, DumpRequest req = Ok x → t req = Ok resp → DumpResponse resp = Err e →
     (RoundTrip t req count).1 = Err e ∧ closed (RoundTrip t req count).2 = true).
Proof.
  split.
  - intros e He. unfold RoundTrip. by rewrite He.
  - intros x resp e Hx Ht He. unfold RoundTrip. by rewrite Hx, Ht, He.
Qed.

(** The two messages of an exchange have consecutive numbers. *)
Lemma debug_numbers t req count resp :
  (RoundTrip t req count).1 = Ok resp → in_int64 (count + 2) → in_int64 count →
  exchangeCount (RoundTrip t req count).2 = (count + 2)%Z ∧
  (λ p, p.1) <$> printed (RoundTrip t req count).2 = [(true, count); (false, (count + 1)%Z)].
Proof.
  unfold RoundTrip. intros H H2 H0. destruct (DumpRequest req) as [x|]; [|done]. destruct (t req) as [rs|]; [|done].
  destruct (DumpResponse rs); [|done]. cbn.
  assert (wrap64 (count + 1) = count + 1)%Z as -> by (apply wrap64_id; unfold in_int64, int64_min, int64_max in *; lia).
  split; [|done]. rewrite wrap64_id; [lia|]. by replace (count + 1 + 1)%Z with (count + 2)%Z by lia.
Qed.
End debug.
