(* ===== verification/Commands.v ===== *)
(** * main.go, cmd/root.go, cmd/version.go: the command tree

    [Execute] runs the root command and turns its outcome into the end of the process. The choice of
    the command and the parsing of the flags belong to cobra and are an argument; the commands
    themselves are in [Modules] and [OidcCommand]. *)

From S2P Require Import Prelude.

(** How the process ends. *)
Inductive ending :=
| Returned
| Exited (code : Z)
| Panicked (msg : string).

(** The commands [init] adds to the root, in order. *)
Definition rootCommands : list string := ["version"; "oidc"; "ucrd"; "ldap"; "merger"; "audit"].

(** [versionCmd]: what it prints. *)
Definition version_text (extended : bool) (Version BuildTs : string) : string :=
  if extended then Version +:+ "." +:+ BuildTs +:+ String "010" "" else Version +:+ String "010" "".

(** What [rootCmd.Execute] does: an error of cobra, or the end of the command it ran. *)
Inductive executed := CobraError (e : string) | Ran (e : ending).

Definition debug : bool := true.

(** [Execute], with the value of [debug]: what is printed, and the end of the process. *)
Definition Execute_with (debug : bool) (x : executed) : list string * ending :=
  match x with
  | CobraError e => ([e], Exited 2)
  | Ran (Panicked m) => if debug then ([], Panicked m) else (["ERROR:" +:+ m], Exited 1)
  | Ran e => ([], e)
  end.

(** [main]. *)
Definition main : executed → list string * ending := Execute_with debug.

(** The process succeeds exactly when a command ran and returned (or exited with 0): no error and no
    panic is hidden, with or without [debug]. *)
Definition success (e : ending) : bool :=
  match e with Returned => true | Exited c => bool_decide (c = 0)%Z | Panicked _ => false end.

Lemma no_failure_hidden d x :
  success (Execute_with d x).2 = true ↔ ∃ e, x = Ran e ∧ success e = true.
Proof.
  split.
  - destruct x as [e|[|c|m]]; cbn; [done| | |by destruct d]; intros H; eauto.
  - intros (e & -> & He). by destruct e.
Qed.

(** The recovery of [Execute] is dead code: [debug] is never changed. *)
Lemma panic_not_recovered m : main (Ran (Panicked m)) = ([], Panicked m).
Proof. done. Qed.
